(* ===== verification/_CoqProject ===== *)
-Q . S2P
Prelude.v
Memory.v
Bits.v
Allocator.v
Heap.v
HeapSpec.v
Lock.v
Physical.v
PhysicalSpec.v
Multiboot.v
Boot.v
BootSpec.v
Paging.v
PagingWalk.v
PagingDebug.v
PagingStep.v
PagingMap.v
PagingUnmap.v
PagingSpec.v
PagingMislink.v
PagingFind.v
Cpu.v
CpuSpec.v
Machine.v
Gdt.v
GdtSpec.v
Idt.v
IdtSpec.v
IdtHistory.v
Scheduler.v
SchedulerSpec.v
AddressSpace.v
ProcessSpace.v
NewProcess.v
CpuInit.v
CpuInitSpec.v
Config.v
CpuSetup.v
Acpi.v
AcpiSpec.v
Util.v
UtilSpec.v
Port.v
Serial.v
SerialSpec.v
Apic.v
ApicSpec.v
Main.v
MainSpec.v
AcpiDiscovery.v
Kernel.v
KernelSpec.v
Pci.v
Console.v
ConsoleSpec.v
Scancodes.v
Keyboard.v
KeyboardController.v
KeyboardSpec.v
KeyboardInit.v
KeyboardInitSpec.v
Programs.v
Instructions.v
Layout.v
Structures.v
LayoutSpec.v
StructuresSpec.v
