(* ===== verification/Prelude.v ===== *)
(** * Kokos: a verification development for the kokos operating system

    Kokos is a hobby kernel for x86-64. Its C code is in [src/src/common] with
    headers in [src/src/include/kokos]; it boots through assembly, finds the
    memory map, sets up a bitmap of physical pages, four-level page tables,
    descriptor tables, interrupt controllers, a keyboard driver and a
    round-robin scheduler, and prints on the VGA text console.

    ** How the parts interact

    [kernel_main] ([Kernel]) reads the boot information ([Multiboot]), sets up
    the page bitmap ([Boot], [Physical]), switches paging support on ([Paging]),
    masks the old interrupt controllers ([Apic]) and calls [cpu_initialize]
    ([CpuInit]). That allocates the structures of a CPU, its segments ([Gdt]),
    gates ([Idt]), its own address space ([Paging]) and process ([Scheduler]),
    starts the timer and runs the root program, for ever. The source has the
    ACPI tables ([Acpi], [Main]), the IO APICs, the other processors ([Main],
    [Programs]) and the keyboard ([KeyboardInit]) behind this call.

    A client is written against an interface and its provider discharges it:
    paging, tables and scheduler against [PageAllocator] with the laws
    [PageAllocatorLaws] ([Allocator]), of which [PhysicalSpec.bitmap_laws] is the
    instance for [memory_physical.c]; the drivers against [PortDevices], which
    [Instructions.instruction_ports] builds from the [in] and [out] instructions.
    Devices are parameters with laws: [Uart] (serial), [Pics], [IoApic],
    [KeyboardController], [TimestampLaws], [StartupLaws]; the witnesses use
    concrete devices that satisfy them.

    ** What is modelled

    - [Memory]: byte-addressed memory and [memory_zero], [memory_set],
      [memory_compare], [memory_copy] of [memory.c]. Pointers are physical
      addresses: the code modelled here runs identity mapped. [Bits]: bit
      fields.
    - [Layout]: where the compiler puts the members of a C structure.
      [Structures]: the structures of all headers as declarations. [LayoutSpec]:
      members occupy separate bits, a store to one keeps the others.
      [StructuresSpec]: a check of the accessors and constants of the other
      files against the declarations. These four files check the
      transcription; they state no property of the program.
    - [Heap], [HeapSpec]: [memory_allocate], [memory_free] and [memory_resize] of
      [memory.c], on chunk headers in byte memory, and the list of chunks they
      stand for ([heap_ok]).
    - [Lock]: [lock.c]. The three functions as one CPU runs them, and the step
      relation [Lock.step] of any number of CPUs contending for one lock.
    - [Allocator], [Physical], [PhysicalSpec]: [memory_physical.c], the page
      bitmap, with the invariant [phys_inv], the marked bits ([marked]) and the
      pages that can be handed out ([free_page]: clear bits in the lower half of
      a word, because taking bit 31 marks the whole upper half).
    - [Multiboot]: [multiboot2.c]. [Boot], [BootSpec]: lines 191 to 308 of
      [main.c], the page bitmap from the memory map of the boot loader.
    - [Paging]: [paging.c] and [paging.h], for any [PageAllocator].
      [PagingWalk] defines the translation a table tree denotes ([walk]) and
      the invariant that tables form a tree of used, aligned pages
      ([tables_ok]); [PagingStep] shows what linking a table and the index
      steps do to it; [PagingMap] handles the mapping loops, [PagingUnmap] the
      unmapping loops, [PagingFind] the search for free addresses;
      [PagingSpec] states the promises of the functions, [PagingMislink] what
      a mapping does where line 611 links the new level 1 table at the wrong
      index. [PagingDebug] has
      [paging_debug] and [paging_clear_table].
    - [Cpu], [CpuSpec]: the state of a CPU, [struct cpu], the instructions with
      an effect. [Machine]: the concrete machine of the witnesses.
      [Gdt], [GdtSpec]: [gdt.c]. [Idt], [IdtSpec], [IdtHistory]: [idt.c].
    - [Scheduler], [SchedulerSpec]: [scheduler.c]. Processes and interrupt frames
      are in byte memory; [sched_rel] relates their ring to a queue.
      [AddressSpace], [ProcessSpace], [NewProcess]: the address space of a
      process, its stack, and [scheduler_execute].
    - [CpuInit], [CpuInitSpec], [Config], [CpuSetup]: [cpu_initialize] and the
      other functions of [cpu.c]; [Config] is a small program logic for what
      they leave alone.
    - [Acpi], [AcpiSpec]: [acpi.c]. [Main], [MainSpec], [AcpiDiscovery]: the
      search for the tables in [kernel_main] and the start of the processors.
    - [Kernel], [KernelSpec]: [kernel_main] as a whole, [root_program],
      [memory_debug], [interrupt_handle_timer].
    - [Programs]: the endless test programs and [interrupt_handle_test] of
      [main.c] and [cpu_entrypoint] of [entrypoint.c].
    - [Util], [UtilSpec]: [util.c]. [Console], [ConsoleSpec]: [console.c].
    - [Port], [Instructions]: [port.c] and the wrappers of [cpuid], [rdmsr] and
      [wrmsr] of [cpu.c]. [Serial], [SerialSpec]: [serial.c]. [Apic], [ApicSpec]:
      [apic.c]. [Pci]: [pci.c].
    - [Scancodes], [Keyboard], [KeyboardSpec], [KeyboardInit], [KeyboardInitSpec]:
      the tables of [keyboard.h], the interrupt handler and the initialisation
      of [keyboard.c]. [KeyboardController]: the laws of the controller and a
      device that satisfies them.

    The state of a component is a [Record] of the static variables of its file,
    an operation is a [Definition] in the state monad [M] below, with an
    [outcome] that says whether the C code returns, runs into undefined
    behaviour or never returns. Names are those of the source. The console is
    state in [Console], [Keyboard] and [Programs]; code that only reports prints
    to a list of [console_call]s.

    ** What is proved

    Boot: with a memory map that offers a place for the allocation table, and
    the table at pages numbered below its word count ([table_reservable]: 256
    MiB are enough, 128 MiB are not), [kernel_main] ends in the root program with
    allocator, tables, address space, process and timer set up, and never
    returns; without a memory map it returns and has touched nothing. The set of
    pages handed out is computed from the map; where the table is not below its
    word count, pages of the table are in it ([boot_memory_gives_away_table]).
    Physical pages: allocation returns a page that was not marked and marks it,
    and with bit 31 of a word the 32 bits above too; it hangs exactly when none
    is left; no page is handed out twice in any sequence of calls. Paging:
    mapping with 4 KiB, 2 MiB and 1 GiB pages makes the range resolve byte for
    byte and changes no other translation and no other memory in use; for 4 KiB
    pages this needs an address whose level 1 table exists or whose level 2 and
    level 3 indices agree ([level1_linkable]), and for the others
    [paging_map_physical_at_mislinks] says where the pages end up. Unmapping
    clears exactly the range; mapping and unmapping round trip. [paging_map] and
    [paging_map_physical] find addresses and map them: with a new context none
    was mapped before; with a context in a level 1 table with room only the
    first page is checked, by the code and so by the theorems. The software walk
    is the specification walk; the report of [paging_debug] is the translation.
    Heap: a block goes behind the first chunk with a gap strictly larger than
    header and block, blocks never overlap, freeing and resizing keep the
    contents of the other blocks.
    Tables: [gdt_initialize], [idt_initialize] and the CPU set-up leave the
    descriptors they mean to; any sequence of gate operations implements a table
    of gates. Scheduler: an interrupt saves and restores contexts exactly and
    steps the queue, a full turn runs every process once, [scheduler_execute]
    makes a process that can run. Processors: the trace of everything on the
    bus, each enabled processor started in order and waited for, the release at
    the end. ACPI: the tables are used only after all checks; the enumeration
    of the MADT is complete. Devices: the serial port sends the text, the IO APIC
    keeps what is registered, the PICs end masked, [pci_scan] reports what is
    present, the keyboard controller gets its configuration. Locks: mutual
    exclusion, no lost update, possible progress. Strings: the number functions
    write canonical numerals. Console: with the cursor not below the window
    ([console_ready]) no access outside the history and the screen, and the
    screen is always the window; below the window printing leaves the screen
    ([console_print_char_escapes]). Keyboard: the handler returns for every
    byte, under stated conditions on cursor and controller, steps the modifier
    state machine and signals the end of the interrupt once; the text each key
    prints.

    Statements under a heading "Observations" and the [Example]s beside a
    component show inputs on which the code does something its authors cannot
    have meant.

    ** Choices and bounds

    Integers are [Z] with the conversions of the target written out ([u8] to
    [u64], [s8] to [s64]). Shifts of an [int] take their count modulo 32, as the
    x86 instruction does. Loops whose exit depends on data take fuel. The fuel
    of the bitmap searches is fixed in the definitions and is one pass over the
    table, two for runs; [PhysicalSpec] shows that a search that fails within it
    never ends. Number formatting has fuel 64, the digits of a 64-bit number in
    base 2. The loop of [memory_allocate] needs fuel for the chunks of the list,
    those over multiboot tags, memory map and MADT one unit per entry, the
    search for free virtual memory 512 for a new address space, a wait as many
    as the ticks it waits for. Polling loops take their fuel as an argument, and
    the laws of a device bound how long it stays busy. A program that is endless
    by design is modelled by any number of its rounds ([Programs]).

    ** What is not modelled

    The assembly files and what single instructions do to the machine: [in],
    [out], [cpuid], [rdmsr], [wrmsr] and [rdtsc] are parameters, [lgdt], [lidt],
    [ltr], [hlt] and the stores to the local APIC are events of a log. The
    statements of [kernel_main] behind its endless loop ([main.c], lines 597 to
    637), which are never reached. The macros that only declare ([include]s,
    forward declarations) and commented-out code. Video memory is the 80 by 25
    cells of the screen; a store elsewhere is undefined. [LayoutSpec] has no access to
    a bit field across bytes; the code uses none. The heap has no end in the
    code, so [HeapSpec] assumes addresses below 2^62. Interrupts nested in the
    timer handler are left out. The 1 GiB mapping loop is proved within one
    level 3 table: across a level 4 entry the code uses the entry, flags
    included, as a pointer. Hardware effects of the entries (present bit, TLB)
    are not part of [walk], which reads entries as the kernel's own walk does. *)

From Stdlib Require Export Ascii ZArith Lia.
From stdpp Require Export base list gmap strings numbers.

#[global] Open Scope string_scope.
#[global] Open Scope list_scope.

#[global] Open Scope Z_scope.

(** ** Machine integers

    A C integer is a [Z]; the conversions below are the ones the x86-64 target
    performs when a value is stored into an object of the given type. *)

Definition u8 (z : Z) : Z := z mod 2 ^ 8.
Definition u16 (z : Z) : Z := z mod 2 ^ 16.
Definition u32 (z : Z) : Z := z mod 2 ^ 32.
Definition u64 (z : Z) : Z := z mod 2 ^ 64.
Definition s8 (z : Z) : Z := (z + 2 ^ 7) mod 2 ^ 8 - 2 ^ 7.
Definition s32 (z : Z) : Z := (z + 2 ^ 31) mod 2 ^ 32 - 2 ^ 31.
Definition s64 (z : Z) : Z := (z + 2 ^ 63) mod 2 ^ 64 - 2 ^ 63.

(** A C condition: any value but zero is true. *)
Definition truthy (z : Z) : bool := negb (z =? 0).

(** ** Outcomes and the state monad

    [Ok] is a normal return, [Undef] an operation the C standard leaves
    undefined (an access out of an array, a division by zero), [Hang] a loop
    that did not exit: a spin on a lock nobody releases, or a search whose
    iteration budget ran out. *)

Inductive outcome (A : Type) : Type :=
| Ok (a : A)
| Undef
| Hang.
Arguments Ok {A} a.
Arguments Undef {A}.
Arguments Hang {A}.

Definition M (S A : Type) : Type := S → outcome (A * S).

Definition ret {S A} (a : A) : M S A := λ s, Ok (a, s).

Definition bind {S A B} (m : M S A) (k : A → M S B) : M S B := λ s,
  match m s with
  | Ok (a, s') => k a s'
  | Undef => Undef
  | Hang => Hang
  end.

Definition get {S} : M S S := λ s, Ok (s, s).
Definition put {S} (s : S) : M S unit := λ _, Ok (tt, s).
Definition gets {S A} (f : S → A) : M S A := λ s, Ok (f s, s).
Definition modify {S} (f : S → S) : M S unit := λ s, Ok (tt, f s).
Definition undef {S A} : M S A := λ _, Undef.
Definition hang {S A} : M S A := λ _, Hang.

Declare Scope kokos_scope.
Delimit Scope kokos_scope with kokos.
#[global] Open Scope kokos_scope.

Notation "'let!' x ':=' m 'in' k" := (bind m (λ x, k))
  (at level 10, x name, m at level 100, k at level 200) : kokos_scope.
Notation "'let!' ' p ':=' m 'in' k" := (bind m (λ x, match x with p => k end))
  (at level 10, p pattern, m at level 100, k at level 200) : kokos_scope.
Notation "m ;;; k" := (bind m (λ _, k))
  (at level 100, k at level 200, right associativity) : kokos_scope.

(** [m] repeated for the iterations [i], [i + 1], ... of a counted C loop. *)
Fixpoint for_loop {S} (n : nat) (i : Z) (body : Z → M S unit) : M S unit :=
  match n with
  | O => ret tt
  | S n' => body i ;;; for_loop n' (i + 1) body
  end.

(** An outcome that does not depend on the state. *)
Definition lift {S A} (o : outcome A) : M S A := λ s,
  match o with Ok a => Ok (a, s) | Undef => Undef | Hang => Hang end.

(** The calls to [console.c] that the other files make, as they record them. *)
Inductive console_call :=
| CPrint (s : string)
| CPrintLength (characters : list Z)
| CPrintChar (c : Z)
| CPrintU64 (number base : Z)
| CPrintU32 (number base : Z)
| CPrintI32 (number base : Z)
| CNewLine
| CClear
| CSetColor (foreground background : Z)
| CFormat (format : string) (arguments : list Z).

Definition nl : string := String (ascii_of_nat 10) EmptyString.

Lemma bind_ok {S A B} (m : M S A) (k : A → M S B) s a s' :
  m s = Ok (a, s') → bind m k s = k a s'.
Proof. unfold bind. by intros ->. Qed.

Lemma bind_ret {S A B} (a : A) (k : A → M S B) s : bind (ret a) k s = k a s.
Proof. done. Qed.

Lemma bind_modify {S B} (f : S → S) (k : unit → M S B) s : bind (modify f) k s = k tt (f s).
Proof. done. Qed.

Lemma bind_gets {S A B} (f : S → A) (k : A → M S B) s : bind (gets f) k s = k (f s) s.
Proof. done. Qed.

Lemma bind_inv {S A B} (m : M S A) (k : A → M S B) s r :
  bind m k s = Ok r → ∃ a s', m s = Ok (a, s') ∧ k a s' = Ok r.
Proof. unfold bind. destruct (m s) as [[a s']| |]; [eauto|done|done]. Qed.

Lemma bind_assoc {S A B C} (m : M S A) (f : A → M S B) (g : B → M S C) s :
  bind (bind m f) g s = bind m (λ a, bind (f a) g) s.
Proof. unfold bind. by destruct (m s) as [[a s']| |]. Qed.

Lemma bind_cong {S A B} (m : M S A) (k k' : A → M S B) s :
  (∀ a s', m s = Ok (a, s') → k a s' = k' a s') → bind m k s = bind m k' s.
Proof. intros H. unfold bind. destruct (m s) as [[a s']| |]; [by apply H|done..]. Qed.

(** Executes the pure steps at the head of a monadic program. *)
Ltac mstep := repeat first
  [ rewrite bind_ret | rewrite bind_modify | rewrite bind_gets | rewrite bind_assoc ].

(** A counted loop keeps an invariant indexed by the loop counter. *)
Lemma for_loop_inv {S} (I : Z → S → Prop) (body : Z → M S unit) n : ∀ i s,
  I i s →
  (∀ j s1, i ≤ j < i + Z.of_nat n → I j s1 → ∃ s2, body j s1 = Ok (tt, s2) ∧ I (j + 1) s2) →
  ∃ s', for_loop n i body s = Ok (tt, s') ∧ I (i + Z.of_nat n) s'.
Proof.
  induction n as [|n IH]; intros i s HI Hbody; cbn [for_loop].
  - exists s. split; [done|]. by replace (i + Z.of_nat 0) with i by lia.
  - destruct (Hbody i s) as (s2 & Hs2 & HI2); [lia|done|].
    destruct (IH (i + 1) s2) as (s' & Hs' & HI').
    + done.
    + intros j s1 Hj. apply Hbody. lia.
    + exists s'. rewrite (bind_ok _ _ _ _ _ Hs2). split; [done|].
      by replace (i + Z.of_nat (Datatypes.S n)) with (i + 1 + Z.of_nat n) by lia.
Qed.

(** ** Arithmetic and bit lemmas *)

Lemma u8_range z : 0 ≤ u8 z < 2 ^ 8. Proof. apply Z.mod_pos_bound. lia. Qed.
Lemma u16_range z : 0 ≤ u16 z < 2 ^ 16. Proof. apply Z.mod_pos_bound. lia. Qed.
Lemma u32_range z : 0 ≤ u32 z < 2 ^ 32. Proof. apply Z.mod_pos_bound. lia. Qed.
Lemma u64_range z : 0 ≤ u64 z < 2 ^ 64. Proof. apply Z.mod_pos_bound. lia. Qed.
Lemma u8_small z : 0 ≤ z < 2 ^ 8 → u8 z = z. Proof. apply Z.mod_small. Qed.
Lemma u16_small z : 0 ≤ z < 2 ^ 16 → u16 z = z. Proof. apply Z.mod_small. Qed.
Lemma u32_small z : 0 ≤ z < 2 ^ 32 → u32 z = z. Proof. apply Z.mod_small. Qed.
Lemma u64_small z : 0 ≤ z < 2 ^ 64 → u64 z = z. Proof. apply Z.mod_small. Qed.
Lemma s32_small z : - 2 ^ 31 ≤ z < 2 ^ 31 → s32 z = z.
Proof. intros H. unfold s32. rewrite Z.mod_small; lia. Qed.
Lemma s64_small z : - 2 ^ 63 ≤ z < 2 ^ 63 → s64 z = z.
Proof. intros H. unfold s64. rewrite Z.mod_small; lia. Qed.
Lemma s32_range z : - 2 ^ 31 ≤ s32 z < 2 ^ 31.
Proof. unfold s32. pose proof (Z.mod_pos_bound (z + 2 ^ 31) (2 ^ 32)). lia. Qed.

Create HintDb kokos.
Create Rewrite HintDb kokos.
#[export] Hint Rewrite u8_small u16_small u32_small u64_small s32_small s64_small
  using lia : kokos.
#[export] Hint Resolve u8_range u16_range u32_range u64_range s32_range : kokos.

(** [wrap_solve] removes the wrap-arounds of values known to be in range. *)
Ltac wrap_solve := autorewrite with kokos; try lia.

(** Arithmetic with divisions and remainders by constants. *)
Ltac divmod_lia := Z.div_mod_to_equations; lia.

Lemma truthy_spec z : truthy z = true ↔ z ≠ 0.
Proof. unfold truthy. rewrite negb_true_iff, Z.eqb_neq. done. Qed.

Lemma truthy_false z : truthy z = false ↔ z = 0.
Proof. unfold truthy. rewrite negb_false_iff, Z.eqb_eq. done. Qed.

Lemma testbit_high z n i : 0 ≤ z < 2 ^ n → n ≤ i → Z.testbit z i = false.
Proof.
  intros Hz Hi. destruct (decide (0 ≤ n)) as [Hn|Hn].
  - rewrite <- (Z.mod_small z (2 ^ n)) by done. by apply Z.mod_pow2_bits_high.
  - rewrite Z.pow_neg_r in Hz by lia. lia.
Qed.

Lemma testbit_mul_pow2_low a n i : 0 ≤ n → i < n → Z.testbit (a * 2 ^ n) i = false.
Proof. intros. by apply Z.mul_pow2_bits_low. Qed.

(** Two non-negative words are equal when their low bits are. *)
Lemma bits_eq_below a b n :
  0 ≤ n → 0 ≤ a < 2 ^ n → 0 ≤ b < 2 ^ n →
  (∀ i, 0 ≤ i < n → Z.testbit a i = Z.testbit b i) → a = b.
Proof.
  intros Hn Ha Hb H. apply Z.bits_inj'. intros i Hi.
  destruct (decide (i < n)); [by apply H|].
  by rewrite !(testbit_high _ n) by (done || lia).
Qed.

(** A page-aligned base and a low part do not share bits. *)
Lemma lor_add_low q f n : 0 ≤ n → 0 ≤ f < 2 ^ n → Z.lor (q * 2 ^ n) f = q * 2 ^ n + f.
Proof.
  intros Hn Hf. rewrite <- Z.lxor_lor, <- Z.add_nocarry_lxor; [done|..];
  apply Z.bits_inj'; intros i Hi; rewrite Z.land_spec, Z.bits_0;
  (destruct (decide (i < n));
   [by rewrite Z.mul_pow2_bits_low by done|rewrite (testbit_high f n) by (done || lia); apply andb_false_r]).
Qed.

(** Keeping the bits [lo .. hi - 1] of a word, as the address masks do. *)
Lemma land_mask z lo hi :
  0 ≤ lo ≤ hi → Z.land z (2 ^ hi - 2 ^ lo) = z mod 2 ^ hi / 2 ^ lo * 2 ^ lo.
Proof.
  intros H. replace (2 ^ hi - 2 ^ lo) with (Z.ones (hi - lo) * 2 ^ lo).
  2: { rewrite Z.ones_equiv. rewrite Z.mul_pred_l, <- Z.pow_add_r by lia.
       by replace (hi - lo + lo) with hi by lia. }
  apply Z.bits_inj'. intros i Hi. rewrite Z.land_spec.
  destruct (decide (i < lo)).
  - rewrite !Z.mul_pow2_bits_low by lia. apply andb_false_r.
  - rewrite !Z.mul_pow2_bits by lia. rewrite <- Z.shiftr_div_pow2, Z.shiftr_spec by lia.
    replace (i - lo + lo) with i by lia. destruct (decide (i < hi)).
    + rewrite Z.ones_spec_low, Z.mod_pow2_bits_low by lia. apply andb_true_r.
    + rewrite Z.ones_spec_high, Z.mod_pow2_bits_high by lia. apply andb_false_r.
Qed.

Lemma land_ones_mod z n : 0 ≤ n → Z.land z (2 ^ n - 1) = z mod 2 ^ n.
Proof. intros. rewrite <- Z.land_ones by done. by rewrite Z.ones_equiv, Z.sub_1_r. Qed.

Lemma shiftr_div z n : 0 ≤ n → Z.shiftr z n = z / 2 ^ n.
Proof. apply Z.shiftr_div_pow2. Qed.

(** Testing one bit of a word with a constant mask. *)
Lemma land_bit z n : 0 ≤ n → truthy (Z.land z (2 ^ n)) = Z.testbit z n.
Proof.
  intros Hn. destruct (Z.testbit z n) eqn:E.
  - apply truthy_spec. intros H.
    assert (Z.testbit (Z.land z (2 ^ n)) n = false) as H1 by (rewrite H; apply Z.bits_0).
    rewrite Z.land_spec, E, Z.pow2_bits_true in H1 by done. done.
  - apply truthy_false. apply Z.bits_inj'. intros i Hi.
    rewrite Z.land_spec, Z.bits_0, Z.pow2_bits_eqb by done.
    destruct (Z.eqb_spec n i) as [<-|]; [by rewrite E|apply andb_false_r].
Qed.

Lemma lor_range a b n : 0 ≤ n → 0 ≤ a < 2 ^ n → 0 ≤ b < 2 ^ n → 0 ≤ Z.lor a b < 2 ^ n.
Proof.
  intros Hn Ha Hb. split; [apply Z.lor_nonneg; lia|].
  destruct (decide (Z.lor a b = 0)) as [->|]; [lia|].
  apply Z.log2_lt_pow2.
  - assert (0 ≤ Z.lor a b) by (apply Z.lor_nonneg; lia). lia.
  - rewrite Z.log2_lor by lia. apply Z.max_lub_lt.
    + destruct (decide (a = 0)) as [->|]; [|apply Z.log2_lt_pow2; lia].
      destruct (decide (n = 0)) as [->|]; [|cbn; lia]. cbn in *.
      assert (b = 0) by lia. by subst.
    + destruct (decide (b = 0)) as [->|]; [|apply Z.log2_lt_pow2; lia].
      destruct (decide (n = 0)) as [->|]; [|cbn; lia]. cbn in *.
      assert (a = 0) by lia. by subst.
Qed.

(** ** Lists *)

(** The number of elements that satisfy a test. *)
Fixpoint count {A} (f : A → bool) (l : list A) : Z :=
  match l with [] => 0 | x :: l => (if f x then 1 else 0) + count f l end.

Lemma count_ext {A} (f g : A → bool) l :
  (∀ x, x ∈ l → f x = g x) → count f l = count g l.
Proof.
  induction l as [|x l IH]; intros H; cbn [count]; [done|].
  rewrite (H x), IH; [done| |left]. intros y Hy. apply H. by right.
Qed.

Lemma count_bounds {A} (f : A → bool) l : 0 ≤ count f l ≤ Z.of_nat (length l).
Proof. induction l as [|x l IH]; cbn [count length]; [lia|]. destruct (f x); lia. Qed.

Lemma count_zero {A} (f : A → bool) l : count f l = 0 → ∀ x, x ∈ l → f x = false.
Proof.
  induction l as [|y l IH]; intros H x Hx; [by apply not_elem_of_nil in Hx|].
  cbn [count] in H. pose proof (count_bounds f l).
  apply elem_of_cons in Hx as [->|Hx]; [by destruct (f y); [lia|]|].
  apply IH; [|done]. destruct (f y); lia.
Qed.

(** Two tests that differ at one element only. *)
Lemma count_flip `{EqDecision A} (f g : A → bool) l x :
  NoDup l → x ∈ l → f x = true → g x = false →
  (∀ y, y ∈ l → y ≠ x → f y = g y) → count f l = count g l + 1.
Proof.
  intros Hnd. induction Hnd as [|y l Hy Hnd IH]; intros Hx Hf Hg Ho;
    [by apply not_elem_of_nil in Hx|]. cbn [count].
  destruct (decide (y = x)) as [->|Hne].
  - rewrite Hf, Hg, (count_ext f g l); [lia|].
    intros z Hz. apply Ho; [by right|]. intros ->. done.
  - apply elem_of_cons in Hx as [->|Hx]; [done|].
    rewrite (Ho y), IH; [lia|done..| |by left|done].
    intros z Hz. apply Ho. by right.
Qed.

(** Sums over a list, and their change under an update. *)
Fixpoint sum_of {A} (f : A → Z) (l : list A) : Z :=
  match l with [] => 0 | x :: l => f x + sum_of f l end.

Lemma sum_of_insert {A} (f : A → Z) l : ∀ i x y,
  l !! i = Some x → sum_of f (<[i := y]> l) = sum_of f l - f x + f y.
Proof.
  induction l as [|z l IH]; intros [|i] x y H; [done|done| |].
  - cbn in *. simplify_eq. lia.
  - change (f z + sum_of f (<[i:=y]> l) = f z + sum_of f l - f x + f y).
    rewrite (IH i x y H). lia.
Qed.

Lemma sum_of_bounds {A} (f : A → Z) (b : Z) l :
  (∀ x, 0 ≤ f x ≤ b) → 0 ≤ sum_of f l ≤ b * Z.of_nat (length l).
Proof.
  intros H. induction l as [|x l IH]; cbn [sum_of length]; [lia|]. pose proof (H x). lia.
Qed.

Lemma sum_of_zero {A} (f : A → Z) l :
  (∀ x, 0 ≤ f x) → sum_of f l = 0 → ∀ x, x ∈ l → f x = 0.
Proof.
  intros Hf. induction l as [|y l IH]; cbn [sum_of]; intros H x Hx; [by apply not_elem_of_nil in Hx|].
  assert (0 ≤ sum_of f l) as Hs by (clear -Hf; induction l; cbn; [lia|]; pose proof (Hf a); lia).
  pose proof (Hf y). apply elem_of_cons in Hx as [->|Hx]; [lia|]. apply IH; [lia|done].
Qed.

(** A search for the least index at which a test fails. *)
Lemma least_false (f : Z → bool) (n : nat) :
  (∀ j, 0 ≤ j < Z.of_nat n → f j = true) ∨
  ∃ k, 0 ≤ k < Z.of_nat n ∧ f k = false ∧ ∀ j, 0 ≤ j < k → f j = true.
Proof.
  induction n as [|n [IH|(k & Hk & Hf & Hl)]]; [left; lia| |right; exists k; repeat split; (done||lia)].
  destruct (f (Z.of_nat n)) eqn:E.
  - left. intros j Hj. destruct (decide (j = Z.of_nat n)) as [->|]; [done|]. apply IH. lia.
  - right. exists (Z.of_nat n). repeat split; [lia|lia|done|]. intros j Hj. apply IH. lia.
Qed.
