(* ===== verification/Memory.v ===== *)
(** * Byte-addressed memory and the [memory_*] primitives

    Models [src/src/common/memory.c], lines 9 to 49 (the block operations) and
    the little-endian loads and stores the rest of the kernel performs through
    pointers. Physical memory is identity mapped while the modelled code runs,
    so a pointer is the physical address of a byte. The heap allocator of the
    same file is in [Heap]. *)

From S2P Require Import Prelude.

(** An absent cell reads as zero: a [gmap] denotes a total memory whose
    contents are arbitrary on finitely many addresses. *)
Abbreviation mem := (gmap Z Z).

Definition load8 (m : mem) (a : Z) : Z := u8 (default 0 (m !! a)).
Definition store8 (m : mem) (a v : Z) : mem := <[a := u8 v]> m.

(** [load n m a]: the little-endian integer in the [n] bytes at [a]. *)
Fixpoint load (n : nat) (m : mem) (a : Z) : Z :=
  match n with
  | O => 0
  | S n' => load8 m a + 2 ^ 8 * load n' m (a + 1)
  end.

Fixpoint store (n : nat) (m : mem) (a v : Z) : mem :=
  match n with
  | O => m
  | S n' => store n' (store8 m a v) (a + 1) (v / 2 ^ 8)
  end.

Definition load16 := load 2.
Definition load32 := load 4.
Definition load64 := load 8.
Definition store64 := store 8.
#[global] Arguments load8 : simpl never.
#[global] Arguments store8 : simpl never.
#[global] Arguments load64 : simpl never.
#[global] Arguments store64 : simpl never.

(** ** memory.c *)

Fixpoint memory_set_loop (n : nat) (m : mem) (address value : Z) : mem :=
  match n with
  | O => m
  | S n' => memory_set_loop n' (store8 m address value) (address + 1) value
  end.

Definition memory_zero (m : mem) (address size : Z) : mem :=
  memory_set_loop (Z.to_nat size) m address 0.

Definition memory_set (m : mem) (address size value : Z) : mem :=
  memory_set_loop (Z.to_nat size) m address value.

Fixpoint memory_compare_loop (n : nat) (m : mem) (a b : Z) : Z :=
  match n with
  | O => 1
  | S n' =>
      if negb (load8 m a =? load8 m b) then 0
      else memory_compare_loop n' m (a + 1) (b + 1)
  end.

Definition memory_compare (m : mem) (a b size : Z) : Z :=
  memory_compare_loop (Z.to_nat size) m a b.

Fixpoint memory_copy_loop (n : nat) (m : mem) (from to : Z) : mem :=
  match n with
  | O => m
  | S n' => memory_copy_loop n' (store8 m to (load8 m from)) (from + 1) (to + 1)
  end.

Definition memory_copy (m : mem) (from to size : Z) : mem :=
  memory_copy_loop (Z.to_nat size) m from to.

#[global] Arguments memory_zero : simpl never.
#[global] Arguments memory_set : simpl never.
#[global] Arguments memory_copy : simpl never.
#[global] Arguments memory_compare : simpl never.

(** ** Loads after stores *)

Lemma load8_store8_eq m a v : load8 (store8 m a v) a = u8 v.
Proof. unfold load8, store8. rewrite lookup_insert_eq. cbn. apply Z.mod_mod. lia. Qed.

Lemma load8_store8_ne m a b v : a ≠ b → load8 (store8 m a v) b = load8 m b.
Proof. intros. unfold load8, store8. by rewrite lookup_insert_ne. Qed.

Lemma load8_range m a : 0 ≤ load8 m a < 2 ^ 8.
Proof. apply u8_range. Qed.

Lemma load_ext n m1 m2 : ∀ a,
  (∀ b, a ≤ b < a + Z.of_nat n → load8 m1 b = load8 m2 b) → load n m1 a = load n m2 a.
Proof.
  induction n as [|n IH]; intros a H; cbn [load]; [done|].
  rewrite (H a), (IH (a + 1)); [done| |lia]. intros b Hb. apply H. lia.
Qed.

(** Equal bytes at two places load as equal integers. *)
Lemma load_shift n m1 m2 : ∀ a b,
  (∀ i, 0 ≤ i < Z.of_nat n → load8 m1 (a + i) = load8 m2 (b + i)) → load n m1 a = load n m2 b.
Proof.
  induction n as [|n IH]; intros a b H; cbn [load]; [done|].
  pose proof (H 0 ltac:(lia)) as H0. rewrite !Z.add_0_r in H0. rewrite H0.
  rewrite (IH (a + 1) (b + 1)); [done|]. intros i Hi. rewrite <- !Z.add_assoc. apply H. lia.
Qed.

Lemma load_range n m : ∀ a, 0 ≤ load n m a < 2 ^ (8 * Z.of_nat n).
Proof.
  induction n as [|n IH]; intros a; cbn [load]; [cbn; lia|].
  pose proof (IH (a + 1)). pose proof (load8_range m a).
  replace (8 * Z.of_nat (S n)) with (8 + 8 * Z.of_nat n) by lia.
  rewrite Z.pow_add_r by lia. nia.
Qed.

Lemma load8_store_out n : ∀ m a v b,
  ¬ (a ≤ b < a + Z.of_nat n) → load8 (store n m a v) b = load8 m b.
Proof.
  induction n as [|n IH]; intros m a v b H; cbn [store]; [done|].
  rewrite IH by lia. apply load8_store8_ne. lia.
Qed.

Lemma load_store_eq n : ∀ m a v, load n (store n m a v) a = v mod 2 ^ (8 * Z.of_nat n).
Proof.
  induction n as [|n IH]; intros m a v; cbn [load store]; [by rewrite Z.mod_1_r|].
  rewrite IH, load8_store_out, load8_store8_eq by lia.
  replace (8 * Z.of_nat (S n)) with (8 + 8 * Z.of_nat n) by lia.
  rewrite Z.pow_add_r, Z.rem_mul_r by lia. unfold u8. lia.
Qed.

Lemma load_store_ne n k m a b v :
  b + Z.of_nat k ≤ a ∨ a + Z.of_nat n ≤ b → load n (store k m b v) a = load n m a.
Proof. intros H. apply load_ext. intros c Hc. apply load8_store_out. lia. Qed.

Lemma load_store8_ne n m a b v :
  b < a ∨ a + Z.of_nat n ≤ b → load n (store8 m b v) a = load n m a.
Proof. intros H. apply load_ext. intros c Hc. apply load8_store8_ne. lia. Qed.

Lemma load64_range m a : 0 ≤ load64 m a < 2 ^ 64.
Proof. apply (load_range 8). Qed.

(** The bytes [l] are stored at [a]. *)
Fixpoint bytes_at (m : mem) (a : Z) (l : list Z) : Prop :=
  match l with [] => True | b :: l => load8 m a = b ∧ bytes_at m (a + 1) l end.

Definition le_value (l : list Z) : Z := foldr (λ b v, b + 2 ^ 8 * v) 0 l.

Lemma load_bytes_at m l : ∀ a, bytes_at m a l → load (length l) m a = le_value l.
Proof.
  induction l as [|b l IH]; intros a H; [done|]. destruct H as [Hb Hl].
  cbn [length load le_value foldr]. by rewrite Hb, (IH _ Hl).
Qed.

Lemma bytes_at_intro m l : ∀ a,
  (∀ i b, l !! i = Some b → load8 m (a + Z.of_nat i) = b) → bytes_at m a l.
Proof.
  induction l as [|b l IH]; intros a H; [done|]. split.
  - pose proof (H 0%nat b eq_refl) as H0. by rewrite Z.add_0_r in H0.
  - apply IH. intros i c Hi. rewrite <- (H (S i) c Hi). f_equal. lia.
Qed.

Lemma load64_store64_eq m a v : 0 ≤ v < 2 ^ 64 → load64 (store64 m a v) a = v.
Proof. intros. unfold load64, store64. rewrite load_store_eq. by apply Z.mod_small. Qed.

Lemma load8_store64_out m a v x : ¬ (a ≤ x < a + 8) → load8 (store64 m a v) x = load8 m x.
Proof. intros H. unfold store64. apply load8_store_out. lia. Qed.

Lemma load64_store64_ne m a b v :
  b + 8 ≤ a ∨ a + 8 ≤ b → load64 (store64 m b v) a = load64 m a.
Proof. intros. by apply load_store_ne. Qed.

Lemma load8_memory_set_loop n : ∀ m a v b,
  load8 (memory_set_loop n m a v) b =
  if decide (a ≤ b < a + Z.of_nat n) then u8 v else load8 m b.
Proof.
  induction n as [|n IH]; intros m a v b; cbn [memory_set_loop]; [by rewrite decide_False by lia|].
  rewrite IH. destruct (decide (a = b)) as [<-|Hne].
  - rewrite decide_False, decide_True by lia. apply load8_store8_eq.
  - rewrite load8_store8_ne by done. repeat case_decide; (done || lia).
Qed.

Lemma load_zero n m : ∀ a, (∀ b, a ≤ b < a + Z.of_nat n → load8 m b = 0) → load n m a = 0.
Proof.
  induction n as [|n IH]; intros a H; cbn [load]; [done|].
  rewrite (H a), IH by (intros; try apply H; lia). lia.
Qed.

Lemma load8_memory_zero m a size b :
  0 ≤ size → load8 (memory_zero m a size) b = if decide (a ≤ b < a + size) then 0 else load8 m b.
Proof.
  intros Hs. unfold memory_zero. rewrite load8_memory_set_loop, Z2Nat.id by done. done.
Qed.

Lemma load64_memory_zero_in m a size b :
  a ≤ b → b + 8 ≤ a + size → load64 (memory_zero m a size) b = 0.
Proof.
  intros H1 H2. apply load_zero. intros c Hc. unfold memory_zero.
  by rewrite load8_memory_set_loop, decide_True by lia.
Qed.

Lemma load64_memory_zero_out m a size b :
  0 ≤ size → b + 8 ≤ a ∨ a + size ≤ b → load64 (memory_zero m a size) b = load64 m b.
Proof.
  intros Hs H. apply load_ext. intros c Hc. unfold memory_zero.
  by rewrite load8_memory_set_loop, decide_False by lia.
Qed.

Lemma load8_memory_copy_loop_out n : ∀ m from to b,
  ¬ (to ≤ b < to + Z.of_nat n) → load8 (memory_copy_loop n m from to) b = load8 m b.
Proof.
  induction n as [|n IH]; intros m from to b H; cbn [memory_copy_loop]; [done|].
  rewrite IH by lia. apply load8_store8_ne. lia.
Qed.

(** A byte is copied when the loop does not write it before it reads it. *)
Lemma load8_memory_copy_loop_in n : ∀ m from to i,
  0 ≤ i < Z.of_nat n → ¬ (to ≤ from + i < to + Z.of_nat n) →
  load8 (memory_copy_loop n m from to) (to + i) = load8 m (from + i).
Proof.
  induction n as [|n IH]; intros m from to i Hi H; [lia|]. cbn [memory_copy_loop].
  destruct (decide (i = 0)) as [->|Hne].
  - rewrite load8_memory_copy_loop_out, !Z.add_0_r, load8_store8_eq by lia. apply u8_small, load8_range.
  - replace (to + i) with (to + 1 + (i - 1)) by lia. replace (from + i) with (from + 1 + (i - 1)) by lia.
    rewrite IH by lia. apply load8_store8_ne. lia.
Qed.

Lemma load8_memory_copy_out m from to size b :
  ¬ (to ≤ b < to + size) → load8 (memory_copy m from to size) b = load8 m b.
Proof. intros H. apply load8_memory_copy_loop_out. lia. Qed.

Lemma load8_memory_copy_in m from to size i :
  0 ≤ i < size → ¬ (to ≤ from + i < to + size) →
  load8 (memory_copy m from to size) (to + i) = load8 m (from + i).
Proof. intros Hi H. apply load8_memory_copy_loop_in; lia. Qed.

#[export] Hint Resolve load64_range load8_range : kokos.
