(* ===== verification/Bits.v ===== *)
(** * Bit fields

    The members of the packed structures of [gdt.h], [idt.h] and [apic.h] are
    bit fields: [bits_get lo n w] is the field of [n] bits at bit [lo] of the
    word [w], [bits_set] replaces it. *)

From S2P Require Import Prelude Memory.

Definition bits_get (lo n w : Z) : Z := Z.land (Z.shiftr w lo) (Z.ones n).

Definition bits_set (lo n v w : Z) : Z :=
  Z.lor (Z.ldiff w (Z.shiftl (Z.ones n) lo)) (Z.shiftl (Z.land v (Z.ones n)) lo).

(** A store to a bit field of the byte at [a]: the other bits are kept. *)
Definition set_bits8 (a lo n v : Z) (m : mem) : mem := store8 m a (bits_set lo n v (load8 m a)).
Definition get_bits8 (a lo n : Z) (m : mem) : Z := bits_get lo n (load8 m a).

(** The bits of a field, and of the word after a field was replaced. *)
Lemma bits_get_spec lo n w i :
  0 ≤ lo → 0 ≤ n → 0 ≤ i → Z.testbit (bits_get lo n w) i = (i <? n) && Z.testbit w (i + lo).
Proof.
  intros Hlo Hn Hi. unfold bits_get. rewrite Z.land_spec, Z.shiftr_spec by done.
  destruct (Z.ltb_spec i n).
  - by rewrite Z.ones_spec_low, andb_true_r by lia.
  - by rewrite Z.ones_spec_high, andb_false_r by lia.
Qed.

Lemma bits_set_spec lo n v w i :
  0 ≤ lo → 0 ≤ n → 0 ≤ i →
  Z.testbit (bits_set lo n v w) i =
    if (lo <=? i) && (i <? lo + n) then Z.testbit v (i - lo) else Z.testbit w i.
Proof.
  intros Hlo Hn Hi. unfold bits_set.
  rewrite Z.lor_spec, Z.ldiff_spec, !Z.shiftl_spec, Z.land_spec by done.
  destruct (Z.leb_spec lo i) as [H1|H1]; cbn [andb].
  - destruct (Z.ltb_spec i (lo + n)) as [H2|H2].
    + rewrite Z.ones_spec_low by lia. cbn [negb]. by rewrite andb_false_r, andb_true_r.
    + rewrite Z.ones_spec_high by lia. cbn [negb]. by rewrite andb_true_r, andb_false_r, orb_false_r.
  - rewrite !(Z.testbit_neg_r _ (i - lo)) by lia. cbn. by rewrite andb_true_r, orb_false_r.
Qed.

Lemma bits_get_range lo n w : 0 ≤ n → 0 ≤ bits_get lo n w < 2 ^ n.
Proof. intros Hn. unfold bits_get. rewrite Z.land_ones by done. apply Z.mod_pos_bound. lia. Qed.

Lemma bits_get_mod lo n w : 0 ≤ lo → 0 ≤ n → bits_get lo n w = w / 2 ^ lo mod 2 ^ n.
Proof. intros Hlo Hn. unfold bits_get. by rewrite Z.land_ones, Z.shiftr_div_pow2. Qed.

Lemma bits_get_set_eq lo n v w :
  0 ≤ lo → 0 ≤ n → bits_get lo n (bits_set lo n v w) = v mod 2 ^ n.
Proof.
  intros Hlo Hn. rewrite <- Z.land_ones by done. apply Z.bits_inj'. intros i Hi.
  rewrite bits_get_spec, bits_set_spec, Z.land_spec by lia.
  destruct (Z.ltb_spec i n) as [H|H].
  - rewrite Z.ones_spec_low by lia. rewrite (proj2 (Z.leb_le lo (i + lo))), (proj2 (Z.ltb_lt _ _)) by lia.
    cbn. replace (i + lo - lo) with i by lia. by rewrite andb_true_r.
  - by rewrite Z.ones_spec_high, andb_false_r by lia.
Qed.

Lemma bits_get_set_ne lo n lo' n' v w :
  0 ≤ lo → 0 ≤ n → 0 ≤ lo' → 0 ≤ n' → lo + n ≤ lo' ∨ lo' + n' ≤ lo →
  bits_get lo n (bits_set lo' n' v w) = bits_get lo n w.
Proof.
  intros Hlo Hn Hlo' Hn' H. apply Z.bits_inj'. intros i Hi.
  rewrite !bits_get_spec by done. destruct (Z.ltb_spec i n); [|done]. cbn [andb].
  rewrite bits_set_spec by lia.
  destruct (Z.leb_spec lo' (i + lo)), (Z.ltb_spec (i + lo) (lo' + n')); cbn; (done || lia).
Qed.

Lemma bits_set_range lo n v w k :
  0 ≤ lo → 0 ≤ n → lo + n ≤ k → 0 ≤ w < 2 ^ k → 0 ≤ bits_set lo n v w < 2 ^ k.
Proof.
  intros Hlo Hn Hk Hw.
  assert (bits_set lo n v w = bits_set lo n v w mod 2 ^ k) as ->; [|apply Z.mod_pos_bound; lia].
  rewrite <- Z.land_ones by lia. apply Z.bits_inj'. intros i Hi. rewrite Z.land_spec.
  destruct (decide (i < k)); [by rewrite Z.ones_spec_low, andb_true_r by lia|].
  rewrite Z.ones_spec_high, andb_false_r, bits_set_spec by lia.
  destruct (Z.leb_spec lo i), (Z.ltb_spec i (lo + n)); cbn; try lia; by apply (testbit_high _ k); lia.
Qed.

(** ** Fields of a byte in memory *)

Lemma get_set_bits8_eq a lo n v m :
  0 ≤ lo → 0 ≤ n → lo + n ≤ 8 → get_bits8 a lo n (set_bits8 a lo n v m) = v mod 2 ^ n.
Proof.
  intros Hlo Hn H8. unfold get_bits8, set_bits8. rewrite load8_store8_eq.
  rewrite u8_small by (apply bits_set_range; (done || apply load8_range)). by apply bits_get_set_eq.
Qed.

Lemma get_set_bits8_ne a lo n lo' n' v m :
  0 ≤ lo → 0 ≤ n → 0 ≤ lo' → 0 ≤ n' → lo' + n' ≤ 8 → lo + n ≤ lo' ∨ lo' + n' ≤ lo →
  get_bits8 a lo n (set_bits8 a lo' n' v m) = get_bits8 a lo n m.
Proof.
  intros Hlo Hn Hlo' Hn' H8 H. unfold get_bits8, set_bits8. rewrite load8_store8_eq.
  rewrite u8_small by (apply bits_set_range; (done || apply load8_range)). by apply bits_get_set_ne.
Qed.

Lemma load8_set_bits8_ne a lo n v m b : a ≠ b → load8 (set_bits8 a lo n v m) b = load8 m b.
Proof. intros H. by apply load8_store8_ne. Qed.

Lemma load_set_bits8_ne n m a b lo k v :
  b < a ∨ a + Z.of_nat n ≤ b → load n (set_bits8 b lo k v m) a = load n m a.
Proof. intros H. by apply load_store8_ne. Qed.

(** ** Words put together from parts *)

(** The parts of a word, as the descriptor tables store addresses. *)
Lemma lor_shiftl_add a b n :
  0 ≤ n → 0 ≤ a < 2 ^ n → Z.lor a (Z.shiftl b n) = a + b * 2 ^ n.
Proof. intros Hn Ha. rewrite Z.shiftl_mul_pow2, Z.lor_comm, lor_add_low by done. lia. Qed.
