(* ===== verification/Allocator.v ===== *)
(** * The interface between physical memory and its clients

    [paging.c], [scheduler.c], [gdt.c], [idt.c] and [cpu.c] obtain 4 KiB pages
    from [memory_physical_allocate] and rely on what
    [src/src/include/kokos/memory_physical.h] promises about it: the page is
    aligned, it was not in use before, and it is in use afterwards. The
    [Class]es below state that promise; [Physical] discharges it for the
    bitmap allocator of [memory_physical.c]. *)

From S2P Require Import Prelude.

(** The operation: the physical address of a fresh page and the next state. *)
Class PageAllocator (A : Type) : Type :=
  pa_alloc : A → outcome (Z * A).

(** Its laws, over a representation invariant [pa_inv], the set [pa_used] of
    page frame numbers in use and the number [pa_avail] of calls that are
    certain to succeed. *)
Class PageAllocatorLaws (A : Type) `{PageAllocator A} : Type := {
  pa_inv : A → Prop;
  pa_used : A → Z → Prop;
  pa_avail : A → Z;
  pa_avail_nonneg : ∀ s, pa_inv s → 0 ≤ pa_avail s;
  pa_alloc_ok : ∀ s, pa_inv s → 0 < pa_avail s →
    ∃ p s', pa_alloc s = Ok (p * 2 ^ 12, s') ∧
      pa_inv s' ∧ pa_avail s' = pa_avail s - 1 ∧
      0 ≤ p < 2 ^ 40 ∧ ¬ pa_used s p ∧ pa_used s' p ∧
      (∀ q, pa_used s q → pa_used s' q)
}.
