(* ===== verification/Heap.v ===== *)
(** * The kernel heap

    Models [memory_allocate], [memory_free] and [memory_resize] of
    [src/src/common/memory.c], lines 51 to 111, and [struct memory_chunk] of
    [memory.h]. Every block is preceded by a header, the headers form a doubly
    linked list in address order that starts at the external object
    [memory_chunk], and the gaps between blocks are what is free. The headers
    live in the byte memory of [Memory]. [HeapSpec] has the theorems. *)

From S2P Require Import Prelude Memory.

(** [sizeof(struct memory_chunk)]: two pointers, an [int] and its padding. *)
Definition sizeof_memory_chunk : Z := 24.

(** ** struct memory_chunk *)

Definition chunk_next (m : mem) (c : Z) : Z := load64 m c.
Definition chunk_previous (m : mem) (c : Z) : Z := load64 m (c + 8).
Definition chunk_size (m : mem) (c : Z) : Z := s32 (load32 m (c + 16)).

Definition set_chunk_next (c v : Z) (m : mem) : mem := store64 m c v.
Definition set_chunk_previous (c v : Z) (m : mem) : mem := store64 m (c + 8) v.
Definition set_chunk_size (c v : Z) (m : mem) : mem := store 4 m (c + 16) v.

(** [ALIGN_TO_NEXT(n, sizeof(void * ))] for an [int n], assigned to an [int]. *)
Definition align_to_next_int (n : Z) : Z :=
  s32 (u64 (Z.land (u64 (n - 1)) (u64 (- 8)) + 8)).

Section Heap.
(** The address of [extern struct memory_chunk memory_chunk], which no file of
    the repository defines. *)
Context (memory_chunk : Z).

(** The test of line 58. The distance is a [long]; it is compared as an
    [unsigned long] because [sizeof] is one. *)
Definition chunk_has_room (bytes next chk size : Z) : bool :=
  (next =? 0) || (u64 (u64 bytes + sizeof_memory_chunk * 2) <? u64 (next - (chk + size))).

(** Lines 60 to 70: insert a chunk behind [chk]. *)
Definition insert_chunk (bytes chk : Z) : M mem Z :=
  let! size := gets (λ m, chunk_size m chk) in
  let new_chunk := chk + sizeof_memory_chunk + size in
  modify (set_chunk_size new_chunk bytes) ;;;
  let! next := gets (λ m, chunk_next m chk) in
  modify (set_chunk_next new_chunk next) ;;;
  modify (set_chunk_previous new_chunk chk) ;;;
  let! next := gets (λ m, chunk_next m chk) in
  (if truthy next then modify (set_chunk_previous next new_chunk) else ret tt) ;;;
  modify (set_chunk_next chk new_chunk) ;;;
  ret (new_chunk + sizeof_memory_chunk).

(** The loop of lines 56 to 74. *)
Fixpoint allocate_loop (fuel : nat) (bytes chk : Z) : M mem Z :=
  match fuel with
  | O => hang
  | S fuel' =>
      if chk =? 0 then ret 0
      else
        let! next := gets (λ m, chunk_next m chk) in
        let! size := gets (λ m, chunk_size m chk) in
        if chunk_has_room bytes next chk size then insert_chunk bytes chk
        else allocate_loop fuel' bytes next
  end.

Definition memory_allocate (fuel : nat) (bytes : Z) : M mem Z :=
  allocate_loop fuel (align_to_next_int bytes) memory_chunk.

Definition memory_free (pointer : Z) : M mem unit :=
  let header := pointer - sizeof_memory_chunk in
  let! previous := gets (λ m, chunk_previous m header) in
  (if truthy previous then
     modify (λ m, set_chunk_next previous (chunk_next m header) m)
   else ret tt) ;;;
  let! next := gets (λ m, chunk_next m header) in
  if truthy next then
    modify (λ m, set_chunk_previous next (chunk_previous m header) m)
  else ret tt.

Definition memory_resize (fuel : nat) (pointer bytes : Z) : M mem Z :=
  let bytes := align_to_next_int bytes in
  let header := pointer - sizeof_memory_chunk in
  let! next := gets (λ m, chunk_next m header) in
  let! size := gets (λ m, chunk_size m header) in
  if (next =? 0) || (next <=? header + size) then
    modify (set_chunk_size header bytes) ;;;
    ret pointer
  else
    let! new_pointer := memory_allocate fuel bytes in
    modify (λ m, memory_copy m pointer new_pointer bytes) ;;;
    memory_free pointer ;;;
    ret new_pointer.
End Heap.
