(* ===== verification/HeapSpec.v ===== *)
(** * Correctness of the kernel heap

    The invariant [heap_ok] relates memory to the list of the chunks in it, by
    address and size: the headers are linked both ways in address order and no
    block reaches into the next header. [linked] is the invariant of a segment
    of the list, so that the operations, which cut the list and join segments,
    are proved by the lemmas on segments. *)

From S2P Require Import Prelude Memory Heap.

Implicit Types (m : mem) (l : list (Z * Z)).

(** ** Segments of the list of chunks *)

Definition first_addr l (next : Z) : Z := match l with [] => next | c :: _ => c.1 end.

Fixpoint last_addr (previous : Z) l : Z :=
  match l with [] => previous | c :: l => last_addr c.1 l end.

(** The headers of [l] are linked to each other, the first one back to
    [previous] and the last one on to [next]. *)
Fixpoint linked m (previous : Z) l (next : Z) : Prop :=
  match l with
  | [] => True
  | c :: l => chunk_previous m c.1 = previous ∧ chunk_next m c.1 = first_addr l next ∧
      chunk_size m c.1 = c.2 ∧ linked m c.1 l next
  end.

(** The end of the last block of [l], or [lo]. *)
Fixpoint ends (lo : Z) l : Z :=
  match l with [] => lo | c :: l => ends (c.1 + 24 + c.2) l end.

(** Address order without overlap, from [lo] on; sizes are whole words. *)
Fixpoint spaced (lo : Z) l : Prop :=
  match l with
  | [] => True
  | c :: l => lo ≤ c.1 ∧ 0 ≤ c.2 < 2 ^ 31 ∧ c.2 mod 8 = 0 ∧ spaced (c.1 + 24 + c.2) l
  end.

Definition in_header l (x : Z) : Prop := ∃ c, c ∈ l ∧ c.1 ≤ x < c.1 + 24.
Definition in_block (c : Z * Z) (x : Z) : Prop := c.1 + 24 ≤ x < c.1 + 24 + c.2.

Record heap_ok (memory_chunk : Z) m l : Prop := HeapOk {
  heap_first : ∃ n l', l = (memory_chunk, n) :: l';
  heap_linked : linked m 0 l 0;
  heap_spaced : spaced 1 l;
  heap_below : ends 1 l ≤ 2 ^ 62;
  heap_aligned : ∀ c, c ∈ l → (c.1 - memory_chunk) mod 8 = 0
}.

Lemma first_addr_app l1 l2 n : first_addr (l1 ++ l2) n = first_addr l1 (first_addr l2 n).
Proof. by destruct l1. Qed.

Lemma last_addr_snoc l c : ∀ p, last_addr p (l ++ [c]) = c.1.
Proof. induction l as [|d l IH]; intros p; [done|]. apply IH. Qed.

Lemma linked_app m l1 l2 : ∀ p n,
  linked m p (l1 ++ l2) n ↔ linked m p l1 (first_addr l2 n) ∧ linked m (last_addr p l1) l2 n.
Proof.
  induction l1 as [|c l1 IH]; intros p n; cbn [app linked last_addr]; [tauto|].
  rewrite IH, first_addr_app. tauto.
Qed.

Lemma ends_app l1 l2 : ∀ lo, ends lo (l1 ++ l2) = ends (ends lo l1) l2.
Proof. induction l1 as [|c l1 IH]; intros lo; [done|]. apply IH. Qed.

Lemma spaced_app l1 l2 : ∀ lo, spaced lo (l1 ++ l2) ↔ spaced lo l1 ∧ spaced (ends lo l1) l2.
Proof. induction l1 as [|c l1 IH]; intros lo; cbn [app spaced ends]; [tauto|]. rewrite IH. tauto. Qed.

Lemma spaced_weaken l lo lo' : lo' ≤ lo → spaced lo l → spaced lo' l.
Proof. destruct l as [|c l]; [done|]. cbn. intros H (?&?). split; [lia|done]. Qed.

Lemma ends_ge l : ∀ lo, spaced lo l → lo ≤ ends lo l.
Proof.
  induction l as [|c l IH]; intros lo; cbn [spaced ends]; [lia|].
  intros (? & ? & _ & H). apply IH in H. lia.
Qed.

Lemma ends_weaken l lo lo' : l ≠ [] → ends lo l = ends lo' l.
Proof. by destruct l. Qed.

Lemma ends_le_weaken l lo lo' b : spaced lo l → ends lo l ≤ b → lo' ≤ lo → ends lo' l ≤ b.
Proof. destruct l; cbn; [lia|done]. Qed.

Lemma spaced_elem l : ∀ lo c, spaced lo l → c ∈ l →
  lo ≤ c.1 ∧ 0 ≤ c.2 < 2 ^ 31 ∧ c.2 mod 8 = 0 ∧ c.1 + 24 + c.2 ≤ ends lo l.
Proof.
  induction l as [|d l IH]; intros lo c Hs Hc; [by apply not_elem_of_nil in Hc|].
  cbn [spaced ends] in *. destruct Hs as (? & ? & ? & Hs). pose proof (ends_ge _ _ Hs).
  apply elem_of_cons in Hc as [->|Hc]; [lia|]. specialize (IH _ c Hs Hc). lia.
Qed.

(** Membership in a list given by its parts. *)
Ltac in_list := rewrite ?elem_of_app, ?elem_of_cons in *; first [tauto|intuition congruence].

(** ** Writing header fields *)

(** The chunk at [c] is none of [l]: writes to its header leave them alone. *)
Definition apart (c : Z) l : Prop := ∀ d, d ∈ l → d.1 + 24 ≤ c ∨ c + 24 ≤ d.1.

Lemma apart_above l lo c : spaced lo l → ends lo l ≤ c → apart c l.
Proof. intros Hs Hc d Hd. pose proof (spaced_elem _ _ _ Hs Hd). lia. Qed.

Lemma apart_below l lo c : spaced lo l → c + 24 ≤ lo → apart c l.
Proof. intros Hs Hc d Hd. pose proof (spaced_elem _ _ _ Hs Hd). lia. Qed.

Lemma apart_app c l1 l2 : apart c (l1 ++ l2) ↔ apart c l1 ∧ apart c l2.
Proof.
  split; [intros H; split; intros d Hd; apply H, elem_of_app; auto|].
  intros [H1 H2] d [Hd|Hd]%elem_of_app; auto.
Qed.

(** [same_but c m m']: the memories differ at most in the header at [c]. *)
Definition same_but (c : Z) m m' : Prop := ∀ x, ¬ (c ≤ x < c + 24) → load8 m' x = load8 m x.

Lemma same_but_next c v m : same_but c m (set_chunk_next c v m).
Proof. intros x Hx. apply load8_store_out. lia. Qed.
Lemma same_but_previous c v m : same_but c m (set_chunk_previous c v m).
Proof. intros x Hx. apply load8_store_out. lia. Qed.
Lemma same_but_size c v m : same_but c m (set_chunk_size c v m).
Proof. intros x Hx. apply load8_store_out. lia. Qed.
Lemma same_but_trans c m1 m2 m3 : same_but c m1 m2 → same_but c m2 m3 → same_but c m1 m3.
Proof. intros H1 H2 x Hx. by rewrite (H2 x), (H1 x). Qed.

Lemma same_but_fields c n p s m :
  same_but c m (set_chunk_previous c p (set_chunk_next c n (set_chunk_size c s m))).
Proof.
  eapply same_but_trans; [|apply same_but_previous].
  eapply same_but_trans; [apply same_but_size|apply same_but_next].
Qed.

#[local] Hint Resolve same_but_next same_but_previous same_but_size same_but_fields : core.

Lemma header_same m m' d :
  (∀ x, d ≤ x < d + 24 → load8 m' x = load8 m x) →
  chunk_next m' d = chunk_next m d ∧ chunk_previous m' d = chunk_previous m d ∧
  chunk_size m' d = chunk_size m d.
Proof.
  intros H. unfold chunk_next, chunk_previous, chunk_size. repeat split; [| |f_equal];
    apply load_ext; intros; apply H; lia.
Qed.

Lemma chunks_frame c m m' l : ∀ p n,
  same_but c m m' → apart c l → linked m p l n → linked m' p l n.
Proof.
  induction l as [|d l IH]; intros p n Hm Ha; cbn [linked]; [done|].
  destruct (header_same m m' d.1) as (-> & -> & ->).
  - intros x Hx. apply Hm. specialize (Ha d ltac:(left)). lia.
  - intros (? & ? & ? & ?). repeat split; [done..|]. apply IH; [done| |done].
    intros e He. apply Ha. by right.
Qed.

(** The fields of a header after one of them was written. *)
Lemma next_set_next c v m : 0 ≤ v < 2 ^ 64 → chunk_next (set_chunk_next c v m) c = v.
Proof. apply load64_store64_eq. Qed.
Lemma previous_set_next c v m : chunk_previous (set_chunk_next c v m) c = chunk_previous m c.
Proof. apply load64_store64_ne. lia. Qed.
Lemma size_set_next c v m : chunk_size (set_chunk_next c v m) c = chunk_size m c.
Proof. unfold chunk_size. f_equal. apply load_store_ne. lia. Qed.
Lemma next_set_previous c v m : chunk_next (set_chunk_previous c v m) c = chunk_next m c.
Proof. apply load64_store64_ne. lia. Qed.
Lemma previous_set_previous c v m : 0 ≤ v < 2 ^ 64 → chunk_previous (set_chunk_previous c v m) c = v.
Proof. apply load64_store64_eq. Qed.
Lemma size_set_previous c v m : chunk_size (set_chunk_previous c v m) c = chunk_size m c.
Proof. unfold chunk_size. f_equal. apply load_store_ne. lia. Qed.
Lemma next_set_size c v m : chunk_next (set_chunk_size c v m) c = chunk_next m c.
Proof. apply load_store_ne. lia. Qed.
Lemma previous_set_size c v m : chunk_previous (set_chunk_size c v m) c = chunk_previous m c.
Proof. apply load_store_ne. lia. Qed.
Lemma size_set_size c v m : 0 ≤ v < 2 ^ 31 → chunk_size (set_chunk_size c v m) c = v.
Proof.
  intros Hv. unfold chunk_size, set_chunk_size, load32. rewrite load_store_eq.
  rewrite Z.mod_small by lia. apply s32_small. lia.
Qed.

Create Rewrite HintDb heap.
#[local] Hint Rewrite next_set_next previous_set_next size_set_next next_set_previous
  previous_set_previous size_set_previous next_set_size previous_set_size size_set_size
  using lia : heap.

(** ** Joining segments *)

Lemma linked_set_next m p l c n n' :
  apart c.1 l → 0 ≤ n' < 2 ^ 64 →
  linked m p (l ++ [c]) n → linked (set_chunk_next c.1 n' m) p (l ++ [c]) n'.
Proof.
  intros Ha Hn (Hl & Hp & _ & Hs & _)%linked_app. apply linked_app. split.
  - by apply (chunks_frame c.1 m).
  - cbn [linked first_addr fst snd]. by autorewrite with heap.
Qed.

Lemma linked_set_previous m p p' c l n :
  apart c.1 l → 0 ≤ p' < 2 ^ 64 →
  linked m p (c :: l) n → linked (set_chunk_previous c.1 p' m) p' (c :: l) n.
Proof.
  intros Ha Hp (_ & Hn & Hs & Hl). cbn [linked]. autorewrite with heap.
  repeat split; [done..|]. by apply (chunks_frame c.1 m).
Qed.

Lemma linked_set_size m p l c n v :
  apart c.1 l → 0 ≤ v < 2 ^ 31 →
  linked m p (l ++ [c]) n → linked (set_chunk_size c.1 v m) p (l ++ [(c.1, v)]) n.
Proof.
  intros Ha Hv (Hl & Hp & Hn & _)%linked_app. apply linked_app. split.
  - by apply (chunks_frame c.1 m).
  - cbn [linked first_addr fst snd]. by autorewrite with heap.
Qed.

(** [if (next) next->previous = p]: the back link of the following segment,
    when there is one. *)
Definition link_back (next p : Z) m : mem :=
  if truthy next then set_chunk_previous next p m else m.

Lemma link_back_same next p m : same_but next m (link_back next p m).
Proof. unfold link_back. by destruct (truthy next). Qed.

Lemma linked_link_back m p p' l :
  0 ≤ p' < 2 ^ 64 → (∃ lo, 0 < lo ∧ spaced lo l) →
  linked m p l 0 → linked (link_back (first_addr l 0) p' m) p' l 0.
Proof.
  intros Hp (lo & Hlo & Hs). destruct l as [|c l]; [done|]. cbn [first_addr].
  destruct Hs as (Hc & Hsz & _ & Hs). unfold link_back.
  rewrite (proj2 (truthy_spec c.1)) by lia. apply linked_set_previous; [|done].
  eapply apart_below; [done|]. lia.
Qed.

Lemma linked_link_back_frame m q n p b v :
  n = 0 ∨ apart n b → linked m q b p → linked (link_back n v m) q b p.
Proof.
  intros Hn Hl. unfold link_back. destruct (truthy n) eqn:E; [|done].
  apply truthy_spec in E. destruct Hn as [|Hn]; [done|]. by eapply chunks_frame.
Qed.

(** ** Where three consecutive segments lie *)

Lemma spaced_apart lo x c y : spaced lo (x ++ c :: y) → apart c.1 x ∧ apart c.1 y.
Proof.
  intros (Hx & Hc & Hs & _ & Hy)%spaced_app. split.
  - by eapply apart_above.
  - eapply apart_below; [done|lia].
Qed.

Lemma spaced_range x c y :
  spaced 1 (x ++ c :: y) → ends 1 (x ++ c :: y) ≤ 2 ^ 62 → 0 < c.1 < 2 ^ 64.
Proof.
  intros Hs Hb. destruct (spaced_elem _ _ c Hs) as (? & ? & _ & ?); [in_list|]. lia.
Qed.

Lemma first_addr_apart x y :
  spaced 1 (x ++ y) → ends 1 (x ++ y) ≤ 2 ^ 62 →
  (first_addr y 0 = 0 ∨ apart (first_addr y 0) x) ∧ 0 ≤ first_addr y 0 < 2 ^ 64.
Proof.
  destruct y as [|d y]; cbn [first_addr]; intros Hs Hb; [split; [by left|lia]|].
  pose proof (spaced_apart _ _ _ _ Hs). pose proof (spaced_range _ _ _ Hs Hb).
  split; [right; tauto|lia].
Qed.

Lemma spaced_tail x y : spaced 1 (x ++ y) → ∃ lo, 0 < lo ∧ spaced lo y.
Proof.
  intros [Hx Hy]%spaced_app. apply ends_ge in Hx. exists (ends 1 x). split; [lia|done].
Qed.

(** ** Aligned sizes *)

Lemma align_to_next_int_spec n :
  0 ≤ n < 2 ^ 31 - 8 →
  align_to_next_int n = (n + 7) / 8 * 8 ∧ n ≤ align_to_next_int n < n + 8.
Proof.
  intros Hn. assert (align_to_next_int n = (n + 7) / 8 * 8) as ->; [|divmod_lia].
  unfold align_to_next_int. change (u64 (- 8)) with (2 ^ 64 - 2 ^ 3).
  rewrite land_mask by lia. destruct (decide (n = 0)) as [->|Hn0]; [by vm_compute|].
  rewrite (u64_small (n - 1)) by lia. rewrite Z.mod_small by lia. change (2 ^ 3) with 8.
  rewrite u64_small by divmod_lia. rewrite s32_small by divmod_lia. divmod_lia.
Qed.

Lemma align_to_next_int_idem n :
  0 ≤ n < 2 ^ 31 - 8 → n mod 8 = 0 → align_to_next_int n = n.
Proof. intros Hn Hm. destruct (align_to_next_int_spec n Hn) as [-> _]. divmod_lia. Qed.

(** ** Insertion *)

Definition insert_result (bytes chk new next : Z) m : mem :=
  set_chunk_next chk new
    (link_back next new
      (set_chunk_previous new chk (set_chunk_next new next (set_chunk_size new bytes m)))).

Lemma insert_chunk_run bytes c m n :
  0 ≤ c.2 → chunk_size m c.1 = c.2 → chunk_next m c.1 = n →
  insert_chunk bytes c.1 m =
    Ok (c.1 + 24 + c.2 + 24, insert_result bytes c.1 (c.1 + 24 + c.2) n m).
Proof.
  intros Hc Hs Hn. unfold insert_chunk, sizeof_memory_chunk. mstep.
  set (new := c.1 + 24 + c.2) in *. rewrite Hs. fold new. mstep.
  assert (∀ m', same_but new m m' → chunk_next m' c.1 = n) as Hsame.
  { intros m' H. rewrite <- Hn. apply header_same. intros x Hx. apply H. lia. }
  rewrite (Hsame (set_chunk_size new bytes m)) by done. mstep.
  rewrite (Hsame (set_chunk_previous _ _ _)) by done.
  unfold insert_result, link_back. by destruct (truthy n).
Qed.

Lemma insert_frame bytes l1 c l2 m :
  let l := l1 ++ c :: (c.1 + 24 + c.2, bytes) :: l2 in
  ∀ x, ¬ in_header l x →
    load8 (insert_result bytes c.1 (c.1 + 24 + c.2) (first_addr l2 0) m) x = load8 m x.
Proof.
  intros l x Hx. unfold insert_result.
  assert (∀ d, d ∈ l → ¬ (d.1 ≤ x < d.1 + 24)) as Hout by (intros d Hd Hr; apply Hx; by exists d).
  rewrite same_but_next by (apply Hout; unfold l; in_list).
  assert (∀ m', load8 (link_back (first_addr l2 0) (c.1 + 24 + c.2) m') x = load8 m' x) as ->.
  { intros m'. destruct l2 as [|d l3]; [done|]. apply link_back_same, Hout. unfold l; in_list. }
  apply same_but_fields. apply (Hout (c.1 + 24 + c.2, bytes)). unfold l; in_list.
Qed.

Lemma insert_spaced bytes l1 c l2 :
  0 ≤ bytes < 2 ^ 31 → bytes mod 8 = 0 → ends 1 (l1 ++ c :: l2) ≤ 2 ^ 62 →
  (∀ d l3, l2 = d :: l3 → c.1 + 48 + c.2 + bytes ≤ d.1) →
  (l2 = [] → ends 1 (l1 ++ [c]) + 24 + bytes ≤ 2 ^ 62) →
  spaced 1 (l1 ++ c :: l2) →
  spaced 1 (l1 ++ c :: (c.1 + 24 + c.2, bytes) :: l2) ∧
  ends 1 (l1 ++ c :: (c.1 + 24 + c.2, bytes) :: l2) ≤ 2 ^ 62.
Proof.
  intros Hbytes Hmod Hb Hroom Hlast (Hs1 & Hc1 & Hc2 & Hc3 & Hs2)%spaced_app.
  rewrite !ends_app in *. cbn [ends fst snd] in *. split.
  - apply spaced_app. split; [done|]. cbn [spaced ends fst snd]. repeat split; try (done || lia).
    destruct l2 as [|d l3]; [done|]. destruct Hs2 as (_ & Hs2). split; [|done].
    specialize (Hroom d l3 eq_refl). lia.
  - destruct l2; [|exact Hb]. specialize (Hlast eq_refl). cbn [ends] in *. lia.
Qed.

Lemma insert_linked bytes l1 c l2 m :
  0 ≤ bytes < 2 ^ 31 →
  spaced 1 (l1 ++ c :: (c.1 + 24 + c.2, bytes) :: l2) →
  ends 1 (l1 ++ c :: (c.1 + 24 + c.2, bytes) :: l2) ≤ 2 ^ 62 →
  linked m 0 (l1 ++ c :: l2) 0 →
  linked (insert_result bytes c.1 (c.1 + 24 + c.2) (first_addr l2 0) m) 0
    (l1 ++ c :: (c.1 + 24 + c.2, bytes) :: l2) 0.
Proof.
  set (new := c.1 + 24 + c.2). intros Hbytes Hs Hb Hl.
  destruct (spaced_apart _ _ _ _ Hs) as [Hc1 [HcB HcC]%(apart_app _ [_])].
  pose proof (spaced_range _ _ _ Hs Hb) as Hcr.
  rewrite (cons_middle c l1 (_ :: l2)), app_assoc in Hs, Hb |- *.
  rewrite (cons_middle c l1 l2), app_assoc in Hl. apply linked_app in Hl as [HlA HlC].
  rewrite last_addr_snoc in HlC.
  destruct (spaced_apart _ _ _ _ Hs) as [HnA HnC]. pose proof (spaced_range _ _ _ Hs Hb) as Hnr.
  rewrite (cons_middle _ (l1 ++ [c]) l2), app_assoc in Hs, Hb.
  destruct (first_addr_apart _ _ Hs Hb) as [HdAB Hfr]. rewrite apart_app in HdAB.
  cbn [fst] in HnA, HnC, Hnr. unfold insert_result. set (m3 := set_chunk_previous _ _ _).
  assert (same_but new m m3) as Hm3 by apply same_but_fields.
  assert (linked m3 c.1 [(new, bytes)] (first_addr l2 0)) as HlB3.
  { cbn [linked first_addr fst snd]. unfold m3. autorewrite with heap. done. }
  apply linked_app. split.
  - cbn [first_addr fst]. apply (linked_set_next _ _ _ _ (first_addr l2 0)); [done|lia|].
    apply linked_link_back_frame; [tauto|]. by eapply chunks_frame.
  - rewrite last_addr_snoc. apply (linked_app _ [(new, bytes)]). cbn [last_addr fst]. split.
    + apply (chunks_frame c.1 (link_back (first_addr l2 0) new m3)); [done|done|].
      apply linked_link_back_frame; [tauto|done].
    + apply (chunks_frame c.1 (link_back (first_addr l2 0) new m3)); [done|done|].
      apply (linked_link_back _ c.1); [lia|by eapply spaced_tail|]. by eapply chunks_frame.
Qed.

Lemma insert_chunk_ok bytes l1 c l2 m root :
  heap_ok root m (l1 ++ c :: l2) → 0 ≤ bytes < 2 ^ 31 → bytes mod 8 = 0 →
  (∀ d l3, l2 = d :: l3 → c.1 + 48 + c.2 + bytes ≤ d.1) →
  (l2 = [] → ends 1 (l1 ++ [c]) + 24 + bytes ≤ 2 ^ 62) →
  let l' := l1 ++ c :: (c.1 + 24 + c.2, bytes) :: l2 in
  ∃ m', insert_chunk bytes c.1 m = Ok (c.1 + 24 + c.2 + 24, m') ∧ heap_ok root m' l' ∧
    ∀ x, ¬ in_header l' x → load8 m' x = load8 m x.
Proof.
  intros [(n & l0 & Hf) Hl Hs Hb Ha] Hbytes Hmod Hroom Hlast l'. eexists.
  destruct (insert_spaced bytes l1 c l2) as [Hs' Hb']; [done..|].
  split; [|split; [|apply insert_frame]].
  - pose proof Hs as (_ & _ & ? & _)%spaced_app. apply linked_app in Hl as (_ & _ & Hn & Hz & _).
    apply insert_chunk_run; [lia|done..].
  - split; [|by apply insert_linked|done|done|].
    + destruct l1; cbn [app] in *; injection Hf as -> _; unfold l'; eauto.
    + intros d Hd. unfold l' in Hd. destruct (decide (d = (c.1 + 24 + c.2, bytes))) as [->|Hne];
        [|apply Ha; in_list].
      pose proof Hs as (_ & _ & _ & ? & _)%spaced_app. specialize (Ha c ltac:(in_list)).
      cbn [fst]. divmod_lia.
Qed.

(** ** The place of a new block

    [allocate_chunks n c l] is what [memory_allocate] does to the list of
    chunks [c :: l]: the new block goes behind the first chunk that is followed
    by more than [n + 24] free bytes ([wide]) or by nothing. This is not first
    fit: line 58 compares with [>], so a gap that the header and the block
    would fill exactly is passed over. *)

Fixpoint allocate_chunks (n : Z) (c : Z * Z) l : Z * list (Z * Z) :=
  let new := c.1 + 24 + c.2 in
  match l with
  | [] => (new, [c; (new, n)])
  | d :: l' =>
      if decide (n + 48 < d.1 - (c.1 + c.2)) then (new, c :: (new, n) :: l)
      else let '(a, r) := allocate_chunks n d l' in (a, c :: r)
  end.

(** The free bytes between a block and the chunk behind it. *)
Definition gap (c d : Z * Z) : Z := d.1 - (c.1 + 24 + c.2).

(** Behind the chunk [c] is nothing, or more than a header and [n] bytes. *)
Definition wide (n : Z) (c : Z * Z) (l : list (Z * Z)) : Prop :=
  match l with [] => True | d :: _ => n + 24 < gap c d end.

(** No gap between the chunks of [l] is wide. *)
Fixpoint all_narrow (n : Z) (l : list (Z * Z)) : Prop :=
  match l with
  | c :: (d :: _) as l' => gap c d ≤ n + 24 ∧ all_narrow n l'
  | _ => True
  end.

Lemma allocate_chunks_rule n l : ∀ c a l', allocate_chunks n c l = (a, l') →
  ∃ l1 e l2, c :: l = l1 ++ e :: l2 ∧ l' = l1 ++ e :: (a, n) :: l2 ∧ a = e.1 + 24 + e.2 ∧
    wide n e l2 ∧ all_narrow n (l1 ++ [e]).
Proof.
  induction l as [|d l IH]; intros c a l' H; cbn [allocate_chunks] in H.
  - injection H as <- <-. by exists [], c, [].
  - case_decide as Hd.
    + injection H as <- <-. exists [], c, (d :: l). do 3 (split; [done|]). split; [|done]. unfold wide, gap. lia.
    + destruct (allocate_chunks n d l) as [a1 r] eqn:E. injection H as <- <-.
      destruct (IH d a1 r E) as (l1 & e & l2 & H1 & -> & H3 & H4 & H5).
      exists (c :: l1), e, l2. cbn [app]. rewrite H1. do 4 (split; [done|]).
      assert (∃ y, l1 ++ [e] = d :: y) as [y Ey] by (destruct l1 as [|x l1]; injection H1 as -> _; by eexists).
      rewrite Ey in H5 |- *. split; [unfold gap; lia|exact H5].
Qed.

Lemma chunk_has_room_spec n c l2 l1 :
  0 ≤ n < 2 ^ 31 → spaced 1 (l1 ++ c :: l2) → ends 1 (l1 ++ c :: l2) ≤ 2 ^ 62 →
  chunk_has_room n (first_addr l2 0) c.1 c.2 = true ↔
  ∀ d l3, l2 = d :: l3 → n + 48 < d.1 - (c.1 + c.2).
Proof.
  intros Hn Hs Hb. unfold chunk_has_room, sizeof_memory_chunk.
  destruct l2 as [|d l3]; cbn [first_addr]; [split; [done|done]|].
  pose proof Hs as (_ & Hc & Hc2 & _ & Hd & _)%spaced_app.
  rewrite cons_middle, app_assoc in Hs, Hb. pose proof (spaced_range _ _ _ Hs Hb).
  rewrite (proj2 (Z.eqb_neq d.1 0)) by lia. cbn [orb].
  pose proof (ends_ge l1 1) as Hge. pose proof Hs as [[Hs1 _]%spaced_app _]%spaced_app.
  specialize (Hge Hs1).
  rewrite (u64_small n), !u64_small, Z.ltb_lt by lia. split; [|intros H1; specialize (H1 d l3 eq_refl); lia].
  intros H1 d' l' [= <- <-]. lia.
Qed.

Lemma allocate_loop_ok root n : ∀ l2 l1 c m fuel,
  heap_ok root m (l1 ++ c :: l2) → 0 ≤ n < 2 ^ 31 → n mod 8 = 0 →
  ends 1 (l1 ++ c :: l2) + 24 + n ≤ 2 ^ 62 → (length (c :: l2) ≤ fuel)%nat →
  let r := allocate_chunks n c l2 in
  ∃ m', allocate_loop fuel n c.1 m = Ok (r.1 + 24, m') ∧ heap_ok root m' (l1 ++ r.2) ∧
    ∀ x, ¬ in_header (l1 ++ r.2) x → load8 m' x = load8 m x.
Proof.
  induction l2 as [|d l3 IH]; intros l1 c m [|fuel] Hh Hn Hmod Hend Hfuel; cbn [length] in Hfuel; [lia| |lia|];
    pose proof Hh as [Hf Hl Hs Hb _];
    pose proof (spaced_range _ _ _ Hs Hb);
    pose proof (chunk_has_room_spec n c _ l1 Hn Hs Hb) as Hroom;
    pose proof Hl as (_ & _ & Hnext & Hsize & _)%linked_app;
    cbn [allocate_loop]; rewrite (proj2 (Z.eqb_neq c.1 0)) by lia; mstep; rewrite Hnext; mstep; rewrite Hsize.
  - rewrite (proj2 Hroom) by done. apply insert_chunk_ok; [done..|]. intros _. lia.
  - cbn [allocate_chunks]. case_decide as Hd.
    + rewrite (proj2 Hroom) by (intros ? ? [= <- <-]; done). apply insert_chunk_ok; [done..| |done].
      intros ? ? [= <- <-]. lia.
    + destruct (chunk_has_room _ _ _ _) eqn:E; [destruct (Hd (proj1 Hroom eq_refl d l3 eq_refl))|].
      rewrite cons_middle, app_assoc in Hh, Hend.
      destruct (IH _ _ _ fuel Hh Hn Hmod Hend) as (m' & Hrun & Hok & Hx); [cbn; lia|].
      destruct (allocate_chunks n d l3) as [a r]. cbn [fst snd] in *.
      rewrite <- app_assoc in Hok, Hx. by exists m'.
Qed.

Lemma allocate_chunks_perm n : ∀ l c,
  (allocate_chunks n c l).2 ≡ₚ ((allocate_chunks n c l).1, n) :: c :: l.
Proof.
  induction l as [|d l IH]; intros c; cbn [allocate_chunks]; [apply perm_swap|].
  case_decide; [apply perm_swap|]. specialize (IH d). destruct (allocate_chunks n d l) as [a r].
  cbn [fst snd] in *. rewrite IH. apply perm_swap.
Qed.

(** ** What the invariant gives to the users of the blocks *)

Lemma spaced_disjoint l : ∀ lo c d x,
  spaced lo l → c ∈ l → d ∈ l → c ≠ d →
  c.1 ≤ x < c.1 + 24 + c.2 → ¬ (d.1 ≤ x < d.1 + 24 + d.2).
Proof.
  induction l as [|e l IH]; intros lo c d x Hs Hc Hd Hne Hx; [by apply not_elem_of_nil in Hc|].
  destruct Hs as (_ & ? & _ & Hs).
  apply elem_of_cons in Hc as [->|Hc]; apply elem_of_cons in Hd as [->|Hd].
  - done.
  - pose proof (spaced_elem _ _ _ Hs Hd). lia.
  - pose proof (spaced_elem _ _ _ Hs Hc). lia.
  - exact (IH _ c d x Hs Hc Hd Hne Hx).
Qed.

Lemma spaced_nodup l : ∀ lo, spaced lo l → NoDup l.*1.
Proof.
  induction l as [|c l IH]; intros lo Hs; cbn; [constructor|]. destruct Hs as (_ & ? & _ & Hs).
  constructor; [|by eapply IH]. intros (d & Hd & Hin)%list_elem_of_fmap.
  pose proof (spaced_elem _ _ _ Hs Hin). lia.
Qed.

Lemma heap_nodup root m l : heap_ok root m l → NoDup l.
Proof. intros Hh. eapply NoDup_fmap_1, spaced_nodup, (heap_spaced _ _ _ Hh). Qed.

Lemma block_not_header root m l c x :
  heap_ok root m l → c ∈ l → in_block c x → ¬ in_header l x.
Proof.
  intros Hh Hc Hx (d & Hd & Hdx). destruct (decide (c = d)) as [->|Hne].
  - unfold in_block in Hx. lia.
  - pose proof (heap_spaced _ _ _ Hh) as Hs.
    pose proof (spaced_elem _ _ _ Hs Hc). pose proof (spaced_elem _ _ _ Hs Hd).
    eapply (spaced_disjoint _ _ c d x Hs Hc Hd Hne); unfold in_block in *; lia.
Qed.

Lemma new_block_disjoint root m l l' c d x :
  heap_ok root m l' → l' ≡ₚ c :: l → d ∈ l → in_block c x → ¬ (d.1 ≤ x < d.1 + 24 + d.2).
Proof.
  intros Hh Hperm Hd Hx. pose proof (heap_nodup _ _ _ Hh) as Hnd. rewrite Hperm in Hnd.
  apply list.NoDup_cons in Hnd as [Hc _]. unfold in_block in Hx.
  apply (spaced_disjoint _ _ c d x (heap_spaced _ _ _ Hh)); [| | |lia].
  - rewrite Hperm. left.
  - rewrite Hperm. by right.
  - by intros ->.
Qed.

(** The body of another block is not touched by an operation that leaves
    everything but the headers alone. *)
Definition keeps_blocks l m m' : Prop :=
  ∀ c x, c ∈ l → in_block c x → load8 m' x = load8 m x.

(** ** Removal *)

Definition free_result (previous next : Z) m : mem :=
  link_back next previous (set_chunk_next previous next m).

Lemma memory_free_run m l1 p c l2 :
  spaced 1 (l1 ++ p :: c :: l2) → ends 1 (l1 ++ p :: c :: l2) ≤ 2 ^ 62 →
  linked m 0 (l1 ++ p :: c :: l2) 0 →
  memory_free (c.1 + 24) m = Ok (tt, free_result p.1 (first_addr l2 0) m).
Proof.
  intros Hs Hb Hl. pose proof (spaced_range _ _ _ Hs Hb) as Hp.
  destruct (spaced_apart _ _ _ _ Hs) as [_ Hpc]. specialize (Hpc c ltac:(in_list)).
  apply linked_app in Hl as (_ & _ & _ & _ & Hprev & Hnext & _).
  destruct (header_same m (set_chunk_next p.1 (first_addr l2 0) m) c.1) as (Hn1 & Hp1 & _).
  { intros x Hx. apply same_but_next. lia. }
  unfold memory_free, sizeof_memory_chunk. replace (c.1 + 24 - 24) with c.1 by lia.
  mstep. rewrite Hprev, (proj2 (truthy_spec p.1)) by lia. mstep. rewrite Hnext, Hn1, Hnext.
  unfold free_result, link_back. destruct (truthy (first_addr l2 0)); [|done].
  unfold modify. by rewrite Hp1, Hprev.
Qed.

Lemma free_linked m l1 p c l2 :
  spaced 1 (l1 ++ p :: l2) → ends 1 (l1 ++ p :: l2) ≤ 2 ^ 62 →
  linked m 0 (l1 ++ p :: c :: l2) 0 →
  linked (free_result p.1 (first_addr l2 0) m) 0 (l1 ++ p :: l2) 0.
Proof.
  intros Hs Hb Hl. pose proof (spaced_range _ _ _ Hs Hb) as Hp.
  destruct (spaced_apart _ _ _ _ Hs) as [Hp1 Hp2].
  rewrite cons_middle, app_assoc in Hs, Hb |- *. rewrite (cons_middle p), app_assoc in Hl.
  apply linked_app in Hl as [Hl1 (_ & _ & _ & Hl2)].
  destruct (first_addr_apart _ _ Hs Hb) as [Hd Hr].
  apply linked_app. rewrite last_addr_snoc. unfold free_result. split.
  - apply linked_link_back_frame; [done|]. by eapply linked_set_next.
  - apply (linked_link_back _ c.1); [lia|by eapply spaced_tail|]. by eapply chunks_frame.
Qed.

Lemma free_frame m l1 p l2 x :
  ¬ in_header (l1 ++ p :: l2) x →
  load8 (free_result p.1 (first_addr l2 0) m) x = load8 m x.
Proof.
  intros Hx. assert (∀ d, d ∈ l1 ++ p :: l2 → ¬ (d.1 ≤ x < d.1 + 24)) as Hout
    by (intros d Hd Hr; apply Hx; by exists d).
  unfold free_result. transitivity (load8 (set_chunk_next p.1 (first_addr l2 0) m) x).
  - destruct l2 as [|d l3]; [done|]. apply link_back_same, Hout. in_list.
  - apply same_but_next, Hout. in_list.
Qed.

Lemma removed_spaced l1 p c l2 :
  spaced 1 (l1 ++ p :: c :: l2) →
  spaced 1 (l1 ++ p :: l2) ∧ ends 1 (l1 ++ p :: l2) ≤ ends 1 (l1 ++ p :: c :: l2).
Proof.
  rewrite !(cons_middle p l1), !app_assoc. intros (Hs & Hc & Hcs & _ & Hs2)%spaced_app.
  rewrite ends_app in Hc. rewrite spaced_app, !ends_app. split.
  - split; [done|]. eapply spaced_weaken; [|done]. lia.
  - cbn [ends] in *. eapply ends_le_weaken; [done|lia|lia].
Qed.

(** A chunk other than the head has a predecessor. *)
Lemma chunk_split root m l c :
  heap_ok root m l → c ∈ l → c.1 ≠ root → ∃ l1 p l2, l = l1 ++ p :: c :: l2.
Proof.
  intros Hh (l1 & l2 & ->)%list_elem_of_split Hc. destruct (heap_first _ _ _ Hh) as (n & l' & Hf).
  destruct l1 as [|p l1 _] using rev_ind; [by injection Hf as ->|].
  exists l1, p, l2. by rewrite <- app_assoc.
Qed.

(** The list without the chunk at [a]. *)
Definition without (a : Z) l := filter (λ c : Z * Z, c.1 ≠ a) l.

Lemma filter_all {A} (P : A → Prop) `{∀ x, Decision (P x)} (l : list A) :
  (∀ x, x ∈ l → P x) → filter P l = l.
Proof.
  induction l as [|x l IH]; intros Hp; [done|].
  rewrite filter_cons_True by (apply Hp; left). f_equal. apply IH. intros y Hy. apply Hp. by right.
Qed.

Lemma without_split l1 c l2 : NoDup (l1 ++ c :: l2).*1 → without c.1 (l1 ++ c :: l2) = l1 ++ l2.
Proof.
  rewrite fmap_app. intros (_ & H1 & [H2 _]%list.NoDup_cons)%list.NoDup_app.
  unfold without. rewrite list.filter_app, filter_cons_False by naive_solver.
  f_equal; apply filter_all; intros d Hd Heq.
  - apply (H1 d.1); [by apply list_elem_of_fmap_2|]. rewrite Heq. left.
  - apply H2. rewrite <- Heq. by apply list_elem_of_fmap_2.
Qed.

Lemma without_notin a l : a ∉ l.*1 → without a l = l.
Proof. intros Ha. apply filter_all. intros c Hc <-. apply Ha. by apply list_elem_of_fmap_2. Qed.

Lemma allocate_chunks_without n : ∀ l c,
  (allocate_chunks n c l).1 ∉ (c :: l).*1 →
  without (allocate_chunks n c l).1 (allocate_chunks n c l).2 = c :: l.
Proof.
  assert (∀ c a l, a ∉ (c :: l).*1 → without a (c :: (a, n) :: l) = c :: l) as Hnew.
  { intros c a l Ha. unfold without. rewrite filter_cons_True, filter_cons_False.
    - f_equal. apply without_notin. intros H. apply Ha. by right.
    - naive_solver.
    - intros <-. apply Ha. left. }
  induction l as [|d l IH]; intros c; cbn [allocate_chunks]; [apply Hnew|].
  case_decide; [apply Hnew|]. specialize (IH d).
  destruct (allocate_chunks n d l) as [a r]. cbn [fst snd] in *. intros Ha.
  unfold without in *. rewrite filter_cons_True.
  - f_equal. apply IH. intros H'. apply Ha. by right.
  - intros <-. apply Ha. left.
Qed.

Lemma memory_free_ok root m l c :
  heap_ok root m l → c ∈ l → c.1 ≠ root →
  ∃ m', memory_free (c.1 + 24) m = Ok (tt, m') ∧ heap_ok root m' (without c.1 l) ∧
    ∀ x, ¬ in_header (without c.1 l) x → load8 m' x = load8 m x.
Proof.
  intros Hh Hc Hr. pose proof (spaced_nodup _ _ (heap_spaced _ _ _ Hh)) as Hnd.
  destruct (chunk_split _ _ _ _ Hh Hc Hr) as (l1 & p & l2 & ->).
  assert (without c.1 (l1 ++ p :: c :: l2) = l1 ++ p :: l2) as ->.
  { rewrite cons_middle, app_assoc in *. rewrite without_split by done. by rewrite <- app_assoc. }
  destruct Hh as [(n & l0 & Hf) Hl Hs Hb Ha]. destruct (removed_spaced _ _ _ _ Hs) as [Hs' Hb'].
  eexists. split; [by apply (memory_free_run _ l1 p c l2)|]. split; [|intros x; apply free_frame].
  split; [|apply (free_linked _ _ _ c); [done|lia|done]|done|lia|].
  - destruct l1; cbn [app] in *; injection Hf as -> _; eauto.
  - intros d Hd. apply Ha. in_list.
Qed.

(** ** The operations *)

Lemma memory_allocate_ok root fuel m c r bytes :
  heap_ok root m (c :: r) → 0 ≤ bytes < 2 ^ 31 - 8 → ends 1 (c :: r) + 24 + (bytes + 7) ≤ 2 ^ 62 →
  (length (c :: r) ≤ fuel)%nat →
  ∃ a m' l', allocate_chunks (align_to_next_int bytes) c r = (a, l') ∧
    memory_allocate root fuel bytes m = Ok (a + 24, m') ∧ heap_ok root m' l' ∧
    l' ≡ₚ (a, align_to_next_int bytes) :: c :: r ∧ without a l' = c :: r ∧
    ∀ x, ¬ in_header l' x → load8 m' x = load8 m x.
Proof.
  intros Hh Hb Hend Hfuel. destruct (align_to_next_int_spec bytes Hb) as [Ha Hle].
  set (n := align_to_next_int bytes) in *.
  destruct (heap_first _ _ _ Hh) as (n0 & r' & Hcr). injection Hcr as Hc <-.
  destruct (allocate_loop_ok root n r [] c m fuel Hh) as (m' & Hrun & Hok & Hx);
    [lia|rewrite Ha; divmod_lia|cbn [app]; lia|exact Hfuel|].
  pose proof (allocate_chunks_perm n r c) as Hperm.
  pose proof (allocate_chunks_without n r c) as Hwithout. cbn [app] in *.
  destruct (allocate_chunks n c r) as [a l']. cbn [fst snd] in *.
  exists a, m', l'. unfold memory_allocate. fold n. rewrite Hc in Hrun. cbn [fst] in Hrun.
  split_and!; [done|exact Hrun|done|done| |done]. apply Hwithout.
  pose proof (spaced_nodup _ _ (heap_spaced _ _ _ Hok)) as Hnd. rewrite Hperm in Hnd.
  by apply list.NoDup_cons in Hnd as [? _].
Qed.

Lemma keeps_blocks_frame root l l' m m' :
  heap_ok root m' l' → (∀ c, c ∈ l → c ∈ l') →
  (∀ x, ¬ in_header l' x → load8 m' x = load8 m x) → keeps_blocks l m m'.
Proof. intros Hh Hsub Hx c x Hc Hb. apply Hx. eapply block_not_header; eauto. Qed.

Lemma linked_ext m m' l : ∀ p n,
  (∀ x, in_header l x → load8 m' x = load8 m x) → linked m p l n → linked m' p l n.
Proof.
  induction l as [|d l IH]; intros p n H; cbn [linked]; [done|].
  destruct (header_same m m' d.1) as (-> & -> & ->).
  { intros x Hx. apply H. exists d. split; [left|done]. }
  intros (? & ? & ? & ?). repeat split; [done..|]. apply IH; [|done].
  intros x (e & He & Hx). apply H. exists e. split; [by right|done].
Qed.

Lemma heap_ok_ext root m m' l :
  heap_ok root m l → (∀ x, in_header l x → load8 m' x = load8 m x) → heap_ok root m' l.
Proof. intros [? Hl ? ? ?] H. split; try done. by eapply linked_ext. Qed.

(** Writing the body of one block leaves the list and the other blocks alone. *)
Lemma write_block_ok root m m' l c :
  heap_ok root m l → c ∈ l → (∀ x, ¬ in_block c x → load8 m' x = load8 m x) →
  heap_ok root m' l.
Proof.
  intros Hh Hc Hx. eapply heap_ok_ext; [done|]. intros x Hin. apply Hx. intros Hb.
  by apply (block_not_header _ _ _ _ _ Hh Hc Hb).
Qed.

(** Growing or shrinking the last block in place. *)
Lemma resize_last_ok root m l c n :
  heap_ok root m (l ++ [c]) → 0 ≤ n < 2 ^ 31 → n mod 8 = 0 → ends 1 (l ++ [c]) + 24 + n ≤ 2 ^ 62 →
  heap_ok root (set_chunk_size c.1 n m) (l ++ [(c.1, n)]).
Proof.
  intros [(n0 & l0 & Hf) Hl Hs Hb Ha] Hn Hmod Hend. split.
  - destruct l; cbn [app] in *; injection Hf; intros; subst; eauto.
  - destruct (spaced_apart _ _ _ _ Hs) as [Hc _]. by apply linked_set_size.
  - apply spaced_app in Hs as (Hs & Hc & _). apply spaced_app. split; [done|]. by cbn.
  - apply spaced_app in Hs as (_ & _ & ? & _). rewrite ends_app in *. cbn [ends fst snd] in *. lia.
  - intros d Hd. destruct (decide (d = (c.1, n))) as [->|Hne]; [|apply Ha; in_list].
    apply (Ha c). in_list.
Qed.

Lemma memory_resize_last_run root fuel m l c bytes :
  linked m 0 (l ++ [c]) 0 →
  memory_resize root fuel (c.1 + 24) bytes m =
    Ok (c.1 + 24, set_chunk_size c.1 (align_to_next_int bytes) m).
Proof.
  intros (_ & _ & Hn & _ & _)%linked_app. unfold memory_resize, sizeof_memory_chunk.
  replace (c.1 + 24 - 24) with c.1 by lia. mstep. by rewrite Hn.
Qed.

(** A block that is followed by another is always moved: the second half of
    the test of line 99 never holds. *)
Lemma memory_resize_move_run root fuel m l1 c d l2 bytes :
  spaced 1 (l1 ++ c :: d :: l2) → linked m 0 (l1 ++ c :: d :: l2) 0 →
  memory_resize root fuel (c.1 + 24) bytes m =
    (let! p := memory_allocate root fuel (align_to_next_int bytes) in
     modify (λ m, memory_copy m (c.1 + 24) p (align_to_next_int bytes)) ;;;
     memory_free (c.1 + 24) ;;; ret p) m.
Proof.
  intros (Hs1 & Hc & ? & _ & Hd & _)%spaced_app (_ & _ & Hn & Hz & _)%linked_app.
  apply ends_ge in Hs1. unfold memory_resize, sizeof_memory_chunk.
  replace (c.1 + 24 - 24) with c.1 by lia. mstep. rewrite Hn, Hz. cbn [first_addr].
  rewrite (proj2 (Z.eqb_neq d.1 0)), (proj2 (Z.leb_gt d.1 (c.1 + c.2))) by lia. done.
Qed.

(** What [memory_resize] promises about the block [c]. *)
Definition resized root m l c bytes (p : Z) m' l' : Prop :=
  heap_ok root m' l' ∧ l' ≡ₚ (p - 24, (bytes + 7) / 8 * 8) :: without c.1 l ∧
  (∀ i, 0 ≤ i < Z.min c.2 bytes → load8 m' (p + i) = load8 m (c.1 + 24 + i)) ∧
  keeps_blocks (without c.1 l) m m'.

Lemma elem_of_without a l d : d ∈ without a l ↔ d ∈ l ∧ d.1 ≠ a.
Proof. unfold without. rewrite list_elem_of_filter. tauto. Qed.

Lemma resize_last root m l c bytes :
  heap_ok root m (l ++ [c]) → 0 ≤ bytes < 2 ^ 31 - 16 → ends 1 (l ++ [c]) + 64 + bytes ≤ 2 ^ 62 →
  resized root m (l ++ [c]) c bytes (c.1 + 24) (set_chunk_size c.1 (align_to_next_int bytes) m)
    (l ++ [(c.1, align_to_next_int bytes)]).
Proof.
  intros Hh Hb Hend. destruct (align_to_next_int_spec bytes) as [Ha Hle]; [lia|].
  pose proof (spaced_nodup _ _ (heap_spaced _ _ _ Hh)) as Hnd.
  assert (heap_ok root (set_chunk_size c.1 (align_to_next_int bytes) m)
    (l ++ [(c.1, align_to_next_int bytes)])) as Hh'.
  { apply resize_last_ok; [done|lia|rewrite Ha; divmod_lia|lia]. }
  split_and!; [done| | |].
  - rewrite (without_split l c []), app_nil_r, <- Ha by done.
    replace (c.1 + 24 - 24) with c.1 by lia. by rewrite <- Permutation_cons_append.
  - intros i Hi. apply same_but_size. lia.
  - rewrite (without_split l c []), app_nil_r by done. intros d x Hd Hx. apply same_but_size.
    intros Hcx. apply (block_not_header _ _ _ d x Hh); [in_list|done|]. exists c. split; [in_list|done].
Qed.

(** A moved block: [m1] and [l1] after the allocation of the chunk [(a, n)],
    [m3] after the copy and the release of [c]. *)
Lemma resize_move root m m1 m3 l l1 c a n bytes :
  c ∈ l → bytes ≤ n → n = (bytes + 7) / 8 * 8 →
  heap_ok root m1 l1 → l1 ≡ₚ (a, n) :: l →
  (∀ x, ¬ in_header l1 x → load8 m1 x = load8 m x) →
  heap_ok root m3 (without c.1 l1) →
  (∀ x, ¬ in_header (without c.1 l1) x →
    load8 m3 x = load8 (memory_copy m1 (c.1 + 24) (a + 24) n) x) →
  resized root m l c bytes (a + 24) m3 (without c.1 l1).
Proof.
  intros Hc Hn Hnb H1 Hperm Hx1 H3 Hx3.
  pose proof (spaced_nodup _ _ (heap_spaced _ _ _ H1)) as Hnd. rewrite Hperm in Hnd.
  apply list.NoDup_cons in Hnd as [Hna _]. cbn [fst] in Hna.
  assert (a ≠ c.1) as Hac by (intros ->; apply Hna; by apply list_elem_of_fmap_2).
  assert (∀ d, d ∈ l → d ∈ l1) as Hsub by (intros d Hd; rewrite Hperm; by right).
  assert ((a, n) ∈ without c.1 l1) as Hin by (apply elem_of_without; rewrite Hperm; split; [left|done]).
  assert (∀ d x, d ∈ l → in_block d x → ¬ (a + 24 ≤ x < a + 24 + n)) as Hdis.
  { intros d x Hd Hx Hr. apply (new_block_disjoint _ _ _ _ _ _ x H1 Hperm Hd); [|unfold in_block in Hx; lia].
    unfold in_block. cbn [fst snd]. lia. }
  assert (keeps_blocks l m m1) as Hk1 by (by eapply keeps_blocks_frame).
  split_and!; [done| | |].
  - replace (a + 24 - 24) with a by lia. rewrite <- Hnb. unfold without. rewrite Hperm.
    by rewrite filter_cons_True.
  - intros i Hi. assert (in_block c (c.1 + 24 + i)) as Hb by (unfold in_block; lia).
    rewrite Hx3, load8_memory_copy_in by (lia || (by eapply Hdis) ||
      (eapply block_not_header; [exact H3|exact Hin|]; unfold in_block; cbn [fst snd]; lia)).
    by apply (Hk1 c).
  - intros d x Hd Hx. pose proof Hd as [Hd1 Hd2]%elem_of_without.
    rewrite Hx3, load8_memory_copy_out by ((by eapply Hdis) ||
      (eapply block_not_header; [exact H3| |exact Hx]; apply elem_of_without; auto)).
    by apply (Hk1 d).
Qed.

Section Heap.
Context (memory_chunk : Z).

(** C14. [memory_allocate] puts the new block behind the first chunk that is followed by more than
    24 bytes plus the rounded size, or by nothing; all gaps before are at most so large, and one that header
    and block would fill exactly is passed over. It returns the body of the new chunk, never null, aligned
    like the list's head; the list stays well formed, the new block overlaps no other one, and no byte
    outside the headers changes. *)
Theorem memory_allocate_spec fuel m l bytes :
  heap_ok memory_chunk m l → 0 ≤ bytes < 2 ^ 31 - 8 → ends 1 l + 24 + (bytes + 7) ≤ 2 ^ 62 →
  (length l ≤ fuel)%nat →
  ∃ p m' l', memory_allocate memory_chunk fuel bytes m = Ok (p, m') ∧
    heap_ok memory_chunk m' l' ∧
    (∃ l1 c l2, l = l1 ++ c :: l2 ∧ l' = l1 ++ c :: (p - 24, (bytes + 7) / 8 * 8) :: l2 ∧
      p - 24 = c.1 + 24 + c.2 ∧ wide ((bytes + 7) / 8 * 8) c l2 ∧ all_narrow ((bytes + 7) / 8 * 8) (l1 ++ [c])) ∧
    l' ≡ₚ (p - 24, (bytes + 7) / 8 * 8) :: l ∧ p ≠ 0 ∧ (p - memory_chunk) mod 8 = 0 ∧
    (∀ c x, c ∈ l → p ≤ x < p + bytes → ¬ (c.1 ≤ x < c.1 + 24 + c.2)) ∧
    (∀ x, ¬ in_header l' x → load8 m' x = load8 m x) ∧ keeps_blocks l m m'.
Proof.
  intros Hh Hb Hend Hfuel. destruct (heap_first _ _ _ Hh) as (n0 & r & ->).
  destruct (memory_allocate_ok _ fuel _ _ _ _ Hh Hb Hend Hfuel)
    as (a & m' & l' & Hchunks & Hrun & Hok & Hperm & _ & Hx).
  destruct (align_to_next_int_spec bytes Hb) as [Ha Hle]. rewrite Ha in *.
  set (n := (bytes + 7) / 8 * 8) in *. set (c := (memory_chunk, n0)) in *.
  exists (a + 24), m', l'. replace (a + 24 - 24) with a by lia.
  assert ((a, n) ∈ l') as Hin by (rewrite Hperm; left).
  assert (∀ d, d ∈ c :: r → d ∈ l') as Hsub by (intros d Hd; rewrite Hperm; by right).
  pose proof (spaced_elem _ _ _ (heap_spaced _ _ _ Hok) Hin) as Hel. cbn [fst snd] in Hel.
  split_and!; [exact Hrun|done|exact (allocate_chunks_rule _ _ _ _ _ Hchunks)|done|lia| | |done|by eapply keeps_blocks_frame].
  - pose proof (heap_aligned _ _ _ Hok _ Hin). cbn [fst] in *. divmod_lia.
  - intros d x Hd Hxr. apply (new_block_disjoint _ _ _ _ _ _ _ Hok Hperm Hd).
    unfold in_block. cbn [fst snd]. lia.
Qed.

(** [memory_free] of a block that is in use takes exactly its chunk off the list: the list
    stays well formed and the contents of every other block are kept. *)
Theorem memory_free_spec m l c :
  heap_ok memory_chunk m l → c ∈ l → c.1 ≠ memory_chunk →
  ∃ m', memory_free (c.1 + 24) m = Ok (tt, m') ∧ heap_ok memory_chunk m' (without c.1 l) ∧
    keeps_blocks (without c.1 l) m m'.
Proof.
  intros Hh Hc Hne. destruct (memory_free_ok _ _ _ _ Hh Hc Hne) as (m' & Hrun & Hok & Hx).
  exists m'. split_and!; [done|done|]. by eapply keeps_blocks_frame.
Qed.

(** Allocating a block and freeing it gives back the list of chunks, with the
    contents of every block. *)
Theorem memory_allocate_free_roundtrip fuel m l bytes :
  heap_ok memory_chunk m l → 0 ≤ bytes < 2 ^ 31 - 8 → ends 1 l + 24 + (bytes + 7) ≤ 2 ^ 62 →
  (length l ≤ fuel)%nat →
  ∃ m', (let! p := memory_allocate memory_chunk fuel bytes in memory_free p) m = Ok (tt, m') ∧
    heap_ok memory_chunk m' l ∧ keeps_blocks l m m'.
Proof.
  intros Hh Hb Hend Hfuel. destruct (heap_first _ _ _ Hh) as (n0 & r & ->).
  destruct (memory_allocate_ok _ fuel _ _ _ _ Hh Hb Hend Hfuel)
    as (a & m1 & l' & _ & Hrun & Hok & Hperm & Hwo & Hx).
  destruct (memory_free_ok _ _ _ (a, align_to_next_int bytes) Hok) as (m2 & Hrun2 & Hok2 & Hx2).
  { rewrite Hperm. left. }
  { cbn [fst]. intros ->. pose proof (spaced_nodup _ _ (heap_spaced _ _ _ Hok)) as Hnd.
    rewrite Hperm in Hnd. apply list.NoDup_cons in Hnd as [Hn _]. apply Hn. left. }
  cbn [fst] in *. rewrite Hwo in *. exists m2. rewrite (bind_ok _ _ _ _ _ Hrun).
  split_and!; [done|done|]. intros d x Hd Hdx. rewrite Hx2 by (by eapply block_not_header).
  eapply (keeps_blocks_frame _ (_ :: r)); [exact Hok| |done|exact Hd|done].
  intros e He. rewrite Hperm. by right.
Qed.

(** C30. [memory_resize] gives a block of the new size, in place for the last chunk and moved for
    any other one: the old block is gone, the common part of the contents is the same, and no other
    block changes. *)
Theorem memory_resize_spec fuel m l c bytes :
  heap_ok memory_chunk m l → c ∈ l → c.1 ≠ memory_chunk → 0 ≤ bytes < 2 ^ 31 - 16 →
  ends 1 l + 64 + bytes ≤ 2 ^ 62 → (length l ≤ fuel)%nat →
  ∃ p m' l', memory_resize memory_chunk fuel (c.1 + 24) bytes m = Ok (p, m') ∧
    resized memory_chunk m l c bytes p m' l'.
Proof.
  intros Hh Hc Hne Hb Hend Hfuel. destruct (chunk_split _ _ _ _ Hh Hc Hne) as (l1 & q & [|d l2] & Hl).
  - rewrite cons_middle, app_assoc in Hl. subst l. do 3 eexists.
    split; [eapply memory_resize_last_run; exact (heap_linked _ _ _ Hh)|by apply resize_last].
  - rewrite cons_middle, app_assoc in Hl. destruct (align_to_next_int_spec bytes) as [Ha Hle]; [lia|].
    assert (align_to_next_int (align_to_next_int bytes) = align_to_next_int bytes) as Hidem
      by (apply align_to_next_int_idem; rewrite Ha; divmod_lia).
    destruct (heap_first _ _ _ Hh) as (n0 & r & Hr). rewrite Hr in Hh, Hend, Hfuel.
    destruct (memory_allocate_ok _ fuel _ _ _ (align_to_next_int bytes) Hh)
      as (a & m1 & l' & _ & Hrun & Hok & Hperm & _ & Hx1); [lia|lia|done|].
    rewrite <- Hr in *. rewrite Hidem in *.
    set (m2 := memory_copy m1 (c.1 + 24) (a + 24) (align_to_next_int bytes)).
    assert (heap_ok memory_chunk m2 l') as Hok2.
    { eapply (write_block_ok _ m1 _ _ (a, align_to_next_int bytes)); [done|rewrite Hperm; left|].
      intros x Hx. apply load8_memory_copy_out. unfold in_block in Hx. cbn [fst snd] in Hx. lia. }
    destruct (memory_free_ok _ _ _ c Hok2) as (m3 & Hrun3 & Hok3 & Hx3);
      [rewrite Hperm; by right|done|].
    exists (a + 24), m3, (without c.1 l'). split; cycle 1.
    { eapply (resize_move _ _ m1); [done| |exact Ha|done..]. lia. }
    pose proof Hh as [_ Hlk Hs _ _]. rewrite Hl in Hlk, Hs.
    rewrite (memory_resize_move_run _ _ _ _ _ _ _ _ Hs Hlk), (bind_ok _ _ _ _ _ Hrun). mstep.
    by rewrite (bind_ok _ _ _ _ _ Hrun3).
Qed.
End Heap.

(** ** A heap with two blocks

    The head at 4096 is all zero, then blocks of 8 and 16 bytes are allocated. *)

Definition two_blocks : mem :=
  match (memory_allocate 4096 9 5 ;;; memory_allocate 4096 9 16) ∅ with
  | Ok (_, m) => m
  | _ => ∅
  end.

Definition two_chunks : list (Z * Z) := [(4096, 0); (4120, 8); (4152, 16)].

Lemma two_blocks_ok : heap_ok 4096 two_blocks two_chunks.
Proof.
  split; [by do 2 eexists|by vm_compute|by vm_compute|by vm_compute|].
  intros c Hc. repeat (apply elem_of_cons in Hc as [->|Hc]; [by vm_compute|]).
  by apply not_elem_of_nil in Hc.
Qed.

Lemma memory_allocate_spec_witness :
  ∃ p m', memory_allocate 4096 3 24 two_blocks = Ok (p, m') ∧ p ≠ 0 ∧ keeps_blocks two_chunks two_blocks m'.
Proof.
  destruct (memory_allocate_spec 4096 3 two_blocks two_chunks 24 two_blocks_ok)
    as (p & m' & l' & Hrun & _ & _ & _ & Hp & _ & _ & _ & Hk); [lia|by vm_compute|by vm_compute; lia|].
  exists p, m'. split; [exact Hrun|]. split; [exact Hp|exact Hk].
Defined.

Lemma memory_free_spec_witness :
  ∃ m', memory_free 4144 two_blocks = Ok (tt, m') ∧ heap_ok 4096 m' [(4096, 0); (4152, 16)].
Proof.
  destruct (memory_free_spec 4096 two_blocks two_chunks (4120, 8) two_blocks_ok) as (m' & Hrun & Hh & _);
    [right; left|done|]. exists m'. split; [exact Hrun|exact Hh].
Defined.

Lemma memory_allocate_free_roundtrip_witness :
  ∃ m', (let! p := memory_allocate 4096 3 24 in memory_free p) two_blocks = Ok (tt, m') ∧
    heap_ok 4096 m' two_chunks.
Proof.
  destruct (memory_allocate_free_roundtrip 4096 3 two_blocks two_chunks 24 two_blocks_ok)
    as (m' & Hrun & Hh & _); [lia|by vm_compute|by vm_compute; lia|]. exists m'. split; [exact Hrun|exact Hh].
Defined.

Lemma memory_resize_spec_witness :
  ∃ p m' l', memory_resize 4096 3 4144 40 two_blocks = Ok (p, m') ∧
    resized 4096 two_blocks two_chunks (4120, 8) 40 p m' l'.
Proof.
  apply (memory_resize_spec 4096 3 two_blocks two_chunks (4120, 8) 40 two_blocks_ok);
    [right; left|done|lia|by vm_compute|by vm_compute; lia].
Defined.

(** ** Observations *)

(** A gap that has exactly the size of the block and its header is not used:
    line 58 asks for more than two headers beside the block, measured from the
    end of the header in front. A freed block is not used again for the same
    size. *)
Example freed_block_not_reused :
  ∃ m, (let! a := memory_allocate 4096 9 8 in
        memory_allocate 4096 9 8 ;;;
        memory_free a ;;;
        let! b := memory_allocate 4096 9 8 in ret (a, b)) ∅ = Ok ((4144, 4208), m).
Proof. eexists. vm_compute. reflexivity. Qed.
