(* ===== verification/Lock.v ===== *)
(** * Spin locks

    Models [src/src/common/lock.c]. [lock cmpxchg] is a function on the value
    of the lock word; [lock_try_acquire], [lock_acquire] and [lock_release] are
    given as one CPU executes them alone, and then as the step relation of any
    number of CPUs that contend for one lock around a critical section that
    increments a shared counter, as [memory_physical.c] does with
    [used_physical_pages]. *)

From stdpp Require Import relations functions.
From S2P Require Import Prelude.

Open Scope Z_scope.

(** [cmpxchg]: compares the accumulator with the operand in memory; gives the
    accumulator and the memory operand afterwards. *)
Definition cmpxchg (accumulator operand source : Z) : Z * Z :=
  if operand =? accumulator then (accumulator, source) else (operand, operand).

Definition lock_try_acquire (lock_state : Z) : Z * Z :=
  let '(compare_value, lock_state) := cmpxchg 0 lock_state 1 in
  ((if compare_value =? 0 then 1 else 0), lock_state).

(** With no other CPU running, a lock that is taken is never released: the
    inner loop [while ( *lock_state )] spins forever. *)
Definition lock_acquire (lock_state : Z) : outcome Z :=
  let '(compare_value, lock_state') := cmpxchg 0 lock_state 1 in
  if compare_value =? 0 then Ok lock_state' else Hang.

Definition lock_release (_lock_state : Z) : Z := 0.

(** ** Contention *)

(** Where a CPU is: outside, about to execute [cmpxchg], in the inner wait
    loop, holding the lock before and after it read the counter, or holding it
    with the counter written back. *)
Inductive pc :=
| Outside
| Trying
| Waiting
| Holding
| Loaded (register : Z)
| Stored.

(** [counter] is the 64-bit variable the lock protects, [finished] the number
    of critical sections left so far, which no CPU sees. *)
Record machine := Machine {
  lock_word : Z;
  counter : Z;
  finished : Z;
  cpus : nat → pc
}.

Definition with_cpu (m : machine) (lock count fin : Z) (i : nat) (p : pc) : machine :=
  Machine lock count fin (<[i := p]> (cpus m)).

(** One instruction of CPU [i]. *)
Inductive step : machine → machine → Prop :=
| step_enter m i :
    cpus m i = Outside →
    step m (with_cpu m (lock_word m) (counter m) (finished m) i Trying)
| step_cmpxchg_ok m i :
    cpus m i = Trying → (cmpxchg 0 (lock_word m) 1).1 = 0 →
    step m (with_cpu m (cmpxchg 0 (lock_word m) 1).2 (counter m) (finished m) i Holding)
| step_cmpxchg_fail m i :
    cpus m i = Trying → (cmpxchg 0 (lock_word m) 1).1 ≠ 0 →
    step m (with_cpu m (cmpxchg 0 (lock_word m) 1).2 (counter m) (finished m) i Waiting)
| step_wait m i :
    cpus m i = Waiting → lock_word m ≠ 0 →
    step m (with_cpu m (lock_word m) (counter m) (finished m) i Waiting)
| step_retry m i :
    cpus m i = Waiting → lock_word m = 0 →
    step m (with_cpu m (lock_word m) (counter m) (finished m) i Trying)
| step_try_ok m i :
    cpus m i = Outside → (lock_try_acquire (lock_word m)).1 ≠ 0 →
    step m (with_cpu m (lock_try_acquire (lock_word m)).2 (counter m) (finished m) i Holding)
| step_try_fail m i :
    cpus m i = Outside → (lock_try_acquire (lock_word m)).1 = 0 →
    step m (with_cpu m (lock_try_acquire (lock_word m)).2 (counter m) (finished m) i Outside)
| step_load m i :
    cpus m i = Holding →
    step m (with_cpu m (lock_word m) (counter m) (finished m) i (Loaded (counter m)))
| step_store m i r :
    cpus m i = Loaded r →
    step m (with_cpu m (lock_word m) (u64 (r + 1)) (finished m) i Stored)
| step_release m i :
    cpus m i = Stored →
    step m (with_cpu m (lock_release (lock_word m)) (counter m) (finished m + 1) i Outside).

Definition initial : machine := Machine 0 0 0 (λ _, Outside).

Definition in_critical (p : pc) : Prop :=
  match p with Holding | Loaded _ | Stored => True | _ => False end.

#[export] Instance in_critical_dec p : Decision (in_critical p).
Proof. destruct p; cbn; apply _. Defined.

(** Increments stored but not yet released. *)
Definition pending (p : pc) : Z := match p with Stored => 1 | _ => 0 end.

(** Either the lock is free and nobody is inside, or it is 1 and exactly one
    CPU is, whose register is the counter it read. *)
Inductive inv : machine → Prop :=
| inv_free m :
    lock_word m = 0 → (∀ i, ¬ in_critical (cpus m i)) → counter m = u64 (finished m) → inv m
| inv_held m i :
    lock_word m = 1 → in_critical (cpus m i) → (∀ j, in_critical (cpus m j) → j = i) →
    counter m = u64 (finished m + pending (cpus m i)) →
    (∀ r, cpus m i = Loaded r → r = counter m) → inv m.

Lemma with_cpu_eq m l c f i p : cpus (with_cpu m l c f i p) i = p.
Proof. apply fn_lookup_insert. Qed.

Lemma with_cpu_ne m l c f i j p : i ≠ j → cpus (with_cpu m l c f i p) j = cpus m j.
Proof. apply fn_lookup_insert_ne. Qed.

(** A step of a CPU outside that stays outside. *)
Lemma inv_outside m i p :
  inv m → ¬ in_critical (cpus m i) → ¬ in_critical p →
  inv (with_cpu m (lock_word m) (counter m) (finished m) i p).
Proof.
  intros Hinv Hi Hp. destruct Hinv as [m Hl Hn Hc|m h Hl Hh Hu Hc Hr].
  - apply inv_free; [done| |done]. intros j.
    destruct (decide (i = j)) as [<-|]; [by rewrite with_cpu_eq|by rewrite with_cpu_ne].
  - assert (i ≠ h) by (intros ->; done).
    apply (inv_held _ h); rewrite ?with_cpu_ne by done; try done.
    intros j. destruct (decide (i = j)) as [<-|]; [by rewrite with_cpu_eq|].
    rewrite with_cpu_ne by done. apply Hu.
Qed.

(** Taking a free lock. *)
Lemma inv_take m i :
  inv m → lock_word m = 0 → inv (with_cpu m 1 (counter m) (finished m) i Holding).
Proof.
  intros Hinv Hl0. destruct Hinv as [m _ Hn Hc|m h Hl]; [|congruence].
  apply (inv_held _ i); rewrite ?with_cpu_eq; try done.
  - intros j Hj. destruct (decide (i = j)) as [|Hne]; [done|].
    rewrite with_cpu_ne in Hj by done. by apply Hn in Hj.
  - cbn. by rewrite Z.add_0_r.
Qed.

(** A step inside the critical section. *)
Lemma inv_inside m i p c :
  inv m → in_critical (cpus m i) → in_critical p →
  c = u64 (finished m + pending p) → (∀ r, p = Loaded r → r = c) →
  inv (with_cpu m (lock_word m) c (finished m) i p).
Proof.
  intros Hinv Hi Hp Hc Hr. destruct Hinv as [m _ Hn _|m h Hl Hh Hu _ _]; [by apply Hn in Hi|].
  apply Hu in Hi as ->. apply (inv_held _ h); rewrite ?with_cpu_eq; try done.
  intros j Hj. destruct (decide (h = j)) as [|Hne]; [done|].
  rewrite with_cpu_ne in Hj by done. symmetry. by apply Hu in Hj.
Qed.

Lemma cmpxchg_free l : l = 0 → cmpxchg 0 l 1 = (0, 1).
Proof. by intros ->. Qed.

Lemma cmpxchg_taken l : l ≠ 0 → cmpxchg 0 l 1 = (l, l).
Proof. intros Hl. unfold cmpxchg. by rewrite (proj2 (Z.eqb_neq l 0)). Qed.

Lemma step_inv m m' : inv m → step m m' → inv m'.
Proof.
  intros Hinv Hstep. destruct Hstep as
    [m i Hi|m i Hi Hx|m i Hi Hx|m i Hi Hl|m i Hi Hl|m i Hi Hx|m i Hi Hx|m i Hi|m i r Hi|m i Hi].
  - apply inv_outside; [done|rewrite Hi; intros []|intros []].
  - destruct (decide (lock_word m = 0)) as [Hl|Hl]; [|by rewrite cmpxchg_taken in Hx by done].
    rewrite cmpxchg_free by done. by apply inv_take.
  - destruct (decide (lock_word m = 0)) as [Hl|Hl]; [by rewrite cmpxchg_free in Hx by done|].
    rewrite cmpxchg_taken by done. apply inv_outside; [done|rewrite Hi; intros []|intros []].
  - apply inv_outside; [done|rewrite Hi; intros []|intros []].
  - apply inv_outside; [done|rewrite Hi; intros []|intros []].
  - unfold lock_try_acquire in *. destruct (decide (lock_word m = 0)) as [Hl|Hl].
    + rewrite cmpxchg_free in * by done. by apply inv_take.
    + rewrite cmpxchg_taken in Hx by done. by rewrite (proj2 (Z.eqb_neq _ 0) Hl) in Hx.
  - unfold lock_try_acquire in *. destruct (decide (lock_word m = 0)) as [Hl|Hl].
    + by rewrite cmpxchg_free in Hx by done.
    + rewrite cmpxchg_taken by done. apply inv_outside; [done|rewrite Hi; intros []|intros []].
  - apply inv_inside; [done|by rewrite Hi|exact I| |by intros r [= ->]].
    destruct Hinv as [m _ Hn Hc|m h Hl Hh Hu Hc Hr]; [cbn; by rewrite Z.add_0_r|].
    assert (i = h) as -> by (apply Hu; by rewrite Hi). by rewrite Hi in Hc.
  - assert (r = counter m ∧ counter m = u64 (finished m)) as [-> Hc].
    { destruct Hinv as [m _ Hn Hc|m h Hl Hh Hu Hc Hr].
      - exfalso. apply (Hn i). by rewrite Hi.
      - assert (i = h) as -> by (apply Hu; by rewrite Hi).
        rewrite Hi in Hc. cbn in Hc. rewrite Z.add_0_r in Hc. split; [by apply Hr|done]. }
    apply inv_inside; [done|by rewrite Hi|exact I|by rewrite Hc; apply Zplus_mod_idemp_l|done].
  - destruct Hinv as [m _ Hn Hc|m h Hl Hh Hu Hc Hr]; [exfalso; apply (Hn i); by rewrite Hi|].
    assert (i = h) as -> by (apply Hu; by rewrite Hi).
    apply inv_free; [done| |by rewrite Hi in Hc].
    intros j Hj. destruct (decide (h = j)) as [<-|Hne]; [by rewrite with_cpu_eq in Hj|].
    rewrite with_cpu_ne in Hj by done. by apply Hu in Hj.
Qed.

Lemma reachable_inv m : rtc step initial m → inv m.
Proof.
  intros Hr. assert (inv initial) as Hi by (apply inv_free; [done|intros i []|done]).
  induction Hr as [|m1 m2 m3 Hs _ IH]; [done|]. apply IH. by eapply step_inv.
Qed.

(** ** Progress *)

Lemma rtc_step m i p l c f :
  step m (with_cpu m l c f i p) → rtc step m (with_cpu m l c f i p).
Proof. apply rtc_once. Qed.

(** The CPU inside can always finish its critical section, and then the lock is free. *)
Lemma holder_releases m i : inv m → in_critical (cpus m i) →
  ∃ m', rtc step m m' ∧ lock_word m' = 0 ∧ cpus m' i = Outside.
Proof.
  intros Hinv Hi. assert (∀ m, cpus m i = Stored → ∃ m', rtc step m m' ∧ lock_word m' = 0 ∧ cpus m' i = Outside) as H3.
  { intros m3 H. eexists. split; [apply rtc_step, step_release; exact H|]. split; [done|apply with_cpu_eq]. }
  assert (∀ m r, cpus m i = Loaded r → ∃ m', rtc step m m' ∧ lock_word m' = 0 ∧ cpus m' i = Outside) as H2.
  { intros m2 r H. destruct (H3 (with_cpu m2 (lock_word m2) (u64 (r + 1)) (finished m2) i Stored)) as (m' & Hr & Hm');
      [apply with_cpu_eq|]. exists m'. split; [|done]. eapply rtc_l; [apply step_store; exact H|exact Hr]. }
  destruct (cpus m i) eqn:E; try done; [|by eapply H2|by apply H3].
  destruct (H2 (with_cpu m (lock_word m) (counter m) (finished m) i (Loaded (counter m))) (counter m))
    as (m' & Hr & Hm'); [apply with_cpu_eq|]. exists m'. split; [|done].
  eapply rtc_l; [apply step_load; exact E|exact Hr].
Qed.

(** ** Properties *)

(** C5. Mutual exclusion: in every state reachable by any interleaving of any number of
    CPUs running [lock_acquire], [lock_try_acquire] and [lock_release] around a critical section,
    two CPUs inside the critical section are the same CPU. *)
Theorem lock_mutual_exclusion m i j :
  rtc step initial m → in_critical (cpus m i) → in_critical (cpus m j) → i = j.
Proof.
  intros Hr Hi Hj. destruct (reachable_inv m Hr) as [m _ Hn|m h _ _ Hu]; [by apply Hn in Hi|].
  by rewrite (Hu i Hi), (Hu j Hj).
Qed.

(** CPU 0 entered and took the lock; CPU 1 entered and is spinning. *)
Definition trying0 : machine := with_cpu initial 0 0 0 0%nat Trying.
Definition holding0 : machine := with_cpu trying0 1 0 0 0%nat Holding.
Definition trying1 : machine := with_cpu holding0 1 0 0 1%nat Trying.
Definition waiting1 : machine := with_cpu trying1 1 0 0 1%nat Waiting.

Lemma waiting1_reachable : rtc step initial waiting1.
Proof.
  eapply rtc_l; [by apply (step_enter initial 0%nat)|].
  eapply rtc_l; [by apply (step_cmpxchg_ok trying0 0%nat)|].
  eapply rtc_l; [by apply (step_enter holding0 1%nat)|].
  eapply rtc_l; [by apply (step_cmpxchg_fail trying1 1%nat)|]. apply rtc_refl.
Qed.

Lemma lock_mutual_exclusion_witness : in_critical (cpus waiting1 0%nat) ∧ ¬ in_critical (cpus waiting1 1%nat).
Proof.
  split; [exact I|]. intros H.
  discriminate (lock_mutual_exclusion waiting1 0%nat 1%nat waiting1_reachable I H).
Defined.

(** C34. No update is lost: the counter incremented (load, add, store) under the lock
    equals the number of finished critical sections, modulo 2^64, whenever the lock word is free. *)
Theorem lock_no_lost_update m :
  rtc step initial m → lock_word m = 0 → counter m = u64 (finished m).
Proof. intros Hr Hl. destruct (reachable_inv m Hr) as [|m h Hl1]; congruence. Qed.

Definition loaded0 : machine := with_cpu waiting1 1 0 0 0%nat (Loaded 0).
Definition stored0 : machine := with_cpu loaded0 1 1 0 0%nat Stored.
Definition released0 : machine := with_cpu stored0 0 1 1 0%nat Outside.

Lemma released0_reachable : rtc step initial released0.
Proof.
  etrans; [exact waiting1_reachable|].
  eapply rtc_l; [by apply (step_load waiting1 0%nat)|].
  eapply rtc_l; [by apply (step_store loaded0 0%nat 0)|].
  eapply rtc_l; [by apply (step_release stored0 0%nat)|]. apply rtc_refl.
Qed.

Lemma lock_no_lost_update_witness : counter released0 = 1 ∧ counter released0 = u64 (finished released0).
Proof. split; [reflexivity|]. exact (lock_no_lost_update released0 released0_reachable eq_refl). Defined.

(** No deadlock on one lock: from every reachable state there is an execution after which the
    lock is free, in which only the CPU inside the critical section moves; a CPU that is then spinning
    can take it. *)
Theorem lock_can_be_released m :
  rtc step initial m → ∃ m', rtc step m m' ∧ lock_word m' = 0.
Proof.
  intros Hr. pose proof (reachable_inv m Hr) as Hinv. destruct Hinv as [m Hl|m h Hl Hh Hu Hc Hreg] eqn:E; [by exists m|].
  destruct (holder_releases m h) as (m' & Hr' & Hl' & _); [by apply (inv_held m h)|done|]. by exists m'.
Qed.

Lemma lock_can_be_released_witness : ∃ m', rtc step waiting1 m' ∧ lock_word m' = 0.
Proof. exact (lock_can_be_released waiting1 waiting1_reachable). Defined.
