(* ===== verification/Physical.v ===== *)
(** * The physical page allocator

    Models [src/src/common/memory_physical.c]: a bitmap of 4 KiB pages, one
    64-bit word for 64 pages, searched from the word where the last page was
    found. The definitions follow the functions of the file statement by
    statement; [Physical.bitmap_laws] shows that they implement the interface
    of [Allocator]. *)

From S2P Require Import Prelude Allocator Lock.

(** ** State *)

(** The static variables of the file, and the calls to the console it made. *)
Record phys := Phys {
  allocation_table : list Z;
  allocation_index : Z;
  allocation_table_length : Z;
  used_physical_pages : Z;
  memory_lock : Z;
  p_log : list console_call
}.

Definition set_table t (s : phys) := Phys t (allocation_index s) (allocation_table_length s)
  (used_physical_pages s) (memory_lock s) (p_log s).
Definition set_index i (s : phys) := Phys (allocation_table s) i (allocation_table_length s)
  (used_physical_pages s) (memory_lock s) (p_log s).
Definition set_length l (s : phys) := Phys (allocation_table s) (allocation_index s) l
  (used_physical_pages s) (memory_lock s) (p_log s).
Definition set_used_physical u (s : phys) := Phys (allocation_table s) (allocation_index s)
  (allocation_table_length s) u (memory_lock s) (p_log s).
Definition set_lock l (s : phys) := Phys (allocation_table s) (allocation_index s)
  (allocation_table_length s) (used_physical_pages s) l (p_log s).
Definition add_call c (s : phys) := Phys (allocation_table s) (allocation_index s)
  (allocation_table_length s) (used_physical_pages s) (memory_lock s) (c :: p_log s).

Definition acquire : M phys unit := λ s,
  match lock_acquire (memory_lock s) with
  | Ok l => Ok (tt, set_lock l s)
  | Undef => Undef
  | Hang => Hang
  end.
Definition release : M phys unit := modify (λ s, set_lock (lock_release (memory_lock s)) s).
Definition log (c : console_call) : M phys unit := modify (add_call c).

(** [allocation_table[i]], which is only defined inside the table. *)
Definition load_word (i : Z) : M phys Z := λ s,
  match allocation_table s !! Z.to_nat i with Some w => Ok (w, s) | None => Undef end.
Definition store_word (i w : Z) : M phys unit := λ s,
  match allocation_table s !! Z.to_nat i with
  | Some _ => Ok (tt, set_table (<[Z.to_nat i := w]> (allocation_table s)) s)
  | None => Undef
  end.

(** [1 << n] has type [int]. The count is taken modulo 32, as the [shl] the
    compiler emits takes it; C leaves counts above 31 undefined. *)
Definition shl_int (n : Z) : Z := s32 (Z.shiftl 1 (n mod 32)).

Definition all_taken : Z := 0xFFFFFFFFFFFFFFFF.

(** ** Operations *)

Definition memory_physical_initialize (storage : list Z) (total_memory : Z) : M phys unit :=
  modify (set_table storage) ;;;
  modify (set_index 0) ;;;
  let length := u64 total_memory / 4096 / 64 in
  modify (set_length length) ;;;
  for_loop (Z.to_nat length) 0 (λ i, store_word i 0).

(** One iteration of the loop of [memory_physical_reserve], after its bounds
    check. *)
Definition reserve_page (index : Z) : M phys unit :=
  let byte := u32 (Z.shiftr index 6) in
  let bit := u8 (Z.land index 63) in
  let! w := load_word byte in
  if truthy (Z.land w (u64 (shl_int bit))) then ret tt
  else
    store_word byte (Z.lor w (u64 (shl_int bit))) ;;;
    modify (λ s, set_used_physical (u64 (used_physical_pages s + 1)) s).

Fixpoint reserve_loop (fuel : nat) (index stop : Z) : M phys unit :=
  match fuel with
  | O => hang
  | S fuel' =>
      if stop <=? index then ret tt
      else
        let! length := gets allocation_table_length in
        if length <=? index then ret tt
        else reserve_page index ;;; reserve_loop fuel' (u64 (index + 1)) stop
  end.

(** The loop leaves at [allocation_table_length] at the latest. *)
Definition memory_physical_reserve (physical_address bytes : Z) : M phys unit :=
  acquire ;;;
  let start_index := Z.shiftr physical_address 12 in
  let bytes := u64 (bytes + Z.land physical_address 0xFFF) in
  let page_count := u64 (Z.shiftr (u64 (bytes - 1)) 12 + 1) in
  let! length := gets allocation_table_length in
  reserve_loop (S (Z.to_nat (length - start_index))) start_index (u64 (start_index + page_count)) ;;;
  release.

Definition memory_physical_free (physical_address : Z) : M phys unit :=
  acquire ;;;
  let index := Z.shiftr physical_address 12 in
  let byte := u32 (Z.shiftr index 6) in
  let bit := u8 (Z.land index 63) in
  let! length := gets allocation_table_length in
  if length <=? byte then
    release ;;;
    log (CPrint ("warning: invalid address passed to memory_physical_free" +:+ nl))
  else
    let! w := load_word byte in
    (if truthy (Z.land w (u64 (shl_int bit))) then
       store_word byte (Z.land w (u64 (Z.lnot (shl_int bit)))) ;;;
       modify (λ s, set_used_physical (u64 (used_physical_pages s - 1)) s)
     else
       log (CPrint "warning: memory_physical_free called on already freed page 0x") ;;;
       log (CPrintU64 physical_address 16) ;;;
       log CNewLine) ;;;
    release.

(** [while (allocation_table[spot] == 0xFFFFFFFFFFFFFFFFull) ...] *)
Fixpoint find_word (fuel : nat) (spot : Z) : M phys Z :=
  match fuel with
  | O => hang
  | S fuel' =>
      let! w := load_word spot in
      if w =? all_taken then
        let spot := u64 (spot + 1) in
        let! length := gets allocation_table_length in
        find_word fuel' (if length <=? spot then 0 else spot)
      else ret spot
  end.

(** [while (bits & 0b1) { bit++; bits >>= 1; }] *)
Fixpoint bit_scan (fuel : nat) (bits bit : Z) : outcome Z :=
  match fuel with
  | O => Hang
  | S fuel' =>
      if truthy (Z.land bits 1) then bit_scan fuel' (Z.shiftr bits 1) (bit + 1) else Ok bit
  end.

(** The search visits every word within [length] steps or never finds one;
    a 64-bit word is zero after 64 shifts. *)
Definition memory_physical_allocate : M phys Z :=
  acquire ;;;
  let! spot := gets allocation_index in
  let! length := gets allocation_table_length in
  let! spot := find_word (S (Z.to_nat length)) spot in
  let! bits := load_word spot in
  let! bit := lift (bit_scan 65 bits 0) in
  if 64 <=? bit then
    release ;;;
    log (CPrint ("error: memory_physical_allocate bit scan did not find bit in" +:+ nl)) ;;;
    log (CPrintU64 bits 2) ;;;
    log CNewLine ;;;
    ret 0
  else
    store_word spot (Z.lor bits (u64 (shl_int bit))) ;;;
    modify (set_index spot) ;;;
    modify (λ s, set_used_physical (u64 (used_physical_pages s + 1)) s) ;;;
    release ;;;
    ret (u64 (Z.shiftl (u64 (u64 (Z.shiftl spot 6) + bit)) 12)).

(** The [while (1)] loop of [memory_physical_allocate_consecutive]. *)
Fixpoint find_run (fuel : nat) (chunk_count spot consecutive : Z) : M phys Z :=
  match fuel with
  | O => hang
  | S fuel' =>
      let! w := load_word spot in
      let found := u32 (consecutive + 1) in
      if (w =? 0) && (chunk_count <=? found) then ret (u64 (spot - u32 (found - 1)))
      else
        let consecutive := if w =? 0 then found else 0 in
        let spot := u64 (spot + 1) in
        let! length := gets allocation_table_length in
        if length <=? spot then find_run fuel' chunk_count 0 0
        else find_run fuel' chunk_count spot consecutive
  end.

(** The rest of the table from [allocation_index], and then one full pass. *)
Definition memory_physical_allocate_consecutive (pages : Z) : M phys Z :=
  acquire ;;;
  let chunk_count := Z.shiftr pages 6 in
  let! spot := gets allocation_index in
  let! length := gets allocation_table_length in
  let! spot := find_run (S (Z.to_nat (2 * length))) chunk_count spot 0 in
  for_loop (Z.to_nat chunk_count) 0 (λ i, store_word (u64 (spot + i)) all_taken) ;;;
  release ;;;
  modify (set_index (u64 (spot + chunk_count))) ;;;
  ret (u64 (Z.shiftl (u64 (Z.shiftl spot 6)) 12)).

(** The table is indexed by the page, not by the word that holds its bit. *)
Definition memory_physical_allocated (physical_address : Z) : M phys Z :=
  let index := Z.shiftr physical_address 12 in
  let! length := gets allocation_table_length in
  if length <=? index then
    log (CPrint "warning: invalid address passed to memory_physical_allocated, returning 1: 0x") ;;;
    log (CPrintU64 physical_address 16) ;;;
    log CNewLine ;;;
    ret 1
  else
    let bit := u8 (Z.land index 63) in
    let! w := load_word index in
    ret (s32 (Z.land (Z.shiftr w bit) 1)).

Definition memory_physical_used_pages (s : phys) : Z := used_physical_pages s.
