(* ===== verification/PhysicalSpec.v ===== *)
(** * Correctness of the physical page allocator

    The representation invariant of the bitmap of [Physical], the effect of
    every operation on the set of pages in use, and the proof that the bitmap
    implements the [PageAllocator] interface. *)

From S2P Require Import Prelude Allocator Lock Physical.

(** ** Words of the bitmap

    [1 << 31] is a negative [int], so it sets or clears bits 31 to 63 of a
    word together, and [1 << n] with [n] over 31 is [1 << (n - 32)]. The words
    the operations produce therefore have their upper 33 bits equal. *)

Definition word_ok (w : Z) : Prop :=
  0 ≤ w < 2 ^ 64 ∧ ∀ i, 31 ≤ i < 64 → Z.testbit w i = Z.testbit w 31.

Definition mask (n : Z) : Z := u64 (shl_int n).

(** The bits of the mask, checked for every shift count and bit number. *)
Definition mask_bit (k i : Z) : bool := (i =? k) || ((k =? 31) && (31 <=? i)).

Lemma mask_table :
  forallb (λ k, forallb (λ i, Bool.eqb (Z.testbit (mask k) i) (mask_bit k i)
    && Bool.eqb (Z.testbit (u64 (Z.lnot (shl_int k))) i) (negb (mask_bit k i))) (seqZ 0 64)) (seqZ 0 32) = true.
Proof. vm_compute. reflexivity. Qed.

Lemma shl_int_mod n : shl_int n = shl_int (n mod 32).
Proof. unfold shl_int. by rewrite Z.mod_mod by lia. Qed.

Lemma mask_bits k i : 0 ≤ i < 64 →
  Z.testbit (mask k) i = mask_bit (k mod 32) i ∧
  Z.testbit (u64 (Z.lnot (shl_int k))) i = negb (mask_bit (k mod 32) i).
Proof.
  intros Hi. unfold mask. rewrite (shl_int_mod k). pose proof mask_table as H.
  rewrite forallb_forall in H. specialize (H (k mod 32)).
  rewrite <- list_elem_of_In, elem_of_seqZ in H.
  specialize (H ltac:(pose proof (Z.mod_pos_bound k 32); lia)).
  rewrite forallb_forall in H. specialize (H i).
  rewrite <- list_elem_of_In, elem_of_seqZ in H. specialize (H ltac:(lia)).
  apply andb_prop in H as [H1 H2]. by apply eqb_prop in H1, H2.
Qed.

Lemma mask_low k i : 0 ≤ i < 32 → Z.testbit (mask k) i = (i =? k mod 32).
Proof.
  intros Hi. rewrite (proj1 (mask_bits k i ltac:(lia))). unfold mask_bit.
  pose proof (Z.mod_pos_bound k 32). lia.
Qed.

Lemma nmask_low k i : 0 ≤ i < 32 → Z.testbit (u64 (Z.lnot (shl_int k))) i = negb (i =? k mod 32).
Proof.
  intros Hi. rewrite (proj2 (mask_bits k i ltac:(lia))). unfold mask_bit.
  pose proof (Z.mod_pos_bound k 32). lia.
Qed.

Lemma mask_bit_high k i : 0 ≤ k < 32 → 31 ≤ i → mask_bit k i = mask_bit k 31.
Proof. intros. unfold mask_bit. lia. Qed.

Lemma word_ok_mask k : word_ok (mask k).
Proof.
  split; [apply u64_range|]. intros i Hi.
  rewrite (proj1 (mask_bits k i ltac:(lia))), (proj1 (mask_bits k 31 ltac:(lia))). apply mask_bit_high; [|lia].
  pose proof (Z.mod_pos_bound k 32). lia.
Qed.

Lemma word_ok_nmask k : word_ok (u64 (Z.lnot (shl_int k))).
Proof.
  split; [apply u64_range|]. intros i Hi.
  rewrite (proj2 (mask_bits k i ltac:(lia))), (proj2 (mask_bits k 31 ltac:(lia))). f_equal. apply mask_bit_high; [|lia].
  pose proof (Z.mod_pos_bound k 32). lia.
Qed.

Lemma land_range a b n : 0 ≤ n → 0 ≤ a < 2 ^ n → 0 ≤ b → 0 ≤ Z.land a b < 2 ^ n.
Proof.
  intros Hn Ha Hb. rewrite <- (Z.mod_small a (2 ^ n)) by done.
  rewrite <- Z.land_ones, <- Z.land_assoc, (Z.land_comm (Z.ones n)), Z.land_assoc, Z.land_ones by done.
  apply Z.mod_pos_bound. lia.
Qed.

Lemma word_ok_lor a b : word_ok a → word_ok b → word_ok (Z.lor a b).
Proof.
  intros [Ha Ha'] [Hb Hb']. split; [by apply lor_range|].
  intros i Hi. by rewrite !Z.lor_spec, Ha', Hb'.
Qed.

Lemma word_ok_land a b : word_ok a → word_ok b → word_ok (Z.land a b).
Proof.
  intros [Ha Ha'] [Hb Hb']. split; [apply land_range; lia|].
  intros i Hi. by rewrite !Z.land_spec, Ha', Hb'.
Qed.

(** An allocator word is determined by its low 32 bits. *)
Lemma word_ok_eq a b : word_ok a → word_ok b →
  (∀ i, 0 ≤ i < 32 → Z.testbit a i = Z.testbit b i) → a = b.
Proof.
  intros [Ha Ha'] [Hb Hb'] H. apply (bits_eq_below a b 64); [lia|done|done|].
  intros i Hi. destruct (decide (i < 32)); [apply H; lia|].
  rewrite Ha', Hb' by lia. apply H. lia.
Qed.

Lemma word_ok_zero : word_ok 0.
Proof. split; [lia|]. intros i Hi. by rewrite !Z.bits_0. Qed.

Lemma all_taken_bits i : 0 ≤ i < 64 → Z.testbit all_taken i = true.
Proof. intros. change all_taken with (Z.ones 64). apply Z.ones_spec_low. lia. Qed.

Lemma word_ok_all_taken : word_ok all_taken.
Proof. split; [unfold all_taken; lia|]. intros i Hi. by rewrite !all_taken_bits by lia. Qed.

Lemma land_mask_truthy w k : word_ok w → truthy (Z.land w (mask k)) = Z.testbit w (k mod 32).
Proof.
  intros Hw. pose proof (Z.mod_pos_bound k 32 ltac:(lia)).
  destruct (Z.testbit w (k mod 32)) eqn:E.
  - apply truthy_spec. intros H0.
    assert (Z.testbit (Z.land w (mask k)) (k mod 32) = false) as H1 by (rewrite H0; apply Z.bits_0).
    rewrite Z.land_spec, E, mask_low, Z.eqb_refl in H1 by lia. done.
  - apply truthy_false. apply word_ok_eq;
      [by apply word_ok_land; [|apply word_ok_mask]|apply word_ok_zero|].
    intros i Hi. rewrite Z.land_spec, Z.bits_0, mask_low by lia.
    destruct (Z.eqb_spec i (k mod 32)) as [->|]; [by rewrite E|apply andb_false_r].
Qed.

Lemma testbit_set w k i : 0 ≤ i < 32 →
  Z.testbit (Z.lor w (mask k)) i = Z.testbit w i || (i =? k mod 32).
Proof. intros. by rewrite Z.lor_spec, mask_low. Qed.

Lemma testbit_clear w k i : 0 ≤ i < 32 →
  Z.testbit (Z.land w (u64 (Z.lnot (shl_int k)))) i = Z.testbit w i && negb (i =? k mod 32).
Proof. intros. by rewrite Z.land_spec, nmask_low. Qed.

(** The pages of a word that can be allocated: the clear bits below 32. *)
Definition word_free (w : Z) : Z := count (λ i, negb (Z.testbit w i)) (seqZ 0 32).

Lemma word_free_bounds w : 0 ≤ word_free w ≤ 32.
Proof. apply count_bounds. Qed.

Lemma word_free_flip w w' k : 0 ≤ k < 32 →
  Z.testbit w k = false → Z.testbit w' k = true →
  (∀ i, 0 ≤ i < 32 → i ≠ k → Z.testbit w i = Z.testbit w' i) →
  word_free w = word_free w' + 1.
Proof.
  intros Hk H1 H2 Ho. apply (count_flip _ _ _ k).
  - apply NoDup_seqZ.
  - apply elem_of_seqZ. lia.
  - by rewrite H1.
  - by rewrite H2.
  - intros i Hi Hne. apply elem_of_seqZ in Hi. f_equal. apply Ho; [lia|done].
Qed.

Lemma word_free_zero w : word_ok w → word_free w = 0 → w = all_taken.
Proof.
  intros Hw H. apply word_ok_eq; [done|apply word_ok_all_taken|].
  intros i Hi. rewrite all_taken_bits by lia.
  apply negb_false_iff. apply (count_zero (λ i, negb (Z.testbit w i)) (seqZ 0 32)); [done|].
  apply elem_of_seqZ. lia.
Qed.

Lemma word_free_all_taken : word_free all_taken = 0.
Proof. reflexivity. Qed.

(** A word that is not full has a clear bit below 32. *)
Lemma first_clear w : word_ok w → w ≠ all_taken →
  ∃ k, 0 ≤ k < 32 ∧ Z.testbit w k = false ∧ ∀ j, 0 ≤ j < k → Z.testbit w j = true.
Proof.
  intros Hw Hne. destruct (least_false (Z.testbit w) 32) as [H|H]; [|done].
  exfalso. apply Hne. apply word_ok_eq; [done|apply word_ok_all_taken|].
  intros i Hi. rewrite all_taken_bits by lia. apply H. lia.
Qed.

Lemma bit_scan_ok fuel : ∀ w b k,
  0 ≤ k < Z.of_nat fuel → Z.testbit w k = false → (∀ j, 0 ≤ j < k → Z.testbit w j = true) →
  bit_scan fuel w b = Ok (b + k).
Proof.
  induction fuel as [|fuel IH]; intros w b k Hk Hc Hl; [lia|]. cbn [bit_scan].
  change (Z.land w 1) with (Z.land w (2 ^ 0)). rewrite land_bit by lia.
  destruct (decide (k = 0)) as [->|Hk0]; [rewrite Hc; f_equal; lia|].
  rewrite (Hl 0), (IH _ _ (k - 1)); [f_equal; lia|lia| | |lia].
  - rewrite Z.shiftr_spec by lia. by replace (k - 1 + 1) with k by lia.
  - intros j Hj. rewrite Z.shiftr_spec by lia. apply Hl. lia.
Qed.

(** ** The bitmap as a set of pages *)

(** The bit of page [q] in the table, any of the 64 of its word. *)
Definition marked (t : list Z) (q : Z) : bool :=
  match t !! Z.to_nat (q / 64) with Some w => Z.testbit w (q mod 64) | None => false end.

(** Page frame [q] can be handed out: its bit is clear and one of the lower 32
    of its word. The allocator takes the lowest clear bit of a word, and bits
    31 to 63 are always equal, so it never takes one of the upper 32. *)
Definition free_page (t : list Z) (q : Z) : Prop :=
  0 ≤ q ∧ q mod 64 < 32 ∧ ∃ w, t !! Z.to_nat (q / 64) = Some w ∧ Z.testbit w (q mod 64) = false.

(** What the operation [|= 1 << bit] on the word of page [p] sets besides: with
    bit 31 the mask is negative and sets all bits from 31 on. *)
Definition marked_with (p q : Z) : Prop :=
  q = p ∨ (p mod 64 = 31 ∧ q / 64 = p / 64 ∧ 31 < q mod 64).

Definition taken_bit (t : list Z) (q : Z) : Prop :=
  ∀ w, t !! Z.to_nat (q / 64) = Some w → Z.testbit w (q mod 64) = true.

(** The page whose bit [1 << (p & 63)] is: [p] itself in the lower half of a
    word, the page 32 below in the upper half. *)
Definition alias (p : Z) : Z := p / 64 * 64 + p mod 32.

Record phys_inv (s : phys) : Prop := {
  inv_table : length (allocation_table s) = Z.to_nat (allocation_table_length s);
  inv_length : 0 ≤ allocation_table_length s < 2 ^ 32;
  inv_words : Forall word_ok (allocation_table s);
  inv_index : 0 ≤ allocation_index s ∧
    (allocation_index s < allocation_table_length s ∨ allocation_table_length s = 0);
  inv_lock : memory_lock s = 0
}.

Lemma exists_Some {A} (x : A) (P : A → Prop) : (∃ w, Some x = Some w ∧ P w) ↔ P x.
Proof. split; [by intros (w & [= <-] & H)|by exists x]. Qed.

Lemma free_page_marked t q w : 0 ≤ q → t !! Z.to_nat (q / 64) = Some w →
  free_page t q ↔ q mod 64 < 32 ∧ marked t q = false.
Proof. intros Hq Hw. unfold free_page, marked. rewrite Hw, exists_Some. tauto. Qed.

(** The bits of a word set for a page of its lower half. *)
Lemma marked_set t p w q :
  0 ≤ p → p mod 64 < 32 → 0 ≤ q → t !! Z.to_nat (p / 64) = Some w →
  marked (<[Z.to_nat (p / 64) := Z.lor w (mask (p mod 32))]> t) q = true ↔
  marked t q = true ∨ marked_with p q.
Proof.
  intros Hp Hlow Hq Hw. unfold marked, marked_with.
  assert (p mod 32 = p mod 64) as -> by divmod_lia. destruct (decide (q / 64 = p / 64)) as [E|E].
  - rewrite E, Hw, list_lookup_insert_eq by (by apply lookup_lt_Some in Hw). cbn beta iota.
    rewrite Z.lor_spec, (proj1 (mask_bits (p mod 64) (q mod 64) ltac:(divmod_lia))), orb_true_iff.
    apply or_iff_compat_l. rewrite Z.mod_small by divmod_lia. unfold mask_bit.
    rewrite orb_true_iff, andb_true_iff, !Z.eqb_eq, Z.leb_le. divmod_lia.
  - rewrite list_lookup_insert_ne by (intros H; apply E, Z2Nat.inj; divmod_lia).
    split; [by left|]. intros [H|[->|(_ & H & _)]]; [exact H|by destruct E..].
Qed.

(** The number of pages that can be handed out. *)
Definition avail (s : phys) : Z := sum_of word_free (allocation_table s).

(** The page counter agrees with the bitmap. *)
Definition counted (s : phys) : Prop :=
  used_physical_pages s = 32 * allocation_table_length s - avail s.

Lemma lookup_word s i :
  phys_inv s → 0 ≤ i < allocation_table_length s →
  ∃ w, allocation_table s !! Z.to_nat i = Some w ∧ word_ok w.
Proof.
  intros Hs Hi. destruct (lookup_lt_is_Some_2 (allocation_table s) (Z.to_nat i)) as [w Hw].
  - rewrite (inv_table s Hs). lia.
  - exists w. split; [done|]. by apply (Forall_lookup_1 _ _ _ _ (inv_words s Hs) Hw).
Qed.

Lemma lookup_range s i w :
  phys_inv s → 0 ≤ i → allocation_table s !! Z.to_nat i = Some w →
  i < allocation_table_length s ∧ word_ok w.
Proof.
  intros Hs Hi Hw. split.
  - apply lookup_lt_Some in Hw. rewrite (inv_table s Hs) in Hw. lia.
  - by apply (Forall_lookup_1 _ _ _ _ (inv_words s Hs) Hw).
Qed.

(** Every operation changes the state through [update]. *)
Definition update (i w used : Z) (s : phys) : phys :=
  set_used_physical used (set_table (<[Z.to_nat i := w]> (allocation_table s)) s).

Lemma update_inv i w used s : phys_inv s → word_ok w → phys_inv (update i w used s).
Proof.
  intros [H1 H2 H3 H4 H5] Hw. constructor; cbn; try done.
  - by rewrite length_insert.
  - by apply Forall_insert.
Qed.

(** Changing bit [k] of word [i]. *)
Lemma free_page_insert t i w w' k b q :
  0 ≤ i → 0 ≤ k < 32 → t !! Z.to_nat i = Some w →
  (∀ j, 0 ≤ j < 32 → Z.testbit w' j = if decide (j = k) then b else Z.testbit w j) →
  free_page (<[Z.to_nat i := w']> t) q ↔
  if b then free_page t q ∧ q ≠ i * 64 + k else free_page t q ∨ q = i * 64 + k.
Proof.
  intros Hi Hk Hw Hb. unfold free_page.
  assert (0 ≤ q → 0 ≤ q / 64 ∧ 0 ≤ q mod 64 ∧ q = q / 64 * 64 + q mod 64) as Hq by divmod_lia.
  destruct (decide (0 ≤ q ∧ q mod 64 < 32)) as [[Hq0 Hq1]|Hn].
  2: { assert (q ≠ i * 64 + k) by (intros ->; apply Hn; divmod_lia). destruct b; tauto. }
  destruct (Hq Hq0) as (Hd & Hm & Heq). destruct (decide (q / 64 = i)) as [Hqi|Hne].
  - rewrite Hqi, list_lookup_insert_eq by (by apply lookup_lt_Some in Hw).
    pose proof (Hb (q mod 64) ltac:(lia)) as Hbit.
    assert (q mod 64 = k ↔ q = i * 64 + k) as Hk' by lia.
    destruct b; rewrite Hw, !exists_Some, Hbit; case_decide; intuition congruence.
  - rewrite list_lookup_insert_ne by lia.
    assert (q ≠ i * 64 + k) by (intros ->; apply Hne; divmod_lia).
    destruct b; tauto.
Qed.

Lemma avail_update i w w' used s :
  0 ≤ i → allocation_table s !! Z.to_nat i = Some w →
  avail (update i w' used s) = avail s - word_free w + word_free w'.
Proof. intros Hi Hw. unfold avail. cbn. by apply sum_of_insert. Qed.

Lemma avail_bounds s : phys_inv s → 0 ≤ avail s ≤ 32 * allocation_table_length s.
Proof.
  intros Hs. pose proof (sum_of_bounds word_free 32 (allocation_table s) word_free_bounds) as H.
  rewrite (inv_table s Hs) in H. pose proof (inv_length s Hs). unfold avail. lia.
Qed.

(** Setting and clearing the bit of page [p] with the mask of [p & 63]. *)
Lemma mask_page p : mask (u8 (Z.land p 63)) = mask (p mod 32) ∧
  shl_int (u8 (Z.land p 63)) = shl_int (p mod 32).
Proof.
  assert (u8 (Z.land p 63) mod 32 = (p mod 32) mod 32) as H.
  { change 63 with (2 ^ 6 - 1). rewrite land_ones_mod by lia. unfold u8. divmod_lia. }
  unfold mask. by rewrite (shl_int_mod (u8 _)), (shl_int_mod (p mod 32)), H.
Qed.

Lemma free_page_set t p w q :
  0 ≤ p → t !! Z.to_nat (p / 64) = Some w →
  free_page (<[Z.to_nat (p / 64) := Z.lor w (mask (p mod 32))]> t) q ↔
  free_page t q ∧ q ≠ alias p.
Proof.
  intros Hp Hw. apply (free_page_insert t (p / 64) w _ (p mod 32) true); [divmod_lia|divmod_lia|done|].
  intros j Hj. rewrite testbit_set, Z.mod_mod by lia.
  case_decide as Hd; [subst; by rewrite Z.eqb_refl, orb_true_r|].
  rewrite (proj2 (Z.eqb_neq j _) Hd). apply orb_false_r.
Qed.

Lemma free_page_clear t p w q :
  0 ≤ p → t !! Z.to_nat (p / 64) = Some w →
  free_page (<[Z.to_nat (p / 64) := Z.land w (u64 (Z.lnot (shl_int (p mod 32))))]> t) q ↔
  free_page t q ∨ q = alias p.
Proof.
  intros Hp Hw. apply (free_page_insert t (p / 64) w _ (p mod 32) false); [divmod_lia|divmod_lia|done|].
  intros j Hj. rewrite testbit_clear, Z.mod_mod by lia.
  case_decide as Hd; [subst; by rewrite Z.eqb_refl, andb_false_r|].
  rewrite (proj2 (Z.eqb_neq j _) Hd). apply andb_true_r.
Qed.

Lemma word_free_set w k : word_ok w → Z.testbit w (k mod 32) = false →
  word_free (Z.lor w (mask k)) = word_free w - 1.
Proof.
  intros Hw Hk. pose proof (Z.mod_pos_bound k 32 ltac:(lia)).
  rewrite (word_free_flip w (Z.lor w (mask k)) (k mod 32)); [lia|lia|done| |].
  - by rewrite testbit_set, Z.eqb_refl, orb_true_r by lia.
  - intros i Hi Hne. rewrite testbit_set by lia.
    by rewrite (proj2 (Z.eqb_neq i _) Hne), orb_false_r.
Qed.

Lemma word_free_clear w k : word_ok w → Z.testbit w (k mod 32) = true →
  word_free (Z.land w (u64 (Z.lnot (shl_int k)))) = word_free w + 1.
Proof.
  intros Hw Hk. pose proof (Z.mod_pos_bound k 32 ltac:(lia)).
  apply (word_free_flip _ w (k mod 32)); [lia| |done|].
  - by rewrite testbit_clear, Z.eqb_refl, andb_false_r by lia.
  - intros i Hi Hne. rewrite testbit_clear by lia.
    by rewrite (proj2 (Z.eqb_neq i _) Hne), andb_true_r.
Qed.

Lemma avail_free_page s : phys_inv s → 0 < avail s ↔ ∃ q, free_page (allocation_table s) q.
Proof.
  intros Hs. split.
  - intros Ha. destruct (decide (Forall (λ w, w = all_taken) (allocation_table s))) as [HF|HF].
    + exfalso. unfold avail in Ha. revert Ha. clear Hs. induction HF as [|w l -> _ IH]; cbn [sum_of]; [lia|].
      rewrite word_free_all_taken. lia.
    + apply not_Forall_Exists in HF; [|apply _]. apply Exists_exists in HF as (w & Hin & Hw).
      apply list_elem_of_In, list_elem_of_lookup in Hin as [i Hi].
      assert (word_ok w) as Hok by apply (Forall_lookup_1 _ _ _ _ (inv_words s Hs) Hi).
      destruct (first_clear w Hok Hw) as (k & Hk & Hb & _).
      exists (Z.of_nat i * 64 + k). unfold free_page.
      replace ((Z.of_nat i * 64 + k) / 64) with (Z.of_nat i) by divmod_lia.
      replace ((Z.of_nat i * 64 + k) mod 64) with k by divmod_lia.
      rewrite Nat2Z.id. repeat split; [lia|lia|]. by exists w.
  - intros (q & Hq0 & Hq1 & w & Hw & Hb).
    destruct (decide (avail s = 0)) as [H0|]; [|pose proof (avail_bounds s Hs); lia].
    assert (word_free w = 0) as Hz.
    { apply (sum_of_zero word_free (allocation_table s)); [intros; apply word_free_bounds|done|].
      by apply list_elem_of_lookup_2 in Hw. }
    apply word_free_zero in Hz; [|by apply (Forall_lookup_1 _ _ _ _ (inv_words s Hs) Hw)].
    rewrite Hz, all_taken_bits in Hb; [done|]. divmod_lia.
Qed.

(** ** Running the operations *)

Lemma acquire_ok s : memory_lock s = 0 → acquire s = Ok (tt, set_lock 1 s).
Proof. intros H. unfold acquire. by rewrite H. Qed.

Lemma set_lock_same s : memory_lock s = 0 → set_lock 0 s = s.
Proof. destruct s. cbn. by intros ->. Qed.

Lemma load_word_ok s i w : allocation_table s !! Z.to_nat i = Some w → load_word i s = Ok (w, s).
Proof. intros H. unfold load_word. by rewrite H. Qed.

Lemma store_word_ok s i w w' : allocation_table s !! Z.to_nat i = Some w →
  store_word i w' s = Ok (tt, set_table (<[Z.to_nat i := w']> (allocation_table s)) s).
Proof. intros H. unfold store_word. by rewrite H. Qed.

(** The search for a word finds one when there is one: [d] steps away. *)
Lemma find_word_ok s fuel : ∀ spot d,
  phys_inv s → 0 ≤ spot < allocation_table_length s → 0 ≤ d < Z.of_nat fuel →
  (∃ w, allocation_table s !! Z.to_nat ((spot + d) mod allocation_table_length s) = Some w ∧ w ≠ all_taken) →
  ∃ r w, find_word fuel spot (set_lock 1 s) = Ok (r, set_lock 1 s) ∧
    0 ≤ r < allocation_table_length s ∧ allocation_table s !! Z.to_nat r = Some w ∧ w ≠ all_taken.
Proof.
  induction fuel as [|fuel IH]; intros spot d Hs Hspot Hd (w & Hw & Hne); [lia|]. cbn [find_word].
  destruct (lookup_word s spot Hs Hspot) as (w0 & Hw0 & _).
  rewrite (bind_ok _ _ _ _ _ (load_word_ok (set_lock 1 s) spot w0 Hw0)).
  destruct (Z.eqb_spec w0 all_taken) as [Hfull|]; [|by exists spot, w0].
  pose proof (inv_length s Hs) as Hlen. mstep. cbn [allocation_table_length set_lock].
  assert (d ≠ 0) as Hd0.
  { intros ->. rewrite Z.add_0_r, Z.mod_small in Hw by done. congruence. }
  rewrite u64_small by lia. apply (IH _ (d - 1)); [done| |lia|].
  - destruct (Z.leb_spec (allocation_table_length s) (spot + 1)); lia.
  - exists w. split; [|done]. rewrite <- Hw. do 2 f_equal.
    destruct (Z.leb_spec (allocation_table_length s) (spot + 1)).
    + replace (spot + d) with (0 + (d - 1) + 1 * allocation_table_length s) by lia.
      by rewrite Z.mod_add by lia.
    + f_equal. lia.
Qed.

Lemma find_word_full s fuel : ∀ spot,
  phys_inv s → 0 ≤ spot < allocation_table_length s →
  Forall (λ w, w = all_taken) (allocation_table s) →
  find_word fuel spot (set_lock 1 s) = Hang.
Proof.
  induction fuel as [|fuel IH]; intros spot Hs Hspot HF; [done|]. cbn [find_word].
  destruct (lookup_word s spot Hs Hspot) as (w0 & Hw0 & _).
  rewrite (bind_ok _ _ _ _ _ (load_word_ok (set_lock 1 s) spot w0 Hw0)).
  rewrite (Forall_lookup_1 _ _ _ _ HF Hw0), Z.eqb_refl. mstep. cbn [allocation_table_length set_lock].
  pose proof (inv_length s Hs). rewrite u64_small by lia. apply IH; [done| |done].
  destruct (Z.leb_spec (allocation_table_length s) (spot + 1)); lia.
Qed.

(** The address computed from a word and a bit. *)
Lemma page_address spot bit : 0 ≤ spot < 2 ^ 32 → 0 ≤ bit < 64 →
  u64 (Z.shiftl (u64 (u64 (Z.shiftl spot 6) + bit)) 12) = (spot * 64 + bit) * 2 ^ 12.
Proof.
  intros. rewrite !Z.shiftl_mul_pow2 by lia.
  rewrite (u64_small (spot * 2 ^ 6)), (u64_small (spot * 2 ^ 6 + bit)), u64_small by lia. lia.
Qed.

Lemma page_of spot bit : 0 ≤ spot → 0 ≤ bit < 32 →
  (spot * 64 + bit) / 64 = spot ∧ (spot * 64 + bit) mod 64 = bit ∧ (spot * 64 + bit) mod 32 = bit.
Proof. intros. repeat split; divmod_lia. Qed.

(** What a successful [memory_physical_allocate] does. *)
Lemma allocate_run s :
  phys_inv s → 0 < avail s →
  ∃ p w, free_page (allocation_table s) p ∧
    allocation_table s !! Z.to_nat (p / 64) = Some w ∧ word_ok w ∧
    0 ≤ p / 64 < allocation_table_length s ∧ Z.testbit w (p mod 32) = false ∧
    memory_physical_allocate s = Ok (p * 2 ^ 12, set_index (p / 64)
      (update (p / 64) (Z.lor w (mask (p mod 32))) (u64 (used_physical_pages s + 1)) s)).
Proof.
  intros Hs Ha. pose proof (inv_length s Hs) as Hlen. pose proof (inv_index s Hs) as Hidx.
  pose proof (avail_bounds s Hs) as Hab.
  assert (∃ r w, find_word (S (Z.to_nat (allocation_table_length s))) (allocation_index s) (set_lock 1 s)
    = Ok (r, set_lock 1 s) ∧ 0 ≤ r < allocation_table_length s ∧
    allocation_table s !! Z.to_nat r = Some w ∧ w ≠ all_taken) as (r & w & Hfind & Hr & Hw & Hne).
  { apply (avail_free_page s Hs) in Ha as (q & Hq0 & Hq1 & w & Hw & Hb).
    assert (0 ≤ q / 64) as Hqd by divmod_lia.
    destruct (lookup_range s (q / 64) w Hs Hqd Hw) as [Hlt Hok].
    pose proof (Z.mod_pos_bound (q / 64 - allocation_index s) (allocation_table_length s)).
    apply (find_word_ok s _ _ ((q / 64 - allocation_index s) mod allocation_table_length s)); [done|lia|lia|].
    exists w. split.
    - rewrite Z.add_mod_idemp_r by lia. replace (allocation_index s + (q / 64 - allocation_index s)) with (q / 64) by lia.
      by rewrite Z.mod_small by lia.
    - intros ->. rewrite all_taken_bits in Hb by divmod_lia. done. }
  destruct (lookup_range s r w Hs (proj1 Hr) Hw) as [_ Hok].
  destruct (first_clear w Hok Hne) as (k & Hk & Hc & Hl).
  destruct (page_of r k (proj1 Hr) Hk) as (Hp1 & Hp2 & Hp3).
  exists (r * 64 + k), w. rewrite Hp1, Hp3.
  split; [|split; [done|split; [done|split; [done|split; [done|]]]]].
  { unfold free_page. rewrite Hp1, Hp2, Hw. repeat split; [lia|lia|]. by exists w. }
  unfold memory_physical_allocate.
  rewrite (bind_ok _ _ _ _ _ (acquire_ok s (inv_lock s Hs))). mstep.
  cbn [allocation_index allocation_table_length set_lock].
  rewrite (bind_ok _ _ _ _ _ Hfind), (bind_ok _ _ _ _ _ (load_word_ok (set_lock 1 s) r w Hw)).
  assert (lift (bit_scan 65 w 0) (set_lock 1 s) = Ok (k, set_lock 1 s)) as Hscan.
  { unfold lift. by rewrite (bit_scan_ok 65 w 0 k), Z.add_0_l by (done || lia). }
  rewrite (bind_ok _ _ _ _ _ Hscan).
  rewrite (proj2 (Z.leb_gt 64 k)) by lia.
  rewrite (bind_ok _ _ _ _ _ (store_word_ok (set_lock 1 s) r w _ Hw)). unfold release. mstep. unfold ret.
  rewrite page_address by lia. pose proof (inv_lock s Hs) as Hlock.
  replace (mask k) with (u64 (shl_int k)) by done.
  destruct s. cbn in *. by rewrite Hlock.
Qed.

Lemma set_index_inv i s : phys_inv s → 0 ≤ i < allocation_table_length s → phys_inv (set_index i s).
Proof. intros [H1 H2 H3 H4 H5] Hi. constructor; cbn; try done. lia. Qed.

(** The allocator of [memory_physical.c] as an instance of the interface. *)
#[export] Instance bitmap_allocator : PageAllocator phys := memory_physical_allocate.

(** Different free pages are so many pages available. *)
Lemma avail_free_list l : ∀ s, phys_inv s → NoDup l → Forall (free_page (allocation_table s)) l →
  Z.of_nat (length l) ≤ avail s.
Proof.
  induction l as [|q l IH]; intros s Hs Hnd Hf; [pose proof (avail_bounds s Hs); cbn [length]; lia|].
  apply list.NoDup_cons in Hnd as [Hq Hnd]. apply list.Forall_cons in Hf as [Hfq Hf].
  pose proof Hfq as (Hq0 & Hq1 & w & Hw & Hbit).
  assert (q mod 32 = q mod 64) as Hm by divmod_lia.
  assert (alias q = q) as Hal by (unfold alias; divmod_lia).
  pose proof (Forall_lookup_1 _ _ _ _ (inv_words s Hs) Hw) as Hok.
  set (s1 := update (q / 64) (Z.lor w (mask (q mod 32))) 0 s).
  assert (avail s1 = avail s - 1) as Ha.
  { unfold s1. rewrite (avail_update _ w) by (done || divmod_lia). rewrite word_free_set; [lia|done|].
    by rewrite Z.mod_mod, Hm by lia. }
  assert (phys_inv s1) as Hs1 by (apply update_inv; [done|apply word_ok_lor; [done|apply word_ok_mask]]).
  cbn [length]. enough (Z.of_nat (length l) ≤ avail s1) by lia. apply IH; [done|done|].
  rewrite list.Forall_forall in Hf. apply list.Forall_forall. intros x Hx.
  apply (free_page_set _ q w x Hq0 Hw). split; [by apply Hf|]. rewrite Hal. by intros ->.
Qed.

Lemma free_page_not_taken t p : free_page t p → ¬ taken_bit t p.
Proof. intros (_ & _ & w & Hw & Hb) H. rewrite (H w Hw) in Hb. done. Qed.

Lemma alias_low p : 0 ≤ p → p mod 64 < 32 → alias p = p.
Proof. intros. unfold alias. divmod_lia. Qed.

(** Setting a bit keeps the bits that are set. *)
Lemma taken_bit_set t p w q :
  0 ≤ p → 0 ≤ q → t !! Z.to_nat (p / 64) = Some w → taken_bit t q →
  taken_bit (<[Z.to_nat (p / 64) := Z.lor w (mask (p mod 32))]> t) q.
Proof.
  intros Hp Hq0 Hw Hq v Hv. destruct (decide (p / 64 = q / 64)) as [Heq|Hne].
  - rewrite Heq, list_lookup_insert_eq in Hv by (apply lookup_lt_Some in Hw; by rewrite <- Heq).
    simplify_eq. rewrite Z.lor_spec, (Hq w); [done|by rewrite <- Heq].
  - rewrite list_lookup_insert_ne in Hv; [by apply Hq|].
    intros Hn. apply Hne. apply Z2Nat.inj; divmod_lia.
Qed.

Lemma taken_bit_insert_eq t p w :
  0 ≤ p → p mod 64 < 32 → t !! Z.to_nat (p / 64) = Some w →
  taken_bit (<[Z.to_nat (p / 64) := Z.lor w (mask (p mod 32))]> t) p.
Proof.
  intros Hp Hlow Hw v Hv. rewrite list_lookup_insert_eq in Hv by (by apply lookup_lt_Some in Hw).
  simplify_eq. assert (p mod 64 = p mod 32) as -> by divmod_lia.
  rewrite testbit_set, Z.mod_mod, Z.eqb_refl by divmod_lia. apply orb_true_r.
Qed.

#[export] Program Instance bitmap_laws : PageAllocatorLaws phys := {|
  pa_inv := phys_inv;
  pa_used s p := 0 ≤ p ∧ taken_bit (allocation_table s) p;
  pa_avail := avail
|}.
Next Obligation. intros s Hs. by apply avail_bounds. Qed.
Next Obligation.
  intros s Hs Ha. destruct (allocate_run s Hs Ha) as (p & w & Hfree & Hw & Hok & Hr & Hb & Hrun).
  pose proof (inv_length s Hs). pose proof Hfree as (Hp0 & Hp1 & _).
  exists p, (set_index (p / 64) (update (p / 64) (Z.lor w (mask (p mod 32))) (u64 (used_physical_pages s + 1)) s)).
  split; [exact Hrun|]. cbn [allocation_table set_index update set_used_physical set_table].
  split; [apply set_index_inv; [|done]; apply update_inv; [done|]; apply word_ok_lor; [done|apply word_ok_mask]|].
  split.
  { change (avail (update (p / 64) (Z.lor w (mask (p mod 32))) (u64 (used_physical_pages s + 1)) s) = avail s - 1).
    rewrite (avail_update _ w) by (lia || done).
    rewrite word_free_set by (by rewrite ?Z.mod_mod by lia). lia. }
  split; [divmod_lia|]. split; [by intros [_ ?]; apply (free_page_not_taken _ _ Hfree)|].
  split; [split; [done|by apply taken_bit_insert_eq]|].
  intros q [Hq0 Hq]. split; [done|]. by apply taken_bit_set.
Qed.

(** *** Freeing *)

(** The word, bit and masks computed from a page inside the table. *)
Lemma word_index s p : phys_inv s → 0 ≤ p → p / 64 < allocation_table_length s →
  u32 (Z.shiftr p 6) = p / 64.
Proof.
  intros Hs Hp Hlt. pose proof (inv_length s Hs). rewrite shiftr_div by lia.
  change (2 ^ 6) with 64. rewrite u32_small by divmod_lia. done.
Qed.

Lemma alias_taken t p w : 0 ≤ p → t !! Z.to_nat (p / 64) = Some w →
  Z.testbit w (p mod 32) = true → ¬ free_page t (alias p).
Proof.
  intros Hp Hw Hb (_ & _ & w' & Hw' & Hb').
  assert (alias p / 64 = p / 64 ∧ alias p mod 64 = p mod 32) as [H1 H2] by (unfold alias; split; divmod_lia).
  rewrite H1, Hw in Hw'. simplify_eq. rewrite H2, Hb in Hb'. done.
Qed.

Lemma u64_pred_used s : phys_inv s → counted s → avail s < 32 * allocation_table_length s →
  u64 (used_physical_pages s - 1) = used_physical_pages s - 1.
Proof.
  intros Hs Hc Ha. pose proof (avail_bounds s Hs). pose proof (inv_length s Hs).
  unfold counted in Hc. apply u64_small. lia.
Qed.

Lemma u64_succ_used s : phys_inv s → counted s →
  u64 (used_physical_pages s + 1) = used_physical_pages s + 1.
Proof.
  intros Hs Hc. pose proof (avail_bounds s Hs). pose proof (inv_length s Hs).
  unfold counted in Hc. apply u64_small. lia.
Qed.

(** Whether the bit of page [p] is set in its word. *)
Definition page_bit (s : phys) (p : Z) : option bool :=
  (λ w, Z.testbit w (p mod 32)) <$> allocation_table s !! Z.to_nat (p / 64).

Definition free_result (addr : Z) (s : phys) : phys :=
  let p := addr / 2 ^ 12 in
  match allocation_table s !! Z.to_nat (p / 64) with
  | Some w =>
      if Z.testbit w (p mod 32)
      then update (p / 64) (Z.land w (u64 (Z.lnot (shl_int (p mod 32))))) (u64 (used_physical_pages s - 1)) s
      else add_call CNewLine (add_call (CPrintU64 addr 16)
             (add_call (CPrint "warning: memory_physical_free called on already freed page 0x") s))
  | None => s
  end.

Lemma free_run s addr :
  phys_inv s → 0 ≤ addr → addr / 2 ^ 12 / 64 < allocation_table_length s →
  memory_physical_free addr s = Ok (tt, free_result addr s).
Proof.
  intros Hs Haddr Hlt. unfold memory_physical_free, free_result.
  rewrite (bind_ok _ _ _ _ _ (acquire_ok s (inv_lock s Hs))). mstep. cbn [allocation_table_length set_lock].
  rewrite (shiftr_div addr 12) by lia. set (p := addr / 2 ^ 12) in *.
  assert (0 ≤ p) as Hp by (unfold p; divmod_lia).
  rewrite (word_index s p) by done. rewrite (proj2 (Z.leb_gt _ _)) by done.
  destruct (lookup_word s (p / 64) Hs) as (w & Hw & Hok); [divmod_lia|].
  rewrite (bind_ok _ _ _ _ _ (load_word_ok (set_lock 1 s) (p / 64) w Hw)), Hw.
  destruct (mask_page p) as [Hm1 Hm2]. change (u64 (shl_int (u8 (Z.land p 63)))) with (mask (u8 (Z.land p 63))).
  rewrite Hm1, Hm2, land_mask_truthy, Z.mod_mod by (done || lia). pose proof (inv_lock s Hs) as Hl.
  destruct (Z.testbit w (p mod 32)).
  - mstep. rewrite (bind_ok _ _ _ _ _ (store_word_ok (set_lock 1 s) (p / 64) w _ Hw)).
    unfold release, modify. unfold bind. destruct s. cbn in *. by rewrite Hl.
  - unfold log. mstep. unfold release, modify. destruct s. cbn in *. by rewrite Hl.
Qed.

(** *** Reserving *)

(** What reserving one page does to a state. *)
Definition reserves (p : Z) (s s' : phys) : Prop :=
  phys_inv s' ∧ allocation_table_length s' = allocation_table_length s ∧
  allocation_index s' = allocation_index s ∧ p_log s' = p_log s ∧ (counted s → counted s') ∧
  ∀ q, free_page (allocation_table s') q ↔ free_page (allocation_table s) q ∧ q ≠ alias p.

Lemma reserve_page_run s p :
  phys_inv s → 0 ≤ p → p / 64 < allocation_table_length s →
  ∃ s', reserve_page p (set_lock 1 s) = Ok (tt, set_lock 1 s') ∧ reserves p s s'.
Proof.
  intros Hs Hp Hlt. unfold reserve_page. rewrite (word_index s p) by done.
  destruct (lookup_word s (p / 64) Hs) as (w & Hw & Hok); [divmod_lia|].
  rewrite (bind_ok _ _ _ _ _ (load_word_ok (set_lock 1 s) (p / 64) w Hw)).
  destruct (mask_page p) as [Hm _]. change (u64 (shl_int (u8 (Z.land p 63)))) with (mask (u8 (Z.land p 63))).
  rewrite Hm, land_mask_truthy, Z.mod_mod by (done || lia).
  destruct (Z.testbit w (p mod 32)) eqn:E.
  - exists s. split; [done|]. do 5 (split; [done|]). intros q. split; [|by intros [? _]].
    intros Hq. split; [done|]. intros ->. by apply (alias_taken _ _ _ Hp Hw E).
  - exists (update (p / 64) (Z.lor w (mask (p mod 32))) (u64 (used_physical_pages s + 1)) s).
    rewrite (bind_ok _ _ _ _ _ (store_word_ok (set_lock 1 s) (p / 64) w _ Hw)).
    split; [by destruct s|]. split; [by apply update_inv; [|apply word_ok_lor, word_ok_mask]|].
    do 3 (split; [done|]). split; [|intros q; by apply free_page_set].
    intros Hc. unfold counted. rewrite (avail_update _ w) by (done || divmod_lia).
    rewrite word_free_set by (by rewrite ?Z.mod_mod by lia). cbn [used_physical_pages update set_used_physical
      allocation_table_length set_table]. rewrite u64_succ_used by done. unfold counted in Hc. lia.
Qed.

Definition reserves_range (start stop : Z) (s s' : phys) : Prop :=
  phys_inv s' ∧ allocation_table_length s' = allocation_table_length s ∧
  allocation_index s' = allocation_index s ∧ p_log s' = p_log s ∧ (counted s → counted s') ∧
  ∀ q, free_page (allocation_table s') q ↔
    free_page (allocation_table s) q ∧
    ∀ p, start ≤ p < Z.min stop (allocation_table_length s) → q ≠ alias p.

Lemma reserve_loop_run fuel : ∀ s start stop,
  phys_inv s → 0 ≤ start → allocation_table_length s - start < Z.of_nat fuel → (0 < fuel)%nat →
  ∃ s', reserve_loop fuel start stop (set_lock 1 s) = Ok (tt, set_lock 1 s') ∧
        reserves_range start stop s s'.
Proof.
  induction fuel as [|fuel IH]; intros s start stop Hs Hstart Hfuel Hpos; [lia|]. cbn [reserve_loop].
  destruct (Z.leb_spec stop start).
  { exists s. split; [done|]. do 5 (split; [done|]). intros q. split; [|by intros [? _]].
    intros Hq. split; [done|]. intros p Hp. lia. }
  mstep. cbn [allocation_table_length set_lock].
  destruct (Z.leb_spec (allocation_table_length s) start).
  { exists s. split; [done|]. do 5 (split; [done|]). intros q. split; [|by intros [? _]].
    intros Hq. split; [done|]. intros p Hp. lia. }
  destruct (reserve_page_run s start Hs Hstart) as (s1 & Hrun & Hs1 & Hlen & Hidx & Hlog & Hcnt & Hfree);
    [divmod_lia|].
  rewrite (bind_ok _ _ _ _ _ Hrun). pose proof (inv_length s Hs). rewrite u64_small by lia.
  destruct (IH s1 (start + 1) stop) as (s2 & Hrun2 & Hs2 & Hlen2 & Hidx2 & Hlog2 & Hcnt2 & Hfree2);
    [done|lia|lia|lia|].
  exists s2. split; [done|]. split; [done|]. do 3 (split; [congruence|]). split; [auto|].
  intros q. rewrite Hfree2, Hfree, Hlen. split.
  - intros [[Hq Hne] Hr]. split; [done|]. intros p Hp. destruct (decide (p = start)) as [->|]; [done|].
    apply Hr. lia.
  - intros [Hq Hr]. split; [split; [done|apply Hr; lia]|]. intros p Hp. apply Hr. lia.
Qed.

(** The pages of a byte range, as the function counts them. *)
Definition page_count (addr bytes : Z) : Z := (bytes + addr mod 2 ^ 12 - 1) / 2 ^ 12 + 1.

(** The same with the wrap-around of 64-bit arithmetic: a range of no bytes at
    a page boundary counts 2^52 pages. *)
Definition reserve_count (addr bytes : Z) : Z := u64 (bytes + addr mod 2 ^ 12 - 1) / 2 ^ 12 + 1.

Lemma reserve_count_small addr bytes :
  0 < bytes < 2 ^ 52 → reserve_count addr bytes = page_count addr bytes.
Proof. intros Hb. unfold reserve_count, page_count. by rewrite u64_small by divmod_lia. Qed.

Lemma reserve_run_any s addr bytes :
  phys_inv s → 0 ≤ addr < 2 ^ 64 →
  ∃ s', memory_physical_reserve addr bytes s = Ok (tt, s') ∧
        reserves_range (addr / 2 ^ 12) (addr / 2 ^ 12 + reserve_count addr bytes) s s'.
Proof.
  intros Hs Haddr. unfold memory_physical_reserve, reserve_count.
  rewrite (bind_ok _ _ _ _ _ (acquire_ok s (inv_lock s Hs))). mstep. cbn [allocation_table_length set_lock].
  rewrite !shiftr_div by lia. change 0xFFF with (2 ^ 12 - 1). rewrite land_ones_mod by lia.
  assert (u64 (u64 (bytes + addr mod 2 ^ 12) - 1) = u64 (bytes + addr mod 2 ^ 12 - 1)) as ->
    by (unfold u64; by rewrite Zminus_mod_idemp_l).
  pose proof (u64_range (bytes + addr mod 2 ^ 12 - 1)) as Hr. set (b := u64 (_ - 1)) in *. clearbody b.
  rewrite (u64_small (_ + 1)) by divmod_lia. rewrite (u64_small (_ + _)) by divmod_lia.
  destruct (reserve_loop_run (S (Z.to_nat (allocation_table_length s - addr / 2 ^ 12))) s (addr / 2 ^ 12)
    (addr / 2 ^ 12 + (b / 2 ^ 12 + 1))) as (s' & Hrun & Hs'); [done|divmod_lia|lia|lia|].
  exists s'. rewrite (bind_ok _ _ _ _ _ Hrun). split; [|done].
  unfold release, modify. cbn. rewrite <- (set_lock_same s') at 2 by (apply inv_lock, Hs'). done.
Qed.

Lemma reserve_run s addr bytes :
  phys_inv s → 0 ≤ addr < 2 ^ 52 → 0 < bytes < 2 ^ 52 →
  ∃ s', memory_physical_reserve addr bytes s = Ok (tt, s') ∧
        reserves_range (addr / 2 ^ 12) (addr / 2 ^ 12 + page_count addr bytes) s s'.
Proof.
  intros Hs Haddr Hbytes. rewrite <- reserve_count_small by done. apply reserve_run_any; [done|lia].
Qed.

(** *** Consecutive pages *)

(** Words [r] to [r + n - 1] are zero. *)
Definition zero_run (t : list Z) (r n : Z) : Prop := ∀ j, r ≤ j < r + n → t !! Z.to_nat j = Some 0.

Lemma zero_run_snoc t r n : zero_run t r n → t !! Z.to_nat (r + n) = Some 0 → zero_run t r (n + 1).
Proof. intros H Hn j Hj. destruct (decide (j = r + n)) as [->|]; [done|]. apply H. lia. Qed.

(** One iteration at a word [w], with [c] zero words before it. *)
Lemma find_run_step s fuel n spot c w :
  phys_inv s → 0 ≤ c ≤ spot → spot < allocation_table_length s →
  allocation_table s !! Z.to_nat spot = Some w →
  find_run (S fuel) n spot c (set_lock 1 s) =
    if (w =? 0) && (n <=? c + 1) then Ok (spot - c, set_lock 1 s)
    else if allocation_table_length s <=? spot + 1 then find_run fuel n 0 0 (set_lock 1 s)
    else find_run fuel n (spot + 1) (if w =? 0 then c + 1 else 0) (set_lock 1 s).
Proof.
  intros Hs Hc Hspot Hw. cbn [find_run]. pose proof (inv_length s Hs).
  rewrite (bind_ok _ _ _ _ _ (load_word_ok (set_lock 1 s) spot w Hw)).
  rewrite (u32_small (c + 1)), (u32_small (c + 1 - 1)), (u64_small (spot + 1)), (u64_small (spot - _)) by lia.
  replace (spot - (c + 1 - 1)) with (spot - c) by lia.
  destruct ((w =? 0) && (n <=? c + 1)); [done|]. mstep. cbn [allocation_table_length set_lock].
  by destruct (allocation_table_length s <=? spot + 1).
Qed.

Definition found_run (s : phys) (n : Z) (o : outcome (Z * phys)) : Prop :=
  ∃ r, o = Ok (r, set_lock 1 s) ∧ 0 ≤ r ∧ r + n ≤ allocation_table_length s ∧
       zero_run (allocation_table s) r n.

(** The word where the run counter reaches [n] ends a run. *)
Lemma found_run_here s n spot c :
  0 < n → 0 ≤ c ≤ spot → c < n → n <= c + 1 → spot < allocation_table_length s →
  zero_run (allocation_table s) (spot - c) c → allocation_table s !! Z.to_nat spot = Some 0 →
  found_run s n (Ok (spot - c, set_lock 1 s)).
Proof.
  intros Hn Hc Hcn Hnc Hspot Hrun Hw. assert (n = c + 1) as -> by lia.
  exists (spot - c). split; [done|]. split; [lia|]. split; [lia|].
  apply zero_run_snoc; [done|]. by replace (spot - c + c) with spot by lia.
Qed.

(** With a run at [r0] not yet passed, the loop finds a run before its end. *)
Lemma find_run_ahead s n r0 fuel : ∀ spot c,
  phys_inv s → 0 < n → 0 ≤ r0 → r0 + n ≤ allocation_table_length s → zero_run (allocation_table s) r0 n →
  0 ≤ c ≤ spot → c < n → zero_run (allocation_table s) (spot - c) c →
  spot < r0 + n → spot - r0 ≤ c → r0 + n - spot ≤ Z.of_nat fuel →
  found_run s n (find_run fuel n spot c (set_lock 1 s)).
Proof.
  induction fuel as [|fuel IH]; intros spot c Hs Hn Hr0 Hend Hrun0 Hc Hcn Hrun Hspot Hcr Hfuel; [lia|].
  destruct (lookup_word s spot Hs) as (w & Hw & _); [lia|].
  rewrite (find_run_step s fuel n spot c w) by (done || lia).
  destruct (Z.eqb_spec w 0) as [->|Hw0]; cbn [andb].
  - destruct (Z.leb_spec n (c + 1)); [apply found_run_here; (done || lia)|].
    rewrite (proj2 (Z.leb_gt _ _)) by lia. apply IH; try (done || lia).
    replace (spot + 1 - (c + 1)) with (spot - c) by lia. apply zero_run_snoc; [done|].
    by replace (spot - c + c) with spot by lia.
  - assert (spot < r0).
    { destruct (decide (r0 ≤ spot)) as [Hle|]; [|lia]. specialize (Hrun0 spot ltac:(lia)). congruence. }
    rewrite (proj2 (Z.leb_gt _ _)) by lia. apply IH; try (done || lia). intros j Hj. lia.
Qed.

(** From anywhere: up to the end of the table, and then from its start. *)
Lemma find_run_ok s n r0 fuel : ∀ spot c,
  phys_inv s → 0 < n → 0 ≤ r0 → r0 + n ≤ allocation_table_length s → zero_run (allocation_table s) r0 n →
  0 ≤ c ≤ spot → c < n → zero_run (allocation_table s) (spot - c) c →
  spot < allocation_table_length s →
  allocation_table_length s - spot + r0 + n ≤ Z.of_nat fuel →
  found_run s n (find_run fuel n spot c (set_lock 1 s)).
Proof.
  induction fuel as [|fuel IH]; intros spot c Hs Hn Hr0 Hend Hrun0 Hc Hcn Hrun Hspot Hfuel; [lia|].
  destruct (lookup_word s spot Hs) as (w & Hw & _); [lia|].
  rewrite (find_run_step s fuel n spot c w) by (done || lia).
  destruct (Z.leb_spec (allocation_table_length s) (spot + 1)).
  - destruct ((w =? 0) && (n <=? c + 1)) eqn:E.
    + apply andb_prop in E as [->%Z.eqb_eq E2%Z.leb_le]. apply found_run_here; (done || lia).
    + apply (find_run_ahead s n r0); try (done || lia). intros j Hj. lia.
  - destruct (Z.eqb_spec w 0) as [->|Hw0]; cbn [andb].
    + destruct (Z.leb_spec n (c + 1)); [apply found_run_here; (done || lia)|].
      apply IH; try (done || lia). replace (spot + 1 - (c + 1)) with (spot - c) by lia.
      apply zero_run_snoc; [done|]. by replace (spot - c + c) with spot by lia.
    + apply IH; try (done || lia). intros j Hj. lia.
Qed.

(** The table after words [r] to [r + n - 1] were taken. *)
Definition takes_run (r n : Z) (s s' : phys) : Prop :=
  length (allocation_table s') = length (allocation_table s) ∧
  allocation_table_length s' = allocation_table_length s ∧
  used_physical_pages s' = used_physical_pages s ∧ p_log s' = p_log s ∧
  ∀ j, 0 ≤ j → allocation_table s' !! Z.to_nat j =
    if decide (r ≤ j < r + n) then Some all_taken else allocation_table s !! Z.to_nat j.

Lemma take_words_ok s r n :
  phys_inv s → 0 ≤ r → 0 ≤ n → r + n ≤ allocation_table_length s →
  ∃ s', for_loop (Z.to_nat n) 0 (λ i, store_word (u64 (r + i)) all_taken) (set_lock 1 s) = Ok (tt, s') ∧
    takes_run r n s s' ∧ memory_lock s' = 1 ∧ allocation_index s' = allocation_index s.
Proof.
  intros Hs Hr Hn Hend. pose proof (inv_length s Hs).
  destruct (for_loop_inv (λ i s', takes_run r i s s' ∧ memory_lock s' = 1 ∧ allocation_index s' = allocation_index s)
    (λ i, store_word (u64 (r + i)) all_taken) (Z.to_nat n) 0 (set_lock 1 s)) as (s' & Hrun & HI).
  - repeat split; try done. intros j Hj. by rewrite decide_False by lia.
  - intros j s1 Hj ((Hl & Hlen & Hu & Hlog & Hlk) & Hlock & Hix).
    rewrite u64_small by lia. destruct (lookup_word s (r + j) Hs) as (w & Hw & _); [lia|].
    assert (allocation_table s1 !! Z.to_nat (r + j) = Some w) as Hw1 by (by rewrite Hlk, decide_False by lia).
    rewrite (store_word_ok _ _ _ _ Hw1). eexists. split; [done|].
    repeat split; cbn; try done; [by rewrite length_insert|].
    intros k Hk. destruct (decide (k = r + j)) as [->|Hne].
    + rewrite decide_True by lia. apply list_lookup_insert_eq. by apply lookup_lt_Some in Hw1.
    + rewrite list_lookup_insert_ne, Hlk by lia. repeat case_decide; (done || lia).
  - exists s'. rewrite Z2Nat.id in HI by lia. by rewrite Z.add_0_l in HI.
Qed.

Lemma consecutive_run s pages r0 :
  phys_inv s → 64 ≤ pages < 2 ^ 64 → 0 ≤ r0 → r0 + pages / 64 ≤ allocation_table_length s →
  zero_run (allocation_table s) r0 (pages / 64) →
  ∃ r s', memory_physical_allocate_consecutive pages s = Ok (r * 64 * 2 ^ 12, s') ∧
    0 ≤ r ∧ r + pages / 64 ≤ allocation_table_length s ∧
    zero_run (allocation_table s) r (pages / 64) ∧ takes_run r (pages / 64) s s' ∧
    memory_lock s' = 0 ∧ allocation_index s' = r + pages / 64.
Proof.
  intros Hs Hpages Hr0 Hend Hrun0. set (n := pages / 64) in *. pose proof (inv_length s Hs).
  assert (0 < n) as Hn by (unfold n; divmod_lia). pose proof (inv_index s Hs) as Hidx.
  unfold memory_physical_allocate_consecutive. rewrite (bind_ok _ _ _ _ _ (acquire_ok s (inv_lock s Hs))).
  mstep. rewrite shiftr_div by lia. change (pages / 2 ^ 6) with n.
  cbn [allocation_index allocation_table_length set_lock].
  destruct (find_run_ok s n r0 (S (Z.to_nat (2 * allocation_table_length s))) (allocation_index s) 0)
    as (r & Hfind & Hr & Hrn & Hrun); try (done || lia).
  { intros j Hj. lia. }
  rewrite (bind_ok _ _ _ _ _ Hfind).
  destruct (take_words_ok s r n Hs Hr) as (s1 & Hloop & Htake & Hlock & Hix); [lia|done|].
  rewrite (bind_ok _ _ _ _ _ Hloop). unfold release. mstep. unfold ret. eexists r, _. split.
  - rewrite !Z.shiftl_mul_pow2, (u64_small (r * 2 ^ 6)), !u64_small by lia. done.
  - destruct Htake as (H1 & H2 & H3 & H4 & H5). by repeat split.
Qed.

(** *** Initialisation *)

Lemma sum_of_replicate {A} (f : A → Z) x n : sum_of f (replicate n x) = f x * Z.of_nat n.
Proof. induction n as [|n IH]; cbn [replicate sum_of]; [lia|]. rewrite IH. lia. Qed.

(** After [i] iterations the first [i] words are zero. *)
Lemma clear_words_ok storage n s :
  allocation_table s = storage → length storage = n → Z.of_nat n < 2 ^ 64 →
  for_loop n 0 (λ i, store_word i 0) s = Ok (tt, set_table (replicate n 0) s).
Proof.
  intros Ht Hl Hn.
  destruct (for_loop_inv (λ i s', s' = set_table (replicate (Z.to_nat i) 0 ++ drop (Z.to_nat i) storage) s)
    (λ i, store_word i 0) n 0 s) as (s' & Hrun & HI).
  - destruct s. cbn in *. by subst.
  - intros j s1 Hj ->. destruct (lookup_lt_is_Some_2 storage (Z.to_nat j)) as [w Hw]; [lia|].
    eexists. split.
    + apply (store_word_ok _ _ w). cbn. rewrite lookup_app_r by (rewrite length_replicate; lia).
      rewrite length_replicate, Nat.sub_diag, lookup_drop, Nat.add_0_r. done.
    + cbn. rewrite insert_app_r_alt by (rewrite length_replicate; lia).
      rewrite length_replicate, Nat.sub_diag, (drop_S _ _ _ Hw). cbn.
      replace (Z.to_nat (j + 1)) with (S (Z.to_nat j)) by lia.
      rewrite replicate_S_end, <- app_assoc. done.
  - rewrite Hrun, HI, Z.add_0_l, Nat2Z.id, drop_ge, app_nil_r by lia. done.
Qed.

(** The cleared table. *)
Lemma initialize_run storage total s :
  0 ≤ total < 2 ^ 50 → length storage = Z.to_nat (total / 4096 / 64) →
  memory_lock s = 0 → used_physical_pages s = 0 →
  ∃ s', memory_physical_initialize storage total s = Ok (tt, s') ∧ phys_inv s' ∧ counted s' ∧
    allocation_table_length s' = total / 4096 / 64 ∧
    ∀ q, free_page (allocation_table s') q ↔ 0 ≤ q ∧ q mod 64 < 32 ∧ q / 64 < total / 4096 / 64.
Proof.
  intros Ht Hl Hlock Hused. unfold memory_physical_initialize. mstep. rewrite u64_small by lia.
  eexists. rewrite (clear_words_ok storage) by (done || divmod_lia). split; [done|]. split; [|split; [|split; [done|]]].
  - constructor; cbn; [by rewrite length_replicate|divmod_lia| |divmod_lia|done].
    apply list.Forall_forall. intros w [-> _]%elem_of_replicate. apply word_ok_zero.
  - unfold counted, avail. cbn [allocation_table set_table used_physical_pages set_length set_index
      allocation_table_length]. rewrite sum_of_replicate, Hused. change (word_free 0) with 32. divmod_lia.
  - intros q. cbn [allocation_table set_table]. split.
    + intros (H0 & H1 & w & [_ Hw]%lookup_replicate_1 & _). split_and!; [done..|]. divmod_lia.
    + intros (H0 & H1 & H2). split; [done|]. split; [done|]. exists 0. split; [|apply Z.bits_0].
      apply lookup_replicate. split; [done|]. divmod_lia.
Qed.

(** ** Traces

    The allocator used by any sequence of calls: [owned] lists the pages that
    were handed out and not freed since. *)
Inductive trace : phys * list Z → phys * list Z → Prop :=
| trace_refl x : trace x x
| trace_allocate x s owned p s' :
    trace x (s, owned) → memory_physical_allocate s = Ok (p * 2 ^ 12, s') →
    trace x (s', p :: owned)
| trace_free x s owned1 p owned2 s' :
    trace x (s, owned1 ++ p :: owned2) → memory_physical_free (p * 2 ^ 12) s = Ok (tt, s') →
    trace x (s', owned1 ++ owned2)
| trace_reserve x s owned addr bytes s' :
    trace x (s, owned) → 0 ≤ addr < 2 ^ 52 → 0 < bytes < 2 ^ 52 →
    memory_physical_reserve addr bytes s = Ok (tt, s') →
    trace x (s', owned).

(** Owned pages are distinct pages of the lower halves, none of them free. *)
Definition owns (s : phys) (owned : list Z) : Prop :=
  phys_inv s ∧ NoDup owned ∧ Forall (λ p, 0 ≤ p ∧ p mod 64 < 32 ∧ p / 64 < allocation_table_length s ∧
    ¬ free_page (allocation_table s) p) owned.

Lemma allocate_full s :
  phys_inv s → 0 < allocation_table_length s → avail s = 0 → memory_physical_allocate s = Hang.
Proof.
  intros Hs Hlen Ha. pose proof (inv_index s Hs).
  unfold memory_physical_allocate. rewrite (bind_ok _ _ _ _ _ (acquire_ok s (inv_lock s Hs))). mstep.
  cbn [allocation_index allocation_table_length set_lock]. unfold bind at 1.
  rewrite find_word_full; [done|done|lia|]. apply Forall_lookup_2. intros i w Hw.
  apply word_free_zero; [by apply (Forall_lookup_1 _ _ _ _ (inv_words s Hs) Hw)|].
  apply (sum_of_zero word_free (allocation_table s)); [intros x; apply word_free_bounds|done|].
  by apply list_elem_of_lookup_2 in Hw.
Qed.

(** The effect of [memory_physical_allocate] on the set of free pages. *)
Definition allocates (s : phys) (p : Z) (s' : phys) : Prop :=
  phys_inv s' ∧ allocation_table_length s' = allocation_table_length s ∧
  p / 64 < allocation_table_length s ∧ avail s' = avail s - 1 ∧
  used_physical_pages s' = u64 (used_physical_pages s + 1) ∧ p_log s' = p_log s ∧
  free_page (allocation_table s) p ∧
  ∀ q, free_page (allocation_table s') q ↔ free_page (allocation_table s) q ∧ q ≠ p.

Lemma allocate_ok s : phys_inv s → 0 < avail s →
  ∃ p s', memory_physical_allocate s = Ok (p * 2 ^ 12, s') ∧ allocates s p s'.
Proof.
  intros Hs Ha. destruct (allocate_run s Hs Ha) as (p & w & Hfree & Hw & Hok & Hr & Hb & Hrun).
  eexists p, _. split; [exact Hrun|]. pose proof Hfree as (Hp0 & Hp1 & _).
  split; [apply set_index_inv; [|done]; apply update_inv; [done|]; apply word_ok_lor; [done|apply word_ok_mask]|].
  split; [done|]. split; [lia|]. split.
  { change (avail (update (p / 64) (Z.lor w (mask (p mod 32))) (u64 (used_physical_pages s + 1)) s) = avail s - 1).
    rewrite (avail_update _ w) by (lia || done).
    rewrite word_free_set by (by rewrite ?Z.mod_mod by lia). lia. }
  do 2 (split; [done|]). split; [done|]. intros q. cbn [allocation_table set_index update set_used_physical set_table].
  rewrite free_page_set by done. by rewrite alias_low.
Qed.

(** The same on all 64 bits of the words. *)
Lemma allocate_marks s p s' : phys_inv s → 0 < avail s → memory_physical_allocate s = Ok (p * 2 ^ 12, s') →
  marked (allocation_table s) p = false ∧
  ∀ q, 0 ≤ q → marked (allocation_table s') q = true ↔ marked (allocation_table s) q = true ∨ marked_with p q.
Proof.
  intros Hs Ha Hrun. destruct (allocate_run s Hs Ha) as (p' & w & Hfree & Hw & _ & _ & _ & Hrun').
  rewrite Hrun in Hrun'. injection Hrun' as Hp ->. assert (p' = p) as -> by lia.
  pose proof Hfree as (Hp0 & Hlow & _). split; [by apply (free_page_marked _ _ w Hp0 Hw)|].
  intros q Hq. by apply (marked_set _ p w q).
Qed.

Lemma allocate_inv s r s' : phys_inv s → memory_physical_allocate s = Ok (r, s') →
  0 < allocation_table_length s → ∃ p, r = p * 2 ^ 12 ∧ allocates s p s'.
Proof.
  intros Hs Hrun Hlen. destruct (decide (avail s = 0)) as [H0|H0].
  - rewrite (allocate_full s) in Hrun by done. done.
  - pose proof (avail_bounds s Hs). destruct (allocate_ok s Hs) as (p & s1 & Hrun' & Hal); [lia|].
    rewrite Hrun' in Hrun. simplify_eq. by exists p.
Qed.

(** The effect of freeing a page that is in use. *)
Lemma free_result_ok s p :
  phys_inv s → 0 ≤ p → p / 64 < allocation_table_length s → ¬ free_page (allocation_table s) (alias p) →
  let s' := free_result (p * 2 ^ 12) s in
  phys_inv s' ∧ allocation_table_length s' = allocation_table_length s ∧ avail s' = avail s + 1 ∧
  used_physical_pages s' = u64 (used_physical_pages s - 1) ∧ p_log s' = p_log s ∧
  ∀ q, free_page (allocation_table s') q ↔ free_page (allocation_table s) q ∨ q = alias p.
Proof.
  intros Hs Hp Hlt Hnf. unfold free_result. rewrite Z.div_mul by lia. cbn zeta.
  destruct (lookup_word s (p / 64) Hs) as (w & Hw & Hok); [divmod_lia|]. rewrite Hw.
  destruct (Z.testbit w (p mod 32)) eqn:E.
  - split; [by apply update_inv; [|apply word_ok_land, word_ok_nmask]|]. split; [done|]. split.
    { rewrite (avail_update _ w) by (done || divmod_lia).
      rewrite word_free_clear by (by rewrite ?Z.mod_mod by lia). lia. }
    do 2 (split; [done|]). intros q. by apply free_page_clear.
  - exfalso. apply Hnf. unfold free_page.
    assert (alias p / 64 = p / 64 ∧ alias p mod 64 = p mod 32 ∧ 0 ≤ alias p) as (-> & -> & ?)
      by (unfold alias; repeat split; divmod_lia).
    split; [done|]. split; [divmod_lia|]. by exists w.
Qed.

Lemma owns_step_free s owned1 p owned2 s' :
  owns s (owned1 ++ p :: owned2) → memory_physical_free (p * 2 ^ 12) s = Ok (tt, s') →
  owns s' (owned1 ++ owned2).
Proof.
  intros (Hs & Hnd & HF) Hrun. apply list.Forall_app in HF as [HF1 HF2].
  apply list.Forall_cons in HF2 as [(Hp0 & Hp1 & Hlt & Hnf) HF2].
  rewrite free_run in Hrun by (rewrite ?Z.div_mul by lia; (done || lia)). simplify_eq.
  destruct (free_result_ok s p) as (Hinv & Hlen & _ & _ & _ & Hfree); [done|done|done|by rewrite alias_low|].
  apply list.NoDup_app in Hnd as (Hnd1 & Hdis & Hnd2). apply list.NoDup_cons in Hnd2 as [Hnin Hnd2].
  split; [done|]. split; [apply list.NoDup_app; split; [done|split; [|done]]; intros x H1 H2; apply (Hdis x H1); by right|].
  rewrite Hlen. apply list.Forall_forall. intros q Hq.
  assert (q ≠ p) as Hne.
  { intros ->. apply elem_of_app in Hq as [Hq|Hq]; [|done]. apply (Hdis p Hq). by left. }
  assert (Forall (λ p, 0 ≤ p ∧ p mod 64 < 32 ∧ p / 64 < allocation_table_length s ∧
    ¬ free_page (allocation_table s) p) (owned1 ++ owned2)) as HF by (by apply list.Forall_app).
  rewrite list.Forall_forall in HF. destruct (HF q Hq) as (H1 & H2 & H3 & H4).
  split; [done|]. split; [done|]. split; [done|]. rewrite Hfree, alias_low by done. tauto.
Qed.

Lemma trace_owns x y : trace x y →
  owns x.1 x.2 → 0 < allocation_table_length x.1 → owns y.1 y.2 ∧ 0 < allocation_table_length y.1.
Proof.
  intros Ht Hx Hlen. induction Ht as [x|x s owned p s' _ IH Hrun|x s owned1 p owned2 s' _ IH Hrun
    |x s owned addr bytes s' _ IH Ha Hb Hrun]; [done|..]; destruct (IH Hx Hlen) as [Ho Hl]; cbn in *.
  - destruct Ho as (Hs & Hnd & HF). destruct (allocate_inv s _ s' Hs Hrun Hl) as (p' & Hp & Hal).
    apply Z.mul_cancel_r in Hp as <-; [|lia]. destruct Hal as (H1 & H2 & H3 & _ & _ & _ & H4 & H5).
    rewrite list.Forall_forall in HF. split; [|lia]. split; [done|]. split.
    + apply list.NoDup_cons. split; [|done]. intros Hin. destruct (HF p Hin) as (_ & _ & _ & Hnf). done.
    + rewrite H2. apply list.Forall_cons. split.
      * destruct H4 as (? & ? & ?). split; [done|]. split; [done|]. split; [done|]. rewrite H5. tauto.
      * apply list.Forall_forall. intros q Hq. destruct (HF q Hq) as (? & ? & ? & Hnf). rewrite H5. tauto.
  - split; [by eapply owns_step_free|]. destruct Ho as (Hs & _ & HF).
    apply list.Forall_app in HF as [_ HF]. apply list.Forall_cons in HF as [(Hp0 & Hp1 & Hlt & Hnf) _].
    rewrite free_run in Hrun by (rewrite ?Z.div_mul by lia; (done || lia)). simplify_eq.
    destruct (free_result_ok s p) as (_ & -> & _); [done|done|done|by rewrite alias_low|done].
  - destruct Ho as (Hs & Hnd & HF).
    destruct (reserve_run s addr bytes Hs Ha Hb) as (s1 & Hrun' & H1 & H2 & _ & _ & _ & H3).
    rewrite Hrun' in Hrun. simplify_eq. rewrite H2. split; [|done]. split; [done|]. split; [done|].
    rewrite H2. eapply list.Forall_impl; [exact HF|]. cbn. intros q (? & ? & ? & ?). rewrite H3. tauto.
Qed.

(** ** Properties *)

(** A table of two words, all pages free. *)
Definition two_words : phys := Phys [0; 0] 0 2 0 0 [].

Lemma two_words_inv : phys_inv two_words.
Proof.
  constructor; cbn; [done|lia| |lia|done]. repeat constructor; try apply word_ok_zero; lia.
Qed.

(** Both words full. *)
Definition two_full : phys := Phys [all_taken; all_taken] 1 2 64 0 [].

Lemma two_full_inv : phys_inv two_full.
Proof.
  constructor; cbn [allocation_table allocation_table_length allocation_index memory_lock two_full];
    [done|lia| |lia|done].
  apply list.Forall_cons. split; [apply word_ok_all_taken|].
  apply list.Forall_cons. split; [apply word_ok_all_taken|done].
Qed.

(** C17. [memory_physical_allocate], on a well-formed bitmap with a page left that can be handed out,
    returns the address of a page whose bit was clear. It sets that bit, and when the page is number 31
    of its word it sets the 32 bits above as well ([1 << 31] is negative): 33 pages are marked for the one
    returned. No other bit changes. So of the pages that can be handed out, the lower halves of the words,
    exactly this one is gone; the page counter went up by one, the lock is free again and nothing was
    printed. *)
Theorem memory_physical_allocate_spec s :
  phys_inv s → 0 < avail s →
  ∃ p s', memory_physical_allocate s = Ok (p * 2 ^ 12, s') ∧
    phys_inv s' ∧ free_page (allocation_table s) p ∧
    (marked (allocation_table s) p = false ∧
     ∀ q, 0 ≤ q → marked (allocation_table s') q = true ↔
       marked (allocation_table s) q = true ∨ q = p ∨ (p mod 64 = 31 ∧ q / 64 = p / 64 ∧ 31 < q mod 64)) ∧
    (∀ q, free_page (allocation_table s') q ↔ free_page (allocation_table s) q ∧ q ≠ p) ∧
    avail s' = avail s - 1 ∧ used_physical_pages s' = u64 (used_physical_pages s + 1) ∧
    memory_lock s' = 0 ∧ p_log s' = p_log s.
Proof.
  intros Hs Ha. destruct (allocate_ok s Hs Ha) as (p & s' & Hrun & H1 & H2 & H3 & H4 & H5 & H6 & H7 & H8).
  destruct (allocate_marks s p s' Hs Ha Hrun) as [Hm Hmarks].
  exists p, s'. repeat (split; [done|]). split; [by apply inv_lock|done].
Qed.

Lemma memory_physical_allocate_spec_witness :
  ∃ p s', memory_physical_allocate two_words = Ok (p * 2 ^ 12, s') ∧ free_page (allocation_table two_words) p.
Proof.
  destruct (memory_physical_allocate_spec two_words two_words_inv) as (p & s' & Hrun & _ & Hf & _);
    [by vm_compute|]. by exists p, s'.
Defined.

(** C23. [memory_physical_allocate] loops forever exactly when no page below bit 32 of any word is
    free, and it never runs into undefined behaviour, whatever well-formed, non-empty table it is given. *)
Theorem memory_physical_allocate_hangs_when_full s :
  phys_inv s → 0 < allocation_table_length s →
  memory_physical_allocate s ≠ Undef ∧
  (memory_physical_allocate s = Hang ↔ ∀ q, ¬ free_page (allocation_table s) q).
Proof.
  intros Hs Hlen. pose proof (avail_bounds s Hs) as Hb. pose proof (avail_free_page s Hs) as Hf.
  destruct (decide (avail s = 0)) as [H0|H0].
  - rewrite allocate_full by done. split; [done|]. split; [|done]. intros _ q Hq.
    assert (0 < avail s) by (apply Hf; by exists q). lia.
  - destruct (allocate_ok s Hs) as (p & s' & Hrun & _); [lia|]. rewrite Hrun. split; [done|].
    split; [done|]. intros Hn. destruct Hf as [[q Hq] _]; [lia|]. by apply Hn in Hq.
Qed.

Lemma memory_physical_allocate_hangs_when_full_witness :
  memory_physical_allocate two_full ≠ Undef ∧ ¬ free_page (allocation_table two_full) 40.
Proof.
  destruct (memory_physical_allocate_hangs_when_full two_full two_full_inv) as [Hu Hh]; [cbn; lia|].
  split; [exact Hu|]. apply Hh. by vm_compute.
Defined.

(** [memory_physical_free] of a page that was handed out (its bit is below 32 and set) makes
    exactly that page free again, takes one off the counter and releases the lock. *)
Theorem memory_physical_free_spec s p :
  phys_inv s → 0 ≤ p → p mod 64 < 32 → p / 64 < allocation_table_length s →
  ¬ free_page (allocation_table s) p →
  ∃ s', memory_physical_free (p * 2 ^ 12) s = Ok (tt, s') ∧ phys_inv s' ∧
    (∀ q, free_page (allocation_table s') q ↔ free_page (allocation_table s) q ∨ q = p) ∧
    avail s' = avail s + 1 ∧ used_physical_pages s' = u64 (used_physical_pages s - 1) ∧
    memory_lock s' = 0 ∧ p_log s' = p_log s.
Proof.
  intros Hs Hp Hlow Hlt Hnf. exists (free_result (p * 2 ^ 12) s).
  rewrite free_run by (rewrite ?Z.div_mul by lia; (done || lia)). split; [done|].
  destruct (free_result_ok s p) as (H1 & H2 & H3 & H4 & H5 & H6); [done..|by rewrite alias_low|].
  split; [done|]. rewrite alias_low in H6 by done. repeat (split; [done|]). split; [by apply inv_lock|done].
Qed.

Lemma memory_physical_free_spec_witness :
  ∃ s', memory_physical_free (65 * 2 ^ 12) two_full = Ok (tt, s') ∧ phys_inv s'.
Proof.
  destruct (memory_physical_free_spec two_full 65 two_full_inv) as (s' & Hrun & Hs & _);
    [lia|by vm_compute|by vm_compute| |by exists s'].
  intros (_ & _ & w & Hw & Hb). cbn in Hw. injection Hw as <-. by vm_compute in Hb.
Defined.

(** Freeing a page that is already free is detected: the bitmap and the counter stay as they
    are, a warning with the address is printed and the lock is released. *)
Theorem memory_physical_free_detects_double_free s p :
  phys_inv s → free_page (allocation_table s) p →
  memory_physical_free (p * 2 ^ 12) s =
    Ok (tt, add_call CNewLine (add_call (CPrintU64 (p * 2 ^ 12) 16)
      (add_call (CPrint "warning: memory_physical_free called on already freed page 0x") s))).
Proof.
  intros Hs (Hp0 & Hp1 & w & Hw & Hb). assert (0 ≤ p / 64) as Hd by divmod_lia.
  destruct (lookup_range s (p / 64) w Hs Hd Hw) as [Hlt _].
  rewrite free_run by (rewrite ?Z.div_mul by lia; (done || lia)). unfold free_result.
  rewrite Z.div_mul by lia. rewrite Hw. assert (p mod 32 = p mod 64) as -> by divmod_lia. by rewrite Hb.
Qed.

Lemma memory_physical_free_detects_double_free_witness :
  memory_physical_free (3 * 2 ^ 12) two_words =
    Ok (tt, Phys [0; 0] 0 2 0 0 [CNewLine; CPrintU64 12288 16;
      CPrint "warning: memory_physical_free called on already freed page 0x"]).
Proof.
  apply (memory_physical_free_detects_double_free two_words 3 two_words_inv).
  split; [lia|]. split; [by vm_compute|]. exists 0. by vm_compute.
Defined.

(** [memory_physical_reserve] terminates, and afterwards no page of the byte range whose
    number is below [allocation_table_length] can be handed out; no page becomes free. The pages
    taken are exactly the aliases of the pages of the range: [1 << bit] is a 32-bit shift. *)
Theorem memory_physical_reserve_spec s addr bytes :
  phys_inv s → 0 ≤ addr < 2 ^ 52 → 0 < bytes < 2 ^ 52 →
  ∃ s', memory_physical_reserve addr bytes s = Ok (tt, s') ∧ phys_inv s' ∧
    (∀ q, free_page (allocation_table s') q ↔ free_page (allocation_table s) q ∧
       ∀ p, addr / 2 ^ 12 ≤ p < Z.min (addr / 2 ^ 12 + page_count addr bytes) (allocation_table_length s) →
         q ≠ alias p) ∧
    (∀ a, addr ≤ a < addr + bytes → a / 2 ^ 12 < allocation_table_length s →
       ¬ free_page (allocation_table s') (a / 2 ^ 12)) ∧
    (counted s → counted s').
Proof.
  intros Hs Ha Hb. destruct (reserve_run s addr bytes Hs Ha Hb) as (s' & Hrun & Hinv & Hlen & _ & _ & Hc & Hf).
  exists s'. split; [done|]. split; [done|]. split; [done|]. split; [|done].
  intros a Hr Hlt Hfree. pose proof Hfree as (H0 & H1 & _). apply Hf in Hfree as [_ Hn].
  apply (Hn (a / 2 ^ 12)); [unfold page_count; divmod_lia|]. by rewrite alias_low.
Qed.

Lemma memory_physical_reserve_spec_witness :
  ∃ s', memory_physical_reserve 0x1000 0x1000 two_words = Ok (tt, s') ∧
    ¬ free_page (allocation_table s') 1.
Proof.
  destruct (memory_physical_reserve_spec two_words 0x1000 0x1000 two_words_inv) as (s' & Hrun & _ & _ & Hr & _);
    [lia|lia|]. exists s'. split; [exact Hrun|]. apply (Hr 0x1000); [lia|by vm_compute].
Defined.

(** C29. [memory_physical_allocate_consecutive] finds a run of [pages / 64] completely free words
    whenever there is one, wherever the search starts: it terminates, the run it returns was free,
    afterwards all its words are taken and no other word has changed, and the lock is released. *)
Theorem memory_physical_allocate_consecutive_spec s pages r0 :
  phys_inv s → 64 ≤ pages < 2 ^ 64 → 0 ≤ r0 → r0 + pages / 64 ≤ allocation_table_length s →
  zero_run (allocation_table s) r0 (pages / 64) →
  ∃ r s', memory_physical_allocate_consecutive pages s = Ok (r * 64 * 2 ^ 12, s') ∧
    0 ≤ r ∧ r + pages / 64 ≤ allocation_table_length s ∧
    zero_run (allocation_table s) r (pages / 64) ∧
    (∀ j, 0 ≤ j → allocation_table s' !! Z.to_nat j =
       if decide (r ≤ j < r + pages / 64) then Some all_taken else allocation_table s !! Z.to_nat j) ∧
    memory_lock s' = 0 ∧ allocation_index s' = r + pages / 64.
Proof.
  intros Hs Hp Hr0 Hend Hrun0.
  destruct (consecutive_run s pages r0 Hs Hp Hr0 Hend Hrun0) as (r & s' & H1 & H2 & H3 & H4 & (_ & _ & _ & _ & H5) & H6).
  by exists r, s'.
Qed.

Lemma memory_physical_allocate_consecutive_spec_witness :
  ∃ r s', memory_physical_allocate_consecutive 64 two_words = Ok (r * 64 * 2 ^ 12, s') ∧ 0 ≤ r.
Proof.
  destruct (memory_physical_allocate_consecutive_spec two_words 64 1 two_words_inv) as (r & s' & Hrun & Hr & _);
    [lia|lia|by vm_compute| |by exists r, s'].
  intros j Hj. change (64 / 64) with 1 in Hj. by replace j with 1 by lia.
Defined.

(** [memory_physical_initialize] clears the table: a well-formed bitmap in which every page
    below bit 32 of every word is free, with the page counter and the bitmap in agreement when the
    counter was zero. *)
Theorem memory_physical_initialize_spec storage total s :
  0 ≤ total < 2 ^ 50 → length storage = Z.to_nat (total / 4096 / 64) →
  memory_lock s = 0 → used_physical_pages s = 0 →
  ∃ s', memory_physical_initialize storage total s = Ok (tt, s') ∧ phys_inv s' ∧ counted s' ∧
    ∀ q, 0 ≤ q → q mod 64 < 32 → q / 64 < total / 4096 / 64 → free_page (allocation_table s') q.
Proof.
  intros Ht Hl Hlock Hused.
  destruct (initialize_run storage total s Ht Hl Hlock Hused) as (s' & Hrun & Hinv & Hc & _ & Hf).
  exists s'. do 3 (split; [done|]). intros q H0 H1 H2. by apply Hf.
Qed.

Lemma memory_physical_initialize_spec_witness :
  ∃ s', memory_physical_initialize [7; 8] 0x80000 (Phys [] 5 0 0 0 []) = Ok (tt, s') ∧ phys_inv s'.
Proof.
  destruct (memory_physical_initialize_spec [7; 8] 0x80000 (Phys [] 5 0 0 0 [])) as (s' & Hrun & Hs & _);
    [lia|by vm_compute|done|done|by exists s'].
Defined.

(** C4. In any sequence of allocations, frees of pages handed out before, and reservations, the
    pages in use are pairwise distinct and none of them is in the free set: no page is handed out twice. *)
Theorem physical_pages_never_handed_out_twice s s' owned :
  phys_inv s → 0 < allocation_table_length s → trace (s, []) (s', owned) →
  NoDup owned ∧ ∀ p, p ∈ owned → ¬ free_page (allocation_table s') p.
Proof.
  intros Hs Hlen Ht. destruct (trace_owns _ _ Ht) as [(_ & Hnd & HF) _]; [|done|].
  - split; [done|]. split; [apply NoDup_nil_2|]. by apply list.Forall_nil.
  - split; [done|]. intros p Hp. rewrite list.Forall_forall in HF. apply (HF p Hp).
Qed.

Lemma physical_pages_never_handed_out_twice_witness : NoDup [1; 0].
Proof.
  refine (proj1 (physical_pages_never_handed_out_twice two_words (Phys [3; 0] 0 2 2 0 []) [1; 0]
    two_words_inv _ _)); [cbn; lia|].
  apply (trace_allocate _ (Phys [1; 0] 0 2 1 0 []) [0] 1); [|by vm_compute].
  apply (trace_allocate _ two_words [] 0); [apply trace_refl|by vm_compute].
Defined.

(** ** Observations *)

(** Taking page 31 of a word marks 33 pages: the mask is [-(2 ^ 31)]. *)
Example allocate_page_31 :
  memory_physical_allocate (Phys [0x7FFFFFFF] 0 1 31 0 []) = Ok (31 * 2 ^ 12, Phys [all_taken] 0 1 32 0 []).
Proof. vm_compute. reflexivity. Qed.

(** Reserving page 32 takes page 0 and leaves page 32 unmarked: [1 << 32] is [1]. *)
Example reserve_upper_half :
  memory_physical_reserve (32 * 2 ^ 12) 4096 (Phys (replicate 40 0) 0 40 0 0 []) =
  Ok (tt, Phys (1 :: replicate 39 0) 0 40 1 0 []).
Proof. vm_compute. reflexivity. Qed.

(** A page whose number is not below the number of words is not reserved. *)
Example reserve_beyond_word_count :
  memory_physical_reserve (2 * 2 ^ 12) 4096 two_words = Ok (tt, two_words).
Proof. vm_compute. reflexivity. Qed.

(** [memory_physical_allocated] looks at the word of the page's own number. *)
Example allocated_wrong_word :
  memory_physical_allocated (1 * 2 ^ 12) (Phys [2; 0] 0 2 1 0 []) = Ok (0, Phys [2; 0] 0 2 1 0 []).
Proof. vm_compute. reflexivity. Qed.

(** Fewer than 64 consecutive pages reserve nothing. *)
Example consecutive_below_64 :
  memory_physical_allocate_consecutive 63 two_words = Ok (0, two_words).
Proof. vm_compute. reflexivity. Qed.
