(* ===== verification/Multiboot.v ===== *)
(** * Multiboot information

    Models [src/src/common/multiboot2.c] and the structures of [multiboot2.h]:
    the tags the boot loader left in memory. [info] is [multiboot2_info]. *)

From S2P Require Import Prelude Memory.

Definition MULTIBOOT_TAG_TYPE_END : Z := 0.
Definition MULTIBOOT_TAG_TYPE_MEMORY_MAP : Z := 6.

(** [struct multiboot_info] and [struct multiboot_tag] *)
Definition sizeof_multiboot_info : Z := 8.
Definition info_total_size (m : mem) (info : Z) : Z := load32 m info.
Definition info_unused (m : mem) (info : Z) : Z := load32 m (info + 4).
Definition tag_type (m : mem) (tag : Z) : Z := load32 m tag.
Definition tag_size (m : mem) (tag : Z) : Z := load32 m (tag + 4).

(** [ALIGN_TO_NEXT(tag->size, 8)] in [unsigned int] arithmetic. *)
Definition align_to_next_uint (n to : Z) : Z := u32 (Z.land (u32 (n - 1)) (u32 (- to)) + to).

Fixpoint multiboot2_get_loop (fuel : nat) (m : mem) (address type : Z) : outcome Z :=
  match fuel with
  | O => Hang
  | S fuel' =>
      if tag_type m address =? MULTIBOOT_TAG_TYPE_END then Ok 0
      else if tag_type m address =? type then Ok address
      else multiboot2_get_loop fuel' m (address + align_to_next_uint (tag_size m address) 8) type
  end.

Definition multiboot2_info_get (fuel : nat) (m : mem) (info type : Z) : outcome Z :=
  multiboot2_get_loop fuel m (info + sizeof_multiboot_info) type.

Definition multiboot2_info_available (m : mem) (info : Z) : bool :=
  truthy info && negb (truthy (info_unused m info)) && (info_total_size m info <? 100000) &&
  (8 <=? info_total_size m info).

(** [struct multiboot_tag_memory_map] and its entries *)
Definition sizeof_memory_map_entry : Z := 24.
Definition map_entry_size (m : mem) (tag : Z) : Z := load32 m (tag + 8).
Definition map_entry (tag i : Z) : Z := tag + 16 + sizeof_memory_map_entry * i.
Definition entry_address (m : mem) (e : Z) : Z := load64 m e.
Definition entry_length (m : mem) (e : Z) : Z := load64 m (e + 8).
Definition entry_type (m : mem) (e : Z) : Z := load32 m (e + 16).

(** ** Correctness *)

(** The tags from [a] on, up to the one that ends the list. *)
Fixpoint tag_list (m : mem) (a : Z) (l : list Z) : Prop :=
  match l with
  | [] => tag_type m a = MULTIBOOT_TAG_TYPE_END
  | t :: l => t = a ∧ tag_type m a ≠ MULTIBOOT_TAG_TYPE_END ∧ 0 < tag_size m a ∧
      tag_size m a < 2 ^ 32 - 8 ∧ tag_list m (a + (tag_size m a + 7) / 8 * 8) l
  end.

Lemma align_to_next_uint_spec n :
  0 < n < 2 ^ 32 - 8 → align_to_next_uint n 8 = (n + 7) / 8 * 8.
Proof.
  intros Hn. unfold align_to_next_uint. rewrite (u32_small (n - 1)) by lia.
  change (u32 (- (8))) with (2 ^ 32 - 2 ^ 3). rewrite land_mask by lia.
  rewrite (Z.mod_small (n - 1)) by lia. rewrite u32_small by divmod_lia. divmod_lia.
Qed.

Lemma get_loop_spec m ty l : ∀ a fuel,
  tag_list m a l → (length l < fuel)%nat →
  multiboot2_get_loop fuel m a ty = Ok (default 0 (head (filter (λ t, tag_type m t = ty) l))).
Proof.
  induction l as [|t l IH]; intros a [|fuel] Hl Hf; cbn [length] in Hf; try lia; cbn [multiboot2_get_loop].
  - cbn [tag_list] in Hl. by rewrite Hl.
  - destruct Hl as (-> & He & Hs & Hs' & Hl). rewrite (proj2 (Z.eqb_neq _ _)) by done.
    rewrite filter_cons. destruct (Z.eqb_spec (tag_type m a) ty).
    + by rewrite decide_True.
    + rewrite decide_False, align_to_next_uint_spec by (done || lia). apply IH; (done || lia).
Qed.

(** [multiboot2_info_get] returns the first tag of the type in front of the end tag, 0 when
    there is none, and always ends on a list of tags with an end tag. *)
Theorem multiboot2_info_get_spec m info ty l fuel :
  tag_list m (info + sizeof_multiboot_info) l → (length l < fuel)%nat →
  multiboot2_info_get fuel m info ty = Ok (default 0 (head (filter (λ t, tag_type m t = ty) l))).
Proof. apply get_loop_spec. Qed.

(** A tag of size 0 is not passed. *)
Lemma multiboot2_zero_size_hangs m info ty fuel :
  let t := info + sizeof_multiboot_info in
  tag_size m t = 0 → tag_type m t ≠ MULTIBOOT_TAG_TYPE_END → tag_type m t ≠ ty →
  multiboot2_info_get fuel m info ty = Hang.
Proof.
  intros t Hs He Ht. unfold multiboot2_info_get. fold t. induction fuel as [|fuel IH]; [done|].
  cbn [multiboot2_get_loop]. rewrite !(proj2 (Z.eqb_neq _ _)) by done.
  rewrite Hs. change (align_to_next_uint 0 8) with 0. by rewrite Z.add_0_r.
Qed.
