(* ===== verification/Boot.v ===== *)
(** * Physical memory at boot

    Models [kernel_main] of [src/src/common/main.c] up to the point where the
    physical page allocator is ready (lines 191 to 308): the memory map of the
    boot loader is read, a place for the allocation table is chosen, the table
    is cleared and everything in use is reserved. [BootSpec] has the theorems.

    The allocation table lies in the memory the kernel reads: [current_mem] is
    memory with the words of the table at its address. *)

From S2P Require Import Prelude Memory Lock Physical Multiboot.

Definition KERNEL_BASE_ADDRESS : Z := 0x100000.
Definition KERNEL_SIZE : Z := 0x100000.

(** Memory without the table, the state of [memory_physical.c], the address
    [allocation_table] points to, [max_memory_address] and the messages. *)
Record boot_state := BootState {
  b_mem : mem;
  b_phys : phys;
  b_table : Z;
  b_max : Z;
  b_log : list console_call
}.

Definition set_phys p s := BootState (b_mem s) p (b_table s) (b_max s) (b_log s).
Definition set_b_table t s := BootState (b_mem s) (b_phys s) t (b_max s) (b_log s).
Definition set_max x s := BootState (b_mem s) (b_phys s) (b_table s) x (b_log s).
Definition add_b_log c s := BootState (b_mem s) (b_phys s) (b_table s) (b_max s) (c :: b_log s).

Definition say (c : console_call) : M boot_state unit := modify (add_b_log c).

(** The words [l] stored from [a] on, and the words found there. *)
Fixpoint store_words (l : list Z) (a : Z) (m : mem) : mem :=
  match l with [] => m | w :: l => store_words l (a + 8) (store64 m a w) end.
Definition load_words (n : nat) (a : Z) (m : mem) : list Z :=
  (λ i, load64 m (a + 8 * i)) <$> seqZ 0 (Z.of_nat n).

Definition current_mem (s : boot_state) : mem :=
  store_words (allocation_table (b_phys s)) (b_table s) (b_mem s).

(** A call of [memory_physical.c]. *)
Definition physical {R} (k : M phys R) : M boot_state R := λ s,
  match k (b_phys s) with
  | Ok (r, p) => Ok (r, set_phys p s)
  | Undef => Undef
  | Hang => Hang
  end.

(** [memory_physical_initialize] at an address: the table takes over the words
    it finds there, those of an earlier table go back to memory. *)
Definition initialize_at (address total_memory : Z) : M boot_state unit :=
  let! m := gets current_mem in
  modify (λ s, BootState m (b_phys s) address (b_max s) (b_log s)) ;;;
  physical (memory_physical_initialize (load_words (Z.to_nat (u64 total_memory / 4096 / 64)) address m)
    total_memory).

(** The condition [i * memory_information->entry_size < memory_information->base.size]. *)
Definition more_entries (m : mem) (tag i : Z) : bool := u32 (i * map_entry_size m tag) <? tag_size m tag.

(** Lines 211 to 233; the result is [usable_memory]. *)
Fixpoint measure_memory (fuel : nat) (tag i usable_memory : Z) : M boot_state Z :=
  match fuel with
  | O => hang
  | S fuel' =>
      let! m := gets current_mem in
      if more_entries m tag i then
        let e := map_entry tag i in
        (if entry_type m e =? 1 then
           let! max := gets b_max in
           let stop := u64 (entry_address m e + entry_length m e) in
           if max <? stop then modify (set_max stop) else ret tt
         else ret tt) ;;;
        say (CPrint "[physical memory] memory at 0x") ;;;
        say (CPrintU64 (entry_address m e) 16) ;;;
        say (CPrint " with length 0x") ;;;
        say (CPrintU64 (entry_length m e) 16) ;;;
        say (CPrint " with type ") ;;;
        say (CPrintU32 (entry_type m e) 10) ;;;
        say (CPrint " (0x") ;;;
        let! max := gets b_max in
        say (CPrintU64 max 16) ;;;
        say (CPrint ")") ;;;
        say CNewLine ;;;
        measure_memory fuel' tag (i + 1)
          (if entry_type m e =? 1 then u64 (usable_memory + entry_length m e) else usable_memory)
      else ret usable_memory
  end.

Definition NO_SPOT : Z := 0xFFFFFFFF.

(** The body of the loop of lines 250 to 277: [None] goes on to the next entry. *)
Definition table_spot (m : mem) (e allocation_table_size : Z) : option Z :=
  if (entry_type m e =? 1) && (allocation_table_size <=? entry_length m e) &&
     (0x100000 <=? entry_address m e) then
    if (KERNEL_BASE_ADDRESS <=? u64 (entry_address m e + allocation_table_size)) &&
       (entry_address m e <? KERNEL_BASE_ADDRESS + KERNEL_SIZE) then
      if u64 (entry_address m e + entry_length m e) <=? KERNEL_BASE_ADDRESS + KERNEL_SIZE then None
      else Some (KERNEL_BASE_ADDRESS + KERNEL_SIZE)
    else Some (entry_address m e)
  else None.

Fixpoint find_table_spot (fuel : nat) (tag i allocation_table_size : Z) : M boot_state Z :=
  match fuel with
  | O => hang
  | S fuel' =>
      let! m := gets current_mem in
      if more_entries m tag i then
        match table_spot m (map_entry tag i) allocation_table_size with
        | Some a => ret a
        | None => find_table_spot fuel' tag (i + 1) allocation_table_size
        end
      else ret NO_SPOT
  end.

(** Lines 301 to 308. *)
Fixpoint reserve_regions (fuel : nat) (tag i : Z) : M boot_state unit :=
  match fuel with
  | O => hang
  | S fuel' =>
      let! m := gets current_mem in
      if more_entries m tag i then
        let e := map_entry tag i in
        (if negb (entry_type m e =? 1) then
           physical (memory_physical_reserve (entry_address m e) (entry_length m e))
         else ret tt) ;;;
        reserve_regions fuel' tag (i + 1)
      else ret tt
  end.

(** Lines 285 to 308. *)
Definition place_table (fuel : nat) (tag allocation_table_start allocation_table_size : Z)
    : M boot_state unit :=
  say (CPrint "[physical memory] allocation table at 0x") ;;;
  say (CPrintU64 allocation_table_start 16) ;;;
  say CNewLine ;;;
  let! max := gets b_max in
  initialize_at allocation_table_start max ;;;
  physical (memory_physical_reserve allocation_table_start allocation_table_size) ;;;
  physical (memory_physical_reserve 0 0x000FFFFF) ;;;
  physical (memory_physical_reserve KERNEL_BASE_ADDRESS KERNEL_SIZE) ;;;
  reserve_regions fuel tag 0.

(** Lines 208 to 308, from the tag with the memory map; the result says
    whether [kernel_main] goes on. *)
Definition memory_from_map (fuel : nat) (tag : Z) : M boot_state bool :=
  modify (set_max 0) ;;;
  let! usable_memory := measure_memory fuel tag 0 0 in
  say (CPrint "[physical memory] total usable ram = ") ;;;
  say (CPrintU64 usable_memory 10) ;;;
  say (CPrint " from 0x0 ... 0x") ;;;
  let! max := gets b_max in
  say (CPrintU64 max 16) ;;;
  say CNewLine ;;;
  let allocation_table_size := max / 4096 / 8 in
  say (CPrint "[physical memory] allocation_table_size = ") ;;;
  say (CPrintU64 allocation_table_size 10) ;;;
  say CNewLine ;;;
  let! allocation_table_start := find_table_spot fuel tag 0 allocation_table_size in
  if allocation_table_start =? NO_SPOT then
    say (CPrint ("[physical memory] fatal: could not find spot for allocation table" +:+ nl)) ;;;
    ret false
  else place_table fuel tag allocation_table_start allocation_table_size ;;; ret true.

(** Lines 191 to 308. *)
Definition boot_memory (fuel : nat) (info : Z) : M boot_state bool :=
  say (CPrint ("[physical memory] initialize physical memory" +:+ nl)) ;;;
  let! m := gets current_mem in
  if negb (multiboot2_info_available m info) then
    say (CPrint ("[physical memory] fatal: multiboot2 boot information is not available" +:+ nl)) ;;;
    ret false
  else
    let! tag := lift (multiboot2_info_get fuel m info MULTIBOOT_TAG_TYPE_MEMORY_MAP) in
    if tag =? 0 then
      say (CPrint ("[physical memory] fatal: no memory information available" +:+ nl)) ;;;
      ret false
    else memory_from_map fuel tag.
