(* ===== verification/BootSpec.v ===== *)
(** * Correctness of the memory set-up at boot

    What [boot_memory] makes of a memory map: the highest usable address, the
    place of the allocation table, and exactly which pages can be handed out
    afterwards. *)

From S2P Require Import Prelude Memory Lock Physical PhysicalSpec Multiboot Boot.

Implicit Types (m : mem) (s : boot_state).

(** ** The entries of a memory map *)

(** The code reads an entry for every multiple of [entry_size] below the size
    of the tag, which includes the 16 bytes of its header. *)
Definition map_count m tag : Z := (tag_size m tag + map_entry_size m tag - 1) / map_entry_size m tag.

Definition map_entries m tag : list Z := map_entry tag <$> seqZ 0 (map_count m tag).

(** The entries from the [i]-th on. *)
Definition entries_from m tag i : list Z := map_entry tag <$> seqZ i (map_count m tag - i).

Record map_ok m tag : Prop := MapOk {
  map_entry_size_pos : 0 < map_entry_size m tag;
  map_size_bound : tag_size m tag + map_entry_size m tag < 2 ^ 31
}.

Lemma tag_size_range m tag : 0 ≤ tag_size m tag < 2 ^ 32.
Proof. apply (load_range 4). Qed.

Lemma more_entries_spec m tag i :
  map_ok m tag → 0 ≤ i ≤ map_count m tag → more_entries m tag i = bool_decide (i < map_count m tag).
Proof.
  intros [Hp Hb] Hi. pose proof (tag_size_range m tag). unfold more_entries, map_count in *.
  set (z := map_entry_size m tag) in *. set (n := tag_size m tag) in *. clearbody z n.
  assert (i * z < n + z) as Hiz.
  { assert (i * z ≤ (n + z - 1) / z * z) by nia. pose proof (Z.mul_div_le (n + z - 1) z). lia. }
  rewrite u32_small by nia. destruct (Z.ltb_spec (i * z) n); symmetry.
  - apply bool_decide_eq_true_2. apply Z.lt_le_trans with ((i * z + z) / z).
    + rewrite <- (Z.mul_1_l z) at 2. rewrite <- Z.mul_add_distr_r, Z.div_mul by lia. lia.
    + apply Z.div_le_mono; lia.
  - apply bool_decide_eq_false_2. apply Z.le_ngt. apply Z.lt_succ_r, Z.div_lt_upper_bound; nia.
Qed.

Lemma map_count_nonneg m tag : map_ok m tag → 0 ≤ map_count m tag.
Proof.
  intros [Hp Hb]. pose proof (tag_size_range m tag). apply Z.div_pos; lia.
Qed.

Lemma entries_from_end m tag : entries_from m tag (map_count m tag) = [].
Proof. unfold entries_from. by rewrite Z.sub_diag. Qed.

Lemma entries_from_cons m tag i :
  i < map_count m tag → entries_from m tag i = map_entry tag i :: entries_from m tag (i + 1).
Proof.
  intros Hi. unfold entries_from. rewrite seqZ_cons by lia. cbn [fmap list_fmap]. f_equal.
  f_equal. f_equal; lia.
Qed.

(** ** Measuring *)

Definition higher m (max e : Z) : Z :=
  if entry_type m e =? 1 then Z.max max (u64 (entry_address m e + entry_length m e)) else max.

(** The highest address behind a usable entry. *)
Definition highest m (l : list Z) (max : Z) : Z := foldl (higher m) max l.

(** Only the messages and [max_memory_address] may change. *)
Definition same_memory s s' : Prop :=
  b_mem s' = b_mem s ∧ b_phys s' = b_phys s ∧ b_table s' = b_table s.

Lemma same_memory_current s s' : same_memory s s' → current_mem s' = current_mem s.
Proof. intros (H1 & H2 & H3). unfold current_mem. by rewrite H1, H2, H3. Qed.

Lemma measure_run m tag k : ∀ fuel i usable s,
  map_ok m tag → current_mem s = m → 0 ≤ i → map_count m tag - i = Z.of_nat k → (k < fuel)%nat →
  ∃ r s', measure_memory fuel tag i usable s = Ok (r, s') ∧ same_memory s s' ∧
    b_max s' = highest m (entries_from m tag i) (b_max s).
Proof.
  induction k as [|k IH]; intros [|fuel] i usable s Hok Hm Hi Hk Hf; try lia; cbn [measure_memory]; mstep;
    rewrite Hm, more_entries_spec by (done || lia).
  - rewrite bool_decide_eq_false_2 by lia. exists usable, s.
    replace i with (map_count m tag) by lia. rewrite entries_from_end. done.
  - rewrite bool_decide_eq_true_2 by lia. rewrite entries_from_cons by lia.
    set (e := map_entry tag i).
    set (s1 := set_max (higher m (b_max s) e) s).
    rewrite (bind_ok _ _ _ tt s1).
    2: { unfold s1, higher. destruct (entry_type m e =? 1); [|by destruct s]. mstep.
      destruct (Z.ltb_spec (b_max s) (u64 (entry_address m e + entry_length m e))).
      - rewrite Z.max_r by lia. done.
      - rewrite Z.max_l by lia. by destruct s. }
    unfold say. mstep.
    match goal with |- ∃ r s', measure_memory _ _ _ ?u ?st = _ ∧ _ =>
      destruct (IH fuel (i + 1) u st) as (r & s' & Hr & Hsame & Hmax) end; [done| |lia|lia|lia|].
    { rewrite <- Hm. apply same_memory_current. done. }
    exists r, s'. split; [exact Hr|]. split; [destruct Hsame as (? & ? & ?); done|]. exact Hmax.
Qed.

(** ** The place of the table *)

Definition first_spot m size (l : list Z) : Z :=
  default NO_SPOT (head (omap (λ e, table_spot m e size) l)).

Lemma find_table_spot_run m tag size k : ∀ fuel i s,
  map_ok m tag → current_mem s = m → 0 ≤ i → map_count m tag - i = Z.of_nat k → (k < fuel)%nat →
  find_table_spot fuel tag i size s = Ok (first_spot m size (entries_from m tag i), s).
Proof.
  induction k as [|k IH]; intros [|fuel] i s Hok Hm Hi Hk Hf; try lia; cbn [find_table_spot]; mstep;
    rewrite Hm, more_entries_spec by (done || lia).
  - rewrite bool_decide_eq_false_2 by lia. replace i with (map_count m tag) by lia. by rewrite entries_from_end.
  - rewrite bool_decide_eq_true_2 by lia. rewrite entries_from_cons by lia. unfold first_spot.
    cbn [omap list_omap]. destruct (table_spot m (map_entry tag i) size) as [a|]; [done|].
    apply IH; (done || lia).
Qed.

(** ** Reservations *)

(** The pages that can be handed out in [p'] are those of [p] outside the
    regions [(address, bytes)], as far as the code reserves them. *)
Definition page_in (length : Z) (region : Z * Z) (p : Z) : Prop :=
  region.1 / 2 ^ 12 ≤ p < Z.min (region.1 / 2 ^ 12 + reserve_count region.1 region.2) length.

Definition reserves_all (regions : list (Z * Z)) (p p' : phys) : Prop :=
  phys_inv p' ∧ allocation_table_length p' = allocation_table_length p ∧ (counted p → counted p') ∧
  ∀ q, free_page (allocation_table p') q ↔ free_page (allocation_table p) q ∧
    ∀ region, region ∈ regions → ∀ x, page_in (allocation_table_length p) region x → q ≠ alias x.

Lemma reserves_all_nil p : phys_inv p → reserves_all [] p p.
Proof.
  intros Hp. split_and!; try done. intros q. split; [|by intros [? _]]. intros Hq. split; [done|].
  intros region Hr. by apply not_elem_of_nil in Hr.
Qed.

Lemma reserves_all_app l1 l2 p1 p2 p3 :
  reserves_all l1 p1 p2 → reserves_all l2 p2 p3 → reserves_all (l1 ++ l2) p1 p3.
Proof.
  intros (_ & Hl1 & Hc1 & Hf1) (Hi2 & Hl2 & Hc2 & Hf2).
  split; [done|]. split; [congruence|]. split; [auto|]. intros q. rewrite Hf2, Hf1, Hl1. split.
  - intros [[Hq H1] H2]. split; [done|]. intros region [Hr|Hr]%elem_of_app; eauto.
  - intros [Hq H]. split; [split; [done|]|]; intros region Hr; apply H; apply elem_of_app; auto.
Qed.

Lemma physical_reserve s address bytes :
  phys_inv (b_phys s) → 0 ≤ address < 2 ^ 64 →
  ∃ p, physical (memory_physical_reserve address bytes) s = Ok (tt, set_phys p s) ∧
    reserves_all [(address, bytes)] (b_phys s) p.
Proof.
  intros Hs Ha.
  destruct (reserve_run_any (b_phys s) address bytes Hs Ha) as (p & Hrun & Hinv & Hlen & _ & _ & Hc & Hf).
  exists p. unfold physical. rewrite Hrun. split; [done|]. split; [done|]. split; [done|]. split; [done|].
  intros q. rewrite Hf. split.
  - intros [Hq H]. split; [done|]. intros region ->%list_elem_of_singleton. exact H.
  - intros [Hq H]. split; [done|]. intros x Hx. apply (H (address, bytes)); [by left|exact Hx].
Qed.

(** ** Memory under the table *)

Lemma store_words_out l : ∀ a m x,
  ¬ (a ≤ x < a + 8 * Z.of_nat (length l)) → load8 (store_words l a m) x = load8 m x.
Proof.
  induction l as [|w l IH]; intros a m x Hx; [done|]. cbn [store_words length] in *.
  rewrite IH, load8_store64_out by lia. done.
Qed.

(** Two memories with the same memory map at [tag]. *)
Definition same_map m1 m2 tag : Prop :=
  ∀ x, tag ≤ x < tag + 16 + 24 * map_count m1 tag → load8 m2 x = load8 m1 x.

Lemma same_map_fields m1 m2 tag :
  map_ok m1 tag → same_map m1 m2 tag →
  tag_size m2 tag = tag_size m1 tag ∧ map_entry_size m2 tag = map_entry_size m1 tag ∧
  ∀ e, e ∈ map_entries m1 tag → entry_type m2 e = entry_type m1 e ∧
    entry_address m2 e = entry_address m1 e ∧ entry_length m2 e = entry_length m1 e.
Proof.
  intros Hok H. pose proof (map_count_nonneg m1 tag Hok).
  split; [|split].
  - apply load_ext. intros x Hx. apply H. lia.
  - apply load_ext. intros x Hx. apply H. lia.
  - intros e (i & -> & Hi%elem_of_seqZ)%list_elem_of_fmap. unfold map_entry, sizeof_memory_map_entry.
    split_and!; apply load_ext; intros x Hx; apply H; unfold map_count in *; lia.
Qed.

Lemma more_entries_same m1 m2 tag i :
  map_ok m1 tag → same_map m1 m2 tag → more_entries m2 tag i = more_entries m1 tag i.
Proof. intros Hok H. unfold more_entries. destruct (same_map_fields m1 m2 tag Hok H) as (-> & -> & _). done. Qed.

(** The regions of the entries that are not usable memory. *)
Definition reserved_regions m (l : list Z) : list (Z * Z) :=
  (λ e, (entry_address m e, entry_length m e)) <$> filter (λ e, entry_type m e ≠ 1) l.

(** States whose memory holds the map of [m], whatever is in the table. *)
Definition holds_map m tag s : Prop :=
  ∀ p, length (allocation_table p) = length (allocation_table (b_phys s)) →
    same_map m (current_mem (set_phys p s)) tag.

Lemma holds_map_set_phys m tag s p :
  holds_map m tag s → length (allocation_table p) = length (allocation_table (b_phys s)) →
  holds_map m tag (set_phys p s).
Proof. intros H Hp p' Hp'. apply (H p'). by rewrite Hp', <- Hp. Qed.

Lemma set_phys_same s : set_phys (b_phys s) s = s.
Proof. by destruct s. Qed.

Lemma holds_map_current m tag s : holds_map m tag s → same_map m (current_mem s) tag.
Proof. intros H. rewrite <- (set_phys_same s). by apply H. Qed.

Lemma reserves_all_table l p p' :
  phys_inv p → reserves_all l p p' → length (allocation_table p') = length (allocation_table p).
Proof. intros Hp (Hp' & Hl & _). by rewrite (inv_table _ Hp), (inv_table _ Hp'), Hl. Qed.

Lemma reserve_regions_run m tag k : ∀ fuel i s,
  map_ok m tag → holds_map m tag s → phys_inv (b_phys s) → 0 ≤ i → map_count m tag - i = Z.of_nat k →
  (k < fuel)%nat →
  ∃ p, reserve_regions fuel tag i s = Ok (tt, set_phys p s) ∧
    reserves_all (reserved_regions m (entries_from m tag i)) (b_phys s) p.
Proof.
  induction k as [|k IH]; intros [|fuel] i s Hok Hm Hs Hi Hk Hf; try lia; cbn [reserve_regions]; mstep;
    pose proof (holds_map_current m tag s Hm) as Hcur;
    rewrite (more_entries_same m), more_entries_spec by (done || lia).
  - rewrite bool_decide_eq_false_2 by lia. exists (b_phys s). replace i with (map_count m tag) by lia.
    rewrite entries_from_end. split; [by destruct s|]. by apply reserves_all_nil.
  - rewrite bool_decide_eq_true_2 by lia. rewrite entries_from_cons in * by lia.
    destruct (same_map_fields m _ tag Hok Hcur) as (_ & _ & Hfields).
    destruct (Hfields (map_entry tag i)) as (-> & -> & ->).
    { apply list_elem_of_fmap_2, elem_of_seqZ. lia. }
    unfold reserved_regions. rewrite filter_cons.
    destruct (Z.eqb_spec (entry_type m (map_entry tag i)) 1) as [Hty|Hty]; cbn [negb].
    + rewrite decide_False by tauto. mstep. apply IH; (done || lia).
    + rewrite decide_True by done. cbn [fmap list_fmap].
      destruct (physical_reserve s _ (entry_length m (map_entry tag i)) Hs (load64_range m (map_entry tag i))) as (p1 & Hrun & Hp1).
      rewrite (bind_ok _ _ _ _ _ Hrun).
      destruct (IH fuel (i + 1) (set_phys p1 s)) as (p2 & Hrun2 & Hp2); [done| |apply Hp1|lia|lia|lia|].
      { apply holds_map_set_phys; [done|]. by apply (reserves_all_table _ _ _ Hs Hp1). }
      exists p2. rewrite Hrun2. split; [done|]. by apply (reserves_all_app [_] _ _ p1).
Qed.

(** ** The whole set-up *)

Lemma load_words_length n a m : length (load_words n a m) = n.
Proof. unfold load_words. rewrite length_fmap, length_seqZ. lia. Qed.

Lemma initialize_at_run a total s :
  allocation_table (b_phys s) = [] → 0 ≤ total < 2 ^ 50 → memory_lock (b_phys s) = 0 →
  used_physical_pages (b_phys s) = 0 →
  ∃ p, initialize_at a total s = Ok (tt, BootState (b_mem s) p a (b_max s) (b_log s)) ∧
    phys_inv p ∧ counted p ∧ allocation_table_length p = total / 4096 / 64 ∧
    ∀ q, free_page (allocation_table p) q ↔ 0 ≤ q ∧ q mod 64 < 32 ∧ q / 64 < total / 4096 / 64.
Proof.
  intros Ht Htot Hlock Hused. unfold initialize_at. mstep.
  assert (current_mem s = b_mem s) as -> by (unfold current_mem; by rewrite Ht).
  destruct (initialize_run (load_words (Z.to_nat (u64 total / 4096 / 64)) a (b_mem s)) total (b_phys s))
    as (p & Hrun & Hp); [done| |done|done|].
  - rewrite load_words_length, u64_small by lia. done.
  - exists p. split; [|exact Hp]. unfold physical. cbn [b_phys]. by rewrite Hrun.
Qed.

(** What boot reserves besides the regions of the map. *)
Definition kernel_regions table size : list (Z * Z) :=
  [(table, size); (0, 0x000FFFFF); (KERNEL_BASE_ADDRESS, KERNEL_SIZE)].

(** A state before the allocator is set up. *)
Record boot_ready s : Prop := BootReady {
  ready_table : allocation_table (b_phys s) = [];
  ready_lock : memory_lock (b_phys s) = 0;
  ready_used : used_physical_pages (b_phys s) = 0
}.

(** The table does not cover the map, and the highest address is below 2^50. *)
Record placeable m tag max spot : Prop := Placeable {
  place_max : max < 2 ^ 50;
  place_apart : tag + 16 + 24 * map_count m tag ≤ spot ∨ spot + 8 * (max / 4096 / 64) ≤ tag
}.

Lemma first_spot_range m size l : 0 ≤ first_spot m size l < 2 ^ 64.
Proof.
  unfold first_spot. induction l as [|e l IH]; [by vm_compute|]. cbn [omap list_omap].
  destruct (table_spot m e size) as [a|] eqn:E; [|exact IH]. change (0 ≤ a < 2 ^ 64).
  unfold table_spot, KERNEL_BASE_ADDRESS, KERNEL_SIZE in E. pose proof (load64_range m e).
  repeat case_match; try done; injection E as <-; (by unfold entry_address || lia).
Qed.

Lemma highest_nonneg m l : ∀ x, 0 ≤ x → 0 ≤ highest m l x.
Proof.
  induction l as [|e l IH]; intros x Hx; [done|]. apply IH. unfold higher.
  destruct (entry_type m e =? 1); lia.
Qed.

Lemma map_entries_from m tag : entries_from m tag 0 = map_entries m tag.
Proof. unfold entries_from, map_entries. by rewrite Z.sub_0_r. Qed.

(** One of the reservations of [place_table]. *)
Lemma reserve_next l s0 s address bytes (k : unit → M boot_state unit) :
  reserves_all l (b_phys s0) (b_phys s) → 0 ≤ address < 2 ^ 64 →
  ∃ p, bind (physical (memory_physical_reserve address bytes)) k s = k tt (set_phys p s) ∧
    reserves_all (l ++ [(address, bytes)]) (b_phys s0) p.
Proof.
  intros Hl Hr. destruct (physical_reserve s address bytes (proj1 Hl) Hr) as (p & Hrun & Hp).
  exists p. rewrite (bind_ok _ _ _ _ _ Hrun). split; [done|]. by eapply reserves_all_app.
Qed.

Lemma place_table_run m fuel tag spot s :
  boot_ready s → map_ok m tag → b_mem s = m → 0 ≤ b_max s → 0 ≤ spot < 2 ^ 64 → placeable m tag (b_max s) spot →
  (Z.to_nat (map_count m tag) < fuel)%nat →
  ∃ p log, place_table fuel tag spot (b_max s / 4096 / 8) s = Ok (tt, BootState m p spot (b_max s) log) ∧
    phys_inv p ∧ counted p ∧ allocation_table_length p = b_max s / 4096 / 64 ∧
    ∀ q, free_page (allocation_table p) q ↔ (0 ≤ q ∧ q mod 64 < 32 ∧ q / 64 < b_max s / 4096 / 64) ∧
      ∀ region, region ∈ kernel_regions spot (b_max s / 4096 / 8) ++ reserved_regions m (map_entries m tag) →
        ∀ x, page_in (b_max s / 4096 / 64) region x → q ≠ alias x.
Proof.
  intros [Ht Hl Hu] Hok Hm Hmax0 Hspot [Hmax Hap] Hf. unfold place_table, say. mstep.
  set (s0 := add_b_log _ _). pose proof (map_count_nonneg m tag Hok) as Hn.
  destruct (initialize_at_run spot (b_max s) s0 Ht ltac:(lia) Hl Hu) as (p0 & Hrun & Hp0 & Hc0 & Hlen & Hfree0).
  rewrite (bind_ok _ _ _ _ _ Hrun). set (s1 := BootState _ p0 _ _ _).
  pose proof (reserves_all_nil p0 Hp0) as H0. change p0 with (b_phys s1) in H0 at 2.
  destruct (reserve_next [] s1 s1 spot (b_max s / 4096 / 8)
    (λ _, physical (memory_physical_reserve 0 0x000FFFFF) ;;;
      physical (memory_physical_reserve KERNEL_BASE_ADDRESS KERNEL_SIZE) ;;; reserve_regions fuel tag 0) H0)
    as (p1 & -> & H1); [lia|].
  destruct (reserve_next _ s1 (set_phys p1 s1) 0 0x000FFFFF
    (λ _, physical (memory_physical_reserve KERNEL_BASE_ADDRESS KERNEL_SIZE) ;;; reserve_regions fuel tag 0) H1)
    as (p2 & -> & H2); [lia|].
  destruct (reserve_next _ s1 (set_phys p2 (set_phys p1 s1)) KERNEL_BASE_ADDRESS KERNEL_SIZE
    (λ _, reserve_regions fuel tag 0) H2) as (p3 & -> & H3);
    [unfold KERNEL_BASE_ADDRESS; lia|].
  change (set_phys p3 (set_phys p2 (set_phys p1 s1))) with (set_phys p3 s1).
  destruct (reserve_regions_run m tag (Z.to_nat (map_count m tag)) fuel 0 (set_phys p3 s1))
    as (p4 & Hr4 & H4); [done| |apply H3|lia|lia|done|].
  - intros p Hp x Hx. unfold current_mem. cbn [set_phys b_table b_mem b_phys s1].
    change (b_mem s0) with (b_mem s). rewrite Hm. apply store_words_out.
    cbn [set_phys b_phys] in Hp. rewrite Hp, (reserves_all_table _ _ _ Hp0 H3), (inv_table _ Hp0), Hlen.
    rewrite Z2Nat.id by divmod_lia. lia.
  - rewrite map_entries_from in H4. change (b_phys (set_phys p3 s1)) with p3 in H4.
    pose proof (reserves_all_app _ _ _ _ _ H3 H4) as (Hinv & Hlen4 & Hc4 & Hfree).
    change (b_phys s1) with p0 in *.
    exists p4, (b_log s0). rewrite Hr4. split; [unfold s1, set_phys; by rewrite <- Hm|].
    split; [done|]. split; [auto|]. split; [congruence|].
    intros q. rewrite Hfree, Hfree0, Hlen. done.
Qed.

(** What the memory map [tag] of the boot information offers: the highest usable
    address and the place of the table. *)
Definition map_max m tag : Z := highest m (map_entries m tag) 0.
Definition map_spot m tag : Z := first_spot m (map_max m tag / 4096 / 8) (map_entries m tag).

Record usable_map m info tag (fuel : nat) : Prop := UsableMap {
  usable_available : multiboot2_info_available m info = true;
  usable_tag : ∃ l, tag_list m (info + sizeof_multiboot_info) l ∧ (length l < fuel)%nat ∧
    head (filter (λ t, tag_type m t = MULTIBOOT_TAG_TYPE_MEMORY_MAP) l) = Some tag;
  usable_nonzero : tag ≠ 0;
  usable_ok : map_ok m tag;
  usable_spot : map_spot m tag ≠ NO_SPOT;
  usable_placeable : placeable m tag (map_max m tag) (map_spot m tag);
  usable_fuel : (Z.to_nat (map_count m tag) < fuel)%nat
}.

(** A page that can be handed out. Its number is covered by the table and in
    the lower half of a word ([q mod 64 < 32]: the other half is never handed
    out), and it is not the page that the reservation of some page [x] marks.
    Reserved are the table itself, the first megabyte, the kernel and the
    regions the map does not declare usable. A page [x] numbered below the word
    count of the table marks [alias x], which is [x] in a lower half and the
    page 32 below in an upper half; one that is not marks nothing ([page_in]). *)
Definition allocatable m tag q : Prop :=
  (0 ≤ q ∧ q mod 64 < 32 ∧ q / 64 < map_max m tag / 4096 / 64) ∧
  ∀ region, region ∈ kernel_regions (map_spot m tag) (map_max m tag / 4096 / 8) ++
      reserved_regions m (map_entries m tag) →
    ∀ x, page_in (map_max m tag / 4096 / 64) region x → q ≠ alias x.

Record memory_ready m tag s : Prop := MemoryReady {
  memory_mem : b_mem s = m;
  memory_table : b_table s = map_spot m tag;
  memory_max : b_max s = map_max m tag;
  memory_inv : phys_inv (b_phys s);
  memory_counted : counted (b_phys s);
  memory_length : allocation_table_length (b_phys s) = map_max m tag / 4096 / 64;
  memory_free : ∀ q, free_page (allocation_table (b_phys s)) q ↔ allocatable m tag q
}.

Lemma boot_memory_run m info tag fuel s :
  boot_ready s → b_mem s = m → usable_map m info tag fuel →
  ∃ s', boot_memory fuel info s = Ok (true, s') ∧ memory_ready m tag s'.
Proof.
  intros Hs Hm [Hav (l & Hl & Hf1 & Htag) Htag0 Hok Hspot Hpl Hf2].
  set (max := map_max m tag) in *. set (spot := map_spot m tag) in *. pose proof (map_count_nonneg m tag Hok).
  unfold boot_memory, say. mstep.
  assert (∀ s', same_memory s s' → current_mem s' = m) as Hcur.
  { intros s' Hs'. rewrite (same_memory_current _ _ Hs'). unfold current_mem. by rewrite (ready_table s Hs). }
  rewrite Hcur, Hav by done. cbn [negb].
  unfold multiboot2_info_get. rewrite (get_loop_spec _ _ _ _ _ Hl Hf1), Htag. unfold lift at 1.
  unfold bind at 1. cbn [default id]. rewrite (proj2 (Z.eqb_neq tag 0)) by done.
  unfold memory_from_map, say. mstep. set (s1 := set_max 0 _).
  destruct (measure_run m tag (Z.to_nat (map_count m tag)) fuel 0 0 s1) as (u & s2 & Hr & Hsame & Hmax);
    [done|by apply Hcur|lia|lia|done|]. rewrite map_entries_from in Hmax. change (b_max s1) with 0 in Hmax.
  change (highest m (map_entries m tag) 0) with max in Hmax. rewrite (bind_ok _ _ _ _ _ Hr). mstep.
  match goal with |- context [bind (find_table_spot _ _ _ _) _ ?st] => set (s3 := st) end.
  assert (same_memory s s3) as Hsame3 by exact Hsame.
  change (b_max (add_b_log _ _)) with (b_max s3). change (b_max s2) with (b_max s3) in Hmax. rewrite Hmax.
  pose proof (find_table_spot_run m tag (max / 4096 / 8) (Z.to_nat (map_count m tag)) fuel 0 s3) as Hfind.
  rewrite map_entries_from in Hfind. rewrite (bind_ok _ _ _ _ _ (Hfind Hok (Hcur _ Hsame3) ltac:(lia) ltac:(lia) Hf2)).
  change (first_spot m (max / 4096 / 8) (map_entries m tag)) with spot. rewrite (proj2 (Z.eqb_neq spot NO_SPOT)) by done.
  destruct Hsame3 as (Hm3 & Hp3 & _). rewrite <- Hmax in Hpl |- *.
  destruct (place_table_run m fuel tag spot s3) as (p & log & Hrun & Hp);
    [|done|by rewrite Hm3|rewrite Hmax; by apply highest_nonneg|apply first_spot_range|done|done|].
  - destruct Hs as [H1 H2 H3]. split; by rewrite Hp3.
  - rewrite (bind_ok _ _ _ _ _ Hrun). eexists. split; [reflexivity|]. rewrite Hmax in Hp.
    destruct Hp as (Hinv & Hcount & Hlen & Hfree). split; [done|done|exact Hmax|done|done|done|exact Hfree].
Qed.


(** ** Giving up *)

Lemma measure_frame tag fuel : ∀ i u s r s',
  measure_memory fuel tag i u s = Ok (r, s') → same_memory s s'.
Proof.
  induction fuel as [|fuel IH]; intros i u s r s'; cbn [measure_memory]; [done|]. rewrite bind_gets.
  destruct (more_entries _ _ _); [|by intros [= _ <-]].
  intros (x & s1 & Hx & H)%bind_inv. unfold say in H. rewrite ?bind_modify, ?bind_gets in H.
  assert (same_memory s s1) as Hs1.
  { destruct (entry_type _ _ =? 1); [|by injection Hx as _ <-]. rewrite bind_gets in Hx.
    destruct (_ <? _); by injection Hx as _ <-. }
  apply IH in H as (H1 & H2 & H3). destruct Hs1 as (E1 & E2 & E3).
  exact (conj (eq_trans H1 E1) (conj (eq_trans H2 E2) (eq_trans H3 E3))).
Qed.

Lemma find_frame tag size fuel : ∀ i s r s', find_table_spot fuel tag i size s = Ok (r, s') → s' = s.
Proof.
  induction fuel as [|fuel IH]; intros i s r s'; cbn [find_table_spot]; [done|]. rewrite bind_gets.
  destruct (more_entries _ _ _); [|by intros [= _ <-]].
  destruct (table_spot _ _ _); [by intros [= _ <-]|apply IH].
Qed.

Lemma memory_from_map_gives_up fuel tag s s' :
  memory_from_map fuel tag s = Ok (false, s') → same_memory s s'.
Proof.
  unfold memory_from_map, say. rewrite bind_modify. intros (u & s1 & Hm & H)%bind_inv.
  apply measure_frame in Hm. rewrite ?bind_modify, ?bind_gets, ?bind_modify, ?bind_gets in H.
  rewrite ?bind_modify in H. apply bind_inv in H as (spot & s2 & Hf & H). apply find_frame in Hf as ->.
  destruct (spot =? NO_SPOT).
  - rewrite bind_modify in H. injection H as <-. destruct Hm as (? & ? & ?). done.
  - apply bind_inv in H as (? & ? & _ & H). discriminate.
Qed.

(** ** A machine with 128 MiB *)

(** Memory with a memory map of the entries [l] at 0x9000. *)
Fixpoint store_entries (l : list (Z * Z * Z)) (a : Z) (m : mem) : mem :=
  match l with
  | [] => m
  | (address, len, ty) :: l =>
      store_entries l (a + 24) (store 4 (store64 (store64 m a address) (a + 8) len) (a + 16) ty)
  end.

Definition boot_map (l : list (Z * Z * Z)) : mem :=
  let size := 16 + 24 * Z.of_nat (length l) in
  let stop := 0x9008 + (size + 7) / 8 * 8 in
  let m := store 4 (store 4 ∅ 0x9000 (size + 16)) 0x9004 0 in
  let m := store 4 (store 4 (store 4 (store 4 m 0x9008 6) 0x900C size) 0x9010 24) 0x9014 0 in
  let m := store_entries l 0x9018 m in
  store 4 (store 4 m stop 0) (stop + 4) 8.

(** What firmware reports for 128 MiB. *)
Definition map128 : list (Z * Z * Z) :=
  [(0, 0x9FC00, 1); (0x9FC00, 0x400, 2); (0xF0000, 0x10000, 2); (0x100000, 0x7EE0000, 1);
   (0x7FE0000, 0x20000, 2); (0xFFFC0000, 0x40000, 2)].

Definition boot0 : boot_state := BootState (boot_map map128) (Phys [] 0 0 0 0 []) 0 0 [].

(** The tag list of [boot_map] is the map alone. *)
Lemma multiboot2_info_get_spec_witness :
  multiboot2_info_get 2 (boot_map map128) 0x9000 MULTIBOOT_TAG_TYPE_MEMORY_MAP = Ok 0x9008.
Proof.
  rewrite (multiboot2_info_get_spec (boot_map map128) 0x9000 MULTIBOOT_TAG_TYPE_MEMORY_MAP [0x9008] 2).
  - by vm_compute.
  - cbn [tag_list]. repeat split; vm_compute; (reflexivity || discriminate).
  - cbn [length]. lia.
Defined.

Lemma map128_usable : usable_map (boot_map map128) 0x9000 0x9008 20.
Proof.
  split.
  - by vm_compute.
  - exists [0x9008]. split; [|split; [cbn [length]; lia|by vm_compute]].
    cbn [tag_list]. repeat split; vm_compute; (reflexivity || discriminate).
  - discriminate.
  - split; by vm_compute.
  - by vm_compute.
  - split; [by vm_compute|left; vm_compute; discriminate].
  - vm_compute. lia.
Qed.


(** When boot cannot place an allocation table (no boot information, no memory map, no spot) it
    stops without a call to the allocator: neither the table nor memory has changed. *)
Theorem boot_memory_gives_up_cleanly fuel info s s' :
  boot_memory fuel info s = Ok (false, s') →
  b_phys s' = b_phys s ∧ b_mem s' = b_mem s ∧ b_table s' = b_table s.
Proof.
  unfold boot_memory, say. rewrite bind_modify, bind_gets.
  destruct (multiboot2_info_available _ info); cbn [negb].
  2: { rewrite bind_modify. intros [= <-]. done. }
  intros (tag & s1 & Hget & H)%bind_inv.
  assert (s1 = add_b_log (CPrint ("[physical memory] initialize physical memory" +:+ nl)) s) as ->.
  { unfold lift in Hget. by destruct (multiboot2_info_get _ _ _ _); simplify_eq. }
  destruct (tag =? 0).
  { rewrite bind_modify in H. by injection H as <-. }
  destruct (memory_from_map_gives_up _ _ _ _ H) as (? & ? & ?). done.
Qed.

Lemma boot_memory_gives_up_cleanly_witness :
  ∃ s', boot_memory 20 0 boot0 = Ok (false, s') ∧ b_phys s' = b_phys boot0.
Proof.
  exists (match boot_memory 20 0 boot0 with Ok (_, s') => s' | _ => boot0 end).
  split; [reflexivity|].
  apply (boot_memory_gives_up_cleanly 20 0 boot0). reflexivity.
Defined.

(** The regions reserved besides the table. *)
Definition other_regions m tag : list (Z * Z) :=
  [(0, 0x000FFFFF); (KERNEL_BASE_ADDRESS, KERNEL_SIZE)] ++ reserved_regions m (map_entries m tag).

(** C27. When the table lies at a page whose number is not below its word count, reserving the table has
    no effect: after the boot a page can be handed out exactly when it is in the lower half of a word and
    no other reservation marks it; the pages of the table itself are no exception. This happens on ordinary
    machines: the table lies behind the kernel at 2 MiB or more, page 512, and 128 MiB have 511 words. *)
Theorem boot_memory_gives_away_table m info tag fuel s :
  boot_ready s → b_mem s = m → usable_map m info tag fuel →
  map_max m tag / 4096 / 64 ≤ map_spot m tag / 4096 →
  ∃ s', boot_memory fuel info s = Ok (true, s') ∧ b_table s' = map_spot m tag ∧
    ∀ q, free_page (allocation_table (b_phys s')) q ↔
      (0 ≤ q ∧ q mod 64 < 32 ∧ q / 64 < map_max m tag / 4096 / 64) ∧
      ∀ region, region ∈ other_regions m tag → ∀ x, page_in (map_max m tag / 4096 / 64) region x → q ≠ alias x.
Proof.
  intros Hs Hm Hmap Hfar. destruct (boot_memory_run m info tag fuel s Hs Hm Hmap) as (s' & Hrun & [_ Ht _ _ _ _ Hf]).
  exists s'. split; [exact Hrun|]. split; [exact Ht|]. intros q. rewrite Hf. unfold allocatable, kernel_regions.
  apply and_iff_compat_l. split.
  - intros H region Hr. apply H. by right.
  - intros H region [->|Hr]%elem_of_cons x Hx; [|by apply (H region)].
    exfalso. destruct Hx as [Hx1 Hx2]. cbn [fst snd] in *. change (2 ^ 12) with 4096 in *. lia.
Qed.

Lemma boot_memory_gives_away_table_witness :
  ∃ s', boot_memory 20 0x9000 boot0 = Ok (true, s') ∧ b_table s' = 512 * 4096 ∧
    free_page (allocation_table (b_phys s')) 512.
Proof.
  destruct (boot_memory_gives_away_table (boot_map map128) 0x9000 0x9008 20 boot0) as (s' & H1 & H2 & Hf).
  - by split.
  - reflexivity.
  - exact map128_usable.
  - by vm_compute.
  - assert (map_max (boot_map map128) 0x9008 / 4096 / 64 = 511) as Hl by (by vm_compute). rewrite Hl in Hf.
    assert (map_spot (boot_map map128) 0x9008 = 512 * 4096) as Hspot by (by vm_compute). rewrite Hspot in H2.
    exists s'. split; [exact H1|]. split; [exact H2|]. apply Hf. split; [divmod_lia|].
    intros region _ x [_ Hx]. assert (x < 511) by lia. unfold alias. divmod_lia.
Defined.

(** On a machine with 128 MiB and an ordinary memory map the allocation table is placed at
    0x200000 behind the kernel, but page 512 is not below the 511 words of the table and is not
    reserved: the first page the allocator hands out is the page of its own table. *)
Theorem first_page_is_the_allocation_table :
  match boot_memory 20 0x9000 boot0 with
  | Ok (true, s') => b_table s' = 0x200000 ∧
      match memory_physical_allocate (b_phys s') with Ok (page, _) => page = b_table s' | _ => False end
  | _ => False
  end.
Proof. by vm_compute. Qed.
