(* ===== verification/Paging.v ===== *)
(** * Four-level page tables

    Models [src/src/common/paging.c] and [src/src/include/kokos/paging.h]: the
    search for free virtual memory, mapping, unmapping and the software page
    walk. Page tables live in the byte memory of [Memory]; tables are obtained
    from a [PageAllocator]. Theorems about these definitions are in
    [PagingWalk] and [PagingMap]. *)

From S2P Require Import Prelude Memory Allocator.

(** ** paging.h *)

Definition PAGING_ADDRESS_MASK : Z := 0x7FFFFFFFFFFFF000.
Definition PAGING_ENTRY_FLAG_PRESENT : Z := 0x1.
Definition PAGING_ENTRY_FLAG_WRITABLE : Z := 0x2.
Definition PAGING_ENTRY_FLAG_EVERYONE_ACCESS : Z := 0x4.
Definition PAGING_ENTRY_FLAG_SIZE : Z := 0x80.
Definition PAGING_FLAG_READ : Z := 0x1.
Definition PAGING_FLAG_WRITE : Z := 0x2.
Definition PAGING_FLAG_USER : Z := 0x8.
Definition PAGING_FLAG_1GB : Z := 0x10.
Definition PAGING_FLAG_2MB : Z := 0x20.
Definition PAGING_FLAG_REPLACE : Z := 0x40.

(** The mask of the page frame in a leaf, as [paging_get_physical_address]
    writes it: bits 12 to 51. *)
Definition PAGE_FRAME_MASK : Z := 0xFFFFFFFFFF000.

Record paging_context := PagingContext {
  level4_table : Z;
  level3_table : Z;
  level2_table : Z;
  level1_table : Z;
  level4_index : Z;
  level3_index : Z;
  level2_index : Z;
  level1_index : Z
}.

Definition set_level3_table t (c : paging_context) := PagingContext (level4_table c) t
  (level2_table c) (level1_table c) (level4_index c) (level3_index c) (level2_index c) (level1_index c).
Definition set_level2_table t (c : paging_context) := PagingContext (level4_table c) (level3_table c)
  t (level1_table c) (level4_index c) (level3_index c) (level2_index c) (level1_index c).
Definition set_level1_table t (c : paging_context) := PagingContext (level4_table c) (level3_table c)
  (level2_table c) t (level4_index c) (level3_index c) (level2_index c) (level1_index c).
Definition set_level4_index i (c : paging_context) := PagingContext (level4_table c) (level3_table c)
  (level2_table c) (level1_table c) i (level3_index c) (level2_index c) (level1_index c).
Definition set_level3_index i (c : paging_context) := PagingContext (level4_table c) (level3_table c)
  (level2_table c) (level1_table c) (level4_index c) i (level2_index c) (level1_index c).
Definition set_level2_index i (c : paging_context) := PagingContext (level4_table c) (level3_table c)
  (level2_table c) (level1_table c) (level4_index c) (level3_index c) i (level1_index c).
Definition set_level1_index i (c : paging_context) := PagingContext (level4_table c) (level3_table c)
  (level2_table c) (level1_table c) (level4_index c) (level3_index c) (level2_index c) i.

(** Computes the fields of an updated context, and nothing else. *)
Ltac ctx_simpl := cbn [level4_table level3_table level2_table level1_table
  level4_index level3_index level2_index level1_index
  set_level3_table set_level2_table set_level1_table
  set_level4_index set_level3_index set_level2_index set_level1_index].

(** The state the paging code reads and writes: memory, the page allocator,
    its two static variables, and the messages printed so far (newest first). *)
Record kstate (A : Type) := KState {
  k_mem : mem;
  k_alloc : A;
  used_virtual_pages : Z;
  hugepages_supported : Z;
  k_log : list console_call
}.
Arguments KState {A}.
Arguments k_mem {A}.
Arguments k_alloc {A}.
Arguments used_virtual_pages {A}.
Arguments hugepages_supported {A}.
Arguments k_log {A}.

Section Paging.
Context {A : Type} {PA : PageAllocator A}.

Definition set_mem (f : mem → mem) (s : kstate A) : kstate A :=
  KState (f (k_mem s)) (k_alloc s) (used_virtual_pages s) (hugepages_supported s) (k_log s).
Definition set_alloc (a : A) (s : kstate A) : kstate A :=
  KState (k_mem s) a (used_virtual_pages s) (hugepages_supported s) (k_log s).
Definition set_used (u : Z) (s : kstate A) : kstate A :=
  KState (k_mem s) (k_alloc s) u (hugepages_supported s) (k_log s).
Definition add_log (c : console_call) (s : kstate A) : kstate A :=
  KState (k_mem s) (k_alloc s) (used_virtual_pages s) (hugepages_supported s) (c :: k_log s).

Definition console_print (msg : string) : M (kstate A) unit := modify (add_log (CPrint msg)).

(** [memory_physical_allocate()], through the interface. *)
Definition allocate_page : M (kstate A) Z := λ s,
  match pa_alloc (k_alloc s) with
  | Ok (p, a) => Ok (p, set_alloc a s)
  | Undef => Undef
  | Hang => Hang
  end.

(** [table[i]] and [table[i] = v] for an [unsigned long *table]. *)
Definition load_entry (table i : Z) : M (kstate A) Z :=
  gets (λ s, load64 (k_mem s) (table + 8 * i)).
Definition store_entry (table i v : Z) : M (kstate A) unit :=
  modify (set_mem (λ m, store64 m (table + 8 * i) v)).

Definition add_used_virtual_pages (n : Z) : M (kstate A) unit :=
  modify (λ s, set_used (u64 (used_virtual_pages s + n)) s).

(** [table = memory_physical_allocate(); memory_zero(table, 4096ul);] *)
Definition new_table : M (kstate A) Z :=
  let! t := allocate_page in
  modify (set_mem (λ m, memory_zero m t 4096)) ;;;
  ret t.

(** [entry = table | PAGING_ENTRY_FLAG_PRESENT | PAGING_ENTRY_FLAG_WRITABLE] *)
Definition table_entry (t : Z) : Z :=
  Z.lor (Z.lor t PAGING_ENTRY_FLAG_PRESENT) PAGING_ENTRY_FLAG_WRITABLE.

(** The block every operation of the file repeats: take the next table from
    [parent[index]] and, when there is none, allocate a zeroed table and write
    its entry at [parent[link]]. Everywhere but in
    [paging_virtual_address_to_index], [link] is [index]. *)
Definition ensure_table (parent index link : Z) : M (kstate A) Z :=
  let! e := load_entry parent index in
  let t := Z.land e PAGING_ADDRESS_MASK in
  if t =? 0 then
    let! t' := new_table in
    store_entry parent link (table_entry t') ;;;
    ret t'
  else ret t.

Definition paging_get_hugepages_supported (s : kstate A) : Z :=
  if truthy (hugepages_supported s) then 1 else 0.

(** [cpuid_edx]: register edx of [cpu_id(0x80000001)]. *)
Definition paging_initialize (cpuid_edx : Z) : M (kstate A) unit :=
  modify (λ s, KState (k_mem s) (k_alloc s) 0 (s32 (Z.land cpuid_edx (2 ^ 26))) (k_log s)).

(** ** Searching for free virtual memory *)

(** Lines 57 to 73 and 103 to 115: the next level 3 slot, wrapping around
    after the last level 4 slot. *)
Definition find_next_level3 (c : paging_context) : M (kstate A) paging_context :=
  let c := set_level3_index (u16 (level3_index c + 1)) c in
  if 512 <=? level3_index c then
    let c := set_level4_index (u16 (level4_index c + 1)) c in
    let c := if 512 <=? level4_index c then set_level4_index 0 c else c in
    let c := set_level3_index 0 c in
    let! t := ensure_table (level4_table c) (level4_index c) (level4_index c) in
    ret (set_level3_table t c)
  else ret c.

Fixpoint find_free_level2 (fuel : nat) (c : paging_context) : M (kstate A) paging_context :=
  match fuel with
  | O => hang
  | S fuel' =>
      let! e := load_entry (level2_table c) (level2_index c) in
      if truthy e then
        let c := set_level2_index (u16 (level2_index c + 1)) c in
        if 512 <=? level2_index c then
          let! c := find_next_level3 c in
          let c := set_level2_index 0 c in
          let! t := ensure_table (level3_table c) (level3_index c) (level3_index c) in
          find_free_level2 fuel' (set_level2_table t c)
        else find_free_level2 fuel' c
      else ret c
  end.

Fixpoint find_free_level3 (fuel : nat) (c : paging_context) : M (kstate A) paging_context :=
  match fuel with
  | O => hang
  | S fuel' =>
      let! e := load_entry (level3_table c) (level3_index c) in
      if truthy e then
        let! c := find_next_level3 c in
        find_free_level3 fuel' c
      else ret c
  end.

Fixpoint find_free_level4 (fuel : nat) (c : paging_context) : M (kstate A) paging_context :=
  match fuel with
  | O => hang
  | S fuel' =>
      let! e := load_entry (level4_table c) (level4_index c) in
      if truthy e then
        let c := set_level4_index (u16 (level4_index c + 1)) c in
        find_free_level4 fuel' (if 512 <=? level4_index c then set_level4_index 0 c else c)
      else ret c
  end.

(** [level1_index = 0; level1_table = <new table>; level2_table[level2_index] = ...] *)
Definition fresh_level1 (c : paging_context) : M (kstate A) paging_context :=
  let c := set_level1_index 0 c in
  let! t := new_table in
  store_entry (level2_table c) (level2_index c) (table_entry t) ;;;
  ret (set_level1_table t c).

Definition fresh_level2 (c : paging_context) : M (kstate A) paging_context :=
  let c := set_level2_index 0 c in
  let! t := new_table in
  store_entry (level3_table c) (level3_index c) (table_entry t) ;;;
  ret (set_level2_table t c).

Definition fresh_level3 (c : paging_context) : M (kstate A) paging_context :=
  let c := set_level3_index 0 c in
  let! t := new_table in
  store_entry (level4_table c) (level4_index c) (table_entry t) ;;;
  ret (set_level3_table t c).

Definition paging_index_find_spot (fuel : nat) (c : paging_context) (bytes flags : Z)
    : M (kstate A) (Z * paging_context) :=
  let one_gb := truthy (Z.land flags PAGING_FLAG_1GB) in
  let two_mb := truthy (Z.land flags PAGING_FLAG_2MB) in
  if bytes <=? 0 then ret (0, c)
  else if (bytes <=? 512 * 4096) && negb (level2_table c =? 0) && negb one_gb then
    let pages := Z.shiftr (bytes - 1) 12 + 1 in
    if (512 <? level1_index c + pages) || (level1_table c =? 0) then
      let! c := find_free_level2 fuel c in
      let! c := (if two_mb then ret c else fresh_level1 c) in
      ret (1, c)
    else ret (1, c)
  else if (bytes <=? 512 * 512 * 4096) && negb (level3_table c =? 0) then
    let hugepages := Z.shiftr (bytes - 1) 21 + 1 in
    if (512 <? level2_index c + hugepages) || (level2_table c =? 0) then
      let! c := find_free_level3 fuel c in
      let! c := (if one_gb then ret c
                 else let! c := fresh_level2 c in
                      if two_mb then ret c else fresh_level1 c) in
      ret (1, c)
    else ret (1, c)
  else if bytes <=? 512 * 512 * 512 * 4096 then
    let hugepages := Z.shiftr (bytes - 1) 30 + 1 in
    if (512 <? level3_index c + hugepages) || (level3_table c =? 0) then
      let! c := find_free_level4 fuel c in
      let! c := fresh_level3 c in
      let! c := (if one_gb then ret c
                 else let! c := fresh_level2 c in
                      if two_mb then ret c else fresh_level1 c) in
      ret (1, c)
    else ret (1, c)
  else
    let hugepages := Z.shiftr (bytes - 1) 39 + 1 in
    if 512 <? level4_index c + hugepages then
      console_print ("[paging_index_find_spot] exceeded available virtual memory" +:+ nl) ;;;
      ret (0, c)
    else ret (1, c).

(** ** Mapping *)

Definition paging_convert_flags (flags : Z) : Z :=
  let page_entry_flags := PAGING_ENTRY_FLAG_PRESENT in
  let page_entry_flags :=
    if truthy (Z.land flags PAGING_FLAG_WRITE)
    then Z.lor page_entry_flags (Z.lor PAGING_ENTRY_FLAG_WRITABLE PAGING_ENTRY_FLAG_PRESENT)
    else page_entry_flags in
  if truthy (Z.land flags PAGING_FLAG_USER)
  then Z.lor page_entry_flags PAGING_ENTRY_FLAG_EVERYONE_ACCESS
  else page_entry_flags.

(** The index steps at the end of a mapping loop's body. The flag of the result
    is [false] when the step ran off the end of the address space and the
    loop's function returns 0; the context keeps the steps made so far. *)
Definition next_level3_1gb (msg : string) (c : paging_context)
    : M (kstate A) (bool * paging_context) :=
  let c := set_level3_index (u16 (level3_index c + 1)) c in
  if 512 <=? level3_index c then
    let c := set_level4_index (u16 (level4_index c + 1)) c in
    if 512 <=? level4_index c then console_print msg ;;; ret (false, c)
    else
      let c := set_level3_index 0 c in
      let! e := load_entry (level4_table c) (level4_index c) in
      (* the entry is used as the pointer, flags included *)
      if e =? 0 then
        let! t := new_table in
        store_entry (level4_table c) (level4_index c) (table_entry t) ;;;
        ret (true, set_level3_table t c)
      else ret (true, set_level3_table e c)
  else ret (true, c).

Definition next_level3 (msg : string) (c : paging_context)
    : M (kstate A) (bool * paging_context) :=
  let c := set_level3_index (u16 (level3_index c + 1)) c in
  if 512 <=? level3_index c then
    let c := set_level4_index (u16 (level4_index c + 1)) c in
    if 512 <=? level4_index c then console_print msg ;;; ret (false, c)
    else
      let c := set_level3_index 0 c in
      let! t := ensure_table (level4_table c) (level4_index c) (level4_index c) in
      ret (true, set_level3_table t c)
  else ret (true, c).

Definition next_level2 (msg : string) (c : paging_context)
    : M (kstate A) (bool * paging_context) :=
  let c := set_level2_index (u16 (level2_index c + 1)) c in
  if 512 <=? level2_index c then
    let! '(ok, c) := next_level3 msg c in
    if ok : bool then
      let c := set_level2_index 0 c in
      let! t := ensure_table (level3_table c) (level3_index c) (level3_index c) in
      ret (true, set_level2_table t c)
    else ret (false, c)
  else ret (true, c).

Definition next_level1 (msg : string) (c : paging_context)
    : M (kstate A) (bool * paging_context) :=
  let c := set_level1_index (u16 (level1_index c + 1)) c in
  if 512 <=? level1_index c then
    let! '(ok, c) := next_level2 msg c in
    if ok : bool then
      let c := set_level1_index 0 c in
      let! t := ensure_table (level2_table c) (level2_index c) (level2_index c) in
      ret (true, set_level1_table t c)
    else ret (false, c)
  else ret (true, c).

Definition leaf_entry (address page_entry_flags : Z) : Z :=
  Z.lor (Z.land address PAGING_ADDRESS_MASK) page_entry_flags.

Definition msg_1gb_end : string :=
  "[paging_map_index_physical] failed to allocate 1GiB pages, reached end of virtual address space." +:+ nl.
Definition msg_2mb_end : string :=
  "[paging_map_index_physical] failed to allocate 2MiB pages, reached end of virtual address space." +:+ nl.
Definition msg_4kb_end : string :=
  "[paging_map_index_physical] failed to allocate 4KiB pages, reached end of virtual address space." +:+ nl.
Definition msg_current_4kb_end : string :=
  "[paging_map_index_current] failed to allocate 4KiB pages, reached end of virtual address space." +:+ nl.

(** A counted loop whose body can return 0 from the enclosing function. *)
Fixpoint map_loop (body : Z → paging_context → M (kstate A) (bool * paging_context))
    (n : nat) (i : Z) (c : paging_context) : M (kstate A) (bool * paging_context) :=
  match n with
  | O => ret (true, c)
  | S n' =>
      let! '(ok, c) := body i c in
      if ok : bool then map_loop body n' (i + 1) c else ret (false, c)
  end.

(** Lines 240 to 261. *)
Definition map_1gb_body (physical_address page_entry_flags i : Z) (c : paging_context)
    : M (kstate A) (bool * paging_context) :=
  store_entry (level3_table c) (level3_index c)
    (Z.lor (leaf_entry (u64 (physical_address + 4096 * 512 * 512 * i)) page_entry_flags)
           PAGING_ENTRY_FLAG_SIZE) ;;;
  next_level3_1gb msg_1gb_end c.

(** Lines 282 to 320. [console_get_cursor] followed by [console_set_cursor]
    leaves the console as it is ([ConsoleSpec.console_set_get_cursor]). *)
Definition map_2mb_body (physical_address page_entry_flags i : Z) (c : paging_context)
    : M (kstate A) (bool * paging_context) :=
  store_entry (level2_table c) (level2_index c)
    (Z.lor (leaf_entry (u64 (physical_address + 4096 * 512 * i)) page_entry_flags)
           PAGING_ENTRY_FLAG_SIZE) ;;;
  next_level2 msg_2mb_end c.

(** Lines 339 to 384. *)
Definition map_4kb_body (physical_address page_entry_flags i : Z) (c : paging_context)
    : M (kstate A) (bool * paging_context) :=
  store_entry (level1_table c) (level1_index c)
    (leaf_entry (u64 (physical_address + 4096 * i)) page_entry_flags) ;;;
  next_level1 msg_4kb_end c.

Definition print_fail {R} (msg : string) (r : R) : M (kstate A) (Z * R) :=
  console_print msg ;;; ret (0, r).

(** [used_virtual_pages += n; return 1;], skipped when the loop returned 0. *)
Definition finish_map (n : Z) (r : bool * paging_context) : M (kstate A) (Z * paging_context) :=
  if r.1 then add_used_virtual_pages n ;;; ret (1, r.2) else ret (0, r.2).

Definition paging_map_index_physical (physical_address : Z) (c : paging_context) (bytes flags : Z)
    : M (kstate A) (Z * paging_context) :=
  if bytes <=? 0 then
    print_fail ("[paging_map_index_physical] cannot map 0 bytes" +:+ nl) c
  else
  let page_entry_flags := paging_convert_flags flags in
  let replace := truthy (Z.land flags PAGING_FLAG_REPLACE) in
  let! e3 := load_entry (level3_table c) (level3_index c) in
  if truthy (Z.land e3 PAGING_ENTRY_FLAG_SIZE) || truthy (Z.land flags PAGING_FLAG_1GB) then
    let! supported := gets hugepages_supported in
    if negb (truthy supported) then
      print_fail ("[paging_map_index_physical] huge pages not supported (1GiB)" +:+ nl) c
    else if truthy (Z.land physical_address 0x3FFFFFFF) then
      print_fail ("[paging_map_index_physical] physical_address must be aligned to 0x40000000 bytes (1GiB, 1073741824 bytes) when mapping 1GB page!" +:+ nl) c
    else if truthy e3 && negb replace then
      print_fail ("[paging_map_index_physical] tried to map at already mapped address (1GiB)" +:+ nl) c
    else
      let pages := Z.shiftr (bytes - 1) 30 + 1 in
      let! r := map_loop (map_1gb_body physical_address page_entry_flags) (Z.to_nat pages) 0 c in
      finish_map (pages * 512 * 512) r
  else
  let! e2 := load_entry (level2_table c) (level2_index c) in
  if truthy (Z.land e2 PAGING_ENTRY_FLAG_SIZE) || truthy (Z.land flags PAGING_FLAG_2MB) then
    if truthy (Z.land physical_address 0x1FFFFF) then
      print_fail ("[paging_map_index_physical] physical_address_or_null must be aligned to 0x200000 bytes (2MiB, 2097152 bytes) when mapping 2MiB page!" +:+ nl) c
    else if truthy e2 && negb replace then
      print_fail ("[paging_map_index_physical] tried to map at already mapped address (2MiB)" +:+ nl) c
    else
      let pages := Z.shiftr (bytes - 1) 21 + 1 in
      let! r := map_loop (map_2mb_body physical_address page_entry_flags) (Z.to_nat pages) 0 c in
      finish_map (pages * 512) r
  else
  let! e1 := load_entry (level1_table c) (level1_index c) in
  if truthy e1 then
    print_fail ("[paging_map_index_physical] tried to map at already mapped address (4KiB)" +:+ nl) c
  else if truthy (Z.land physical_address 0xFFF) then
    print_fail ("[paging_map_index_physical] physical_address_or_null must be aligned to 0x1000 bytes (4KiB, 4096 bytes)!" +:+ nl) c
  else
    let pages := Z.shiftr (bytes - 1) 12 + 1 in
    let! r := map_loop (map_4kb_body physical_address page_entry_flags) (Z.to_nat pages) 0 c in
    finish_map pages r.

(** Lines 504 to 549: every page is a newly allocated one. *)
Definition map_current_4kb_body (page_entry_flags _i : Z) (c : paging_context)
    : M (kstate A) (bool * paging_context) :=
  let! page := allocate_page in
  store_entry (level1_table c) (level1_index c) (leaf_entry page page_entry_flags) ;;;
  next_level1 msg_current_4kb_end c.

(** The 1GiB and 2MiB loops return in their first iteration; [bytes] is not
    zero, so there is one, and the code behind the return is dead. *)
Definition paging_map_index_current (c : paging_context) (bytes flags : Z)
    : M (kstate A) (Z * paging_context) :=
  if bytes <=? 0 then
    print_fail ("[paging_map_index_current] cannot map 0 bytes" +:+ nl) c
  else
  let page_entry_flags := paging_convert_flags flags in
  let replace := truthy (Z.land flags PAGING_FLAG_REPLACE) in
  let! e3 := load_entry (level3_table c) (level3_index c) in
  if truthy (Z.land e3 PAGING_ENTRY_FLAG_SIZE) || truthy (Z.land flags PAGING_FLAG_1GB) then
    let! supported := gets hugepages_supported in
    if negb (truthy supported) then
      print_fail ("[paging_map_index_current] huge pages not supported (1GiB)" +:+ nl) c
    else if truthy e3 && negb replace then
      print_fail ("[paging_map_index_current] tried to map at already mapped address (1GiB)" +:+ nl) c
    else
      print_fail ("[paging_map_index_current] 1GiB physical allocation not implemented yet!" +:+ nl) c
  else
  let! e2 := load_entry (level2_table c) (level2_index c) in
  if truthy (Z.land e2 PAGING_ENTRY_FLAG_SIZE) || truthy (Z.land flags PAGING_FLAG_2MB) then
    if truthy e2 && negb replace then
      print_fail ("[paging_map_index_current] tried to map at already mapped address (2MiB)" +:+ nl) c
    else
      print_fail ("[paging_map_index_current] 2MiB physical allocation not implemented yet!" +:+ nl) c
  else
  let! e1 := load_entry (level1_table c) (level1_index c) in
  if truthy e1 then
    print_fail ("[paging_map_index_current] tried to map at already mapped address (4KiB)" +:+ nl) c
  else
    let pages := Z.shiftr (bytes - 1) 12 + 1 in
    let! r := map_loop (map_current_4kb_body page_entry_flags) (Z.to_nat pages) 0 c in
    finish_map pages r.

(** Bits [shift .. shift + 8] of an address: the index into a table. *)
Definition table_index (address shift : Z) : Z := Z.land (Z.shiftr address shift) 0x1FF.

Definition paging_virtual_address_to_index (c : paging_context) (virtual_address flags : Z)
    : M (kstate A) (Z * paging_context) :=
  let c := set_level4_index (table_index virtual_address 39) c in
  let! t3 := ensure_table (level4_table c) (level4_index c) (level4_index c) in
  let c := set_level3_table t3 c in
  let c := set_level3_index (table_index virtual_address 30) c in
  if truthy (Z.land flags PAGING_FLAG_1GB) then
    if truthy (Z.land virtual_address 0x3FFFFFFF) then
      print_fail ("[paging_virtual_address_to_index] address must be aligned to 0x40000000 (1Gib, 1073741824 bytes) when mapping 1GiB page" +:+ nl) c
    else
      ret (1, set_level1_index 0 (set_level1_table 0 (set_level2_index 0 (set_level2_table 0 c))))
  else
  let! t2 := ensure_table (level3_table c) (level3_index c) (level3_index c) in
  let c := set_level2_table t2 c in
  let c := set_level2_index (table_index virtual_address 21) c in
  if truthy (Z.land flags PAGING_FLAG_2MB) then
    if truthy (Z.land virtual_address 0x1FFFFF) then
      print_fail ("[paging_virtual_address_to_index] address must be aligned to 0x200000 (2MiB, 2097152 bytes) when mapping 2MiB page" +:+ nl) c
    else
      ret (1, set_level1_index 0 (set_level1_table 0 c))
  else
  (* a new level 1 table is linked at [level3_index], as the source has it *)
  let! t1 := ensure_table (level2_table c) (level2_index c) (level3_index c) in
  let c := set_level1_table t1 c in
  let c := set_level1_index (table_index virtual_address 12) c in
  if truthy (Z.land virtual_address 0xFFF) then
    print_fail ("[paging_virtual_address_to_index] address must be aligned to 0x1000 (4KiB, 4096 bytes) when mapping page" +:+ nl) c
  else ret (1, c).

(** The virtual address a context points to. *)
Definition context_address (c : paging_context) : Z :=
  Z.lor (Z.lor (Z.lor (Z.shiftl (level1_index c) 12) (Z.shiftl (level2_index c) 21))
               (Z.shiftl (level3_index c) 30)) (Z.shiftl (level4_index c) 39).

(** The mapping functions return the virtual address, or 0, together with the
    context they leave behind. [flags] narrows to [unsigned short] at the call. *)
Definition paging_map_physical (fuel : nat) (c : paging_context) (physical_address bytes flags : Z)
    : M (kstate A) (Z * paging_context) :=
  let! '(found, c) := paging_index_find_spot fuel c bytes flags in
  if truthy found then
    let virtual_address := context_address c in
    let! '(mapped, c) := paging_map_index_physical physical_address c bytes (u16 flags) in
    if truthy mapped then ret (virtual_address, c) else ret (0, c)
  else ret (0, c).

Definition paging_map (fuel : nat) (c : paging_context) (bytes flags : Z)
    : M (kstate A) (Z * paging_context) :=
  let! '(found, c) := paging_index_find_spot fuel c bytes flags in
  if truthy found then
    let virtual_address := context_address c in
    let! '(mapped, c) := paging_map_index_current c bytes (u16 flags) in
    if truthy mapped then ret (virtual_address, c) else ret (0, c)
  else ret (0, c).

(** [struct paging_context new_index], of which only [level4_table] is
    initialised; [paging_virtual_address_to_index] fills in the rest. *)
Definition new_index (l4 : Z) : paging_context := PagingContext l4 0 0 0 0 0 0 0.

Definition paging_map_physical_at (c : paging_context)
    (physical_address virtual_address bytes flags : Z) : M (kstate A) Z :=
  let! '(ok, index) := paging_virtual_address_to_index (new_index (level4_table c)) virtual_address flags in
  if truthy ok then
    let! '(mapped, _) := paging_map_index_physical physical_address index bytes (u16 flags) in
    if truthy mapped then ret virtual_address else ret 0
  else ret 0.

Definition paging_map_at (c : paging_context) (virtual_address bytes flags : Z) : M (kstate A) Z :=
  let! '(ok, index) := paging_virtual_address_to_index (new_index (level4_table c)) virtual_address flags in
  if truthy ok then
    let! '(mapped, _) := paging_map_index_current index bytes (u16 flags) in
    if truthy mapped then ret virtual_address else ret 0
  else ret 0.

(** ** Unmapping

    The local variables of [paging_unmap] are kept in a [paging_context]. A
    step that leaves the tables prints the message and gives [None], on which
    the function returns 0. *)

Definition unmap_next_level3 (msg_end msg_null : string) (c : paging_context)
    : M (kstate A) (option paging_context) :=
  let c := set_level3_index (u32 (level3_index c + 1)) c in
  if 512 <=? level3_index c then
    let c := set_level4_index (u32 (level4_index c + 1)) c in
    if 512 <=? level4_index c then console_print msg_end ;;; ret None
    else
      let c := set_level3_index 0 c in
      let! e := load_entry (level4_table c) (level4_index c) in
      let t := Z.land e PAGING_ADDRESS_MASK in
      if t =? 0 then console_print msg_null ;;; ret None
      else ret (Some (set_level3_table t c))
  else ret (Some c).

Definition unmap_next_level2 (msg_end msg_null3 msg_null2 : string) (c : paging_context)
    : M (kstate A) (option paging_context) :=
  let c := set_level2_index (u32 (level2_index c + 1)) c in
  if 512 <=? level2_index c then
    let! r := unmap_next_level3 msg_end msg_null3 c in
    match r with
    | None => ret None
    | Some c =>
        let c := set_level2_index 0 c in
        let! e := load_entry (level3_table c) (level3_index c) in
        let t := Z.land e PAGING_ADDRESS_MASK in
        if t =? 0 then console_print msg_null2 ;;; ret None
        else ret (Some (set_level2_table t c))
    end
  else ret (Some c).

Definition unmap_next_level1 (msg_end msg_null3 msg_null2 msg_null1 : string) (c : paging_context)
    : M (kstate A) (option paging_context) :=
  let c := set_level1_index (u32 (level1_index c + 1)) c in
  if 512 <=? level1_index c then
    let! r := unmap_next_level2 msg_end msg_null3 msg_null2 c in
    match r with
    | None => ret None
    | Some c =>
        let c := set_level1_index 0 c in
        let! e := load_entry (level2_table c) (level2_index c) in
        let t := Z.land e PAGING_ADDRESS_MASK in
        if t =? 0 then console_print msg_null1 ;;; ret None
        else ret (Some (set_level1_table t c))
    end
  else ret (Some c).

Definition msg_null3_2mb : string := "[paging_unmap] invalid 2MiB unmap, entering null level 3 table" +:+ nl.
Definition msg_null2_2mb : string := "[paging_unmap] invalid 2MiB unmap, entering null level 2 table" +:+ nl.
Definition msg_null1_2mb : string := "[paging_unmap] invalid 2MiB unmap, entering null level 1 table" +:+ nl.

Fixpoint unmap_loop (body : paging_context → M (kstate A) (option paging_context))
    (n : nat) (c : paging_context) : M (kstate A) bool :=
  match n with
  | O => ret true
  | S n' =>
      let! r := body c in
      match r with Some c => unmap_loop body n' c | None => ret false end
  end.

Definition unmap_1gb_body (c : paging_context) : M (kstate A) (option paging_context) :=
  store_entry (level3_table c) (level3_index c) 0 ;;;
  unmap_next_level3
    ("[paging_unmap] invalid 1GiB unmap, reached end of level4 table" +:+ nl)
    ("[paging_unmap] invalid 1GiB unmap, entering null level 3 table" +:+ nl) c.

Definition unmap_2mb_body (c : paging_context) : M (kstate A) (option paging_context) :=
  store_entry (level2_table c) (level2_index c) 0 ;;;
  unmap_next_level2
    ("[paging_unmap] invalid 2MiB unmap, reached end of level4 table" +:+ nl)
    msg_null3_2mb msg_null2_2mb c.

Definition unmap_4kb_body (c : paging_context) : M (kstate A) (option paging_context) :=
  store_entry (level1_table c) (level1_index c) 0 ;;;
  unmap_next_level1
    ("[paging_unmap] invalid 4KiB unmap, reached end of level4 table" +:+ nl)
    msg_null3_2mb msg_null2_2mb msg_null1_2mb c.

Definition print_zero (msg : string) : M (kstate A) Z := console_print msg ;;; ret 0.

(** [used_virtual_pages -= n; return 1;] *)
Definition finish_unmap (n : Z) (ok : bool) : M (kstate A) Z :=
  if ok then add_used_virtual_pages (- n) ;;; ret 1 else ret 0.

Definition paging_unmap (context : paging_context) (virtual_address bytes : Z) : M (kstate A) Z :=
  let c := set_level4_index (table_index virtual_address 39) (new_index (level4_table context)) in
  let! e4 := load_entry (level4_table c) (level4_index c) in
  if e4 =? 0 then
    print_zero ("[paging_unmap] tried to unmap unmapped page (level4_entry)" +:+ nl)
  else
  let c := set_level3_table (Z.land e4 PAGING_ADDRESS_MASK) c in
  let c := set_level3_index (table_index virtual_address 30) c in
  let! e3 := load_entry (level3_table c) (level3_index c) in
  if e3 =? 0 then
    print_zero ("[paging_unmap] tried to unmap unmapped page (level3_entry)" +:+ nl)
  else if truthy (Z.land e3 PAGING_ENTRY_FLAG_SIZE) then
    let pages := Z.shiftr (u64 (bytes - 1)) 30 + 1 in
    if truthy (Z.land virtual_address 0x3FFFFFFF) then
      print_zero ("[paging_unmap] virtual_address must be aligned to 0x40000000 bytes (1GiB, 1073741824 bytes) when unmapping 1GB page!" +:+ nl)
    else
      let! ok := unmap_loop unmap_1gb_body (Z.to_nat pages) c in
      finish_unmap (pages * 512 * 512) ok
  else
  let c := set_level2_table (Z.land e3 PAGING_ADDRESS_MASK) c in
  let c := set_level2_index (table_index virtual_address 21) c in
  let! e2 := load_entry (level2_table c) (level2_index c) in
  if e2 =? 0 then
    print_zero ("[paging_unmap] tried to unmap unallocated page (level2_entry)" +:+ nl)
  else if truthy (Z.land e2 PAGING_ENTRY_FLAG_SIZE) then
    let pages := Z.shiftr (u64 (bytes - 1)) 21 + 1 in
    if truthy (Z.land virtual_address 0x1FFFFF) then
      print_zero ("[paging_unmap] virtual_address must be aligned to 0x200000 bytes (2MiB, 2097152 bytes) when unmapping 2MB page!" +:+ nl)
    else
      let! ok := unmap_loop unmap_2mb_body (Z.to_nat pages) c in
      finish_unmap (pages * 512) ok
  else
  let c := set_level1_table (Z.land e2 PAGING_ADDRESS_MASK) c in
  let c := set_level1_index (table_index virtual_address 12) c in
  let! e1 := load_entry (level1_table c) (level1_index c) in
  if e1 =? 0 then
    print_zero ("[paging_unmap] tried to unmap unmapped page (level1_entry)" +:+ nl)
  else
    let pages := Z.shiftr (u64 (bytes - 1)) 12 + 1 in
    if truthy (Z.land virtual_address 0xFFF) then
      print_zero ("[paging_unmap] virtual_address must be aligned to 0xFFF bytes (4KiB, 4096 bytes) when unmapping page!" +:+ nl)
    else
      let! ok := unmap_loop unmap_4kb_body (Z.to_nat pages) c in
      finish_unmap pages ok.

(** ** The software page walk *)

Definition warn_not_present (level : string) (entry : Z) : M (kstate A) unit :=
  if truthy (Z.land entry PAGING_ENTRY_FLAG_PRESENT) then ret tt
  else console_print ("[paging_get_physical_address] warning: " +:+ level +:+ " not present but has address" +:+ nl).

Definition paging_get_physical_address (context : paging_context) (address : Z) : M (kstate A) Z :=
  let! level4_entry := load_entry (level4_table context) (table_index address 39) in
  if level4_entry =? 0 then ret 0
  else
  warn_not_present "level4" level4_entry ;;;
  let! level3_entry := load_entry (Z.land level4_entry PAGING_ADDRESS_MASK) (table_index address 30) in
  if level3_entry =? 0 then ret 0
  else
  warn_not_present "level3" level3_entry ;;;
  if truthy (Z.land level3_entry PAGING_ENTRY_FLAG_SIZE) then
    ret (u64 (Z.land level3_entry PAGE_FRAME_MASK + Z.land address 0x3FFFFFFF))
  else
  let! level2_entry := load_entry (Z.land level3_entry PAGING_ADDRESS_MASK) (table_index address 21) in
  if level2_entry =? 0 then ret 0
  else
  warn_not_present "level2" level2_entry ;;;
  if truthy (Z.land level2_entry PAGING_ENTRY_FLAG_SIZE) then
    ret (u64 (Z.land level2_entry PAGE_FRAME_MASK + Z.land address 0x1FFFFF))
  else
  let! level1_entry := load_entry (Z.land level2_entry PAGING_ADDRESS_MASK) (table_index address 12) in
  if level1_entry =? 0 then ret 0
  else
  warn_not_present "level1" level1_entry ;;;
  ret (u64 (Z.land level1_entry PAGE_FRAME_MASK + Z.land address 0xFFF)).

Definition paging_used_pages (s : kstate A) : Z := used_virtual_pages s.

End Paging.
