(* ===== verification/PagingWalk.v ===== *)
(** * Page tables as a tree: walks, invariant, frames

    The specification side of [Paging]. [walk] is the translation a page-table
    tree denotes; [tables_ok] says that the tables reachable from a root form a
    tree of used, aligned pages, each serving one level and one prefix of the
    virtual address. The lemmas say what storing one entry, or linking one new
    table, does to every walk. *)

From S2P Require Import Prelude Memory Allocator Paging.

(** ** Virtual page numbers *)

(** The bit at which level [l]'s index starts: 12, 21, 30, 39 (and 48). *)
Definition lsh (l : nat) : Z := 3 + 9 * Z.of_nat l.

(** The number of the level [l] slot that a virtual address goes through. *)
Definition vpn (l : nat) (va : Z) : Z := va mod 2 ^ 48 / 2 ^ lsh l.

Definition idx (l : nat) (va : Z) : Z := vpn l va mod 512.

Lemma lsh_pos l : 0 ≤ lsh l. Proof. unfold lsh. lia. Qed.
Lemma lsh_S l : 2 ^ lsh (S l) = 2 ^ lsh l * 512.
Proof. unfold lsh. replace (3 + 9 * Z.of_nat (S l)) with (3 + 9 * Z.of_nat l + 9) by lia.
  rewrite Z.pow_add_r by lia. done. Qed.
Lemma pow_lsh_pos l : 0 < 2 ^ lsh l.
Proof. apply Z.pow_pos_nonneg; [lia|apply lsh_pos]. Qed.

Lemma idx_range l va : 0 ≤ idx l va < 512.
Proof. apply Z.mod_pos_bound. lia. Qed.

Lemma vpn_nonneg l va : 0 ≤ vpn l va.
Proof. apply Z.div_pos; [apply Z.mod_pos_bound; lia|apply pow_lsh_pos]. Qed.

Lemma vpn_bound l va : (l ≤ 5)%nat → vpn l va < 2 ^ (48 - lsh l).
Proof.
  intros Hl. apply Z.div_lt_upper_bound; [apply pow_lsh_pos|].
  rewrite <- Z.pow_add_r by (unfold lsh; lia).
  replace (lsh l + (48 - lsh l)) with 48 by lia. apply Z.mod_pos_bound. lia.
Qed.

Lemma vpn_5 va : vpn 5 va = 0.
Proof. pose proof (vpn_nonneg 5 va). pose proof (vpn_bound 5 va ltac:(lia)).
  change (2 ^ (48 - lsh 5)) with 1 in *. lia. Qed.

Lemma vpn_S l va : vpn (S l) va = vpn l va / 512.
Proof. unfold vpn. rewrite lsh_S, Z.div_div; [done|..]; pose proof (pow_lsh_pos l); lia. Qed.

Lemma vpn_split l va : vpn l va = vpn (S l) va * 512 + idx l va.
Proof. rewrite vpn_S. unfold idx. pose proof (Z.div_mod (vpn l va) 512). lia. Qed.

Lemma vpn_small l va : 0 ≤ va < 2 ^ 48 → vpn l va = va / 2 ^ lsh l.
Proof. intros. unfold vpn. by rewrite Z.mod_small. Qed.

Lemma table_index_idx l va : (1 ≤ l ≤ 4)%nat → table_index va (lsh l) = idx l va.
Proof.
  intros Hl. unfold table_index, idx, vpn. change 0x1FF with (2 ^ 9 - 1).
  rewrite land_ones_mod, shiftr_div by (lia || apply lsh_pos).
  apply Z.bits_inj'. intros i Hi. destruct (decide (i < 9)).
  - change 512 with (2 ^ 9). rewrite !Z.mod_pow2_bits_low, !Z.div_pow2_bits by (lia || apply lsh_pos).
    rewrite Z.mod_pow2_bits_low; [done|unfold lsh; lia].
  - change 512 with (2 ^ 9). by rewrite !Z.mod_pow2_bits_high by lia.
Qed.

Lemma table_index_39 va : table_index va 39 = idx 4 va.
Proof. apply (table_index_idx 4). lia. Qed.
Lemma table_index_30 va : table_index va 30 = idx 3 va.
Proof. apply (table_index_idx 3). lia. Qed.
Lemma table_index_21 va : table_index va 21 = idx 2 va.
Proof. apply (table_index_idx 2). lia. Qed.
Lemma table_index_12 va : table_index va 12 = idx 1 va.
Proof. apply (table_index_idx 1). lia. Qed.
#[export] Hint Rewrite table_index_39 table_index_30 table_index_21 table_index_12 : kokos.

(** ** The translation a table tree denotes *)

(** At level 1 every entry is a leaf; at levels 2 and 3 the size bit says so. *)
Definition leafb (l : nat) (e : Z) : bool :=
  match l with
  | 1%nat => true
  | 2%nat | 3%nat => Z.testbit e 7
  | _ => false
  end.

Fixpoint walk (l : nat) (m : mem) (t va : Z) : option (nat * Z) :=
  match l with
  | O => None
  | S l' =>
      let e := load64 m (t + 8 * idx l va) in
      if e =? 0 then None
      else if leafb l e then Some (l, e)
      else walk l' m (Z.land e PAGING_ADDRESS_MASK) va
  end.

(** The physical address a leaf at level [l] gives to [va]. *)
Definition leaf_address (r : option (nat * Z)) (va : Z) : Z :=
  match r with
  | None => 0
  | Some (l, e) => Z.land e PAGE_FRAME_MASK + va mod 2 ^ lsh l
  end.

(** The table reached after [n] levels of tables, starting at level [l]. *)
Fixpoint descend (n l : nat) (m : mem) (t va : Z) : option Z :=
  match n with
  | O => Some t
  | S n' =>
      let e := load64 m (t + 8 * idx l va) in
      if (e =? 0) || leafb l e then None
      else descend n' (pred l) m (Z.land e PAGING_ADDRESS_MASK) va
  end.

Lemma walk_descend n : ∀ l m t va t',
  (n < l)%nat → descend n l m t va = Some t' → walk l m t va = walk (l - n) m t' va.
Proof.
  induction n as [|n IH]; intros l m t va t' Hn Hd; cbn [descend] in Hd.
  - injection Hd as <-. by rewrite Nat.sub_0_r.
  - destruct l as [|l]; [lia|]. cbn [walk]. cbn [pred] in Hd.
    destruct (_ =? 0); [done|]. cbn [orb] in Hd. destruct (leafb _ _); [done|].
    rewrite (IH l m _ va t' ltac:(lia) Hd). done.
Qed.

(** Level 4 entries are never leaves. *)
Lemma walk_leaf_level l m t va l' e :
  walk l m t va = Some (l', e) → (l' ≤ 3)%nat ∧ e ≠ 0 ∧ leafb l' e = true.
Proof.
  revert t. induction l as [|l IH]; intros t; cbn [walk]; [done|].
  destruct (Z.eqb_spec (load64 m (t + 8 * idx (S l) va)) 0); [done|].
  destruct (leafb (S l) _) eqn:Hl; [|apply IH].
  intros [= <- <-]. split; [|done]. destruct l as [|[|[|l]]]; (done || lia).
Qed.

Lemma walk_level_pos l m t va l' e : walk l m t va = Some (l', e) → (1 ≤ l')%nat.
Proof.
  revert t. induction l as [|l IH]; intros t; cbn [walk]; [done|].
  destruct (_ =? 0); [done|]. destruct (leafb _ _); [intros [= <- _]; lia|apply IH].
Qed.

Lemma vpn_eq_up l va va' k : vpn l va = vpn l va' → (l ≤ k)%nat → vpn k va = vpn k va'.
Proof.
  intros H Hk. induction Hk as [|k Hk IH]; [done|]. by rewrite !vpn_S, IH.
Qed.

(** A leaf found for an address is found for its whole page. *)
Lemma walk_cong k : ∀ m t x x' l e,
  walk k m t x = Some (l, e) → vpn l x = vpn l x' → walk k m t x' = Some (l, e).
Proof.
  induction k as [|k IH]; intros m t x x' l e Hw Hv; [done|].
  assert (∀ k t l e, walk k m t x = Some (l, e) → (l ≤ k)%nat) as Hle.
  { clear. induction k as [|k IH]; intros t l e; cbn [walk]; [done|].
    destruct (_ =? 0); [done|]. destruct (leafb _ _); [intros [= <- _]; lia|].
    intros ?%IH. lia. }
  apply Hle in Hw as Hlk. cbn [walk] in *.
  assert (idx (S k) x' = idx (S k) x) as -> by (unfold idx; f_equal; symmetry; by apply (vpn_eq_up l)).
  destruct (_ =? 0); [done|]. destruct (leafb _ _); [done|]. by apply (IH _ _ x).
Qed.

Lemma descend_cong n : ∀ l m t va va',
  (n ≤ l)%nat → vpn (S l - n) va = vpn (S l - n) va' → descend n l m t va = descend n l m t va'.
Proof.
  induction n as [|n IH]; intros l m t va va' Hn H; cbn [descend]; [done|].
  assert (idx l va = idx l va') as -> by
    (unfold idx; f_equal; apply (vpn_eq_up (S l - S n)); [done|lia]).
  destruct (_ || _); [done|]. apply IH; [lia|].
  replace (S (pred l) - n)%nat with (S l - S n)%nat by lia. done.
Qed.

Lemma descend_S n l m t va t' :
  (n < l)%nat → descend n l m t va = Some t' →
  ∀ e, e = load64 m (t' + 8 * idx (l - n) va) → e ≠ 0 → leafb (l - n) e = false →
  descend (S n) l m t va = Some (Z.land e PAGING_ADDRESS_MASK).
Proof.
  revert l t. induction n as [|n IH]; intros l t Hn Hd e He Hne Hl.
  - cbn [descend] in Hd. injection Hd as <-. rewrite Nat.sub_0_r in *. cbn [descend].
    rewrite <- He, Hl, (proj2 (Z.eqb_neq e 0)) by done. done.
  - rewrite (eq_refl : descend (S (S n)) l m t va =
      let e := load64 m (t + 8 * idx l va) in
      if (e =? 0) || leafb l e then None
      else descend (S n) (pred l) m (Z.land e PAGING_ADDRESS_MASK) va).
    cbn [descend] in Hd. cbn zeta. destruct (_ || _); [done|].
    apply IH; [lia|done|..]; replace (pred l - n)%nat with (l - S n)%nat by lia; done.
Qed.

(** ** Entries *)

Lemma table_entry_add t : t mod 2 ^ 12 = 0 → table_entry t = t + 3.
Proof.
  intros H. unfold table_entry. rewrite <- Z.lor_assoc.
  change (Z.lor PAGING_ENTRY_FLAG_PRESENT PAGING_ENTRY_FLAG_WRITABLE) with 3.
  rewrite (Z.div_mod t (2 ^ 12)), H, Z.add_0_r, (Z.mul_comm (2 ^ 12)) by lia.
  by apply lor_add_low.
Qed.

Lemma address_mask_eq e : Z.land e PAGING_ADDRESS_MASK = e mod 2 ^ 63 / 2 ^ 12 * 2 ^ 12.
Proof. apply (land_mask e 12 63). lia. Qed.

Lemma frame_mask_eq e : Z.land e PAGE_FRAME_MASK = e mod 2 ^ 52 / 2 ^ 12 * 2 ^ 12.
Proof. apply (land_mask e 12 52). lia. Qed.

Lemma address_mask_table_entry t :
  t mod 2 ^ 12 = 0 → 0 ≤ t < 2 ^ 52 → Z.land (table_entry t) PAGING_ADDRESS_MASK = t.
Proof.
  intros Hm Ht. rewrite table_entry_add, address_mask_eq, (Z.mod_small _ (2 ^ 63)) by (done || lia).
  divmod_lia.
Qed.

Lemma table_entry_not_leaf l t : l ≠ 1%nat → t mod 2 ^ 12 = 0 → leafb l (table_entry t) = false.
Proof.
  intros Hl Hm. rewrite table_entry_add by done.
  assert (Z.testbit (t + 3) 7 = false) as H.
  { rewrite Z.testbit_false by lia. divmod_lia. }
  destruct l as [|[|[|[|l]]]]; done.
Qed.

(** ** The tree invariant *)

(** A forest of tables: the level each page serves and its prefix of virtual
    page numbers. A page serves one level and one prefix, so no table is
    shared between two places of the tree. *)
Abbreviation tree := (gmap Z (nat * Z)).

Definition entry_ok (T : tree) (l : nat) (n e : Z) : Prop :=
  e = 0 ∨ leafb l e = true ∨
  (leafb l e = false ∧ (2 ≤ l)%nat ∧ T !! Z.land e PAGING_ADDRESS_MASK = Some (pred l, n)).

Record tables_ok (T : tree) (root : Z) (m : mem) (used : Z → Prop) : Prop := {
  root_in : T !! root = Some (4%nat, 0);
  table_shape : ∀ t l p, T !! t = Some (l, p) →
    (1 ≤ l ≤ 4)%nat ∧ t mod 2 ^ 12 = 0 ∧ 0 < t < 2 ^ 52 ∧ used (t / 2 ^ 12);
  table_entries : ∀ t l p i, T !! t = Some (l, p) → 0 ≤ i < 512 →
    entry_ok T l (p * 512 + i) (load64 m (t + 8 * i))
}.

(** Two different slots of page-aligned tables do not overlap. *)
Lemma slots_disjoint t1 t2 i1 i2 :
  t1 mod 2 ^ 12 = 0 → t2 mod 2 ^ 12 = 0 → 0 ≤ i1 < 512 → 0 ≤ i2 < 512 →
  (t1, i1) ≠ (t2, i2) → t1 + 8 * i1 + 8 ≤ t2 + 8 * i2 ∨ t2 + 8 * i2 + 8 ≤ t1 + 8 * i1.
Proof.
  intros H1 H2 Hi1 Hi2 Hne. destruct (decide (t1 = t2)) as [->|].
  - assert (i1 ≠ i2) by congruence. lia.
  - divmod_lia.
Qed.

Section Walks.
Context {T : tree} {root : Z} {m : mem} {used : Z → Prop} (OK : tables_ok T root m used).

Lemma tree_next t l va :
  T !! t = Some (l, vpn (S l) va) →
  load64 m (t + 8 * idx l va) ≠ 0 → leafb l (load64 m (t + 8 * idx l va)) = false →
  (2 ≤ l)%nat ∧
  T !! Z.land (load64 m (t + 8 * idx l va)) PAGING_ADDRESS_MASK = Some (pred l, vpn (S (pred l)) va).
Proof using OK.
  intros Ht Hne Hl.
  destruct (table_entries _ _ _ _ OK _ _ _ (idx l va) Ht (idx_range l va)) as [?|[?|(_&?&H)]];
    [done|congruence|].
  split; [done|]. rewrite H, <- vpn_split. destruct l; [lia|done].
Qed.

(** Tables reached by descending are in the tree, at the right place. *)
Lemma descend_tree n : ∀ l t va t',
  T !! t = Some (l, vpn (S l) va) → (n < l)%nat → descend n l m t va = Some t' →
  T !! t' = Some ((l - n)%nat, vpn (S l - n) va).
Proof using OK.
  induction n as [|n IH]; intros l t va t' Ht Hn Hd; cbn [descend] in Hd.
  - injection Hd as <-. by rewrite !Nat.sub_0_r.
  - destruct (Z.eqb_spec (load64 m (t + 8 * idx l va)) 0) as [|Hne]; [done|].
    cbn [orb] in Hd. destruct (leafb l _) eqn:Hl; [done|].
    destruct (tree_next _ _ _ Ht Hne Hl) as [Hl2 Hnext].
    apply IH in Hd; [|done|lia]. rewrite Hd.
    replace (pred l - n)%nat with (l - S n)%nat by lia.
    by replace (S (pred l) - n)%nat with (S l - S n)%nat by lia.
Qed.

Lemma root_tree va : T !! root = Some (4%nat, vpn 5 va).
Proof using OK. rewrite vpn_5. by apply root_in in OK. Qed.

(** Walks only read the slots of the tree on the path of the address. *)
Lemma walk_agree m' va :
  (∀ t l, T !! t = Some (l, vpn (S l) va) →
     load64 m' (t + 8 * idx l va) = load64 m (t + 8 * idx l va)) →
  ∀ l t, T !! t = Some (l, vpn (S l) va) → walk l m' t va = walk l m t va.
Proof using OK.
  intros Hag. induction l as [|l IH]; intros t Ht; cbn [walk]; [done|].
  rewrite (Hag t (S l) Ht). destruct (Z.eqb_spec (load64 m (t + 8 * idx (S l) va)) 0) as [|Hne]; [done|].
  destruct (leafb (S l) _) eqn:Hl; [done|].
  apply IH. destruct (tree_next _ _ _ Ht Hne Hl) as [_ H]. exact H.
Qed.

Lemma descend_agree m' va n : ∀ l t t',
  (∀ t k, T !! t = Some (k, vpn (S k) va) → (l - n < k)%nat →
     load64 m' (t + 8 * idx k va) = load64 m (t + 8 * idx k va)) →
  T !! t = Some (l, vpn (S l) va) → (n < l)%nat →
  descend n l m t va = Some t' → descend n l m' t va = Some t'.
Proof using OK.
  induction n as [|n IH]; intros l t t' Hag Ht Hn Hd; cbn [descend] in *; [done|].
  rewrite (Hag t l Ht) by lia.
  destruct (Z.eqb_spec (load64 m (t + 8 * idx l va)) 0) as [|Hne]; [done|].
  cbn [orb] in *. destruct (leafb l _) eqn:Hl; [done|].
  destruct (tree_next _ _ _ Ht Hne Hl) as [_ Hnext].
  apply IH; [|done|lia|done]. intros t0 k Ht0 Hk. apply Hag; [done|lia].
Qed.

Lemma slot_other t0 l0 p0 i0 v t l va :
  T !! t0 = Some (l0, p0) → 0 ≤ i0 < 512 → T !! t = Some (l, vpn (S l) va) →
  (l = l0 → vpn l va ≠ p0 * 512 + i0) →
  load64 (store64 m (t0 + 8 * i0) v) (t + 8 * idx l va) = load64 m (t + 8 * idx l va).
Proof using OK.
  intros Ht0 Hi0 Ht Hne.
  destruct (table_shape _ _ _ _ OK _ _ _ Ht0) as (_&Ha0&_).
  destruct (table_shape _ _ _ _ OK _ _ _ Ht) as (_&Ha&_).
  apply load64_store64_ne. apply slots_disjoint; try done; [apply idx_range|].
  intros [= <- Hi]. rewrite Ht in Ht0. injection Ht0 as <- <-.
  apply Hne; [done|]. rewrite vpn_split. congruence.
Qed.

(** Storing an entry leaves every walk alone that does not go through it. *)
Lemma walk_store_other t0 l0 p0 i0 v va :
  T !! t0 = Some (l0, p0) → 0 ≤ i0 < 512 → vpn l0 va ≠ p0 * 512 + i0 →
  walk 4 (store64 m (t0 + 8 * i0) v) root va = walk 4 m root va.
Proof using OK.
  intros Ht0 Hi0 Hne. apply (walk_agree (store64 m (t0 + 8 * i0) v) va); [|apply root_tree].
  intros t l Ht. apply (slot_other t0 l0 p0 i0 v t l va); try done. by intros ->.
Qed.

(** ... and every descent to a table of the same or a higher level. *)
Lemma descend_store t0 l0 p0 i0 v n va t' :
  T !! t0 = Some (l0, p0) → 0 ≤ i0 < 512 → (l0 + n ≤ 4)%nat → (n < 4)%nat →
  descend n 4 m root va = Some t' →
  descend n 4 (store64 m (t0 + 8 * i0) v) root va = Some t'.
Proof using OK.
  intros Ht0 Hi0 Hn Hn4. apply descend_agree; [|apply root_tree|lia].
  intros t k Ht Hk. apply (slot_other t0 l0 p0 i0 v t k va); try done. lia.
Qed.

(** The invariant survives storing any well-formed entry. *)
Lemma tables_ok_store t0 l0 p0 i0 v :
  T !! t0 = Some (l0, p0) → 0 ≤ i0 < 512 → 0 ≤ v < 2 ^ 64 → entry_ok T l0 (p0 * 512 + i0) v →
  tables_ok T root (store64 m (t0 + 8 * i0) v) used.
Proof using OK.
  intros Ht0 Hi0 Hv Hok. constructor; [apply OK|apply OK|].
  intros t l p i Ht Hi. destruct (decide ((t, i) = (t0, i0))) as [[= -> ->]|Hne].
  - rewrite load64_store64_eq by done. rewrite Ht in Ht0. injection Ht0 as -> ->. done.
  - rewrite load64_store64_ne; [by apply OK|].
    apply slots_disjoint; [apply (table_shape _ _ _ _ OK _ _ _ Ht0)
      |apply (table_shape _ _ _ _ OK _ _ _ Ht)|done|done|congruence].
Qed.

End Walks.

(** A leaf stored on the path of [va] is what its walk finds. *)
Lemma walk_store_leaf T root m used l va t v :
  tables_ok T root m used → (1 ≤ l ≤ 3)%nat → 0 < v < 2 ^ 64 → leafb l v = true →
  descend (4 - l) 4 m root va = Some t →
  walk 4 (store64 m (t + 8 * idx l va) v) root va = Some (l, v).
Proof.
  intros OK Hl Hv Hleaf Hd.
  pose proof (descend_tree OK (4 - l) 4 root va t (root_tree OK va) ltac:(lia) Hd) as Ht.
  replace (4 - (4 - l))%nat with l in Ht by lia. replace (5 - (4 - l))%nat with (S l) in Ht by lia.
  rewrite (walk_descend (4 - l) 4 _ _ _ t); [|lia|].
  2: { apply (descend_store OK t l (vpn (S l) va)); (apply idx_range || done || lia). }
  replace (4 - (4 - l))%nat with l by lia.
  destruct l as [|l]; [lia|]. cbn [walk].
  rewrite load64_store64_eq, Hleaf by lia. by rewrite (proj2 (Z.eqb_neq v 0)) by lia.
Qed.
