(* ===== verification/PagingDebug.v ===== *)
(** * The report of the page tables

    Models [paging_clear_table], [paging_debug_attributes] and [paging_debug] of
    [src/src/common/paging.c] and shows that the report is the translation the
    tables denote ([PagingWalk.walk]): the pages and huge pages it lists are
    exactly those of the tree, but for level 1 tables that start with 20 pages
    or more, which it sums up. *)

From S2P Require Import Prelude Memory Allocator Paging PagingWalk.

Section Debug.
Context {A : Type} {PA : PageAllocator A}.
Implicit Type s : kstate A.

Definition paging_clear_table (table : Z) : M (kstate A) unit :=
  for_loop 512 0 (λ i, store_entry table i 0).

Definition print_char (c : Z) : M (kstate A) unit := modify (add_log (CPrintChar c)).
Definition print_u64 (number base : Z) : M (kstate A) unit := modify (add_log (CPrintU64 number base)).

(** [if (entry & mask) console_print_char(c);], with the masks of [paging.h]. *)
Definition paging_debug_attributes (entry : Z) : M (kstate A) unit :=
  let flag mask (c : ascii) := if truthy (Z.land entry mask) then print_char (Z.of_nat (nat_of_ascii c)) else ret tt in
  flag PAGING_ENTRY_FLAG_PRESENT "P"%char ;;; flag PAGING_ENTRY_FLAG_WRITABLE "W"%char ;;;
  flag PAGING_ENTRY_FLAG_EVERYONE_ACCESS "U"%char ;;; flag PAGING_ENTRY_FLAG_SIZE "S"%char ;;;
  flag 0x8000000000000000 "X"%char ;;; flag 0x10 "C"%char ;;; flag 0x8 "T"%char ;;;
  flag 0x20 "a"%char ;;; flag 0x40 "d"%char.

(** One line of the report, as the code prints it at each of the four levels. *)
Definition debug_line (title : string) (entry first last : Z) : M (kstate A) unit :=
  console_print title ;;;
  print_u64 (Z.land entry PAGING_ADDRESS_MASK) 16 ;;;
  print_char 32 ;;;
  paging_debug_attributes entry ;;;
  console_print " [0x" ;;;
  print_u64 first 16 ;;;
  console_print " .. 0x" ;;;
  print_u64 last 16 ;;;
  console_print ("]" +:+ nl).

Definition debug_page (level1_table level1_starting_address level1_index : Z) : M (kstate A) unit :=
  let! level1_entry := load_entry level1_table level1_index in
  if level1_entry =? 0 then ret tt
  else debug_line "         |- page 0x" level1_entry
    (u64 (level1_starting_address + level1_index * 4096))
    (u64 (level1_starting_address + (level1_index + 1) * 4096 - 1)).

(** The loop that counts up to the first empty entry. *)
Fixpoint count_pages (n : nat) (m : mem) (level1_table level1_index : Z) : Z :=
  match n with
  | O => 0
  | S n' =>
      if load64 m (level1_table + 8 * level1_index) =? 0 then 0
      else 1 + count_pages n' m level1_table (level1_index + 1)
  end.

Definition debug_level1 (level1_table level1_starting_address : Z) : M (kstate A) unit :=
  let! level1_count := gets (λ s, count_pages 512 (k_mem s) level1_table 0) in
  if 20 <=? level1_count then
    console_print "         |- ... " ;;;
    print_u64 level1_count 10 ;;;
    console_print (" pages ..." +:+ nl)
  else for_loop 512 0 (debug_page level1_table level1_starting_address).

Definition debug_level2 (level2_table level2_starting_address level2_index : Z) : M (kstate A) unit :=
  let! level2_entry := load_entry level2_table level2_index in
  if level2_entry =? 0 then ret tt
  else
    let level1_starting_address := u64 (level2_starting_address + level2_index * 512 * 4096) in
    let size := truthy (Z.land level2_entry PAGING_ENTRY_FLAG_SIZE) in
    debug_line (if size then "      |- hugepage2mb 0x" else "      |- level1 0x") level2_entry
      level1_starting_address (u64 (level2_starting_address + (level2_index + 1) * 512 * 4096 - 1)) ;;;
    if size then ret tt
    else debug_level1 (Z.land level2_entry PAGING_ADDRESS_MASK) level1_starting_address.

Definition debug_level3 (level3_table level3_starting_address level3_index : Z) : M (kstate A) unit :=
  let! level3_entry := load_entry level3_table level3_index in
  if level3_entry =? 0 then ret tt
  else
    let level2_starting_address := u64 (level3_starting_address + level3_index * 512 * 512 * 4096) in
    let size := truthy (Z.land level3_entry PAGING_ENTRY_FLAG_SIZE) in
    debug_line (if size then "   |- hugepage1gb 0x" else "   |- level2 0x") level3_entry
      level2_starting_address
      (u64 (level3_starting_address + ((level3_index + 1) * 512 * 512 * 4096 - 1))) ;;;
    if size then ret tt
    else for_loop 512 0 (debug_level2 (Z.land level3_entry PAGING_ADDRESS_MASK) level2_starting_address).

Definition debug_level4 (level4_table level4_index : Z) : M (kstate A) unit :=
  let! level4_entry := load_entry level4_table level4_index in
  if level4_entry =? 0 then ret tt
  else
    let level3_starting_address := u64 (level4_index * 512 * 512 * 512 * 4096) in
    debug_line "|- level3 0x" level4_entry level3_starting_address
      (u64 ((level4_index + 1) * 512 * 512 * 512 * 4096 - 1)) ;;;
    for_loop 512 0 (debug_level3 (Z.land level4_entry PAGING_ADDRESS_MASK) level3_starting_address).

Definition paging_debug (context : paging_context) : M (kstate A) unit :=
  console_print "level4 0x" ;;;
  print_u64 (level4_table context) 16 ;;;
  console_print (" [0x000000000000 .. 0xffffffffffff]" +:+ nl) ;;;
  for_loop 512 0 (debug_level4 (level4_table context)).

(** [paging_clear_table] empties the table and writes nothing else. *)
Lemma paging_clear_table_run table s :
  ∃ s', paging_clear_table table s = Ok (tt, s') ∧
    (∀ j, 0 ≤ j < 512 → load64 (k_mem s') (table + 8 * j) = 0) ∧
    ∀ b, ¬ (table ≤ b < table + 4096) → load8 (k_mem s') b = load8 (k_mem s) b.
Proof.
  destruct (for_loop_inv (λ i s', (∀ j, 0 ≤ j < i → load64 (k_mem s') (table + 8 * j) = 0) ∧
      ∀ b, ¬ (table ≤ b < table + 4096) → load8 (k_mem s') b = load8 (k_mem s) b)
    (λ i, store_entry table i 0) 512 0 s) as (s' & Hr & Hz & Hb); [split; [lia|done]| |by exists s'].
  intros i s1 Hi [Hz Hb]. eexists. split; [reflexivity|]. cbn [k_mem set_mem]. split.
  - intros j Hj. destruct (decide (j = i)) as [->|]; [apply load64_store64_eq; lia|].
    rewrite load64_store64_ne by lia. apply Hz. lia.
  - intros b Hb'. rewrite load8_store64_out by lia. by apply Hb.
Qed.

(** ** The report as a list of lines *)

(** [Entry l first e]: the entry [e] of a level [l] table for the addresses
    from [first] on; [Pages first n]: [n] pages from [first] on. *)
Inductive line :=
| Entry (l : nat) (first e : Z)
| Pages (first n : Z).

Definition line_title (l : nat) (e : Z) : string :=
  match l with
  | 1%nat => "         |- page 0x"
  | 2%nat => if leafb 2 e then "      |- hugepage2mb 0x" else "      |- level1 0x"
  | 3%nat => if leafb 3 e then "   |- hugepage1gb 0x" else "   |- level2 0x"
  | _ => "|- level3 0x"
  end.

Definition attributes (e : Z) : list Z :=
  let flag b (c : ascii) := if Z.testbit e b then [Z.of_nat (nat_of_ascii c)] else [] in
  concat [flag 0 "P"%char; flag 1 "W"%char; flag 2 "U"%char; flag 7 "S"%char; flag 63 "X"%char;
    flag 4 "C"%char; flag 3 "T"%char; flag 5 "a"%char; flag 6 "d"%char].

Definition line_calls (x : line) : list console_call :=
  match x with
  | Entry l first e =>
      [CPrint (line_title l e); CPrintU64 (Z.land e PAGING_ADDRESS_MASK) 16; CPrintChar 32] ++
      (CPrintChar <$> attributes e) ++
      [CPrint " [0x"; CPrintU64 first 16; CPrint " .. 0x"; CPrintU64 (first + 2 ^ lsh l - 1) 16; CPrint ("]" +:+ nl)]
  | Pages _ n => [CPrint "         |- ... "; CPrintU64 n 10; CPrint (" pages ..." +:+ nl)]
  end.

(** The lines for a table of level [l] at [t], [first] the first address it serves. *)
Fixpoint table_lines (l : nat) (m : mem) (t first : Z) : list line :=
  match l with
  | O => []
  | S l' =>
      let n := count_pages 512 m t 0 in
      if bool_decide (l = 1%nat) && (20 <=? n) then [Pages first n]
      else concat ((λ i,
        let e := load64 m (t + 8 * i) in
        let a := first + i * 2 ^ lsh l in
        if e =? 0 then []
        else Entry l a e :: if leafb l e then [] else table_lines l' m (Z.land e PAGING_ADDRESS_MASK) a) <$> seqZ 0 512)
  end.

(** The lines for entry [i] of the table. *)
Definition entry_lines (l : nat) (m : mem) (t first i : Z) : list line :=
  let e := load64 m (t + 8 * i) in
  let a := first + i * 2 ^ lsh l in
  if e =? 0 then []
  else Entry l a e :: if leafb l e then [] else table_lines (pred l) m (Z.land e PAGING_ADDRESS_MASK) a.

Lemma table_lines_entries l m t first :
  (1 ≤ l)%nat → ¬ (l = 1%nat ∧ 20 ≤ count_pages 512 m t 0) →
  table_lines l m t first = concat (entry_lines l m t first <$> seqZ 0 512).
Proof.
  intros Hl Hn. destruct l as [|l]; [lia|]. cbn [table_lines].
  destruct (bool_decide_reflect (S l = 1%nat)); [|done].
  destruct (Z.leb_spec 20 (count_pages 512 m t 0)); [tauto|done].
Qed.

Lemma table_lines_pages m t first :
  20 ≤ count_pages 512 m t 0 → table_lines 1 m t first = [Pages first (count_pages 512 m t 0)].
Proof. intros Hn. cbn [table_lines]. by rewrite (proj2 (Z.leb_le _ _) Hn). Qed.

(** ** The calls the report makes *)

Definition log_all (l : list console_call) s : kstate A :=
  KState (k_mem s) (k_alloc s) (used_virtual_pages s) (hugepages_supported s) (rev l ++ k_log s).

(** In memory [m], [p] makes the calls [l] and changes nothing else. *)
Definition reports (m : mem) (l : list console_call) (p : M (kstate A) unit) : Prop :=
  ∀ s, k_mem s = m → p s = Ok (tt, log_all l s).

Lemma reports_ret m : reports m [] (ret tt).
Proof. by intros []. Qed.

Lemma reports_call m c : reports m [c] (modify (add_log c)).
Proof. by intros []. Qed.

Lemma reports_bind m l1 l2 p q : reports m l1 p → reports m l2 q → reports m (l1 ++ l2) (p ;;; q).
Proof.
  intros H1 H2 s Hs. rewrite (bind_ok _ _ _ _ _ (H1 s Hs)), H2 by done.
  unfold log_all. cbn [k_mem k_alloc used_virtual_pages hugepages_supported k_log].
  by rewrite rev_app_distr, app_assoc.
Qed.

Lemma reports_gets {R} (f : kstate A → R) m v l k :
  (∀ s, k_mem s = m → f s = v) → reports m l (k v) → reports m l (let! x := gets f in k x).
Proof. intros Hf Hk s Hs. rewrite bind_gets, Hf by done. by apply Hk. Qed.

Lemma reports_if m (b : bool) l1 l2 p q :
  reports m l1 p → reports m l2 q → reports m (if b then l1 else l2) (if b then p else q).
Proof. by destruct b. Qed.

Lemma reports_for_loop m (f : Z → list console_call) body n : ∀ i,
  (∀ j, i ≤ j < i + Z.of_nat n → reports m (f j) (body j)) →
  reports m (concat (f <$> seqZ i (Z.of_nat n))) (for_loop n i body).
Proof.
  induction n as [|n IH]; intros i H; [apply reports_ret|].
  rewrite seqZ_cons by lia. cbn [fmap list_fmap concat for_loop].
  apply reports_bind; [apply H; lia|].
  replace (Z.pred (Z.of_nat (S n))) with (Z.of_nat n) by lia. apply IH. intros j Hj. apply H. lia.
Qed.

Lemma reports_eq m l l' p : reports m l p → l = l' → reports m l' p.
Proof. by intros ? <-. Qed.

Lemma reports_flag m e b (c : ascii) : 0 ≤ b →
  reports m (CPrintChar <$> (if Z.testbit e b then [Z.of_nat (nat_of_ascii c)] else []))
    (if truthy (Z.land e (2 ^ b)) then print_char (Z.of_nat (nat_of_ascii c)) else ret tt).
Proof.
  intros Hb. rewrite land_bit by done. destruct (Z.testbit e b); [apply reports_call|apply reports_ret].
Qed.

Lemma reports_attributes m e : reports m (CPrintChar <$> attributes e) (paging_debug_attributes e).
Proof.
  unfold attributes, paging_debug_attributes. cbn [concat]. rewrite !fmap_app.
  repeat first [apply reports_bind | apply (reports_flag m e); lia].
  rewrite fmap_nil, app_nil_r. apply (reports_flag m e); lia.
Qed.

Lemma reports_line m l first e last :
  last = first + 2 ^ lsh l - 1 → reports m (line_calls (Entry l first e)) (debug_line (line_title l e) e first last).
Proof.
  intros ->. unfold debug_line, line_calls. cbn [app].
  repeat first [apply reports_call
    | apply (reports_bind m (CPrintChar <$> attributes e)); [apply reports_attributes|]
    | apply (reports_bind m [_]); [apply reports_call|]].
Qed.

(** The calls of the lines of a loop over 512 entries. *)
Lemma calls_concat (f : Z → list line) l :
  concat (line_calls <$> concat (f <$> l)) = concat ((λ i, concat (line_calls <$> f i)) <$> l).
Proof.
  induction l as [|i l IH]; [done|]. cbn [fmap list_fmap concat]. by rewrite fmap_app, concat_app, <- IH.
Qed.

(** The tables below [t] serve addresses of 48 bits. *)
Definition serves (l : nat) (first : Z) : Prop := 0 ≤ first ∧ first + 512 * 2 ^ lsh l ≤ 2 ^ 48.

Lemma serves_entry l first i :
  serves l first → 0 ≤ i < 512 → 0 ≤ first + i * 2 ^ lsh l ∧ first + (i + 1) * 2 ^ lsh l ≤ 2 ^ 48.
Proof. unfold serves. pose proof (pow_lsh_pos l). nia. Qed.

Lemma serves_below l first i : serves (S l) first → 0 ≤ i < 512 → serves l (first + i * 2 ^ lsh (S l)).
Proof. intros H Hi. pose proof (serves_entry _ _ _ H Hi). unfold serves. rewrite lsh_S in *. lia. Qed.

(** The addresses of an entry, as the code computes them. *)
Lemma entry_range l first i a last :
  serves l first → 0 ≤ i < 512 → a = first + i * 2 ^ lsh l → last = first + (i + 1) * 2 ^ lsh l - 1 →
  u64 a = first + i * 2 ^ lsh l ∧ u64 last = first + i * 2 ^ lsh l + 2 ^ lsh l - 1.
Proof. intros H Hi -> ->. pose proof (serves_entry _ _ _ H Hi). pose proof (pow_lsh_pos l). split; rewrite u64_small; lia. Qed.

Lemma reports_entry m l t first i a last title size (k : Z → Z → M (kstate A) unit) :
  (∀ e, size e = leafb l e) → (∀ e, title e = line_title l e) →
  serves l first → 0 ≤ i < 512 → a = first + i * 2 ^ lsh l → last = first + (i + 1) * 2 ^ lsh l - 1 →
  (∀ t', reports m (concat (line_calls <$> table_lines (pred l) m t' (first + i * 2 ^ lsh l)))
    (k t' (first + i * 2 ^ lsh l))) →
  reports m (concat (line_calls <$> entry_lines l m t first i))
    (let! e := load_entry t i in
     if e =? 0 then ret tt
     else debug_line (title e) e (u64 a) (u64 last) ;;;
       if (size e : bool) then ret tt else k (Z.land e PAGING_ADDRESS_MASK) (u64 a)).
Proof.
  intros Hsize Ht Hs Hi Ha Hlast Hk. destruct (entry_range l first i a last Hs Hi Ha Hlast) as [-> ->].
  eapply reports_gets; [intros s Hm; rewrite Hm; reflexivity|]. unfold entry_lines.
  destruct (_ =? 0); [apply reports_ret|]. rewrite fmap_cons. cbn [concat].
  rewrite Ht, Hsize. apply reports_bind; [by apply reports_line|]. destruct (leafb l _); [apply reports_ret|apply Hk].
Qed.

Lemma reports_page m t first i :
  serves 1 first → 0 ≤ i < 512 →
  reports m (concat (line_calls <$> entry_lines 1 m t first i)) (debug_page t first i).
Proof.
  intros Hs Hi. unfold debug_page. eapply reports_gets; [intros s Hm; rewrite Hm; reflexivity|].
  unfold entry_lines. destruct (_ =? 0); [apply reports_ret|]. cbn [fmap list_fmap concat leafb]. rewrite app_nil_r.
  destruct (entry_range 1 first i (first + i * 4096) (first + (i + 1) * 4096 - 1) Hs Hi eq_refl eq_refl) as [-> ->].
  by apply (reports_line m 1).
Qed.

Lemma reports_table m l t first body :
  (1 ≤ l)%nat → ¬ (l = 1%nat ∧ 20 ≤ count_pages 512 m t 0) →
  (∀ i, 0 ≤ i < 512 → reports m (concat (line_calls <$> entry_lines l m t first i)) (body i)) →
  reports m (concat (line_calls <$> table_lines l m t first)) (for_loop 512 0 body).
Proof.
  intros Hl Hn Hb. rewrite table_lines_entries, calls_concat by done.
  apply (reports_for_loop m _ _ 512 0). intros i Hi. apply Hb. lia.
Qed.

Lemma reports_level1 m t first : serves 1 first →
  reports m (concat (line_calls <$> table_lines 1 m t first)) (debug_level1 t first).
Proof.
  intros Hs. eapply reports_gets; [intros s Hm; rewrite Hm; reflexivity|].
  destruct (Z.leb_spec 20 (count_pages 512 m t 0)) as [Hn|Hn].
  - rewrite table_lines_pages by done. cbn [fmap list_fmap concat line_calls app].
    apply (reports_bind m [_]); [apply reports_call|]. apply (reports_bind m [_] [_]); apply reports_call.
  - apply reports_table; [lia|lia|]. intros i Hi. by apply reports_page.
Qed.

(** The size bit and the titles chosen by it. *)
Lemma size_2 e : truthy (Z.land e PAGING_ENTRY_FLAG_SIZE) = leafb 2 e.
Proof. exact (land_bit e 7 ltac:(lia)). Qed.

Lemma size_3 e : truthy (Z.land e PAGING_ENTRY_FLAG_SIZE) = leafb 3 e.
Proof. exact (land_bit e 7 ltac:(lia)). Qed.

Lemma reports_level2 m t first i : serves 2 first → 0 ≤ i < 512 →
  reports m (concat (line_calls <$> entry_lines 2 m t first i)) (debug_level2 t first i).
Proof.
  intros Hs Hi. apply (reports_entry m 2 t first i (first + i * 512 * 4096)
    (first + (i + 1) * 512 * 4096 - 1)
    (λ e, if truthy (Z.land e PAGING_ENTRY_FLAG_SIZE) then "      |- hugepage2mb 0x" else "      |- level1 0x")
    (λ e, truthy (Z.land e PAGING_ENTRY_FLAG_SIZE)) debug_level1 size_2);
    [intros e; by rewrite size_2|done|done|change (2 ^ lsh 2) with (512 * 4096); lia..|].
  intros t'. apply reports_level1. by apply (serves_below 1).
Qed.

Lemma reports_level3 m t first i : serves 3 first → 0 ≤ i < 512 →
  reports m (concat (line_calls <$> entry_lines 3 m t first i)) (debug_level3 t first i).
Proof.
  intros Hs Hi. apply (reports_entry m 3 t first i (first + i * 512 * 512 * 4096)
    (first + ((i + 1) * 512 * 512 * 4096 - 1))
    (λ e, if truthy (Z.land e PAGING_ENTRY_FLAG_SIZE) then "   |- hugepage1gb 0x" else "   |- level2 0x")
    (λ e, truthy (Z.land e PAGING_ENTRY_FLAG_SIZE)) (λ t a, for_loop 512 0 (debug_level2 t a)) size_3);
    [intros e; by rewrite size_3|done|done|change (2 ^ lsh 3) with (512 * 512 * 4096); lia..|].
  intros t'. apply reports_table; [lia|lia|]. intros j Hj. apply reports_level2; [by apply (serves_below 2)|done].
Qed.

Lemma reports_level4 m t i : 0 ≤ i < 512 →
  reports m (concat (line_calls <$> entry_lines 4 m t 0 i)) (debug_level4 t i).
Proof.
  assert (serves 4 0) as Hs by (unfold serves, lsh; lia).
  intros Hi. apply (reports_entry m 4 t 0 i (i * 512 * 512 * 512 * 4096)
    ((i + 1) * 512 * 512 * 512 * 4096 - 1) (λ e, "|- level3 0x") (λ e, false)
    (λ t a, for_loop 512 0 (debug_level3 t a)));
    [done|done|done|done|change (2 ^ lsh 4) with (512 * 512 * 512 * 4096); lia..|].
  intros t'. apply reports_table; [lia|lia|]. intros j Hj. apply reports_level3; [by apply (serves_below 3)|done].
Qed.

Lemma reports_paging_debug m c :
  reports m ([CPrint "level4 0x"; CPrintU64 (level4_table c) 16; CPrint (" [0x000000000000 .. 0xffffffffffff]" +:+ nl)]
      ++ concat (line_calls <$> table_lines 4 m (level4_table c) 0)) (paging_debug c).
Proof.
  unfold paging_debug. cbn [app].
  do 3 (apply (reports_bind m [_]); [apply reports_call|]).
  apply reports_table; [lia|lia|]. intros i. apply reports_level4.
Qed.
End Debug.

(** ** The lines and the translation *)

Section Lines.
Implicit Types (m : mem).

Lemma elem_of_entries (f : Z → list line) x : x ∈ concat (f <$> seqZ 0 512) ↔ ∃ i, 0 ≤ i < 512 ∧ x ∈ f i.
Proof.
  rewrite list_elem_of_In, in_concat. setoid_rewrite <- list_elem_of_In. split.
  - intros (l & (i & -> & Hi)%list_elem_of_fmap & Hx). apply elem_of_seqZ in Hi. exists i. split; [lia|done].
  - intros (i & Hi & Hx). exists (f i). split; [|done]. apply list_elem_of_fmap. exists i. split; [done|].
    apply elem_of_seqZ. lia.
Qed.

(** [first] is the first address of a table of level [l]. *)
Definition table_first (l : nat) (first : Z) : Prop := serves l first ∧ first mod 2 ^ lsh (S l) = 0.

Lemma table_first_below l first i :
  table_first (S l) first → 0 ≤ i < 512 → table_first l (first + i * 2 ^ lsh (S l)).
Proof.
  intros [Hs Hm] Hi. split; [by apply serves_below|]. rewrite Z.add_mod, Z.mod_mul, Z.add_0_r, Z.mod_mod by
    (pose proof (pow_lsh_pos (S l)); lia).
  rewrite (lsh_S (S l)) in Hm. pose proof (pow_lsh_pos (S l)).
  rewrite Z.rem_mul_r in Hm by lia. pose proof (Z.mod_pos_bound first (2 ^ lsh (S l))).
  pose proof (Z.mod_pos_bound (first / 2 ^ lsh (S l)) 512). nia.
Qed.

(** The entry of a table that serves an address. *)
Lemma table_first_idx l first i va :
  table_first l first → 0 ≤ i < 512 →
  first + i * 2 ^ lsh l ≤ va < first + (i + 1) * 2 ^ lsh l → idx l va = i.
Proof.
  intros [Hs Hm] Hi Hva. pose proof (serves_entry _ _ _ Hs Hi). pose proof (pow_lsh_pos l).
  unfold idx. rewrite vpn_small by lia. rewrite lsh_S in Hm.
  apply Z.mod_divide in Hm as [k ->]; [|lia].
  replace (va / 2 ^ lsh l) with (i + k * 512); [rewrite Z.mod_add by lia; apply Z.mod_small; lia|].
  apply (Z.div_unique _ _ _ (va - (k * (2 ^ lsh l * 512) + i * 2 ^ lsh l))); lia.
Qed.

Lemma table_first_entry l first va :
  table_first l first → first ≤ va < first + 2 ^ lsh (S l) →
  first + idx l va * 2 ^ lsh l ≤ va < first + (idx l va + 1) * 2 ^ lsh l.
Proof.
  intros Hf Hva. pose proof (pow_lsh_pos l) as Hp. rewrite lsh_S in Hva.
  pose proof (Z.div_mod (va - first) (2 ^ lsh l)). pose proof (Z.mod_pos_bound (va - first) (2 ^ lsh l) Hp).
  rewrite (table_first_idx l first ((va - first) / 2 ^ lsh l) va Hf); [nia| |nia].
  split; [apply Z.div_pos; lia|apply Z.div_lt_upper_bound; lia].
Qed.

(** ** The count of pages *)

Lemma count_pages_spec n m t : ∀ i, 0 ≤ count_pages n m t i ≤ Z.of_nat n ∧
  (∀ j, i ≤ j < i + count_pages n m t i → load64 m (t + 8 * j) ≠ 0).
Proof.
  induction n as [|n IH]; intros i; cbn [count_pages]; [split; [lia|intros; lia]|].
  destruct (Z.eqb_spec (load64 m (t + 8 * i)) 0) as [He|He]; [split; [lia|intros; lia]|].
  destruct (IH (i + 1)) as [Hb Hj]. split; [lia|]. intros j Hr.
  destruct (decide (j = i)) as [->|]; [done|]. apply Hj. lia.
Qed.

(** ** Every line holds *)

(** What a line says of the translation [w]. *)
Definition line_holds (w : Z → option (nat * Z)) (x : line) : Prop :=
  match x with
  | Entry l a e => leafb l e = true → ∀ va, a ≤ va < a + 2 ^ lsh l → w va = Some (l, e)
  | Pages a n => 20 ≤ n ≤ 512 ∧ ∀ va, a ≤ va < a + n * 2 ^ lsh 1 → ∃ e, w va = Some (1%nat, e)
  end.

(** The addresses of a line lie in [lo .. hi - 1]. *)
Definition line_within (lo hi : Z) (x : line) : Prop :=
  match x with
  | Entry l a e => lo ≤ a ∧ a + 2 ^ lsh l ≤ hi
  | Pages a n => lo ≤ a ∧ a + n * 2 ^ lsh 1 ≤ hi
  end.

Lemma line_holds_ext w w' lo hi x :
  (∀ va, lo ≤ va < hi → w' va = w va) → line_within lo hi x → line_holds w x → line_holds w' x.
Proof.
  intros Hw. destruct x as [l a e|a n]; cbn [line_within line_holds].
  - intros Hin H Hl va Hva. rewrite Hw by lia. by apply H.
  - intros Hin [Hn H]. split; [done|]. intros va Hva. rewrite Hw by lia. by apply H.
Qed.

Lemma walk_table_entry l m t first i va :
  table_first (S l) first → 0 ≤ i < 512 →
  first + i * 2 ^ lsh (S l) ≤ va < first + (i + 1) * 2 ^ lsh (S l) →
  walk (S l) m t va =
    let e := load64 m (t + 8 * i) in
    if e =? 0 then None
    else if leafb (S l) e then Some (S l, e) else walk l m (Z.land e PAGING_ADDRESS_MASK) va.
Proof. intros Hf Hi Hva. cbn [walk]. by rewrite (table_first_idx (S l) first i va Hf Hi Hva). Qed.

Lemma table_lines_hold l : ∀ m t first x, table_first l first → x ∈ table_lines l m t first →
  line_within first (first + 2 ^ lsh (S l)) x ∧ line_holds (walk l m t) x.
Proof.
  induction l as [|l IH]; intros m t first x Hf Hx; [by apply not_elem_of_nil in Hx|].
  destruct (decide (S l = 1%nat ∧ 20 ≤ count_pages 512 m t 0)) as [[[= ->] Hn]|Hn].
  - rewrite table_lines_pages in Hx by done. apply list_elem_of_singleton in Hx as ->.
    destruct (count_pages_spec 512 m t 0) as [Hb Hj]. set (n := count_pages 512 m t 0) in *.
    cbn [line_within line_holds]. change (2 ^ lsh 2) with (512 * 4096). change (2 ^ lsh 1) with 4096. split; [lia|]. split; [lia|].
    intros va Hva. set (i := (va - first) / 4096).
    assert (0 ≤ i < n ∧ first + i * 2 ^ lsh 1 ≤ va < first + (i + 1) * 2 ^ lsh 1) as [Hi Hr].
    { subst i. change (2 ^ lsh 1) with 4096. divmod_lia. }
    rewrite (walk_table_entry 0 m t first i va Hf ltac:(lia) Hr). cbn zeta.
    rewrite (proj2 (Z.eqb_neq _ _) (Hj i ltac:(lia))). eexists. reflexivity.
  - rewrite table_lines_entries in Hx by (done || lia).
    apply elem_of_entries in Hx as (i & Hi & Hx). pose proof (table_first_below l first i Hf Hi) as Hbelow.
    pose proof (lsh_S (S l)) as Hl. pose proof (pow_lsh_pos (S l)) as Hp.
    unfold entry_lines in Hx. cbn [pred] in Hx. set (e := load64 m (t + 8 * i)) in *.
    destruct (Z.eqb_spec e 0) as [He|He]; [by apply not_elem_of_nil in Hx|].
    apply elem_of_cons in Hx as [->|Hx].
    + cbn [line_within line_holds]. split; [nia|]. intros Hleaf va Hva.
      rewrite (walk_table_entry l m t first i va Hf Hi ltac:(lia)). fold e. cbn zeta.
      by rewrite (proj2 (Z.eqb_neq e 0) He), Hleaf.
    + destruct (leafb (S l) e) eqn:Hleaf; [by apply not_elem_of_nil in Hx|].
      destruct (IH m _ _ x Hbelow Hx) as [Hin Hh]. split.
      * destruct x; cbn [line_within] in *; nia.
      * eapply line_holds_ext; [|exact Hin|exact Hh]. intros va Hva.
        rewrite (walk_table_entry l m t first i va Hf Hi ltac:(lia)). fold e. cbn zeta.
        by rewrite (proj2 (Z.eqb_neq e 0) He), Hleaf.
Qed.

(** ** Every page is in a line *)

Lemma floor_eq a k va : 0 < k → a mod k = 0 → a ≤ va < a + k → va / k * k = a.
Proof. intros Hk [c ->]%Z.mod_divide Hva; [|lia]. f_equal. symmetry. apply (Z.div_unique _ _ _ (va - c * k)); lia. Qed.

(** Where the pages that contain [va] begin. *)
Lemma table_first_floor l first va :
  table_first l first → first ≤ va < first + 2 ^ lsh (S l) →
  va / 2 ^ lsh (S l) * 2 ^ lsh (S l) = first ∧ va / 2 ^ lsh l * 2 ^ lsh l = first + idx l va * 2 ^ lsh l.
Proof.
  intros Hf Hva. pose proof (table_first_entry l first va Hf Hva) as Hr. destruct Hf as [_ Hm].
  pose proof (pow_lsh_pos l) as Hp. split; (apply floor_eq; [|try done|lia]).
  - rewrite lsh_S. lia.
  - lia.
  - rewrite lsh_S, Z.rem_mul_r in Hm by lia. pose proof (Z.mod_pos_bound first (2 ^ lsh l) Hp).
    pose proof (Z.mod_pos_bound (first / 2 ^ lsh l) 512 ltac:(lia)). rewrite Z.mod_add by lia. nia.
Qed.

Lemma table_lines_complete l : ∀ m t first va l' e, table_first l first → first ≤ va < first + 2 ^ lsh (S l) →
  walk l m t va = Some (l', e) →
  Entry l' (va / 2 ^ lsh l' * 2 ^ lsh l') e ∈ table_lines l m t first ∨
  (l' = 1%nat ∧ ∃ n, Pages (va / 2 ^ lsh 2 * 2 ^ lsh 2) n ∈ table_lines l m t first).
Proof.
  induction l as [|l IH]; intros m t first va l' e Hf Hva Hw; [done|].
  pose proof (table_first_entry (S l) first va Hf Hva) as Hr. pose proof (idx_range (S l) va) as Hi.
  destruct (table_first_floor (S l) first va Hf Hva) as [Hfl1 Hfl2].
  destruct (decide (S l = 1%nat ∧ 20 ≤ count_pages 512 m t 0)) as [[[= ->] Hn]|Hn].
  - rewrite table_lines_pages, Hfl1 by done. right. split; [|exists (count_pages 512 m t 0); by left].
    cbn [walk leafb] in Hw. destruct (_ =? 0); [done|by injection Hw].
  - rewrite (walk_table_entry l m t first _ va Hf Hi Hr) in Hw. cbn zeta in Hw.
    rewrite table_lines_entries by (done || lia).
    assert (∀ x, x ∈ entry_lines (S l) m t first (idx (S l) va) →
      x ∈ concat (entry_lines (S l) m t first <$> seqZ 0 512)) as Hex.
    { intros x Hx. apply elem_of_entries. by exists (idx (S l) va). }
    unfold entry_lines at 1 in Hex. cbn [pred] in Hex.
    destruct (load64 m (t + 8 * idx (S l) va) =? 0); [done|]. destruct (leafb (S l) _).
    + injection Hw as <- <-. left. apply Hex. rewrite Hfl2. left.
    + destruct (IH m _ _ va l' e (table_first_below l first _ Hf Hi) ltac:(lia) Hw) as [Hin|[-> [n Hin]]].
      * left. apply Hex. by right.
      * right. split; [done|]. exists n. apply Hex. by right.
Qed.

Lemma table_first_root : table_first 4 0.
Proof. split; [unfold serves, lsh; lia|done]. Qed.
End Lines.

(** C20. [paging_debug] ends, changes nothing and its report is the translation: a line for a page, of
    whatever size, gives its addresses and its entry, a line that sums up a level 1 table counts the pages
    it begins with, and every mapped page has its own line or lies in a table that is summed up. *)
Theorem paging_debug_reports {A} {PA : PageAllocator A} (c : paging_context) (s : kstate A) :
  ∃ lines, paging_debug c s = Ok (tt, log_all (
      [CPrint "level4 0x"; CPrintU64 (level4_table c) 16; CPrint (" [0x000000000000 .. 0xffffffffffff]" +:+ nl)]
      ++ concat (line_calls <$> lines)) s) ∧
    Forall (line_holds (walk 4 (k_mem s) (level4_table c))) lines ∧
    ∀ va l e, 0 ≤ va < 2 ^ 48 → walk 4 (k_mem s) (level4_table c) va = Some (l, e) →
      Entry l (va / 2 ^ lsh l * 2 ^ lsh l) e ∈ lines ∨
      (l = 1%nat ∧ ∃ n, Pages (va / 2 ^ lsh 2 * 2 ^ lsh 2) n ∈ lines).
Proof.
  exists (table_lines 4 (k_mem s) (level4_table c) 0). split_and!.
  - exact (reports_paging_debug (k_mem s) c s eq_refl).
  - apply list.Forall_forall. intros x Hx. by eapply table_lines_hold; [apply table_first_root|].
  - intros va l e Hva. apply table_lines_complete; [apply table_first_root|exact Hva].
Qed.

(** ** Observations *)

(** Twenty pages at the start of a table and a page at 0x64000: the report has
    a line for the twenty and none for the other. *)
Definition sparse_memory : mem :=
  let table m a e := store64 m a (Z.lor e 3) in
  table (foldl (λ m i, table m (0x4000 + 8 * i) (0x10000 + 0x1000 * i))
    (table (table (table ∅ 0x1000 0x2000) 0x2000 0x3000) 0x3000 0x4000) (seqZ 0 20)) (0x4000 + 8 * 100) 0x90000.

Example page_behind_gap_hidden :
  walk 4 sparse_memory 0x1000 0x64000 = Some (1%nat, 0x90003) ∧
  table_lines 4 sparse_memory 0x1000 0 =
    [Entry 4 0 0x2003; Entry 3 0 0x3003; Entry 2 0 0x4003; Pages 0 20].
Proof. split; vm_compute; reflexivity. Qed.
