(* ===== verification/PagingStep.v ===== *)
(** * The steps of the paging code on a well-formed tree

    What linking a new table, [ensure_table], and the index steps
    [next_level1], [next_level2] and [next_level3] of [Paging] do to the tree
    of [PagingWalk], for any allocator that satisfies [PageAllocatorLaws]. *)

From S2P Require Import Prelude Memory Allocator Paging PagingWalk.

#[local] Opaque memory_zero.

(** ** Linking a zeroed table changes no translation *)

Lemma entry_ok_mono T T' l n e : T ⊆ T' → entry_ok T l n e → entry_ok T' l n e.
Proof.
  intros Hs [?|[?|(?&?&?)]]; [by left|by right; left|].
  right; right. repeat split; try done. by eapply lookup_weaken.
Qed.

Lemma walk_zero_table l m t va :
  (∀ j, 0 ≤ j < 512 → load64 m (t + 8 * j) = 0) → walk l m t va = None.
Proof.
  intros H. destruct l as [|l]; cbn [walk]; [done|]. by rewrite H by apply idx_range.
Qed.

Lemma walk_link T root m used m2 parent l p i t :
  tables_ok T root m used → T !! parent = Some (l, p) → 0 ≤ i < 512 →
  load64 m (parent + 8 * i) = 0 →
  (∀ t' k p' j, T !! t' = Some (k, p') → 0 ≤ j < 512 → (t', j) ≠ (parent, i) →
     load64 m2 (t' + 8 * j) = load64 m (t' + 8 * j)) →
  leafb l (load64 m2 (parent + 8 * i)) = false →
  Z.land (load64 m2 (parent + 8 * i)) PAGING_ADDRESS_MASK = t →
  (∀ j, 0 ≤ j < 512 → load64 m2 (t + 8 * j) = 0) →
  ∀ k t0 va, T !! t0 = Some (k, vpn (S k) va) → walk k m2 t0 va = walk k m t0 va.
Proof.
  intros OK Hp Hi Hz Hother Hleaf Ht Hzero. induction k as [|k IH]; intros t0 va Ht0; [done|].
  cbn [walk]. destruct (decide ((t0, idx (S k) va) = (parent, i))) as [Heq|Hne].
  - pose proof Heq as [= Heq1 Heq2]. rewrite Heq1, Heq2, Hz, Z.eqb_refl.
    destruct (_ =? 0); [done|]. rewrite Heq1, Hp in Ht0. injection Ht0 as -> _.
    rewrite Hleaf, Ht. by apply walk_zero_table.
  - rewrite (Hother _ _ _ _ Ht0 (idx_range _ _) Hne).
    destruct (Z.eqb_spec (load64 m (t0 + 8 * idx (S k) va)) 0) as [|Hnz]; [done|].
    destruct (leafb (S k) _) eqn:Hl; [done|].
    apply IH. destruct (tree_next OK _ _ _ Ht0 Hnz Hl) as [_ H]. exact H.
Qed.

Lemma descend_link T root m used m2 parent l p i :
  tables_ok T root m used → T !! parent = Some (l, p) →
  load64 m (parent + 8 * i) = 0 →
  (∀ t' k p' j, T !! t' = Some (k, p') → 0 ≤ j < 512 → (t', j) ≠ (parent, i) →
     load64 m2 (t' + 8 * j) = load64 m (t' + 8 * j)) →
  ∀ n k t0 va t', T !! t0 = Some (k, vpn (S k) va) → (n < k)%nat →
  descend n k m t0 va = Some t' → descend n k m2 t0 va = Some t'.
Proof.
  intros OK Hp Hz Hother. induction n as [|n IH]; intros k t0 va t' Ht0 Hn Hd;
    cbn [descend] in *; [done|].
  destruct (decide ((t0, idx k va) = (parent, i))) as [[= -> Heq]|Hne].
  - by rewrite Heq, Hz in Hd.
  - rewrite (Hother _ _ _ _ Ht0 (idx_range _ _) Hne).
    destruct (Z.eqb_spec (load64 m (t0 + 8 * idx k va)) 0) as [|Hnz]; [done|].
    cbn [orb] in *. destruct (leafb k _) eqn:Hl; [done|].
    destruct (tree_next OK _ _ _ Ht0 Hnz Hl) as [_ H]. by apply IH; [|lia|].
Qed.

(** Below the new table there is nothing to reach. *)
Lemma descend_link_deep T root m used m2 parent l p i t :
  tables_ok T root m used → T !! parent = Some (l, p) → 0 ≤ i < 512 →
  load64 m (parent + 8 * i) = 0 →
  (∀ t' k p' j, T !! t' = Some (k, p') → 0 ≤ j < 512 → (t', j) ≠ (parent, i) →
     load64 m2 (t' + 8 * j) = load64 m (t' + 8 * j)) →
  Z.land (load64 m2 (parent + 8 * i)) PAGING_ADDRESS_MASK = t →
  (∀ j, 0 ≤ j < 512 → load64 m2 (t + 8 * j) = 0) →
  ∀ n k t0 va, T !! t0 = Some (k, vpn (S k) va) → (n < k)%nat → (k + 2 ≤ n + l)%nat →
  descend n k m2 t0 va = descend n k m t0 va.
Proof.
  intros OK Hp Hi Hz Hother Ht Hzero. induction n as [|n IH]; intros k t0 va Ht0 Hn Hkl; [done|].
  cbn [descend]. destruct (decide ((t0, idx k va) = (parent, i))) as [Heq|Hne].
  - pose proof Heq as [= Heq1 Heq2]. rewrite Heq1, Heq2, Hz, Z.eqb_refl, Ht. cbn [orb].
    destruct (_ || _); [done|]. rewrite Heq1, Hp in Ht0. injection Ht0 as -> _.
    destruct n as [|n]; [lia|]. cbn [descend]. by rewrite Hzero by apply idx_range.
  - rewrite (Hother _ _ _ _ Ht0 (idx_range _ _) Hne).
    destruct (Z.eqb_spec (load64 m (t0 + 8 * idx k va)) 0) as [|Hnz]; [done|].
    cbn [orb]. destruct (leafb k _) eqn:Hl; [done|].
    destruct (tree_next OK _ _ _ Ht0 Hnz Hl) as [_ H]. apply IH; (done || lia).
Qed.

(** ** Well-formed states and what an operation may change *)

Section Steps.
Context {A : Type} {PA : PageAllocator A} {PAL : PageAllocatorLaws A}.
Implicit Types (s : kstate A) (T : tree).

Record state_ok T (root : Z) s : Prop := {
  ok_alloc : pa_inv (k_alloc s);
  ok_zero : pa_used (k_alloc s) 0;
  ok_tables : tables_ok T root (k_mem s) (pa_used (k_alloc s))
}.

(** From [T], [s] to [T'], [s']: tables are only added, on pages that were
    free; at most [n] pages are taken; no byte of a used page outside the tree
    changes; the static variables and the log are as before. *)
Record grows (n : Z) T s T' s' : Prop := {
  g_sub : T ⊆ T';
  g_used : ∀ q, pa_used (k_alloc s) q → pa_used (k_alloc s') q;
  g_avail : pa_avail (k_alloc s) - n ≤ pa_avail (k_alloc s');
  g_frame : ∀ b, pa_used (k_alloc s) (b / 2 ^ 12) → T !! (b / 2 ^ 12 * 2 ^ 12) = None →
    load8 (k_mem s') b = load8 (k_mem s) b;
  g_fresh : ∀ t, pa_used (k_alloc s) (t / 2 ^ 12) → T !! t = None → T' !! t = None;
  g_pages : used_virtual_pages s' = used_virtual_pages s;
  g_huge : hugepages_supported s' = hugepages_supported s;
  g_log : k_log s' = k_log s
}.

(** All translations, and all descents to tables, are kept. *)
Definition walks_kept (root : Z) s s' : Prop :=
  (∀ va, walk 4 (k_mem s') root va = walk 4 (k_mem s) root va) ∧
  (∀ n va t, (n < 4)%nat → descend n 4 (k_mem s) root va = Some t →
     descend n 4 (k_mem s') root va = Some t).

(** Nothing new can be reached at [n] or more levels below the root. *)
Definition deep_kept (n : nat) (root : Z) s s' : Prop :=
  ∀ k va, (n ≤ k < 4)%nat → descend k 4 (k_mem s') root va = descend k 4 (k_mem s) root va.

(** The slots of the root table outside [J] are as before. *)
Definition roots_kept (J : Z → Prop) (root : Z) s s' : Prop :=
  ∀ j, 0 ≤ j < 512 → ¬ J j → load64 (k_mem s') (root + 8 * j) = load64 (k_mem s) (root + 8 * j).

(** The slot of the root table an address goes through. *)
Definition slot_of (va j : Z) : Prop := j = idx 4 va.

Lemma roots_kept_trans J root s1 s2 s3 : roots_kept J root s1 s2 → roots_kept J root s2 s3 → roots_kept J root s1 s3.
Proof. intros H1 H2 j Hj HJ. by rewrite H2, H1. Qed.

Lemma roots_kept_weaken (J J' : Z → Prop) root s s' : (∀ j, J j → J' j) → roots_kept J root s s' → roots_kept J' root s s'.
Proof. intros HJ H j Hj Hn. apply H; auto. Qed.

Lemma grows_refl T s : grows 0 T s T s.
Proof. constructor; try done. lia. Qed.

Lemma grows_weaken n n' T s T' s' : n ≤ n' → grows n T s T' s' → grows n' T s T' s'.
Proof. intros Hn []. constructor; try done. lia. Qed.

Lemma grows_trans n1 n2 T1 s1 T2 s2 T3 s3 :
  grows n1 T1 s1 T2 s2 → grows n2 T2 s2 T3 s3 → grows (n1 + n2) T1 s1 T3 s3.
Proof.
  intros [] []. constructor; try congruence; try lia.
  - by etrans.
  - auto.
  - intros b Hb HT. rewrite g_frame1, g_frame0; auto. apply g_fresh0; [|done].
    by rewrite Z.div_mul by lia.
  - auto.
Qed.

Lemma walks_kept_refl root s : walks_kept root s s.
Proof. done. Qed.

Lemma walks_kept_trans root s1 s2 s3 :
  walks_kept root s1 s2 → walks_kept root s2 s3 → walks_kept root s1 s3.
Proof.
  intros [W1 D1] [W2 D2]. split; [intros; by rewrite W2, W1|]. auto.
Qed.

Lemma alloc_step s :
  pa_inv (k_alloc s) → pa_used (k_alloc s) 0 → 0 < pa_avail (k_alloc s) →
  ∃ p a, allocate_page s = Ok (p * 2 ^ 12, set_alloc a s) ∧
    pa_inv a ∧ pa_avail a = pa_avail (k_alloc s) - 1 ∧ 0 < p < 2 ^ 40 ∧
    ¬ pa_used (k_alloc s) p ∧ pa_used a p ∧ (∀ q, pa_used (k_alloc s) q → pa_used a q).
Proof.
  intros Hinv H0 Hav. destruct (pa_alloc_ok _ Hinv Hav) as (p & a & Ha & ? & ? & ? & Hn & ? & ?).
  exists p, a. unfold allocate_page. rewrite Ha.
  assert (p ≠ 0) by (by intros ->). repeat split; (done || lia).
Qed.

(** The two writes of [new_table] and of the link, on memory. *)
Definition linked (m : mem) (parent i t : Z) : mem :=
  store64 (memory_zero m t 4096) (parent + 8 * i) (table_entry t).

Lemma page_slot_out t t' j :
  t mod 2 ^ 12 = 0 → t' mod 2 ^ 12 = 0 → t ≠ t' → 0 ≤ j < 512 →
  t' + 8 * j + 8 ≤ t ∨ t + 4096 ≤ t' + 8 * j.
Proof. intros. divmod_lia. Qed.

Lemma tree_not_used T root m used t :
  tables_ok T root m used → ¬ used (t / 2 ^ 12) → T !! t = None.
Proof.
  intros OK Hn. destruct (T !! t) as [[l p]|] eqn:E; [|done].
  by destruct (table_shape _ _ _ _ OK _ _ _ E) as (_&_&_&?).
Qed.

Lemma linked_tables_ok T root m used used' parent l p i t :
  tables_ok T root m used → T !! parent = Some (l, p) → (2 ≤ l)%nat → 0 ≤ i < 512 →
  T !! t = None → t mod 2 ^ 12 = 0 → 0 < t < 2 ^ 52 → used' (t / 2 ^ 12) →
  (∀ q, used q → used' q) →
  tables_ok (<[t := (pred l, p * 512 + i)]> T) root (linked m parent i t) used'.
Proof.
  intros OK Hp Hl Hi Ht Hal Hb Hu Hmono.
  destruct (table_shape _ _ _ _ OK _ _ _ Hp) as (Hl4 & Hpa & _ & _).
  assert (T ⊆ <[t:=(pred l, p * 512 + i)]> T) as Hsub by by apply insert_subseteq.
  assert (parent ≠ t) as Hpt by (intros ->; congruence).
  assert (tables_ok (<[t := (pred l, p * 512 + i)]> T) root (memory_zero m t 4096) used') as OK1.
  { constructor.
    - by apply (lookup_weaken T); [apply OK|].
    - intros t' l' p' [[<- [= <- <-]]|[Hne Ht']]%lookup_insert_Some; [split; [lia|done]|].
      destruct (table_shape _ _ _ _ OK _ _ _ Ht') as (?&?&?&?). auto.
    - intros t' l' p' j [[<- [= <- <-]]|[Hne Ht']]%lookup_insert_Some Hj.
      + left. apply load64_memory_zero_in; lia.
      + destruct (table_shape _ _ _ _ OK _ _ _ Ht') as (_&?&_).
        rewrite load64_memory_zero_out by (lia || by apply page_slot_out).
        eapply entry_ok_mono; [done|]. by apply OK. }
  eapply (tables_ok_store OK1); [by rewrite lookup_insert_ne|done|..].
  - rewrite table_entry_add by done. lia.
  - right; right. rewrite table_entry_not_leaf, address_mask_table_entry by (done || lia).
    rewrite lookup_insert_eq. by repeat split.
Qed.

Lemma linked_other T root m used parent l p i t t' k p' j :
  tables_ok T root m used → T !! parent = Some (l, p) → 0 ≤ i < 512 →
  T !! t = None → t mod 2 ^ 12 = 0 →
  T !! t' = Some (k, p') → 0 ≤ j < 512 → (t', j) ≠ (parent, i) →
  load64 (linked m parent i t) (t' + 8 * j) = load64 m (t' + 8 * j).
Proof.
  intros OK Hp Hi Ht Hal Ht' Hj Hne.
  destruct (table_shape _ _ _ _ OK _ _ _ Hp) as (_ & Hpa & _).
  destruct (table_shape _ _ _ _ OK _ _ _ Ht') as (_ & Hta & _).
  assert (t' ≠ t) by (intros ->; congruence).
  unfold linked. rewrite load64_store64_ne.
  - apply load64_memory_zero_out; [lia|by apply page_slot_out].
  - by apply slots_disjoint.
Qed.

Lemma linked_new m parent i t j :
  t mod 2 ^ 12 = 0 → parent mod 2 ^ 12 = 0 → parent ≠ t → 0 ≤ i < 512 → 0 ≤ j < 512 →
  load64 (linked m parent i t) (t + 8 * j) = 0.
Proof.
  intros. unfold linked. rewrite load64_store64_ne.
  - apply load64_memory_zero_in; lia.
  - apply slots_disjoint; congruence.
Qed.

Lemma linked_frame T root m used parent l p i t b :
  tables_ok T root m used → T !! parent = Some (l, p) → 0 ≤ i < 512 →
  ¬ used (t / 2 ^ 12) → t mod 2 ^ 12 = 0 →
  used (b / 2 ^ 12) → T !! (b / 2 ^ 12 * 2 ^ 12) = None →
  load8 (linked m parent i t) b = load8 m b.
Proof.
  intros OK Hp Hi Hnu Hal Hb HT. destruct (table_shape _ _ _ _ OK _ _ _ Hp) as (_ & Hpa & _).
  unfold linked, store64. rewrite load8_store_out.
  - rewrite load8_memory_zero, decide_False; [done| |lia].
    intros Hr. apply Hnu. replace (t / 2 ^ 12) with (b / 2 ^ 12); [done|]. divmod_lia.
  - intros Hr. replace (b / 2 ^ 12 * 2 ^ 12) with parent in HT; [congruence|]. divmod_lia.
Qed.

#[local] Arguments linked : simpl never.

(** Allocating a table and linking it at an empty slot. *)
Definition link_table (parent i : Z) : M (kstate A) Z :=
  let! t := new_table in
  store_entry parent i (table_entry t) ;;;
  ret t.

Lemma link_table_ok T root s parent l p i :
  state_ok T root s → T !! parent = Some (l, p) → (2 ≤ l)%nat → 0 ≤ i < 512 →
  load64 (k_mem s) (parent + 8 * i) = 0 → 0 < pa_avail (k_alloc s) →
  ∃ t s' T', link_table parent i s = Ok (t, s') ∧ state_ok T' root s' ∧ grows 1 T s T' s' ∧
    walks_kept root s s' ∧ T !! t = None ∧ T' = <[t := (pred l, p * 512 + i)]> T ∧
    load64 (k_mem s') (parent + 8 * i) = table_entry t ∧ deep_kept (6 - l) root s s' ∧
    roots_kept (λ j, parent = root ∧ j = i) root s s'.
Proof.
  intros [Hinv H0 OK] Hp Hl Hi Hz Hav.
  destruct (alloc_step s Hinv H0 Hav) as (pg & a & Ha & Hinv' & Hav' & Hpg & Hnu & Hu & Hmono).
  set (t := pg * 2 ^ 12) in *.
  assert (t mod 2 ^ 12 = 0) as Hal by (unfold t; apply Z.mod_mul; lia).
  assert (t / 2 ^ 12 = pg) as Hdiv by (unfold t; apply Z.div_mul; lia).
  assert (0 < t < 2 ^ 52) as Hb by (unfold t; lia).
  assert (T !! t = None) as HTt by (eapply tree_not_used; [done|by rewrite Hdiv]).
  destruct (table_shape _ _ _ _ OK _ _ _ Hp) as (Hl4 & Hpa & _).
  assert (parent ≠ t) as Hpt by (intros ->; congruence).
  assert (load64 (linked (k_mem s) parent i t) (parent + 8 * i) = table_entry t) as Hlink.
  { unfold linked. apply load64_store64_eq. rewrite table_entry_add by done. lia. }
  exists t, (set_mem (λ m, linked m parent i t) (set_alloc a s)), (<[t := (pred l, p * 512 + i)]> T).
  split; [|split; [|split; [|split; [|split; [exact HTt|split; [reflexivity|split; [exact Hlink|split]]]]]]].
  - unfold link_table, new_table, store_entry. rewrite bind_assoc, (bind_ok _ _ _ _ _ Ha).
    mstep. unfold ret, linked, set_mem. cbn [k_mem k_alloc]. do 3 f_equal.
  - constructor; cbn; [exact Hinv'|by apply Hmono|].
    apply (linked_tables_ok T root (k_mem s) (pa_used (k_alloc s)) _ parent l p i t); try assumption.
    by rewrite Hdiv.
  - constructor; cbn; [by apply insert_subseteq|exact Hmono|lia|..]; try reflexivity.
    + intros b Hb1 Hb2.
      apply (linked_frame T root (k_mem s) (pa_used (k_alloc s)) parent l p i t); try assumption.
      by rewrite Hdiv.
    + intros t' Hu' Ht'. apply lookup_insert_None. split; [exact Ht'|]. intros <-.
      rewrite Hdiv in Hu'. exact (Hnu Hu').
  - split; cbn [k_mem set_mem set_alloc].
    + intros va. apply (walk_link T root (k_mem s) _ _ parent l p i t OK Hp Hi Hz).
      * intros t' k p' j. by apply (linked_other T root (k_mem s) _ parent l p i t t' k p' j OK Hp Hi HTt Hal).
      * rewrite Hlink. by apply table_entry_not_leaf; [lia|].
      * rewrite Hlink. apply address_mask_table_entry; [done|lia].
      * intros. by apply linked_new.
      * exact (root_tree OK va).
    + intros n va t' Hn. apply (descend_link T root (k_mem s) _ _ parent l p i OK Hp Hz); [|exact (root_tree OK va)|lia].
      intros t0 k p' j. by apply (linked_other T root (k_mem s) _ parent l p i t t0 k p' j OK Hp Hi HTt Hal).
  - intros n va Hn. cbn [k_mem set_mem set_alloc].
    apply (descend_link_deep T root (k_mem s) _ _ parent l p i t OK Hp Hi Hz);
      [| | |exact (root_tree OK va)|lia|lia].
    + intros t' k p' j. by apply (linked_other T root (k_mem s) _ parent l p i t t' k p' j OK Hp Hi HTt Hal).
    + rewrite Hlink. apply address_mask_table_entry; [done|lia].
    + intros. by apply linked_new.
  - intros j Hj HJ. cbn [k_mem set_mem set_alloc].
    apply (linked_other T root (k_mem s) _ parent l p i t root 4 0 j OK Hp Hi HTt Hal (root_in _ _ _ _ OK) Hj).
    intros E. apply HJ. split; congruence.
Qed.

(** ** [ensure_table] *)

Lemma ensure_table_eq parent i s :
  ensure_table parent i i s =
  let e := load64 (k_mem s) (parent + 8 * i) in
  if Z.land e PAGING_ADDRESS_MASK =? 0 then link_table parent i s
  else Ok (Z.land e PAGING_ADDRESS_MASK, s).
Proof. unfold ensure_table, load_entry, link_table. mstep. by destruct (_ =? 0). Qed.

(** The state after an operation: still well formed, [n] pages at most taken,
    every translation as before, the root table changed at [J] at most. *)
Record advanced (J : Z → Prop) (n : Z) T (root : Z) s T' s' : Prop := {
  adv_ok : state_ok T' root s';
  adv_grows : grows n T s T' s';
  adv_walks : walks_kept root s s';
  adv_roots : roots_kept J root s s'
}.

Lemma advanced_refl J T root s : state_ok T root s → advanced J 0 T root s T s.
Proof. constructor; [done|apply grows_refl|done|done]. Qed.

Lemma advanced_trans n1 n2 J root T1 s1 T2 s2 T3 s3 :
  advanced J n1 T1 root s1 T2 s2 → advanced J n2 T2 root s2 T3 s3 →
  advanced J (n1 + n2) T1 root s1 T3 s3.
Proof.
  intros [] []. constructor; [done|by eapply grows_trans|by eapply walks_kept_trans|by eapply roots_kept_trans].
Qed.

Lemma advanced_weaken J n n' T root s T' s' :
  n ≤ n' → advanced J n T root s T' s' → advanced J n' T root s T' s'.
Proof. intros Hn []. constructor; [done|by eapply grows_weaken|done|done]. Qed.

Lemma ensure_table_ok T root s parent l p i :
  state_ok T root s → T !! parent = Some (l, p) → (2 ≤ l)%nat → 0 ≤ i < 512 →
  leafb l (load64 (k_mem s) (parent + 8 * i)) = false → 0 < pa_avail (k_alloc s) →
  ∃ t s' T', ensure_table parent i i s = Ok (t, s') ∧ advanced (λ j, parent = root ∧ j = i) 1 T root s T' s' ∧
    load64 (k_mem s') (parent + 8 * i) ≠ 0 ∧
    leafb l (load64 (k_mem s') (parent + 8 * i)) = false ∧
    Z.land (load64 (k_mem s') (parent + 8 * i)) PAGING_ADDRESS_MASK = t ∧
    deep_kept (6 - l) root s s'.
Proof.
  intros Hs Hp Hl Hi Hleaf Hav. rewrite ensure_table_eq. cbv zeta.
  pose proof (ok_tables _ _ _ Hs) as OK.
  destruct (Z.eqb_spec (load64 (k_mem s) (parent + 8 * i)) 0) as [Hz|Hnz].
  - rewrite Hz, Z.land_0_l, Z.eqb_refl.
    destruct (link_table_ok T root s parent l p i Hs Hp Hl Hi Hz Hav)
      as (t & s' & T' & Hr & Hs' & Hg & Hw & HTt & HT' & He & Hdeep & Hroots).
    assert (t mod 2 ^ 12 = 0 ∧ 0 < t < 2 ^ 52) as [Hal Hb].
    { destruct (table_shape _ _ _ _ (ok_tables _ _ _ Hs') t (pred l) (p * 512 + i)) as (_&?&?&_); [|done].
      by rewrite HT', lookup_insert_eq. }
    exists t, s', T'. rewrite He. split; [done|]. split; [by constructor|].
    rewrite table_entry_not_leaf, address_mask_table_entry by (done || lia).
    rewrite table_entry_add by done. repeat split; (done || lia).
  - destruct (table_entries _ _ _ _ OK _ _ _ i Hp Hi) as [?|[?|(_&_&HT)]]; [done|congruence|].
    destruct (table_shape _ _ _ _ OK _ _ _ HT) as (_&_&Hb&_).
    rewrite (proj2 (Z.eqb_neq _ 0)) by lia.
    eexists _, s, T. split; [done|]. split; [|done].
    eapply advanced_weaken; [|by apply advanced_refl]. lia.
Qed.

(** No entry above level [l] maps [va] already. *)
Definition no_big_leaf (l : nat) (m : mem) (root va : Z) : Prop :=
  ∀ l' e, walk 4 m root va = Some (l', e) → (l' ≤ l)%nat.

Lemma slot_not_leaf l m root va t :
  (2 ≤ l ≤ 4)%nat → descend (4 - l) 4 m root va = Some t → no_big_leaf (pred l) m root va →
  leafb l (load64 m (t + 8 * idx l va)) = false.
Proof.
  intros Hl Hd Hno. destruct (leafb l _) eqn:Hleaf; [|done].
  assert (walk 4 m root va = Some (l, load64 m (t + 8 * idx l va))) as Hw.
  { rewrite (walk_descend (4 - l) 4 _ _ _ t) by (done || lia).
    replace (4 - (4 - l))%nat with l by lia. destruct l as [|l]; [lia|]. cbn [walk].
    rewrite Hleaf. destruct (Z.eqb_spec (load64 m (t + 8 * idx (S l) va)) 0) as [Hz|]; [|done].
    rewrite Hz in Hleaf. destruct l as [|[|[|[|l]]]]; (done || lia). }
  apply Hno in Hw. lia.
Qed.

Lemma descend_next l m root va t e :
  (2 ≤ l ≤ 4)%nat → descend (4 - l) 4 m root va = Some t →
  e = load64 m (t + 8 * idx l va) → e ≠ 0 → leafb l e = false →
  descend (5 - l) 4 m root va = Some (Z.land e PAGING_ADDRESS_MASK).
Proof.
  intros Hl Hd He Hne Hleaf. replace (5 - l)%nat with (S (4 - l)) by lia.
  apply (descend_S (4 - l) 4 m root va t); replace (4 - (4 - l))%nat with l by lia; (done || lia).
Qed.

Lemma ensure_table_walk T root s parent l va :
  state_ok T root s → (2 ≤ l ≤ 4)%nat → descend (4 - l) 4 (k_mem s) root va = Some parent →
  no_big_leaf (pred l) (k_mem s) root va → 0 < pa_avail (k_alloc s) →
  ∃ t s' T', ensure_table parent (idx l va) (idx l va) s = Ok (t, s') ∧
    advanced (slot_of va) 1 T root s T' s' ∧ descend (5 - l) 4 (k_mem s') root va = Some t ∧
    deep_kept (6 - l) root s s'.
Proof.
  intros Hs Hl Hd Hno Hav. pose proof (ok_tables _ _ _ Hs) as OK.
  pose proof (descend_tree OK (4 - l) 4 root va parent (root_tree OK va) ltac:(lia) Hd) as HT.
  replace (4 - (4 - l))%nat with l in HT by lia.
  destruct (ensure_table_ok T root s parent l _ (idx l va) Hs HT ltac:(lia) (idx_range l va))
    as (t & s' & T' & Hr & Hadv & Hne & Hleaf & Ht & Hdeep); [by eapply slot_not_leaf|done|].
  exists t, s', T'. split; [done|]. split; [|split; [|done]].
  - destruct Hadv as [H1 H2 H3 H4]. constructor; [done|done|done|]. revert H4. apply roots_kept_weaken.
    intros j [-> ->]. rewrite (root_in _ _ _ _ OK) in HT. injection HT as <- _. done.
  - rewrite <- Ht. apply (descend_next l _ root va parent); try done.
    destruct Hadv as [_ _ [_ Hk] _]. apply Hk; [lia|done].
Qed.

(** ** The index steps of the mapping loops *)

(** [c] points at [va] down to the table of level [l]. *)
Record ctx_at (l : nat) (c : paging_context) (root va : Z) (m : mem) : Prop := {
  at_root : level4_table c = root;
  at_4 : level4_index c = idx 4 va;
  at_3 : (l ≤ 3)%nat → descend 1 4 m root va = Some (level3_table c) ∧ level3_index c = idx 3 va;
  at_2 : (l ≤ 2)%nat → descend 2 4 m root va = Some (level2_table c) ∧ level2_index c = idx 2 va;
  at_1 : (l ≤ 1)%nat → descend 3 4 m root va = Some (level1_table c) ∧ level1_index c = idx 1 va
}.

(** The next virtual page: same table, or the first slot of the next table. *)
Lemma idx_next l va va' :
  vpn l va' = vpn l va + 1 →
  (idx l va < 511 ∧ idx l va' = idx l va + 1 ∧ vpn (S l) va' = vpn (S l) va) ∨
  (idx l va = 511 ∧ idx l va' = 0 ∧ vpn (S l) va' = vpn (S l) va + 1).
Proof.
  intros Hv. pose proof (vpn_split l va). pose proof (vpn_split l va').
  pose proof (idx_range l va). pose proof (idx_range l va'). lia.
Qed.

Lemma idx_cong l k va va' : vpn l va = vpn l va' → (l ≤ k)%nat → idx k va = idx k va'.
Proof. intros Hv Hk. unfold idx. f_equal. by apply (vpn_eq_up l). Qed.

Lemma next_level3_ok T root s c va va' msg :
  state_ok T root s → ctx_at 3 c root va (k_mem s) → vpn 3 va' = vpn 3 va + 1 →
  1 ≤ pa_avail (k_alloc s) →
  ∃ c' s' T', next_level3 msg c s = Ok ((true, c'), s') ∧ advanced (slot_of va') 1 T root s T' s' ∧
    ctx_at 3 c' root va' (k_mem s').
Proof.
  intros Hs Hc Hv Hav. destruct (at_3 _ _ _ _ _ Hc) as [Hd3 Hi3]; [done|].
  pose proof (idx_range 3 va). unfold next_level3. cbv zeta. ctx_simpl.
  rewrite Hi3, u16_small by lia.
  destruct (idx_next _ _ _ Hv) as [(Hlt & Hi & Hup)|(Heq & Hi & Hup)].
  - rewrite (proj2 (Z.leb_gt _ _)) by lia. eexists _, s, T. split; [done|].
    split; [eapply advanced_weaken; [|by apply advanced_refl]; lia|].
    constructor; ctx_simpl; [apply Hc|..|lia|lia].
    + rewrite (at_4 _ _ _ _ _ Hc). by apply (idx_cong 4).
    + intros _. split; [|lia]. rewrite <- Hd3. by apply descend_cong; [lia|].
  - rewrite (proj2 (Z.leb_le _ _)) by lia. ctx_simpl.
    pose proof (vpn_bound 4 va' ltac:(lia)) as Hb. change (2 ^ (48 - lsh 4)) with 512 in Hb.
    pose proof (vpn_nonneg 4 va).
    assert (level4_index c = vpn 4 va ∧ idx 4 va' = vpn 4 va + 1) as [Hi4 Hi4'].
    { rewrite (at_4 _ _ _ _ _ Hc). unfold idx. rewrite Hup, !Z.mod_small by lia. done. }
    rewrite Hi4, u16_small, (proj2 (Z.leb_gt _ _)), <- Hi4' by lia.
    ctx_simpl. rewrite (at_root _ _ _ _ _ Hc).
    destruct (ensure_table_walk T root s root 4 va' Hs ltac:(lia) eq_refl)
      as (t & s' & T' & Hr & Hadv & Hd & _); [|lia|].
    { intros l' e Hw. by destruct (walk_leaf_level _ _ _ _ _ _ Hw). }
    rewrite (bind_ok _ _ _ _ _ Hr). eexists _, s', T'. split; [done|]. split; [done|].
    constructor; ctx_simpl; [by apply Hc|done| |lia|lia]. intros _. split; [done|lia].
Qed.

Lemma no_big_leaf_kept l root va s s' :
  walks_kept root s s' → no_big_leaf l (k_mem s) root va → no_big_leaf l (k_mem s') root va.
Proof. intros [Hw _] Hno l' e. rewrite Hw. apply Hno. Qed.

Lemma no_big_leaf_weaken l l' m root va : (l ≤ l')%nat → no_big_leaf l m root va → no_big_leaf l' m root va.
Proof. intros Hl Hno k e Hw. apply Hno in Hw. lia. Qed.

Lemma ctx_at_weaken l l' c root va m : (l ≤ l')%nat → ctx_at l c root va m → ctx_at l' c root va m.
Proof. intros Hl [? ? H3 H2 H1]. constructor; [done|done|..]; intros; [apply H3|apply H2|apply H1]; lia. Qed.

Lemma next_level2_ok T root s c va va' msg :
  state_ok T root s → ctx_at 2 c root va (k_mem s) → vpn 2 va' = vpn 2 va + 1 →
  no_big_leaf 2 (k_mem s) root va' → 2 ≤ pa_avail (k_alloc s) →
  ∃ c' s' T', next_level2 msg c s = Ok ((true, c'), s') ∧ advanced (slot_of va') 2 T root s T' s' ∧
    ctx_at 2 c' root va' (k_mem s').
Proof.
  intros Hs Hc Hv Hno Hav. destruct (at_2 _ _ _ _ _ Hc) as [Hd2 Hi2]; [done|].
  destruct (at_3 _ _ _ _ _ Hc) as [Hd3 Hi3]; [lia|].
  pose proof (idx_range 2 va). unfold next_level2. cbv zeta. ctx_simpl.
  rewrite Hi2, u16_small by lia.
  destruct (idx_next _ _ _ Hv) as [(Hlt & Hi & Hup)|(Heq & Hi & Hup)].
  - rewrite (proj2 (Z.leb_gt _ _)) by lia. eexists _, s, T. split; [done|].
    split; [eapply advanced_weaken; [|by apply advanced_refl]; lia|].
    constructor; ctx_simpl; [apply Hc|..|lia].
    + rewrite (at_4 _ _ _ _ _ Hc). by apply (idx_cong 3); [|lia].
    + intros _. split; [|by rewrite Hi3; apply (idx_cong 3)].
      rewrite <- Hd3. apply descend_cong; [lia|]. by apply (vpn_eq_up 3); [|lia].
    + intros _. split; [|lia]. rewrite <- Hd2. by apply descend_cong; [lia|].
  - rewrite (proj2 (Z.leb_le _ _)) by lia.
    set (c1 := set_level2_index (idx 2 va + 1) c).
    assert (ctx_at 3 c1 root va (k_mem s)) as Hc1.
    { constructor; ctx_simpl; [apply Hc|apply Hc|by intros _|lia|lia]. }
    destruct (next_level3_ok T root s c1 va va' msg Hs Hc1 Hup ltac:(lia))
      as (c2 & s2 & T2 & Hr2 & Hadv2 & Hc2).
    rewrite (bind_ok _ _ _ _ _ Hr2). cbv beta iota. ctx_simpl.
    destruct (at_3 _ _ _ _ _ Hc2) as [Hd3' Hi3']; [done|]. rewrite Hi3'.
    pose proof (adv_grows _ _ _ _ _ _ _ Hadv2) as Hg2. pose proof (g_avail _ _ _ _ _ Hg2).
    destruct (ensure_table_walk T2 root s2 (level3_table c2) 3 va' (adv_ok _ _ _ _ _ _ _ Hadv2))
      as (t & s3 & T3 & Hr3 & Hadv3 & Hd & _); [lia|done| |lia|].
    { eapply no_big_leaf_kept; [by eapply adv_walks|done]. }
    rewrite (bind_ok _ _ _ _ _ Hr3). eexists _, s3, T3. split; [done|].
    split; [by apply (advanced_trans 1 1 _ _ _ _ T2 s2)|].
    constructor; ctx_simpl; [apply Hc2|apply Hc2|..|lia].
    + intros _. split; [|done]. destruct Hadv3 as [_ _ [_ Hk] _]. by apply Hk; [lia|].
    + intros _. split; [done|lia].
Qed.

Lemma next_level1_ok T root s c va va' msg :
  state_ok T root s → ctx_at 1 c root va (k_mem s) → vpn 1 va' = vpn 1 va + 1 →
  no_big_leaf 1 (k_mem s) root va' → 3 ≤ pa_avail (k_alloc s) →
  ∃ c' s' T', next_level1 msg c s = Ok ((true, c'), s') ∧ advanced (slot_of va') 3 T root s T' s' ∧
    ctx_at 1 c' root va' (k_mem s').
Proof.
  intros Hs Hc Hv Hno Hav. destruct (at_1 _ _ _ _ _ Hc) as [Hd1 Hi1]; [done|].
  destruct (at_2 _ _ _ _ _ Hc) as [Hd2 Hi2]; [lia|].
  destruct (at_3 _ _ _ _ _ Hc) as [Hd3 Hi3]; [lia|].
  pose proof (idx_range 1 va). unfold next_level1. cbv zeta. ctx_simpl.
  rewrite Hi1, u16_small by lia.
  destruct (idx_next _ _ _ Hv) as [(Hlt & Hi & Hup)|(Heq & Hi & Hup)].
  - rewrite (proj2 (Z.leb_gt _ _)) by lia. eexists _, s, T. split; [done|].
    split; [eapply advanced_weaken; [|by apply advanced_refl]; lia|].
    constructor; ctx_simpl; [apply Hc|..].
    + rewrite (at_4 _ _ _ _ _ Hc). by apply (idx_cong 2); [|lia].
    + intros _. split; [|by rewrite Hi3; apply (idx_cong 2); [|lia]].
      rewrite <- Hd3. apply descend_cong; [lia|]. by apply (vpn_eq_up 2); [|lia].
    + intros _. split; [|by rewrite Hi2; apply (idx_cong 2)].
      rewrite <- Hd2. apply descend_cong; [lia|]. by apply (vpn_eq_up 2); [|lia].
    + intros _. split; [|lia]. rewrite <- Hd1. by apply descend_cong; [lia|].
  - rewrite (proj2 (Z.leb_le _ _)) by lia.
    set (c1 := set_level1_index (idx 1 va + 1) c).
    assert (ctx_at 2 c1 root va (k_mem s)) as Hc1.
    { constructor; ctx_simpl; [apply Hc|apply Hc|by intros _|by intros _|lia]. }
    destruct (next_level2_ok T root s c1 va va' msg Hs Hc1 Hup)
      as (c2 & s2 & T2 & Hr2 & Hadv2 & Hc2); [by eapply no_big_leaf_weaken; [|done]; lia|lia|].
    rewrite (bind_ok _ _ _ _ _ Hr2). cbv beta iota. ctx_simpl.
    destruct (at_2 _ _ _ _ _ Hc2) as [Hd2' Hi2']; [done|]. rewrite Hi2'.
    destruct (at_3 _ _ _ _ _ Hc2) as [Hd3' Hi3']; [lia|].
    pose proof (adv_grows _ _ _ _ _ _ _ Hadv2) as Hg2. pose proof (g_avail _ _ _ _ _ Hg2).
    destruct (ensure_table_walk T2 root s2 (level2_table c2) 2 va' (adv_ok _ _ _ _ _ _ _ Hadv2))
      as (t & s3 & T3 & Hr3 & Hadv3 & Hd & _); [lia|done| |lia|].
    { eapply no_big_leaf_kept; [by eapply adv_walks|done]. }
    rewrite (bind_ok _ _ _ _ _ Hr3). eexists _, s3, T3. split; [done|].
    split; [by apply (advanced_trans 2 1 _ _ _ _ T2 s2)|].
    destruct Hadv3 as [_ _ [_ Hk] _].
    constructor; ctx_simpl; [apply Hc2|apply Hc2|..].
    + intros _. split; [|done]. by apply Hk; [lia|].
    + intros _. split; [|done]. by apply Hk; [lia|].
    + intros _. split; [done|lia].
Qed.

End Steps.
