(* ===== verification/PagingMap.v ===== *)
(** * Correctness of mapping

    The theorems about the mapping functions of [paging.c]: the page walk
    computes the translation the tables denote, a mapping loop installs exactly
    the requested translations and leaves all others alone, and the callers'
    results. [PagingStep] has the single steps. *)

From S2P Require Import Prelude Memory Allocator Paging PagingWalk PagingStep.

(** ** Leaf entries *)

Lemma leaf_entry_eq a f :
  a mod 2 ^ 12 = 0 → 0 ≤ a < 2 ^ 52 → 0 ≤ f < 2 ^ 12 → leaf_entry (u64 a) f = a + f.
Proof.
  intros Hal Ha Hf. unfold leaf_entry. rewrite u64_small, address_mask_eq by lia.
  rewrite (Z.mod_small a (2 ^ 63)) by lia. rewrite lor_add_low by lia. divmod_lia.
Qed.

Lemma size_entry_eq a f :
  a mod 2 ^ 12 = 0 → 0 ≤ a < 2 ^ 52 → 0 ≤ f < 2 ^ 7 →
  Z.lor (leaf_entry (u64 a) f) PAGING_ENTRY_FLAG_SIZE = a + (f + 128).
Proof.
  intros Hal Ha Hf. unfold leaf_entry. rewrite u64_small, address_mask_eq by lia.
  rewrite (Z.mod_small a (2 ^ 63)) by lia. rewrite <- Z.lor_assoc, (Z.lor_comm f).
  change PAGING_ENTRY_FLAG_SIZE with (1 * 2 ^ 7). rewrite (lor_add_low 1 f 7) by lia.
  rewrite lor_add_low by lia. divmod_lia.
Qed.

Lemma size_entry_leaf l a f :
  (1 ≤ l ≤ 3)%nat → a mod 2 ^ 12 = 0 → 0 ≤ f < 2 ^ 7 → leafb l (a + (f + 128)) = true.
Proof.
  intros Hl Hal Hf.
  assert (Z.testbit (a + (f + 128)) 7 = true) by (apply Z.testbit_true; [lia|divmod_lia]).
  destruct l as [|[|[|[|l]]]]; (done || lia).
Qed.

Lemma leaf_frame a f :
  a mod 2 ^ 12 = 0 → 0 ≤ a < 2 ^ 52 → 0 ≤ f < 2 ^ 12 → Z.land (a + f) PAGE_FRAME_MASK = a.
Proof.
  intros Hal Ha Hf. rewrite frame_mask_eq. assert (a ≤ 2 ^ 52 - 2 ^ 12) by divmod_lia.
  rewrite (Z.mod_small _ (2 ^ 52)) by lia. divmod_lia.
Qed.

(** Present, writable and user: the flags fit below the size bit. *)
Lemma paging_convert_flags_range flags : 0 < paging_convert_flags flags < 2 ^ 7.
Proof.
  unfold paging_convert_flags.
  destruct (truthy (Z.land flags PAGING_FLAG_WRITE)), (truthy (Z.land flags PAGING_FLAG_USER)); (split; reflexivity).
Qed.

(** ** The page walk computes [walk] *)

Lemma land_size e l : (l = 2 ∨ l = 3)%nat → truthy (Z.land e PAGING_ENTRY_FLAG_SIZE) = leafb l e.
Proof. intros Hl. change PAGING_ENTRY_FLAG_SIZE with (2 ^ 7). rewrite land_bit by done. by destruct Hl as [-> | ->]. Qed.

Lemma frame_sum_small e x n : 0 ≤ n ≤ 52 → u64 (Z.land e PAGE_FRAME_MASK + x mod 2 ^ n)
  = Z.land e PAGE_FRAME_MASK + x mod 2 ^ n.
Proof.
  intros Hn. apply u64_small. rewrite frame_mask_eq.
  pose proof (Z.mod_pos_bound e (2 ^ 52)). pose proof (Z.mod_pos_bound x (2 ^ n)).
  assert (0 < 2 ^ n ≤ 2 ^ 52) by (split; [lia|apply Z.pow_le_mono_r; lia]).
  divmod_lia.
Qed.

(** [s'] differs from [s] in the printed messages only. *)
Definition same_but_log {A} (s s' : kstate A) : Prop :=
  k_mem s' = k_mem s ∧ k_alloc s' = k_alloc s ∧ used_virtual_pages s' = used_virtual_pages s ∧
  hugepages_supported s' = hugepages_supported s.

Lemma warn_same {A} level e (s : kstate A) :
  ∃ s', warn_not_present level e s = Ok (tt, s') ∧ same_but_log s s'.
Proof.
  unfold warn_not_present. destruct (truthy _); eexists; (split; [done|by repeat split]).
Qed.

(** One level of the walk: a warning at most, then the next table. *)
Ltac walk_level :=
  match goal with
  | |- context [warn_not_present ?lv ?e ?s] => idtac
  | |- context [bind (warn_not_present ?lv ?e) ?k ?s] =>
      let s' := fresh "s" in let Hw := fresh "Hw" in let Hs := fresh "Hs" in
      destruct (warn_same lv e s) as (s' & Hw & Hs); rewrite (bind_ok _ _ _ _ _ Hw); clear Hw
  end.

Lemma same_but_log_trans {A} (s1 s2 s3 : kstate A) :
  same_but_log s1 s2 → same_but_log s2 s3 → same_but_log s1 s3.
Proof. intros (?&?&?&?) (?&?&?&?). repeat split; congruence. Qed.

Lemma same_but_log_mem {A} (s s' : kstate A) : same_but_log s s' → k_mem s' = k_mem s.
Proof. by intros [? _]. Qed.

Lemma get_physical_address_walk {A} (s : kstate A) c va :
  ∃ s', paging_get_physical_address c va s =
    Ok (leaf_address (walk 4 (k_mem s) (level4_table c) va) va, s') ∧ same_but_log s s'.
Proof.
  unfold paging_get_physical_address, load_entry. mstep. cbn [walk].
  rewrite table_index_39, table_index_30, table_index_21, table_index_12.
  set (e4 := load64 (k_mem s) _).
  destruct (Z.eqb_spec e4 0) as [|_]; [eexists; by split|]. walk_level. mstep.
  rewrite (same_but_log_mem _ _ Hs). cbn [leafb]. set (e3 := load64 (k_mem s) _).
  destruct (Z.eqb_spec e3 0) as [|_]; [eexists; by split|]. walk_level.
  rewrite (land_size e3 3) by auto. fold (leafb 3 e3).
  pose proof (same_but_log_trans _ _ _ Hs Hs0) as H3.
  destruct (leafb 3 e3).
  { eexists. split; [|exact H3]. unfold ret. do 2 f_equal. change 0x3FFFFFFF with (2 ^ 30 - 1).
    rewrite land_ones_mod by lia. by apply frame_sum_small. }
  mstep. rewrite (same_but_log_mem _ _ H3). set (e2 := load64 (k_mem s) _).
  destruct (Z.eqb_spec e2 0) as [|_]; [eexists; by split|]. walk_level.
  rewrite (land_size e2 2) by auto. fold (leafb 2 e2).
  pose proof (same_but_log_trans _ _ _ H3 Hs1) as H2.
  destruct (leafb 2 e2).
  { eexists. split; [|exact H2]. unfold ret. do 2 f_equal. change 0x1FFFFF with (2 ^ 21 - 1).
    rewrite land_ones_mod by lia. by apply frame_sum_small. }
  mstep. rewrite (same_but_log_mem _ _ H2). set (e1 := load64 (k_mem s) _).
  destruct (Z.eqb_spec e1 0) as [|_]; [eexists; by split|]. walk_level.
  eexists. split; [|exact (same_but_log_trans _ _ _ H2 Hs2)].
  unfold ret. do 2 f_equal. change 0xFFF with (2 ^ 12 - 1).
  rewrite land_ones_mod by lia. by apply frame_sum_small.
Qed.

(** ** Installing one leaf *)

Definition ctx_table (l : nat) (c : paging_context) : Z :=
  match l with
  | 1%nat => level1_table c
  | 2%nat => level2_table c
  | 3%nat => level3_table c
  | _ => level4_table c
  end.

Definition ctx_index (l : nat) (c : paging_context) : Z :=
  match l with
  | 1%nat => level1_index c
  | 2%nat => level2_index c
  | 3%nat => level3_index c
  | _ => level4_index c
  end.

Lemma ctx_at_table l c root va m :
  (1 ≤ l ≤ 3)%nat → ctx_at l c root va m →
  descend (4 - l) 4 m root va = Some (ctx_table l c) ∧ ctx_index l c = idx l va.
Proof.
  intros Hl Hc. destruct l as [|[|[|[|l]]]]; [lia|..|lia].
  - by apply (at_1 _ _ _ _ _ Hc).
  - by apply (at_2 _ _ _ _ _ Hc).
  - by apply (at_3 _ _ _ _ _ Hc).
Qed.

(** A context only depends on the tables above its level. *)
Lemma ctx_at_kept l c root va m m' :
  (∀ n t, (n ≤ 4 - l)%nat → (n < 4)%nat → descend n 4 m root va = Some t → descend n 4 m' root va = Some t) →
  ctx_at l c root va m → ctx_at l c root va m'.
Proof.
  intros Hk [? ? H3 H2 H1]. constructor; [done|done|..]; intros Hl.
  - destruct (H3 Hl). split; [apply Hk; (done || lia)|done].
  - destruct (H2 Hl). split; [apply Hk; (done || lia)|done].
  - destruct (H1 Hl). split; [apply Hk; (done || lia)|done].
Qed.

Section Map.
Context {A : Type} {PA : PageAllocator A} {PAL : PageAllocatorLaws A}.
Implicit Types (s : kstate A) (T : tree).

(** [s'] maps the level [l] page of [va] with entry [v], and is otherwise as [s]. *)
Definition maps_one (l : nat) (root va v : Z) s s' : Prop :=
  (∀ va', vpn l va' = vpn l va → walk 4 (k_mem s') root va' = Some (l, v)) ∧
  (∀ va', vpn l va' ≠ vpn l va → walk 4 (k_mem s') root va' = walk 4 (k_mem s) root va').

Lemma store_leaf_ok T root s l c va v :
  state_ok T root s → (1 ≤ l ≤ 3)%nat → ctx_at l c root va (k_mem s) →
  0 < v < 2 ^ 64 → leafb l v = true →
  ∃ s', store_entry (ctx_table l c) (ctx_index l c) v s = Ok (tt, s') ∧
    state_ok T root s' ∧ grows 0 T s T s' ∧ ctx_at l c root va (k_mem s') ∧
    maps_one l root va v s s' ∧ roots_kept (λ _, False) root s s'.
Proof.
  intros Hs Hl Hc Hv Hleaf. pose proof (ok_tables _ _ _ Hs) as OK.
  destruct (ctx_at_table _ _ _ _ _ Hl Hc) as [Hd Hi].
  pose proof (descend_tree OK (4 - l) 4 root va _ (root_tree OK va) ltac:(lia) Hd) as HT.
  replace (4 - (4 - l))%nat with l in HT by lia. replace (5 - (4 - l))%nat with (S l) in HT by lia.
  pose proof (idx_range l va) as Hir. eexists. split; [reflexivity|].
  rewrite Hi. split; [|split; [|split; [|split; [split|]]]]; cbn [k_mem set_mem].
  - constructor; cbn [k_mem k_alloc set_mem]; [apply Hs|apply Hs|].
    apply (tables_ok_store OK _ l (vpn (S l) va)); try done; [lia|]. by right; left.
  - constructor; cbn [k_mem k_alloc set_mem]; try done; [lia|].
    intros b Hb HTb. apply load8_store_out. intros Hr.
    destruct (table_shape _ _ _ _ OK _ _ _ HT) as (_&Hal&_).
    replace (b / 2 ^ 12 * 2 ^ 12) with (ctx_table l c) in HTb; [congruence|]. divmod_lia.
  - revert Hc. apply ctx_at_kept. intros n t Hn Hn4.
    apply (descend_store OK _ l (vpn (S l) va)); (done || lia).
  - intros va' Hva'. rewrite <- (idx_cong l l va' va) by done.
    apply (walk_store_leaf T root _ _ l va' (ctx_table l c) v OK Hl Hv Hleaf).
    rewrite <- Hd. apply descend_cong; [lia|]. by apply (vpn_eq_up l); [|lia].
  - intros va' Hva'. apply (walk_store_other OK _ l (vpn (S l) va)); try done.
    by rewrite <- vpn_split.
  - intros j Hj _. cbn [k_mem set_mem]. pose proof (root_in _ _ _ _ OK) as HR.
    destruct (table_shape _ _ _ _ OK _ _ _ HT) as (_ & Hal & _).
    destruct (table_shape _ _ _ _ OK _ _ _ HR) as (_ & Hal' & _).
    apply load64_store64_ne. apply slots_disjoint; try done. intros E.
    assert (root = ctx_table l c) as E' by congruence. rewrite <- E', HR in HT. injection HT. lia.
Qed.

(** ** The mapping loops *)

(** The address where virtual page [b] of level [l] starts. *)
Definition page_address (l : nat) (b : Z) : Z := b * 2 ^ lsh l.

Lemma vpn_page_address l b :
  (l ≤ 4)%nat → 0 ≤ b < 2 ^ (48 - lsh l) → vpn l (page_address l b) = b.
Proof.
  intros Hl Hb. unfold page_address. pose proof (pow_lsh_pos l).
  assert (2 ^ 48 = 2 ^ (48 - lsh l) * 2 ^ lsh l) as H48.
  { rewrite <- Z.pow_add_r by (unfold lsh; lia). f_equal. lia. }
  rewrite vpn_small by nia. apply Z.div_mul. lia.
Qed.

(** One iteration at level [l]: iteration [i], at virtual page [b] with [Q i b],
    takes at most [k] pages, installs some entry satisfying [P i] and moves on
    to the next page. [J] is
    any property of the state that survives growing. *)
Definition body_ok (l : nat) (k : Z) (root : Z) (J : kstate A → Prop) (Q : Z → Z → Prop)
    (P : Z → Z → Prop) (body : Z → paging_context → M (kstate A) (bool * paging_context)) : Prop :=
  ∀ T s c i va va', state_ok T root s → ctx_at l c root va (k_mem s) → J s → Q i (vpn l va) →
    vpn l va' = vpn l va + 1 → no_big_leaf l (k_mem s) root va' → k ≤ pa_avail (k_alloc s) →
    ∃ c' s' T' v, body i c s = Ok ((true, c'), s') ∧ state_ok T' root s' ∧ J s' ∧
      grows k T s T' s' ∧ ctx_at l c' root va' (k_mem s') ∧ P i v ∧ maps_one l root va v s s' ∧
      roots_kept (slot_of va') root s s'.

Lemma map_loop_ok l k root J Q P body : (1 ≤ l ≤ 3)%nat → 0 ≤ k → body_ok l k root J Q P body →
  ∀ n T s c i va, state_ok T root s → ctx_at l c root va (k_mem s) → J s →
  (∀ j, i ≤ j < i + Z.of_nat n → Q j (vpn l va + (j - i))) →
  vpn l va + Z.of_nat n < 2 ^ (48 - lsh l) →
  (∀ va', vpn l va ≤ vpn l va' ≤ vpn l va + Z.of_nat n → no_big_leaf l (k_mem s) root va') →
  k * Z.of_nat n ≤ pa_avail (k_alloc s) →
  ∃ c' s' T', map_loop body n i c s = Ok ((true, c'), s') ∧ state_ok T' root s' ∧
    grows (k * Z.of_nat n) T s T' s' ∧
    (∃ va', vpn l va' = vpn l va + Z.of_nat n ∧ ctx_at l c' root va' (k_mem s')) ∧
    (∀ va', vpn l va ≤ vpn l va' < vpn l va + Z.of_nat n →
       ∃ v, walk 4 (k_mem s') root va' = Some (l, v) ∧ P (i + (vpn l va' - vpn l va)) v) ∧
    (∀ va', ¬ (vpn l va ≤ vpn l va' < vpn l va + Z.of_nat n) →
       walk 4 (k_mem s') root va' = walk 4 (k_mem s) root va') ∧
    roots_kept (λ j, ∃ va', vpn l va ≤ vpn l va' ≤ vpn l va + Z.of_nat n ∧ slot_of va' j) root s s'.
Proof.
  intros Hl Hk Hbody n. induction n as [|n IH]; intros T s c i va Hs Hc HJ HQ Hb Hno Hav; cbn [map_loop].
  - exists c, s, T. split; [done|]. split; [done|].
    split; [eapply grows_weaken; [|apply grows_refl]; lia|]. split; [exists va; split; [lia|done]|].
    split; [lia|]. by split.
  - pose proof (vpn_nonneg l va).
    set (va1 := page_address l (vpn l va + 1)).
    assert (vpn l va1 = vpn l va + 1) as Hv1 by (apply vpn_page_address; lia).
    destruct (Hbody T s c i va va1 Hs Hc HJ) as (c1 & s1 & T1 & v & Hr & Hs1 & HJ1 & Hg1 & Hc1 & HP & [Hin Hout] & Hroots);
      [by replace (vpn l va) with (vpn l va + (i - i)) by lia; apply HQ; lia|done|apply Hno; lia|lia|].
    rewrite (bind_ok _ _ _ _ _ Hr). cbv beta iota. pose proof (g_avail _ _ _ _ _ Hg1).
    destruct (IH T1 s1 c1 (i + 1) va1 Hs1 Hc1 HJ1) as (c2 & s2 & T2 & Hr2 & Hs2 & Hg2 & (vae & Hve & Hce) & Hin2 & Hout2 & Hroots2).
    + intros j Hj. replace (vpn l va1 + (j - (i + 1))) with (vpn l va + (j - i)) by lia. apply HQ. lia.
    + lia.
    + intros va' Hva' l' e. rewrite Hout by lia. apply Hno. lia.
    + lia.
    + exists c2, s2, T2. split; [done|]. split; [done|]. split; [|split; [|split; [|split]]].
      * replace (k * Z.of_nat (S n)) with (k + k * Z.of_nat n) by lia. by eapply grows_trans.
      * exists vae. split; [lia|done].
      * intros va' Hva'. destruct (decide (vpn l va' = vpn l va)) as [Heq|].
        -- exists v. rewrite Hout2, Hin by lia. split; [done|]. by replace (i + (vpn l va' - vpn l va)) with i by lia.
        -- destruct (Hin2 va') as (v' & ? & ?); [lia|]. exists v'. split; [done|].
           by replace (i + (vpn l va' - vpn l va)) with (i + 1 + (vpn l va' - vpn l va1)) by lia.
      * intros va' Hva'. rewrite Hout2, Hout by lia. done.
      * eapply roots_kept_trans; (eapply roots_kept_weaken; [|eassumption]).
        -- intros j Hj. exists va1. split; [lia|done].
        -- intros j (x & Hx & Hj). exists x. split; [lia|done].
Qed.

(** ** The bodies of the loops *)

Definition next_ok (l : nat) (k : Z) (root : Z) (N : Z → Prop)
    (next : paging_context → M (kstate A) (bool * paging_context)) : Prop :=
  ∀ T s c va va', state_ok T root s → ctx_at l c root va (k_mem s) → N (vpn l va) →
    vpn l va' = vpn l va + 1 → no_big_leaf l (k_mem s) root va' → k ≤ pa_avail (k_alloc s) →
    ∃ c' s' T', next c s = Ok ((true, c'), s') ∧ advanced (slot_of va') k T root s T' s' ∧
      ctx_at l c' root va' (k_mem s').

Lemma maps_one_kept l root va v s s1 s2 :
  maps_one l root va v s s1 → walks_kept root s1 s2 → maps_one l root va v s s2.
Proof. intros [Hin Hout] [Hw _]. split; intros va' Hva'; rewrite Hw; auto. Qed.

Lemma store_next_body l k root N Q ent val next :
  (1 ≤ l ≤ 3)%nat → 0 ≤ k → next_ok l k root N next →
  (∀ i b, Q i b → N b ∧ ent i = val i ∧ 0 < val i < 2 ^ 64 ∧ leafb l (val i) = true) →
  body_ok l k root (λ _, True) Q (λ i v, v = val i)
    (λ i c, store_entry (ctx_table l c) (ctx_index l c) (ent i) ;;; next c).
Proof.
  intros Hl Hk Hnext HQ T s c i va va' Hs Hc _ Hq Hv Hno Hav.
  destruct (HQ i _ Hq) as (HN & Hev & Hval & Hleaf). rewrite Hev.
  destruct (store_leaf_ok T root s l c va (val i) Hs Hl Hc Hval Hleaf)
    as (s1 & Hr1 & Hs1 & Hg1 & Hc1 & Hm1 & Hk1).
  destruct (Hnext T s1 c va va' Hs1 Hc1 HN Hv) as (c2 & s2 & T2 & Hr2 & [Hs2 Hg2 Hw2 Hk2] & Hc2).
  { intros l' e. rewrite (proj2 Hm1) by lia. apply Hno. }
  { pose proof (g_avail _ _ _ _ _ Hg1). lia. }
  exists c2, s2, T2, (val i). rewrite (bind_ok _ _ _ _ _ Hr1).
  split; [done|]. split; [done|]. split; [done|].
  split; [by apply (grows_trans 0 k _ _ T s1)|]. split; [done|]. split; [done|].
  split; [by eapply maps_one_kept|]. eapply roots_kept_trans; [|exact Hk2].
  eapply roots_kept_weaken; [|exact Hk1]. done.
Qed.

Lemma next_level1_next_ok root msg : next_ok 1 3 root (λ _, True) (next_level1 msg).
Proof. intros T s c va va' Hs Hc _ Hv Hno Hav. by eapply next_level1_ok. Qed.

Lemma next_level2_next_ok root msg : next_ok 2 2 root (λ _, True) (next_level2 msg).
Proof. intros T s c va va' Hs Hc _ Hv Hno Hav. by eapply next_level2_ok. Qed.

(** Within one level 3 table, the 1GiB step is the ordinary one. *)
Lemma next_level3_1gb_next_ok root msg :
  next_ok 3 1 root (λ b, b mod 512 < 511) (next_level3_1gb msg).
Proof.
  intros T s c va va' Hs Hc Hlt Hv Hno Hav. fold (idx 3 va) in Hlt.
  destruct (next_level3_ok T root s c va va' msg Hs Hc Hv Hav) as (c' & s' & T' & Hr & Hadv & Hc').
  exists c', s', T'. split; [|done]. rewrite <- Hr. unfold next_level3_1gb, next_level3. cbv zeta.
  ctx_simpl. destruct (at_3 _ _ _ _ _ Hc) as [_ Hi]; [done|].
  pose proof (idx_range 3 va). rewrite Hi, u16_small, (proj2 (Z.leb_gt _ _)) by lia. done.
Qed.

(** Entries written by the loops for a physical range starting at [pa]. *)
Definition fits (l : nat) (pa i : Z) : Prop := 0 ≤ pa + i * 2 ^ lsh l < 2 ^ 52.

Lemma map_4kb_body_ok root pa f :
  pa mod 2 ^ 12 = 0 → 0 < f < 2 ^ 7 →
  body_ok 1 3 root (λ _, True) (λ i _, fits 1 pa i) (λ i v, v = pa + i * 2 ^ 12 + f)
    (map_4kb_body pa f).
Proof.
  intros Hal Hf.
  apply (store_next_body 1 3 root (λ _, True) _ _ _ (next_level1 msg_4kb_end)); [lia|lia|apply next_level1_next_ok|].
  intros i b Hi. unfold fits in Hi. change (2 ^ lsh 1) with (2 ^ 12) in Hi.
  split; [done|]. split; [|split; [lia|done]].
  rewrite leaf_entry_eq by divmod_lia. lia.
Qed.

Lemma map_2mb_body_ok root pa f :
  pa mod 2 ^ 21 = 0 → 0 < f < 2 ^ 7 →
  body_ok 2 2 root (λ _, True) (λ i _, fits 2 pa i) (λ i v, v = pa + i * 2 ^ 21 + (f + 128))
    (map_2mb_body pa f).
Proof.
  intros Hal Hf.
  apply (store_next_body 2 2 root (λ _, True) _ _ _ (next_level2 msg_2mb_end)); [lia|lia|apply next_level2_next_ok|].
  intros i b Hi. unfold fits in Hi. change (2 ^ lsh 2) with (2 ^ 21) in Hi.
  assert ((pa + i * 2 ^ 21) mod 2 ^ 12 = 0) by divmod_lia.
  split; [done|]. split; [|split; [lia|by apply size_entry_leaf; lia]].
  replace (pa + 4096 * 512 * i) with (pa + i * 2 ^ 21) by lia. by apply size_entry_eq; lia.
Qed.

Lemma map_1gb_body_ok root pa f :
  pa mod 2 ^ 30 = 0 → 0 < f < 2 ^ 7 →
  body_ok 3 1 root (λ _, True) (λ i b, fits 3 pa i ∧ b mod 512 < 511)
    (λ i v, v = pa + i * 2 ^ 30 + (f + 128)) (map_1gb_body pa f).
Proof.
  intros Hal Hf.
  apply (store_next_body 3 1 root (λ b, b mod 512 < 511) _ _ _ (next_level3_1gb msg_1gb_end));
    [lia|lia|apply next_level3_1gb_next_ok|].
  intros i b [Hi Hb]. unfold fits in Hi. change (2 ^ lsh 3) with (2 ^ 30) in Hi.
  assert ((pa + i * 2 ^ 30) mod 2 ^ 12 = 0) by divmod_lia.
  split; [done|]. split; [|split; [lia|by apply size_entry_leaf; lia]].
  replace (pa + 4096 * 512 * 512 * i) with (pa + i * 2 ^ 30) by lia. by apply size_entry_eq; lia.
Qed.

(** ** Results on address ranges *)

Definition translate (m : mem) (root x : Z) : Z := leaf_address (walk 4 m root x) x.

(** [s'] maps [n] pages of level [l] from [va] to [pa], with flags [g]; all
    other addresses translate as in [s]. *)
Record maps_range (l : nat) (root va pa n g : Z) s s' : Prop := {
  mr_in : ∀ x, va ≤ x < va + n * 2 ^ lsh l →
    walk 4 (k_mem s') root x = Some (l, pa + (vpn l x - vpn l va) * 2 ^ lsh l + g);
  mr_end : ∃ t, descend (4 - l) 4 (k_mem s') root (va + n * 2 ^ lsh l) = Some t;
  mr_out : ∀ x, 0 ≤ x < 2 ^ 48 → ¬ (va ≤ x < va + n * 2 ^ lsh l) →
    walk 4 (k_mem s') root x = walk 4 (k_mem s) root x;
  mr_roots : roots_kept (λ j, ∃ x, va ≤ x ≤ va + n * 2 ^ lsh l ∧ slot_of x j) root s s'
}.

Lemma vpn_range l va n x :
  0 ≤ va → va mod 2 ^ lsh l = 0 → va + n * 2 ^ lsh l < 2 ^ 48 → 0 ≤ x < 2 ^ 48 →
  (va ≤ x < va + n * 2 ^ lsh l ↔ vpn l va ≤ vpn l x < vpn l va + n).
Proof.
  intros Hva Hal Hend Hx. pose proof (pow_lsh_pos l).
  destruct (decide (0 ≤ n)); [|split; intros; nia].
  rewrite !vpn_small by nia.
  pose proof (Z.div_mod va (2 ^ lsh l)). pose proof (Z.div_mod x (2 ^ lsh l)).
  pose proof (Z.mod_pos_bound x (2 ^ lsh l)). nia.
Qed.

Lemma maps_range_translate l root va pa n g s s' :
  (1 ≤ l ≤ 3)%nat → maps_range l root va pa n g s s' → 0 ≤ g < 2 ^ 12 →
  0 ≤ va → va mod 2 ^ lsh l = 0 → va + n * 2 ^ lsh l < 2 ^ 48 →
  0 ≤ pa → pa mod 2 ^ lsh l = 0 → pa + n * 2 ^ lsh l ≤ 2 ^ 52 →
  ∀ x, va ≤ x < va + n * 2 ^ lsh l → translate (k_mem s') root x = pa + (x - va).
Proof.
  intros Hl [Hin _ _ _] Hg Hva Hal Hend Hpa Hpal Hpend x Hx. unfold translate. rewrite (Hin x Hx).
  cbn [leaf_address]. pose proof (pow_lsh_pos l).
  assert (2 ^ lsh l = 2 ^ 12 * 2 ^ (lsh l - 12)) as H12.
  { rewrite <- Z.pow_add_r by (unfold lsh; lia). f_equal. lia. }
  assert (0 < 2 ^ (lsh l - 12)) by (apply Z.pow_pos_nonneg; unfold lsh; lia).
  apply vpn_range in Hx as Hv; [|done|done|done|nia].
  rewrite leaf_frame; [| |nia|done].
  - rewrite !vpn_small by nia.
    pose proof (Z.div_mod va (2 ^ lsh l)). pose proof (Z.div_mod x (2 ^ lsh l)). nia.
  - pose proof (Z.div_mod pa (2 ^ lsh l)) as Hdm. rewrite Hpal in Hdm.
    replace (pa + (vpn l x - vpn l va) * 2 ^ lsh l)
      with ((pa / 2 ^ lsh l + (vpn l x - vpn l va)) * 2 ^ (lsh l - 12) * 2 ^ 12) by nia.
    apply Z.mod_mul. lia.
Qed.

(** A loop of level [l] over a linear range of entries maps a range. *)
Lemma map_loop_range l k root Q body T s c va pa n g :
  (1 ≤ l ≤ 3)%nat → 0 ≤ k →
  body_ok l k root (λ _, True) Q (λ i v, v = pa + i * 2 ^ lsh l + g) body →
  state_ok T root s → ctx_at l c root va (k_mem s) →
  0 ≤ n → 0 ≤ va → va mod 2 ^ lsh l = 0 → va + n * 2 ^ lsh l < 2 ^ 48 →
  (∀ j, 0 ≤ j < n → Q j (vpn l va + j)) →
  (∀ x, va ≤ x ≤ va + n * 2 ^ lsh l → no_big_leaf l (k_mem s) root x) →
  k * n ≤ pa_avail (k_alloc s) →
  ∃ c' s' T', map_loop body (Z.to_nat n) 0 c s = Ok ((true, c'), s') ∧ state_ok T' root s' ∧
    grows (k * n) T s T' s' ∧ maps_range l root va pa n g s s'.
Proof.
  intros Hl Hk Hbody Hs Hc Hn Hva Hal Hend HQ Hno Hav. pose proof (pow_lsh_pos l).
  assert (2 ^ 48 = 2 ^ (48 - lsh l) * 2 ^ lsh l) as H48.
  { rewrite <- Z.pow_add_r by (unfold lsh; lia). f_equal. lia. }
  assert (va = vpn l va * 2 ^ lsh l) as Hvpn.
  { rewrite vpn_small by nia. pose proof (Z.div_mod va (2 ^ lsh l)). nia. }
  destruct (map_loop_ok l k root (λ _, True) Q _ body Hl Hk Hbody (Z.to_nat n) T s c 0 va Hs Hc I)
    as (c' & s' & T' & Hr & Hs' & Hg & (vae & Hve & Hce) & Hin & Hout & Hroots); rewrite ?Z2Nat.id in * by done.
  - intros j Hj. rewrite Z.sub_0_r. apply HQ. lia.
  - nia.
  - intros va' Hva' l' e Hw. set (x := page_address l (vpn l va')).
    assert (vpn l x = vpn l va') as Hx by (apply vpn_page_address; [lia|nia]).
    destruct (decide (l' ≤ l)%nat) as [|Hgt]; [done|].
    apply (Hno x) with (e := e); [unfold x, page_address; nia|].
    apply (walk_cong 4 _ _ va'); [done|]. symmetry. by apply (vpn_eq_up l); [|lia].
  - done.
  - exists c', s', T'. split; [done|]. split; [done|]. split; [done|]. constructor.
    + intros x Hx. destruct (Hin x) as (v & Hw & ->); [apply vpn_range; (done || nia)|].
      by rewrite Hw, Z.add_0_l.
    + exists (ctx_table l c'). destruct (ctx_at_table _ _ _ _ _ Hl Hce) as [Hd _]. rewrite <- Hd.
      apply descend_cong; [lia|]. apply (vpn_eq_up l); [|lia].
      rewrite Hve, !vpn_small by nia. by rewrite Z.div_add by lia.
    + intros x Hx48 Hx. apply Hout. rewrite <- vpn_range; (done || nia).
    + eapply roots_kept_weaken; [|exact Hroots]. intros j (x & Hx & Hj). set (y := page_address l (vpn l x)).
      assert (vpn l y = vpn l x) as Hy by (apply vpn_page_address; [lia|nia]).
      exists y. split; [unfold y, page_address; nia|]. unfold slot_of in *. rewrite Hj. by apply (idx_cong l); [|lia].
Qed.


(** ** Entering the tables at a virtual address *)

(** The level [l] slot of [va] is empty: no leaf, no table behind it. *)
Definition vacant (l : nat) (m : mem) (root va : Z) : Prop :=
  walk 4 m root va = None ∧ (l = 1%nat ∨ descend (5 - l) 4 m root va = None).

Lemma vacant_slot l m root va t :
  (1 ≤ l ≤ 3)%nat → vacant l m root va → descend (4 - l) 4 m root va = Some t →
  load64 m (t + 8 * idx l va) = 0.
Proof.
  intros Hl [Hw Hv] Hd. destruct (Z.eqb_spec (load64 m (t + 8 * idx l va)) 0) as [|Hne]; [done|].
  exfalso. rewrite (walk_descend (4 - l) 4 _ _ _ t) in Hw by (done || lia).
  replace (4 - (4 - l))%nat with l in Hw by lia.
  destruct (leafb l (load64 m (t + 8 * idx l va))) eqn:Hleaf.
  - destruct l as [|l]; [lia|]. cbn [walk] in Hw.
    by rewrite (proj2 (Z.eqb_neq _ 0) Hne), Hleaf in Hw.
  - destruct Hv as [->|Hv]; [done|]. destruct (decide (l = 1%nat)) as [->|]; [done|].
    rewrite (descend_next l m root va t _ ltac:(lia) Hd eq_refl Hne Hleaf) in Hv. done.
Qed.

Lemma vacant_no_big_leaf l k m root va : vacant l m root va → no_big_leaf k m root va.
Proof. intros [Hw _] l' e. by rewrite Hw. Qed.

(** The entry followed by a descent is not a leaf. *)
Lemma descend_not_leaf l m root va t t' :
  (2 ≤ l ≤ 3)%nat → descend (4 - l) 4 m root va = Some t → descend (5 - l) 4 m root va = Some t' →
  truthy (Z.land (load64 m (t + 8 * idx l va)) PAGING_ENTRY_FLAG_SIZE) = false.
Proof.
  intros Hl Hd Hd'. rewrite (land_size _ l) by lia.
  destruct (leafb l _) eqn:Hleaf; [|done].
  assert (l = 2 ∨ l = 3)%nat as [-> | ->] by lia; cbn [descend Nat.sub pred] in Hd, Hd'.
  - destruct (_ || _); [done|]. destruct (_ || _); [done|]. injection Hd as <-.
    by rewrite Hleaf, orb_true_r in Hd'.
  - destruct (_ || _); [done|]. injection Hd as <-. by rewrite Hleaf, orb_true_r in Hd'.
Qed.

Lemma ensure_at T root s parent l va n :
  state_ok T root s → (2 ≤ l ≤ 4)%nat → descend (4 - l) 4 (k_mem s) root va = Some parent →
  no_big_leaf (pred l) (k_mem s) root va → n + 1 ≤ pa_avail (k_alloc s) → 0 ≤ n →
  ∃ t s' T', ensure_table parent (idx l va) (idx l va) s = Ok (t, s') ∧
    advanced (slot_of va) 1 T root s T' s' ∧ descend (5 - l) 4 (k_mem s') root va = Some t ∧
    deep_kept (6 - l) root s s' ∧ n ≤ pa_avail (k_alloc s').
Proof.
  intros Hs Hl Hd Hno Hav Hn.
  destruct (ensure_table_walk T root s parent l va Hs Hl Hd Hno) as (t & s' & T' & Hr & Hadv & Hd' & Hk); [lia|].
  exists t, s', T'. split; [done|]. split; [done|]. split; [done|]. split; [done|].
  pose proof (g_avail _ _ _ _ _ (adv_grows _ _ _ _ _ _ _ Hadv)). lia.
Qed.

Lemma aligned_land va n : 0 ≤ n → va mod 2 ^ n = 0 → truthy (Z.land va (2 ^ n - 1)) = false.
Proof. intros. apply truthy_false. by rewrite land_ones_mod. Qed.

Lemma advanced_descend J n T root s T' s' k va t :
  advanced J n T root s T' s' → (k < 4)%nat → descend k 4 (k_mem s) root va = Some t →
  descend k 4 (k_mem s') root va = Some t.
Proof. intros [_ _ [_ Hk] _]. apply Hk. Qed.

Lemma deep_kept_trans n1 n2 n root s1 s2 s3 :
  (n1 ≤ n)%nat → (n2 ≤ n)%nat → deep_kept n1 root s1 s2 → deep_kept n2 root s2 s3 → deep_kept n root s1 s3.
Proof. intros H1 H2 K1 K2 k va Hk. by rewrite K2, K1 by lia. Qed.

Lemma vacant_advanced l n J T root s T' s' va :
  advanced J n T root s T' s' → deep_kept (5 - l) root s s' ∨ l = 1%nat → (1 ≤ l ≤ 3)%nat →
  vacant l (k_mem s) root va → vacant l (k_mem s') root va.
Proof.
  intros [_ _ [Hw _] _] Hdeep Hl [Hv1 Hv2]. split; [by rewrite Hw|].
  destruct (decide (l = 1%nat)) as [->|]; [by left|]. right.
  destruct Hdeep as [Hdeep| ->]; [|done]. rewrite Hdeep by lia. by destruct Hv2.
Qed.

(** The first two table steps, shared by every page size. *)
Definition index_level4 (c : paging_context) (virtual_address : Z) : M (kstate A) paging_context :=
  let c := set_level4_index (table_index virtual_address 39) c in
  let! t3 := ensure_table (level4_table c) (level4_index c) (level4_index c) in
  ret (set_level3_index (table_index virtual_address 30) (set_level3_table t3 c)).

Definition index_level3 (c : paging_context) (virtual_address : Z) : M (kstate A) paging_context :=
  let! t2 := ensure_table (level3_table c) (level3_index c) (level3_index c) in
  ret (set_level2_index (table_index virtual_address 21) (set_level2_table t2 c)).

Lemma index_level4_ok T root s c va n :
  state_ok T root s → level4_table c = root → n + 1 ≤ pa_avail (k_alloc s) → 0 ≤ n →
  ∃ c' s' T', index_level4 c va s = Ok (c', s') ∧ advanced (slot_of va) 1 T root s T' s' ∧
    ctx_at 3 c' root va (k_mem s') ∧ deep_kept 2 root s s' ∧ n ≤ pa_avail (k_alloc s').
Proof.
  intros Hs Hroot Hav Hn. unfold index_level4. cbv zeta. ctx_simpl.
  rewrite table_index_39, table_index_30, Hroot.
  destruct (ensure_at T root s root 4 va n Hs ltac:(lia) eq_refl) as (t & s' & T' & Hr & Hadv & Hd & Hk & Hav');
    [|done|done|].
  { intros l' e Hw. by destruct (walk_leaf_level _ _ _ _ _ _ Hw). }
  rewrite (bind_ok _ _ _ _ _ Hr). eexists _, s', T'. split; [done|]. split; [done|].
  split; [|done]. constructor; ctx_simpl; [done|done|by intros _|lia|lia].
Qed.

Lemma index_level3_ok T root s c va n :
  state_ok T root s → ctx_at 3 c root va (k_mem s) → no_big_leaf 2 (k_mem s) root va →
  n + 1 ≤ pa_avail (k_alloc s) → 0 ≤ n →
  ∃ c' s' T', index_level3 c va s = Ok (c', s') ∧ advanced (slot_of va) 1 T root s T' s' ∧
    ctx_at 2 c' root va (k_mem s') ∧ deep_kept 3 root s s' ∧ n ≤ pa_avail (k_alloc s').
Proof.
  intros Hs Hc Hno Hav Hn. unfold index_level3. cbv zeta.
  destruct (at_3 _ _ _ _ _ Hc) as [Hd3 Hi3]; [done|]. rewrite table_index_21, Hi3.
  destruct (ensure_at T root s (level3_table c) 3 va n Hs ltac:(lia) Hd3 Hno Hav Hn)
    as (t & s' & T' & Hr & Hadv & Hd & Hk & Hav').
  rewrite (bind_ok _ _ _ _ _ Hr). eexists _, s', T'. split; [done|]. split; [done|].
  split; [|done]. constructor; ctx_simpl; [apply Hc|apply Hc|..|lia].
  - intros _. split; [|done]. by eapply advanced_descend; [|lia|].
  - by intros _.
Qed.


Lemma ensure_table_present parent i j s :
  Z.land (load64 (k_mem s) (parent + 8 * i)) PAGING_ADDRESS_MASK ≠ 0 →
  ensure_table parent i j s = Ok (Z.land (load64 (k_mem s) (parent + 8 * i)) PAGING_ADDRESS_MASK, s).
Proof. intros Hne. unfold ensure_table, load_entry. mstep. by rewrite (proj2 (Z.eqb_neq _ 0) Hne). Qed.

Lemma virtual_address_to_index_eq c va flags s :
  paging_virtual_address_to_index c va flags s =
  (let! c := index_level4 c va in
   if truthy (Z.land flags PAGING_FLAG_1GB) then
     if truthy (Z.land va 0x3FFFFFFF) then
       print_fail ("[paging_virtual_address_to_index] address must be aligned to 0x40000000 (1Gib, 1073741824 bytes) when mapping 1GiB page" +:+ nl)%string c
     else ret (1, set_level1_index 0 (set_level1_table 0 (set_level2_index 0 (set_level2_table 0 c))))
   else
   let! c := index_level3 c va in
   if truthy (Z.land flags PAGING_FLAG_2MB) then
     if truthy (Z.land va 0x1FFFFF) then
       print_fail ("[paging_virtual_address_to_index] address must be aligned to 0x200000 (2MiB, 2097152 bytes) when mapping 2MiB page" +:+ nl)%string c
     else ret (1, set_level1_index 0 (set_level1_table 0 c))
   else
   let! t1 := ensure_table (level2_table c) (level2_index c) (level3_index c) in
   let c := set_level1_index (table_index va 12) (set_level1_table t1 c) in
   if truthy (Z.land va 0xFFF) then
     print_fail ("[paging_virtual_address_to_index] address must be aligned to 0x1000 (4KiB, 4096 bytes) when mapping page" +:+ nl)%string c
   else ret (1, c)) s.
Proof.
  unfold paging_virtual_address_to_index, index_level4. cbv zeta. mstep.
  unfold bind at 1 4. destruct (ensure_table _ _ _ s) as [[t3 s1]| |]; [|done|done].
  rewrite bind_ret. destruct (truthy _); [done|]. unfold index_level3. cbv zeta. mstep.
  unfold bind at 1 3. destruct (ensure_table _ _ _ s1) as [[t2 s2]| |]; [|done|done]. by rewrite bind_ret.
Qed.

Lemma index_1gb_ok T root s c va flags n :
  state_ok T root s → level4_table c = root → truthy (Z.land flags PAGING_FLAG_1GB) = true →
  va mod 2 ^ 30 = 0 → n + 1 ≤ pa_avail (k_alloc s) → 0 ≤ n →
  ∃ c' s' T', paging_virtual_address_to_index c va flags s = Ok ((1, c'), s') ∧
    advanced (slot_of va) 1 T root s T' s' ∧ ctx_at 3 c' root va (k_mem s') ∧ deep_kept 2 root s s' ∧
    n ≤ pa_avail (k_alloc s').
Proof.
  intros Hs Hroot Hf Hal Hav Hn. rewrite virtual_address_to_index_eq.
  destruct (index_level4_ok T root s c va n Hs Hroot Hav Hn) as (c1 & s1 & T1 & Hr & Hadv & Hc & Hk & Hav1).
  rewrite (bind_ok _ _ _ _ _ Hr), Hf. change 0x3FFFFFFF with (2 ^ 30 - 1). rewrite aligned_land by done.
  eexists _, s1, T1. split; [done|]. split; [done|]. split; [|done].
  constructor; ctx_simpl; [apply Hc|apply Hc|apply Hc|lia|lia].
Qed.

Lemma index_2mb_ok T root s c va flags n :
  state_ok T root s → level4_table c = root → truthy (Z.land flags PAGING_FLAG_1GB) = false →
  truthy (Z.land flags PAGING_FLAG_2MB) = true → va mod 2 ^ 21 = 0 →
  no_big_leaf 2 (k_mem s) root va → n + 2 ≤ pa_avail (k_alloc s) → 0 ≤ n →
  ∃ c' s' T', paging_virtual_address_to_index c va flags s = Ok ((1, c'), s') ∧
    advanced (slot_of va) 2 T root s T' s' ∧ ctx_at 2 c' root va (k_mem s') ∧ deep_kept 3 root s s' ∧
    n ≤ pa_avail (k_alloc s').
Proof.
  intros Hs Hroot Hf1 Hf2 Hal Hno Hav Hn. rewrite virtual_address_to_index_eq.
  destruct (index_level4_ok T root s c va (n + 1) Hs Hroot) as (c1 & s1 & T1 & Hr & Hadv & Hc & Hk & Hav1); [lia|lia|].
  rewrite (bind_ok _ _ _ _ _ Hr), Hf1. cbv iota.
  destruct (index_level3_ok T1 root s1 c1 va n (adv_ok _ _ _ _ _ _ _ Hadv) Hc)
    as (c2 & s2 & T2 & Hr2 & Hadv2 & Hc2 & Hk2 & Hav2); [|lia|lia|].
  { eapply no_big_leaf_kept; [by eapply adv_walks|done]. }
  rewrite (bind_ok _ _ _ _ _ Hr2), Hf2. change 0x1FFFFF with (2 ^ 21 - 1). rewrite aligned_land by done.
  eexists _, s2, T2. split; [done|]. split; [by apply (advanced_trans 1 1 _ _ _ _ T1 s1)|].
  split; [constructor; ctx_simpl; [apply Hc2|apply Hc2|apply Hc2|apply Hc2|lia]|].
  split; [by apply (deep_kept_trans 2 3 3 _ _ s1); [lia|lia| |]|done].
Qed.

(** A new level 1 table is linked through [level3_index] (line 611): the step is
    right when the two indices agree or the level 1 table is already there. For
    the other addresses, see [PagingMislink]. *)
Definition level1_linkable (m : mem) (root va : Z) : Prop :=
  idx 2 va = idx 3 va ∨ ∃ t, descend 3 4 m root va = Some t.

Lemma ensure_level1_ok T root s c va n :
  state_ok T root s → ctx_at 2 c root va (k_mem s) → no_big_leaf 1 (k_mem s) root va →
  level1_linkable (k_mem s) root va → n + 1 ≤ pa_avail (k_alloc s) → 0 ≤ n →
  ∃ t s' T', ensure_table (level2_table c) (level2_index c) (level3_index c) s = Ok (t, s') ∧
    advanced (slot_of va) 1 T root s T' s' ∧ descend 3 4 (k_mem s') root va = Some t ∧ n ≤ pa_avail (k_alloc s').
Proof.
  intros Hs Hc Hno Hlink Hav Hn. pose proof (ok_tables _ _ _ Hs) as OK.
  destruct (at_2 _ _ _ _ _ Hc) as [Hd2 Hi2]; [done|]. destruct (at_3 _ _ _ _ _ Hc) as [Hd3 Hi3]; [lia|].
  rewrite Hi2, Hi3. destruct (decide (idx 2 va = idx 3 va)) as [Heq|Hne].
  - destruct (ensure_at T root s (level2_table c) 2 va n Hs ltac:(lia) Hd2 Hno Hav Hn)
      as (t & s' & T' & Hr & Hadv & Hd1 & _ & Hav').
    exists t, s', T'. by rewrite <- Heq.
  - destruct Hlink as [?|[t Ht]]; [done|].
    pose proof (descend_tree OK 3 4 root va t (root_tree OK va) ltac:(lia) Ht) as HT.
    destruct (table_shape _ _ _ _ OK _ _ _ HT) as (_&_&Hb&_).
    assert (Z.land (load64 (k_mem s) (level2_table c + 8 * idx 2 va)) PAGING_ADDRESS_MASK = t) as He.
    { cbn [descend pred] in Hd2, Ht. destruct (_ || _); [done|]. destruct (_ || _); [done|].
      injection Hd2 as <-. destruct (_ || _); [done|]. by injection Ht as <-. }
    exists t, s, T. rewrite ensure_table_present by (rewrite He; lia). rewrite He.
    split; [done|]. split; [|split; [done|lia]].
    eapply advanced_weaken; [|by apply advanced_refl]. lia.
Qed.

Lemma level1_linkable_kept J n T root s T' s' va :
  advanced J n T root s T' s' → level1_linkable (k_mem s) root va → level1_linkable (k_mem s') root va.
Proof.
  intros Hadv [?|[t Ht]]; [by left|]. right. exists t. by eapply advanced_descend; [|lia|].
Qed.

Lemma index_4kb_ok T root s c va flags n :
  state_ok T root s → level4_table c = root → truthy (Z.land flags PAGING_FLAG_1GB) = false →
  truthy (Z.land flags PAGING_FLAG_2MB) = false → va mod 2 ^ 12 = 0 →
  no_big_leaf 1 (k_mem s) root va → level1_linkable (k_mem s) root va →
  n + 3 ≤ pa_avail (k_alloc s) → 0 ≤ n →
  ∃ c' s' T', paging_virtual_address_to_index c va flags s = Ok ((1, c'), s') ∧
    advanced (slot_of va) 3 T root s T' s' ∧ ctx_at 1 c' root va (k_mem s') ∧ n ≤ pa_avail (k_alloc s').
Proof.
  intros Hs Hroot Hf1 Hf2 Hal Hno Hlink Hav Hn. rewrite virtual_address_to_index_eq.
  destruct (index_level4_ok T root s c va (n + 2) Hs Hroot) as (c1 & s1 & T1 & Hr & Hadv & Hc & Hk & Hav1); [lia|lia|].
  rewrite (bind_ok _ _ _ _ _ Hr), Hf1. cbv iota.
  assert (no_big_leaf 1 (k_mem s1) root va) as Hno1 by (eapply no_big_leaf_kept; [by eapply adv_walks|done]).
  destruct (index_level3_ok T1 root s1 c1 va (n + 1) (adv_ok _ _ _ _ _ _ _ Hadv) Hc)
    as (c2 & s2 & T2 & Hr2 & Hadv2 & Hc2 & Hk2 & Hav2); [|lia|lia|].
  { by eapply no_big_leaf_weaken; [|done]; lia. }
  rewrite (bind_ok _ _ _ _ _ Hr2), Hf2. cbv iota.
  destruct (ensure_level1_ok T2 root s2 c2 va n (adv_ok _ _ _ _ _ _ _ Hadv2) Hc2)
    as (t & s3 & T3 & Hr3 & Hadv3 & Hd1 & Hav3); [| |lia|lia|].
  { eapply no_big_leaf_kept; [by eapply adv_walks|done]. }
  { eapply level1_linkable_kept; [done|]. by eapply level1_linkable_kept. }
  rewrite (bind_ok _ _ _ _ _ Hr3). cbv zeta. change 0xFFF with (2 ^ 12 - 1). rewrite aligned_land by done.
  rewrite table_index_12. eexists _, s3, T3. split; [done|].
  split; [apply (advanced_trans 2 1 _ _ _ _ T2 s2); [by apply (advanced_trans 1 1 _ _ _ _ T1 s1)|done]|].
  split; [|done].
  destruct (at_2 _ _ _ _ _ Hc2) as [Hd2 Hi2]; [done|]. destruct (at_3 _ _ _ _ _ Hc2) as [Hd3 Hi3]; [lia|].
  constructor; ctx_simpl; [apply Hc2|apply Hc2|..]; intros _; (split; [|done]).
  - by eapply advanced_descend; [|lia|].
  - by eapply advanced_descend; [|lia|].
  - done.
Qed.

(** ** [paging_map_index_physical] *)

Lemma map_index_physical_4kb T root s c pa va bytes flags n :
  state_ok T root s → ctx_at 1 c root va (k_mem s) →
  truthy (Z.land flags PAGING_FLAG_1GB) = false → truthy (Z.land flags PAGING_FLAG_2MB) = false →
  0 < bytes → n = (bytes - 1) / 2 ^ 12 + 1 →
  0 ≤ va → va mod 2 ^ 12 = 0 → va + n * 2 ^ 12 < 2 ^ 48 →
  0 ≤ pa → pa mod 2 ^ 12 = 0 → pa + n * 2 ^ 12 ≤ 2 ^ 52 →
  walk 4 (k_mem s) root va = None →
  (∀ x, va ≤ x ≤ va + n * 2 ^ 12 → no_big_leaf 1 (k_mem s) root x) →
  3 * n ≤ pa_avail (k_alloc s) →
  ∃ c' s' T', paging_map_index_physical pa c bytes flags s =
      Ok ((1, c'), set_used (u64 (used_virtual_pages s + n)) s') ∧
    state_ok T' root s' ∧ grows (3 * n) T s T' s' ∧
    maps_range 1 root va pa n (paging_convert_flags flags) s s'.
Proof.
  intros Hs Hc Hf1 Hf2 Hb -> Hva Hval Hvend Hpa Hpal Hpend Hvac Hno Hav.
  assert (0 ≤ (bytes - 1) / 2 ^ 12) by (apply Z.div_pos; lia).
  destruct (at_1 _ _ _ _ _ Hc) as [Hd1 Hi1]; [done|]. destruct (at_2 _ _ _ _ _ Hc) as [Hd2 Hi2]; [lia|].
  destruct (at_3 _ _ _ _ _ Hc) as [Hd3 Hi3]; [lia|].
  unfold paging_map_index_physical, load_entry. rewrite (proj2 (Z.leb_gt _ _)) by lia. cbv zeta. mstep.
  rewrite Hi3, Hi2, Hi1, Hf1, Hf2.
  rewrite (descend_not_leaf 3 _ root va _ _ ltac:(lia) Hd3 Hd2). cbn [orb]. mstep.
  rewrite (descend_not_leaf 2 _ root va _ _ ltac:(lia) Hd2 Hd1). cbn [orb]. mstep.
  rewrite (vacant_slot 1 _ root va _ ltac:(lia) (conj Hvac (or_introl eq_refl)) Hd1).
  change 0xFFF with (2 ^ 12 - 1). rewrite aligned_land, shiftr_div by (done || lia). cbn [truthy Z.eqb negb].
  pose proof (paging_convert_flags_range flags) as Hf.
  destruct (map_loop_range 1 3 root _ _ T s c va pa ((bytes - 1) / 2 ^ 12 + 1) (paging_convert_flags flags)
    ltac:(lia) ltac:(lia) (map_4kb_body_ok root pa _ Hpal Hf) Hs Hc)
    as (c' & s' & T' & Hr & Hs' & Hg & Hm); [lia|done|done|done| |done|done|].
  { intros j Hj. unfold fits. change (2 ^ lsh 1) with (2 ^ 12). lia. }
  rewrite (bind_ok _ _ _ _ _ Hr). exists c', s', T'.
  unfold finish_map, add_used_virtual_pages. cbn [fst snd]. mstep.
  by rewrite (g_pages _ _ _ _ _ Hg).
Qed.


Lemma map_index_physical_2mb T root s c pa va bytes flags n :
  state_ok T root s → ctx_at 2 c root va (k_mem s) →
  truthy (Z.land flags PAGING_FLAG_1GB) = false → truthy (Z.land flags PAGING_FLAG_2MB) = true →
  0 < bytes → n = (bytes - 1) / 2 ^ 21 + 1 →
  0 ≤ va → va mod 2 ^ 21 = 0 → va + n * 2 ^ 21 < 2 ^ 48 →
  0 ≤ pa → pa mod 2 ^ 21 = 0 → pa + n * 2 ^ 21 ≤ 2 ^ 52 →
  vacant 2 (k_mem s) root va →
  (∀ x, va ≤ x ≤ va + n * 2 ^ 21 → no_big_leaf 2 (k_mem s) root x) →
  2 * n ≤ pa_avail (k_alloc s) →
  ∃ c' s' T', paging_map_index_physical pa c bytes flags s =
      Ok ((1, c'), set_used (u64 (used_virtual_pages s + n * 512)) s') ∧
    state_ok T' root s' ∧ grows (2 * n) T s T' s' ∧
    maps_range 2 root va pa n (paging_convert_flags flags + 128) s s'.
Proof.
  intros Hs Hc Hf1 Hf2 Hb -> Hva Hval Hvend Hpa Hpal Hpend Hvac Hno Hav.
  assert (0 ≤ (bytes - 1) / 2 ^ 21) by (apply Z.div_pos; lia).
  destruct (at_2 _ _ _ _ _ Hc) as [Hd2 Hi2]; [done|]. destruct (at_3 _ _ _ _ _ Hc) as [Hd3 Hi3]; [lia|].
  unfold paging_map_index_physical, load_entry. rewrite (proj2 (Z.leb_gt _ _)) by lia. cbv zeta. mstep.
  rewrite Hi3, Hi2, Hf1, Hf2.
  rewrite (descend_not_leaf 3 _ root va _ _ ltac:(lia) Hd3 Hd2). cbn [orb]. mstep.
  rewrite orb_true_r, (vacant_slot 2 _ root va _ ltac:(lia) Hvac Hd2).
  change 0x1FFFFF with (2 ^ 21 - 1). rewrite aligned_land, shiftr_div by (done || lia).
  cbn [truthy Z.eqb negb andb].
  pose proof (paging_convert_flags_range flags) as Hf.
  destruct (map_loop_range 2 2 root _ _ T s c va pa ((bytes - 1) / 2 ^ 21 + 1) (paging_convert_flags flags + 128)
    ltac:(lia) ltac:(lia) (map_2mb_body_ok root pa _ Hpal Hf) Hs Hc)
    as (c' & s' & T' & Hr & Hs' & Hg & Hm); [lia|done|done|done| |done|done|].
  { intros j Hj. unfold fits. change (2 ^ lsh 2) with (2 ^ 21). lia. }
  rewrite (bind_ok _ _ _ _ _ Hr). exists c', s', T'.
  unfold finish_map, add_used_virtual_pages. cbn [fst snd]. mstep.
  by rewrite (g_pages _ _ _ _ _ Hg).
Qed.

Lemma map_index_physical_1gb T root s c pa va bytes flags n :
  state_ok T root s → ctx_at 3 c root va (k_mem s) → hugepages_supported s ≠ 0 →
  truthy (Z.land flags PAGING_FLAG_1GB) = true →
  0 < bytes → n = (bytes - 1) / 2 ^ 30 + 1 →
  0 ≤ va → va mod 2 ^ 30 = 0 → va mod 2 ^ 39 + n * 2 ^ 30 < 2 ^ 39 → va + n * 2 ^ 30 < 2 ^ 48 →
  0 ≤ pa → pa mod 2 ^ 30 = 0 → pa + n * 2 ^ 30 ≤ 2 ^ 52 →
  vacant 3 (k_mem s) root va →
  n ≤ pa_avail (k_alloc s) →
  ∃ c' s' T', paging_map_index_physical pa c bytes flags s =
      Ok ((1, c'), set_used (u64 (used_virtual_pages s + n * 512 * 512)) s') ∧
    state_ok T' root s' ∧ grows n T s T' s' ∧
    maps_range 3 root va pa n (paging_convert_flags flags + 128) s s'.
Proof.
  intros Hs Hc Hhuge Hf1 Hb -> Hva Hval Hblock Hvend Hpa Hpal Hpend Hvac Hav.
  assert (0 ≤ (bytes - 1) / 2 ^ 30) by (apply Z.div_pos; lia).
  destruct (at_3 _ _ _ _ _ Hc) as [Hd3 Hi3]; [lia|].
  unfold paging_map_index_physical, load_entry. rewrite (proj2 (Z.leb_gt _ _)) by lia. cbv zeta. mstep.
  rewrite Hi3, Hf1, orb_true_r. mstep. rewrite (proj2 (truthy_spec _) Hhuge).
  rewrite (vacant_slot 3 _ root va _ ltac:(lia) Hvac Hd3).
  change 0x3FFFFFFF with (2 ^ 30 - 1). rewrite aligned_land, shiftr_div by (done || lia).
  cbn [truthy Z.eqb negb andb].
  pose proof (paging_convert_flags_range flags) as Hf.
  destruct (map_loop_range 3 1 root _ _ T s c va pa ((bytes - 1) / 2 ^ 30 + 1) (paging_convert_flags flags + 128)
    ltac:(lia) ltac:(lia) (map_1gb_body_ok root pa _ Hpal Hf) Hs Hc)
    as (c' & s' & T' & Hr & Hs' & Hg & Hm); [lia|done|done|done| | |lia|].
  { intros j Hj. unfold fits. change (2 ^ lsh 3) with (2 ^ 30). split; [lia|].
    rewrite vpn_small by lia. change (2 ^ lsh 3) with (2 ^ 30). divmod_lia. }
  { intros x _ l' e Hw. by destruct (walk_leaf_level _ _ _ _ _ _ Hw). }
  rewrite Z.mul_1_l in Hg.
  rewrite (bind_ok _ _ _ _ _ Hr). exists c', s', T'.
  unfold finish_map, add_used_virtual_pages. cbn [fst snd]. mstep.
  by rewrite (g_pages _ _ _ _ _ Hg).
Qed.

(** ** [paging_map_physical_at] *)

Lemma maps_range_from l root va pa n g s s1 s2 :
  walks_kept root s s1 → roots_kept (slot_of va) root s s1 → 0 ≤ n →
  maps_range l root va pa n g s1 s2 → maps_range l root va pa n g s s2.
Proof.
  intros [Hw _] Hk Hn [Hin Hend Hout Hr]. constructor; [done|done| |].
  - intros x Hx Hx'. by rewrite Hout, Hw.
  - eapply roots_kept_trans; [|exact Hr]. eapply roots_kept_weaken; [|exact Hk].
    intros j Hj. exists va. split; [|done]. pose proof (pow_lsh_pos l). nia.
Qed.

Lemma map_physical_at_4kb T root s c pa va bytes flags n :
  state_ok T root s → level4_table c = root → 0 ≤ flags < 2 ^ 16 →
  truthy (Z.land flags PAGING_FLAG_1GB) = false → truthy (Z.land flags PAGING_FLAG_2MB) = false →
  0 < bytes → n = (bytes - 1) / 2 ^ 12 + 1 →
  0 ≤ va → va mod 2 ^ 12 = 0 → va + n * 2 ^ 12 < 2 ^ 48 →
  0 ≤ pa → pa mod 2 ^ 12 = 0 → pa + n * 2 ^ 12 ≤ 2 ^ 52 →
  level1_linkable (k_mem s) root va → walk 4 (k_mem s) root va = None →
  (∀ x, va ≤ x ≤ va + n * 2 ^ 12 → no_big_leaf 1 (k_mem s) root x) →
  3 * n + 3 ≤ pa_avail (k_alloc s) →
  ∃ s' T', paging_map_physical_at c pa va bytes flags s =
      Ok (va, set_used (u64 (used_virtual_pages s + n)) s') ∧
    state_ok T' root s' ∧ grows (3 * n + 3) T s T' s' ∧
    maps_range 1 root va pa n (paging_convert_flags flags) s s'.
Proof.
  intros Hs Hroot Hflags Hf1 Hf2 Hb Hn Hva Hval Hvend Hpa Hpal Hpend Hlink Hvac Hno Hav.
  assert (0 ≤ (bytes - 1) / 2 ^ 12) by (apply Z.div_pos; lia).
  destruct (index_4kb_ok T root s (new_index (level4_table c)) va flags (3 * n) Hs Hroot Hf1 Hf2 Hval)
    as (c1 & s1 & T1 & Hr1 & Hadv & Hc1 & Hav1); [apply Hno; lia|done|lia|lia|].
  pose proof (adv_walks _ _ _ _ _ _ _ Hadv) as Hw1. pose proof (adv_grows _ _ _ _ _ _ _ Hadv) as Hg1.
  destruct (map_index_physical_4kb T1 root s1 c1 pa va bytes flags n (adv_ok _ _ _ _ _ _ _ Hadv) Hc1 Hf1 Hf2 Hb Hn
    Hva Hval Hvend Hpa Hpal Hpend) as (c2 & s2 & T2 & Hr2 & Hs2 & Hg2 & Hm2).
  { rewrite (proj1 Hw1). done. }
  { intros x Hx. eapply no_big_leaf_kept; [done|]. by apply Hno. }
  { done. }
  exists s2, T2. unfold paging_map_physical_at. rewrite (bind_ok _ _ _ _ _ Hr1). cbn [truthy Z.eqb negb].
  rewrite u16_small by lia. rewrite (bind_ok _ _ _ _ _ Hr2), (g_pages _ _ _ _ _ Hg1).
  split; [done|]. split; [done|]. split; [|eapply maps_range_from; [done|by apply Hadv|lia|done]].
  rewrite Z.add_comm. by eapply grows_trans.
Qed.

Lemma map_physical_at_2mb T root s c pa va bytes flags n :
  state_ok T root s → level4_table c = root → 0 ≤ flags < 2 ^ 16 →
  truthy (Z.land flags PAGING_FLAG_1GB) = false → truthy (Z.land flags PAGING_FLAG_2MB) = true →
  0 < bytes → n = (bytes - 1) / 2 ^ 21 + 1 →
  0 ≤ va → va mod 2 ^ 21 = 0 → va + n * 2 ^ 21 < 2 ^ 48 →
  0 ≤ pa → pa mod 2 ^ 21 = 0 → pa + n * 2 ^ 21 ≤ 2 ^ 52 →
  vacant 2 (k_mem s) root va →
  (∀ x, va ≤ x ≤ va + n * 2 ^ 21 → no_big_leaf 2 (k_mem s) root x) →
  2 * n + 2 ≤ pa_avail (k_alloc s) →
  ∃ s' T', paging_map_physical_at c pa va bytes flags s =
      Ok (va, set_used (u64 (used_virtual_pages s + n * 512)) s') ∧
    state_ok T' root s' ∧ grows (2 * n + 2) T s T' s' ∧
    maps_range 2 root va pa n (paging_convert_flags flags + 128) s s'.
Proof.
  intros Hs Hroot Hflags Hf1 Hf2 Hb Hn Hva Hval Hvend Hpa Hpal Hpend Hvac Hno Hav.
  assert (0 ≤ (bytes - 1) / 2 ^ 21) by (apply Z.div_pos; lia).
  destruct (index_2mb_ok T root s (new_index (level4_table c)) va flags (2 * n) Hs Hroot Hf1 Hf2 Hval)
    as (c1 & s1 & T1 & Hr1 & Hadv & Hc1 & Hk1 & Hav1); [apply Hno; lia|lia|lia|].
  pose proof (adv_walks _ _ _ _ _ _ _ Hadv) as Hw1. pose proof (adv_grows _ _ _ _ _ _ _ Hadv) as Hg1.
  destruct (map_index_physical_2mb T1 root s1 c1 pa va bytes flags n (adv_ok _ _ _ _ _ _ _ Hadv) Hc1 Hf1 Hf2 Hb Hn
    Hva Hval Hvend Hpa Hpal Hpend) as (c2 & s2 & T2 & Hr2 & Hs2 & Hg2 & Hm2).
  { eapply (vacant_advanced 2); [done|by left|lia|done]. }
  { intros x Hx. eapply no_big_leaf_kept; [done|]. by apply Hno. }
  { done. }
  exists s2, T2. unfold paging_map_physical_at. rewrite (bind_ok _ _ _ _ _ Hr1). cbn [truthy Z.eqb negb].
  rewrite u16_small by lia. rewrite (bind_ok _ _ _ _ _ Hr2), (g_pages _ _ _ _ _ Hg1).
  split; [done|]. split; [done|]. split; [|eapply maps_range_from; [done|by apply Hadv|lia|done]].
  rewrite Z.add_comm. by eapply grows_trans.
Qed.

Lemma map_physical_at_1gb T root s c pa va bytes flags n :
  state_ok T root s → level4_table c = root → hugepages_supported s ≠ 0 → 0 ≤ flags < 2 ^ 16 →
  truthy (Z.land flags PAGING_FLAG_1GB) = true →
  0 < bytes → n = (bytes - 1) / 2 ^ 30 + 1 →
  0 ≤ va → va mod 2 ^ 30 = 0 → va mod 2 ^ 39 + n * 2 ^ 30 < 2 ^ 39 → va + n * 2 ^ 30 < 2 ^ 48 →
  0 ≤ pa → pa mod 2 ^ 30 = 0 → pa + n * 2 ^ 30 ≤ 2 ^ 52 →
  vacant 3 (k_mem s) root va →
  n + 1 ≤ pa_avail (k_alloc s) →
  ∃ s' T', paging_map_physical_at c pa va bytes flags s =
      Ok (va, set_used (u64 (used_virtual_pages s + n * 512 * 512)) s') ∧
    state_ok T' root s' ∧ grows (n + 1) T s T' s' ∧
    maps_range 3 root va pa n (paging_convert_flags flags + 128) s s'.
Proof.
  intros Hs Hroot Hhuge Hflags Hf1 Hb Hn Hva Hval Hblock Hvend Hpa Hpal Hpend Hvac Hav.
  assert (0 ≤ (bytes - 1) / 2 ^ 30) by (apply Z.div_pos; lia).
  destruct (index_1gb_ok T root s (new_index (level4_table c)) va flags n Hs Hroot Hf1 Hval)
    as (c1 & s1 & T1 & Hr1 & Hadv & Hc1 & Hk1 & Hav1); [lia|lia|].
  pose proof (adv_walks _ _ _ _ _ _ _ Hadv) as Hw1. pose proof (adv_grows _ _ _ _ _ _ _ Hadv) as Hg1.
  destruct (map_index_physical_1gb T1 root s1 c1 pa va bytes flags n (adv_ok _ _ _ _ _ _ _ Hadv) Hc1)
    as (c2 & s2 & T2 & Hr2 & Hs2 & Hg2 & Hm2); try done.
  { by rewrite (g_huge _ _ _ _ _ Hg1). }
  { eapply (vacant_advanced 3); [done|by left|lia|done]. }
  exists s2, T2. unfold paging_map_physical_at. rewrite (bind_ok _ _ _ _ _ Hr1). cbn [truthy Z.eqb negb].
  rewrite u16_small by lia. rewrite (bind_ok _ _ _ _ _ Hr2), (g_pages _ _ _ _ _ Hg1).
  split; [done|]. split; [done|]. split; [|eapply maps_range_from; [done|by apply Hadv|lia|done]].
  rewrite Z.add_comm. by eapply grows_trans.
Qed.

End Map.
