(* ===== verification/PagingUnmap.v ===== *)
(** * Unmapping on a well-formed tree

    The loops of [paging_unmap] against the translation of [PagingWalk]: a
    cleared leaf translates nothing, every other address translates as before,
    and the index steps succeed while the tables they enter exist. *)

From S2P Require Import Prelude Memory Allocator Paging PagingWalk PagingStep PagingMap.

(** ** The last step of a descent *)

Lemma descend_snoc n : ∀ l m t va t',
  descend (S n) l m t va = Some t' → (n < l)%nat →
  ∃ t0, descend n l m t va = Some t0 ∧
    load64 m (t0 + 8 * idx (l - n) va) ≠ 0 ∧
    Z.land (load64 m (t0 + 8 * idx (l - n) va)) PAGING_ADDRESS_MASK = t'.
Proof.
  induction n as [|n IH]; intros l m t va t' Hd Hn.
  - exists t. rewrite Nat.sub_0_r. cbn [descend] in Hd.
    destruct (Z.eqb_spec (load64 m (t + 8 * idx l va)) 0); [done|]. cbn [orb] in Hd.
    destruct (leafb _ _); [done|]. by injection Hd as <-.
  - rewrite (eq_refl : descend (S (S n)) l m t va =
      let e := load64 m (t + 8 * idx l va) in
      if (e =? 0) || leafb l e then None
      else descend (S n) (pred l) m (Z.land e PAGING_ADDRESS_MASK) va) in Hd. cbn zeta in Hd.
    destruct ((load64 m (t + 8 * idx l va) =? 0) || _) eqn:E; [done|].
    destruct (IH _ _ _ _ _ Hd ltac:(lia)) as (t0 & Ht0 & He).
    exists t0. replace (pred l - n)%nat with (l - S n)%nat in He by lia. split; [|done].
    cbn [descend]. by rewrite E.
Qed.

(** An address that translates at level [l] goes through a level [l] table. *)
Lemma walk_some_descend k : ∀ m t va l e, (1 ≤ l)%nat →
  walk k m t va = Some (l, e) → ∃ t', descend (k - l) k m t va = Some t' ∧ (l ≤ k)%nat ∧
    e = load64 m (t' + 8 * idx l va).
Proof.
  induction k as [|k IH]; intros m t va l e Hl Hw; [done|]. cbn [walk] in Hw.
  destruct (load64 m (t + 8 * idx (S k) va) =? 0) eqn:E; [done|].
  destruct (leafb (S k) _) eqn:Hleaf.
  - injection Hw as <- <-. exists t. rewrite Nat.sub_diag. by split.
  - destruct (IH _ _ _ _ _ Hl Hw) as (t' & Hd & Hlk & He). exists t'. split; [|split; [lia|done]].
    replace (S k - l)%nat with (S (k - l)) by lia. cbn [descend pred]. by rewrite E, Hleaf.
Qed.

Section Unmap.
Context {A : Type} {PA : PageAllocator A} {PAL : PageAllocatorLaws A}.
Implicit Types (s : kstate A) (T : tree).

(** ** Clearing one slot *)

Definition clears_one (l : nat) (root va : Z) s s' : Prop :=
  (∀ va', vpn l va' = vpn l va → walk 4 (k_mem s') root va' = None) ∧
  (∀ va', vpn l va' ≠ vpn l va → walk 4 (k_mem s') root va' = walk 4 (k_mem s) root va').

(** Every table at level [l] or above is reached as before. *)
Definition tables_kept (l : nat) (root : Z) s s' : Prop :=
  ∀ n va t, (l + n ≤ 4)%nat → (n < 4)%nat → descend n 4 (k_mem s) root va = Some t →
    descend n 4 (k_mem s') root va = Some t.

Lemma clear_leaf_ok T root s l c va :
  state_ok T root s → (1 ≤ l ≤ 3)%nat → ctx_at l c root va (k_mem s) →
  ∃ s', store_entry (ctx_table l c) (ctx_index l c) 0 s = Ok (tt, s') ∧
    state_ok T root s' ∧ grows 0 T s T s' ∧ ctx_at l c root va (k_mem s') ∧
    tables_kept l root s s' ∧ clears_one l root va s s'.
Proof.
  intros Hs Hl Hc. pose proof (ok_tables _ _ _ Hs) as OK.
  destruct (ctx_at_table _ _ _ _ _ Hl Hc) as [Hd Hi].
  pose proof (descend_tree OK (4 - l) 4 root va _ (root_tree OK va) ltac:(lia) Hd) as HT.
  replace (4 - (4 - l))%nat with l in HT by lia. replace (5 - (4 - l))%nat with (S l) in HT by lia.
  pose proof (idx_range l va) as Hir. eexists. split; [reflexivity|]. rewrite Hi.
  split; [|split; [|split; [|split; [|split]]]]; cbn [k_mem set_mem].
  - constructor; cbn [k_mem k_alloc set_mem]; [apply Hs|apply Hs|].
    apply (tables_ok_store OK _ l (vpn (S l) va)); [done|done|lia|by left].
  - constructor; cbn [k_mem k_alloc set_mem]; try done; [lia|].
    intros b Hb HTb. apply load8_store_out. intros Hr.
    destruct (table_shape _ _ _ _ OK _ _ _ HT) as (_&Hal&_).
    replace (b / 2 ^ 12 * 2 ^ 12) with (ctx_table l c) in HTb; [congruence|]. divmod_lia.
  - revert Hc. apply ctx_at_kept. intros n t Hn Hn4.
    apply (descend_store OK _ l (vpn (S l) va)); (done || lia).
  - intros n va' t Hn Hn4. by apply (descend_store OK _ l (vpn (S l) va)).
  - intros va' Hva'. assert (descend (4 - l) 4 (k_mem s) root va' = Some (ctx_table l c)) as Hd'.
    { rewrite <- Hd. apply descend_cong; [lia|]. by apply (vpn_eq_up l); [|lia]. }
    rewrite (walk_descend (4 - l) 4 _ _ _ (ctx_table l c)); [|lia|].
    2: { apply (descend_store OK _ l (vpn (S l) va)); (done || lia). }
    replace (4 - (4 - l))%nat with l by lia. destruct l as [|l]; [lia|]. cbn [walk].
    rewrite (idx_cong (S l) (S l) va' va) by done. by rewrite load64_store64_eq by lia.
  - intros va' Hva'. apply (walk_store_other OK _ l (vpn (S l) va)); try done.
    by rewrite <- vpn_split.
Qed.

(** ** The index steps *)

(** Entering the next table of level [l], which exists. *)
Lemma enter_table T root s l va t :
  state_ok T root s → (1 ≤ l ≤ 3)%nat → descend (4 - l) 4 (k_mem s) root va = Some t →
  ∃ t0, descend (3 - l) 4 (k_mem s) root va = Some t0 ∧
    Z.land (load64 (k_mem s) (t0 + 8 * idx (S l) va)) PAGING_ADDRESS_MASK = t ∧ t ≠ 0.
Proof.
  intros Hs Hl Hd. pose proof (ok_tables _ _ _ Hs) as OK.
  pose proof (descend_tree OK (4 - l) 4 root va _ (root_tree OK va) ltac:(lia) Hd) as HT.
  destruct (table_shape _ _ _ _ OK _ _ _ HT) as (_&_&Ht&_).
  replace (4 - l)%nat with (S (3 - l)) in Hd by lia.
  destruct (descend_snoc (3 - l) 4 _ _ _ _ Hd ltac:(lia)) as (t0 & Ht0 & Hne & He).
  exists t0. replace (4 - (3 - l))%nat with (S l) in He by lia. split; [done|]. split; [done|lia].
Qed.

Lemma unmap_next_level3_ok T root s c va va' msg1 msg2 :
  state_ok T root s → ctx_at 3 c root va (k_mem s) → vpn 3 va' = vpn 3 va + 1 →
  (∃ t, descend 1 4 (k_mem s) root va' = Some t) →
  ∃ c', unmap_next_level3 msg1 msg2 c s = Ok (Some c', s) ∧ ctx_at 3 c' root va' (k_mem s).
Proof.
  intros Hs Hc Hv [t Ht]. destruct (at_3 _ _ _ _ _ Hc) as [Hd3 Hi3]; [done|].
  pose proof (idx_range 3 va). unfold unmap_next_level3. cbv zeta. ctx_simpl.
  rewrite Hi3, u32_small by lia.
  destruct (idx_next _ _ _ Hv) as [(Hlt & Hi & Hup)|(Heq & Hi & Hup)].
  - rewrite (proj2 (Z.leb_gt _ _)) by lia. eexists. split; [done|].
    constructor; ctx_simpl; [apply Hc|..|lia|lia].
    + rewrite (at_4 _ _ _ _ _ Hc). by apply (idx_cong 4).
    + intros _. split; [|lia]. rewrite <- Hd3. by apply descend_cong; [lia|].
  - rewrite (proj2 (Z.leb_le _ _)) by lia. ctx_simpl.
    pose proof (vpn_bound 4 va' ltac:(lia)) as Hb. change (2 ^ (48 - lsh 4)) with 512 in Hb.
    pose proof (vpn_nonneg 4 va).
    assert (level4_index c = vpn 4 va ∧ idx 4 va' = vpn 4 va + 1) as [Hi4 Hi4'].
    { rewrite (at_4 _ _ _ _ _ Hc). unfold idx. rewrite Hup, !Z.mod_small by lia. done. }
    rewrite Hi4, u32_small, (proj2 (Z.leb_gt _ _)), <- Hi4' by lia.
    ctx_simpl. rewrite (at_root _ _ _ _ _ Hc). unfold load_entry. mstep.
    destruct (enter_table T root s 3 va' t Hs ltac:(lia) Ht) as (t0 & [= <-] & He & Hne).
    rewrite He, (proj2 (Z.eqb_neq _ _) Hne). eexists. split; [done|].
    constructor; ctx_simpl; [apply Hc|done| |lia|lia]. intros _. split; [done|lia].
Qed.

Lemma unmap_next_level2_ok T root s c va va' msg1 msg2 msg3 :
  state_ok T root s → ctx_at 2 c root va (k_mem s) → vpn 2 va' = vpn 2 va + 1 →
  (∃ t, descend 2 4 (k_mem s) root va' = Some t) →
  ∃ c', unmap_next_level2 msg1 msg2 msg3 c s = Ok (Some c', s) ∧ ctx_at 2 c' root va' (k_mem s).
Proof.
  intros Hs Hc Hv [t Ht]. destruct (at_2 _ _ _ _ _ Hc) as [Hd2 Hi2]; [done|].
  destruct (at_3 _ _ _ _ _ Hc) as [Hd3 Hi3]; [lia|].
  pose proof (idx_range 2 va). unfold unmap_next_level2. cbv zeta. ctx_simpl.
  rewrite Hi2, u32_small by lia.
  destruct (idx_next _ _ _ Hv) as [(Hlt & Hi & Hup)|(Heq & Hi & Hup)].
  - rewrite (proj2 (Z.leb_gt _ _)) by lia. eexists. split; [done|].
    constructor; ctx_simpl; [apply Hc|..|lia].
    + rewrite (at_4 _ _ _ _ _ Hc). by apply (idx_cong 3); [|lia].
    + intros _. split; [|by rewrite Hi3; apply (idx_cong 3)].
      rewrite <- Hd3. apply descend_cong; [lia|]. by apply (vpn_eq_up 3); [|lia].
    + intros _. split; [|lia]. rewrite <- Hd2. by apply descend_cong; [lia|].
  - rewrite (proj2 (Z.leb_le _ _)) by lia.
    set (c1 := set_level2_index (idx 2 va + 1) c).
    assert (ctx_at 3 c1 root va (k_mem s)) as Hc1.
    { constructor; ctx_simpl; [apply Hc|apply Hc|by intros _|lia|lia]. }
    destruct (enter_table T root s 2 va' t Hs ltac:(lia) Ht) as (t0 & Ht0 & He & Hne).
    cbn [Nat.sub] in Ht0.
    destruct (unmap_next_level3_ok T root s c1 va va' msg1 msg2 Hs Hc1 Hup) as (c2 & Hr2 & Hc2);
      [by exists t0|].
    rewrite (bind_ok _ _ _ _ _ Hr2). ctx_simpl. unfold load_entry. mstep.
    destruct (at_3 _ _ _ _ _ Hc2) as [Hd3' Hi3']; [done|]. rewrite Hi3'.
    assert (level3_table c2 = t0) as Ht3 by congruence. rewrite Ht3, He, (proj2 (Z.eqb_neq _ _) Hne).
    eexists. split; [done|]. constructor; ctx_simpl; [apply Hc2|apply Hc2|..|lia].
    + intros _. split; [done|apply Hi3'].
    + intros _. split; [done|lia].
Qed.

Lemma unmap_next_level1_ok T root s c va va' msg1 msg2 msg3 msg4 :
  state_ok T root s → ctx_at 1 c root va (k_mem s) → vpn 1 va' = vpn 1 va + 1 →
  (∃ t, descend 3 4 (k_mem s) root va' = Some t) →
  ∃ c', unmap_next_level1 msg1 msg2 msg3 msg4 c s = Ok (Some c', s) ∧ ctx_at 1 c' root va' (k_mem s).
Proof.
  intros Hs Hc Hv [t Ht]. destruct (at_1 _ _ _ _ _ Hc) as [Hd1 Hi1]; [done|].
  destruct (at_2 _ _ _ _ _ Hc) as [Hd2 Hi2]; [lia|]. destruct (at_3 _ _ _ _ _ Hc) as [Hd3 Hi3]; [lia|].
  pose proof (idx_range 1 va). unfold unmap_next_level1. cbv zeta. ctx_simpl.
  rewrite Hi1, u32_small by lia.
  destruct (idx_next _ _ _ Hv) as [(Hlt & Hi & Hup)|(Heq & Hi & Hup)].
  - rewrite (proj2 (Z.leb_gt _ _)) by lia. eexists. split; [done|].
    constructor; ctx_simpl; [apply Hc|..].
    + rewrite (at_4 _ _ _ _ _ Hc). by apply (idx_cong 2); [|lia].
    + intros _. split; [|by rewrite Hi3; apply (idx_cong 2); [|lia]].
      rewrite <- Hd3. apply descend_cong; [lia|]. by apply (vpn_eq_up 2); [|lia].
    + intros _. split; [|by rewrite Hi2; apply (idx_cong 2)].
      rewrite <- Hd2. apply descend_cong; [lia|]. by apply (vpn_eq_up 2); [|lia].
    + intros _. split; [|lia]. rewrite <- Hd1. by apply descend_cong; [lia|].
  - rewrite (proj2 (Z.leb_le _ _)) by lia.
    set (c1 := set_level1_index (idx 1 va + 1) c).
    assert (ctx_at 2 c1 root va (k_mem s)) as Hc1.
    { constructor; ctx_simpl; [apply Hc|apply Hc|by intros _|by intros _|lia]. }
    destruct (enter_table T root s 1 va' t Hs ltac:(lia) Ht) as (t0 & Ht0 & He & Hne).
    cbn [Nat.sub] in Ht0.
    destruct (unmap_next_level2_ok T root s c1 va va' msg1 msg2 msg3 Hs Hc1 Hup) as (c2 & Hr2 & Hc2);
      [by exists t0|].
    rewrite (bind_ok _ _ _ _ _ Hr2). ctx_simpl. unfold load_entry. mstep.
    destruct (at_2 _ _ _ _ _ Hc2) as [Hd2' Hi2']; [done|]. rewrite Hi2'.
    destruct (at_3 _ _ _ _ _ Hc2) as [Hd3' Hi3']; [lia|].
    assert (level2_table c2 = t0) as Ht2 by congruence. rewrite Ht2, He, (proj2 (Z.eqb_neq _ _) Hne).
    eexists. split; [done|]. constructor; ctx_simpl; [apply Hc2|apply Hc2|..].
    + by intros _.
    + intros _. split; [done|apply Hi2'].
    + intros _. split; [done|lia].
Qed.

(** ** The loops *)

(** One iteration of an unmapping loop of level [l]. *)
Definition unmap_body_ok (l : nat) (root : Z)
    (body : paging_context → M (kstate A) (option paging_context)) : Prop :=
  ∀ T s c va va', state_ok T root s → ctx_at l c root va (k_mem s) → vpn l va' = vpn l va + 1 →
    (∃ t, descend (4 - l) 4 (k_mem s) root va' = Some t) →
    ∃ c' s', body c s = Ok (Some c', s') ∧ state_ok T root s' ∧ grows 0 T s T s' ∧
      ctx_at l c' root va' (k_mem s') ∧ tables_kept l root s s' ∧ clears_one l root va s s'.

Lemma clear_next_body l root next : (1 ≤ l ≤ 3)%nat →
  (∀ T s c va va', state_ok T root s → ctx_at l c root va (k_mem s) → vpn l va' = vpn l va + 1 →
    (∃ t, descend (4 - l) 4 (k_mem s) root va' = Some t) →
    ∃ c', next c s = Ok (Some c', s) ∧ ctx_at l c' root va' (k_mem s)) →
  unmap_body_ok l root (λ c, store_entry (ctx_table l c) (ctx_index l c) 0 ;;; next c).
Proof.
  intros Hl Hnext T s c va va' Hs Hc Hv [t Ht].
  destruct (clear_leaf_ok T root s l c va Hs Hl Hc) as (s1 & Hr & Hs1 & Hg & Hc1 & Hk & Hcl).
  destruct (Hnext T s1 c va va' Hs1 Hc1 Hv) as (c2 & Hr2 & Hc2).
  { exists t. apply Hk; [lia|lia|done]. }
  exists c2, s1. by rewrite (bind_ok _ _ _ _ _ Hr).
Qed.

Lemma unmap_4kb_body_ok root : unmap_body_ok 1 root unmap_4kb_body.
Proof.
  apply (clear_next_body 1); [lia|]. intros T s c va va' Hs Hc Hv Ht. by eapply unmap_next_level1_ok.
Qed.

Lemma unmap_2mb_body_ok root : unmap_body_ok 2 root unmap_2mb_body.
Proof.
  apply (clear_next_body 2); [lia|]. intros T s c va va' Hs Hc Hv Ht. by eapply unmap_next_level2_ok.
Qed.

Lemma unmap_1gb_body_ok root : unmap_body_ok 3 root unmap_1gb_body.
Proof.
  apply (clear_next_body 3); [lia|]. intros T s c va va' Hs Hc Hv Ht. by eapply unmap_next_level3_ok.
Qed.

(** [s'] translates no page of the [n] pages of level [l] from virtual page [b];
    everything else is as in [s]. *)
Definition clears_pages (l : nat) (root b n : Z) s s' : Prop :=
  (∀ x, b ≤ vpn l x < b + n → walk 4 (k_mem s') root x = None) ∧
  (∀ x, ¬ (b ≤ vpn l x < b + n) → walk 4 (k_mem s') root x = walk 4 (k_mem s) root x).

Lemma unmap_loop_ok l root body : (1 ≤ l ≤ 3)%nat → unmap_body_ok l root body →
  ∀ n T s c va, state_ok T root s → ctx_at l c root va (k_mem s) →
  vpn l va + Z.of_nat n < 2 ^ (48 - lsh l) →
  (∀ x, vpn l va < vpn l x ≤ vpn l va + Z.of_nat n → ∃ t, descend (4 - l) 4 (k_mem s) root x = Some t) →
  ∃ s', unmap_loop body n c s = Ok (true, s') ∧ state_ok T root s' ∧ grows 0 T s T s' ∧
    clears_pages l root (vpn l va) (Z.of_nat n) s s'.
Proof.
  intros Hl Hbody n. induction n as [|n IH]; intros T s c va Hs Hc Hb Ht; cbn [unmap_loop].
  - exists s. split; [done|]. split; [done|]. split; [apply grows_refl|]. split; [lia|done].
  - pose proof (vpn_nonneg l va). set (va1 := page_address l (vpn l va + 1)).
    assert (vpn l va1 = vpn l va + 1) as Hv1 by (apply vpn_page_address; lia).
    destruct (Hbody T s c va va1 Hs Hc Hv1) as (c1 & s1 & Hr & Hs1 & Hg1 & Hc1 & Hk & Hin & Hout);
      [apply Ht; lia|].
    rewrite (bind_ok _ _ _ _ _ Hr). cbv beta iota.
    destruct (IH T s1 c1 va1 Hs1 Hc1) as (s2 & Hr2 & Hs2 & Hg2 & Hin2 & Hout2); [lia| |].
    { intros x Hx. destruct (Ht x) as [t Hd]; [lia|]. exists t. apply Hk; (done || lia). }
    exists s2. split; [done|]. split; [done|]. split; [by apply (grows_trans 0 0 _ _ T s1)|]. split.
    + intros x Hx. destruct (decide (vpn l x = vpn l va)) as [Heq|]; [|apply Hin2; lia].
      rewrite Hout2 by lia. by apply Hin.
    + intros x Hx. rewrite Hout2 by lia. apply Hout. lia.
Qed.

(** ** [paging_unmap] *)

Lemma vpn_of_page l va n x :
  (1 ≤ l ≤ 3)%nat → 0 ≤ va → va mod 2 ^ lsh l = 0 → va + n * 2 ^ lsh l < 2 ^ 48 → 0 ≤ n →
  vpn l va + n < 2 ^ (48 - lsh l) ∧
  (vpn l va < vpn l x ≤ vpn l va + n →
   ∃ y, va ≤ y ≤ va + n * 2 ^ lsh l ∧ vpn l y = vpn l x).
Proof.
  intros Hl Hva Hal Hend Hn. pose proof (pow_lsh_pos l).
  assert (2 ^ 48 = 2 ^ (48 - lsh l) * 2 ^ lsh l) as H48.
  { rewrite <- Z.pow_add_r by (unfold lsh; lia). f_equal. lia. }
  assert (va = vpn l va * 2 ^ lsh l) as Hv.
  { rewrite vpn_small by nia. pose proof (Z.div_mod va (2 ^ lsh l)). nia. }
  split; [nia|]. intros Hx. exists (page_address l (vpn l x)).
  split; [unfold page_address; nia|]. apply vpn_page_address; [lia|nia].
Qed.

(** The loop over a byte range, from a context that points at its start. *)
Lemma unmap_range T root s l body c va n :
  (1 ≤ l ≤ 3)%nat → unmap_body_ok l root body → state_ok T root s → ctx_at l c root va (k_mem s) →
  0 ≤ va → va mod 2 ^ lsh l = 0 → va + n * 2 ^ lsh l < 2 ^ 48 → 0 ≤ n →
  (∀ x, va ≤ x ≤ va + n * 2 ^ lsh l → ∃ t, descend (4 - l) 4 (k_mem s) root x = Some t) →
  ∃ s', unmap_loop body (Z.to_nat n) c s = Ok (true, s') ∧ state_ok T root s' ∧ grows 0 T s T s' ∧
    clears_pages l root (vpn l va) n s s'.
Proof.
  intros Hl Hbody Hs Hc Hva Hal Hend Hn Ht.
  destruct (unmap_loop_ok l root body Hl Hbody (Z.to_nat n) T s c va Hs Hc) as (s' & Hr & Hs' & Hg & Hcl).
  - rewrite Z2Nat.id by done. by apply (vpn_of_page l va n va).
  - rewrite Z2Nat.id by done. intros x Hx.
    destruct (vpn_of_page l va n x Hl Hva Hal Hend Hn) as [_ Hy]. destruct (Hy Hx) as (y & Hr & Hv).
    destruct (Ht y Hr) as [t Hd]. exists t. rewrite <- Hd. apply descend_cong; [lia|].
    symmetry. by apply (vpn_eq_up l); [|lia].
  - rewrite Z2Nat.id in Hcl by done. by exists s'.
Qed.

Lemma unmap_4kb T root s c va bytes n e :
  state_ok T root s → level4_table c = root → walk 4 (k_mem s) root va = Some (1%nat, e) →
  0 < bytes < 2 ^ 64 → n = (bytes - 1) / 2 ^ 12 + 1 →
  0 ≤ va → va mod 2 ^ 12 = 0 → va + n * 2 ^ 12 < 2 ^ 48 →
  (∀ x, va ≤ x ≤ va + n * 2 ^ 12 → ∃ t, descend 3 4 (k_mem s) root x = Some t) →
  ∃ s', paging_unmap c va bytes s = Ok (1, set_used (u64 (used_virtual_pages s - n)) s') ∧
    state_ok T root s' ∧ grows 0 T s T s' ∧ clears_pages 1 root (vpn 1 va) n s s'.
Proof.
  intros Hs Hroot Hw Hb Hn Hva Hal Hend Ht. assert (0 ≤ (bytes - 1) / 2 ^ 12) by (apply Z.div_pos; lia).
  unfold paging_unmap, load_entry. mstep. ctx_simpl. cbn [walk] in Hw. cbn [new_index level4_table level4_index].
  rewrite table_index_39, table_index_30, table_index_21, table_index_12, Hroot.
  set (e4 := load64 (k_mem s) (root + 8 * idx 4 va)) in *.
  destruct (e4 =? 0) eqn:E4; [done|]. cbn [leafb] in Hw. mstep.
  set (t3 := Z.land e4 PAGING_ADDRESS_MASK) in *. set (e3 := load64 (k_mem s) (t3 + 8 * idx 3 va)) in *.
  destruct (e3 =? 0) eqn:E3; [done|]. rewrite (land_size e3 3) by auto. cbn [leafb].
  destruct (Z.testbit e3 7) eqn:L3; [done|]. mstep.
  set (t2 := Z.land e3 PAGING_ADDRESS_MASK) in *. set (e2 := load64 (k_mem s) (t2 + 8 * idx 2 va)) in *.
  destruct (e2 =? 0) eqn:E2; [done|]. rewrite (land_size e2 2) by auto. cbn [leafb].
  destruct (Z.testbit e2 7) eqn:L2; [done|]. mstep.
  set (t1 := Z.land e2 PAGING_ADDRESS_MASK) in *. set (e1 := load64 (k_mem s) (t1 + 8 * idx 1 va)) in *.
  destruct (e1 =? 0) eqn:E1; [done|]. rewrite u64_small, shiftr_div by lia. rewrite <- Hn.
  change 0xFFF with (2 ^ 12 - 1). rewrite aligned_land by (done || lia).
  set (c1 := set_level1_index _ _).
  assert (ctx_at 1 c1 root va (k_mem s)) as Hc1.
  { unfold c1. constructor; ctx_simpl; cbn [new_index level4_table]; [done|done|..]; intros _; (split; [|done]);
      cbn [descend]; fold e4; rewrite E4; cbn [leafb orb pred]; fold t3 e3; rewrite ?E3; cbn [leafb orb];
      rewrite ?L3; cbn [pred]; fold t2 e2; rewrite ?E2; cbn [leafb orb]; rewrite ?L2; cbn [pred]; done. }
  destruct (unmap_range T root s 1 unmap_4kb_body c1 va n) as (s' & Hr & Hs' & Hg & Hcl);
    [lia|apply unmap_4kb_body_ok|done|done|done|done|done|lia|done|].
  exists s'. rewrite (bind_ok _ _ _ _ _ Hr). unfold finish_unmap, add_used_virtual_pages. mstep.
  unfold ret. rewrite (g_pages _ _ _ _ _ Hg). by rewrite Z.add_opp_r.
Qed.

Lemma unmap_2mb T root s c va bytes n e :
  state_ok T root s → level4_table c = root → walk 4 (k_mem s) root va = Some (2%nat, e) →
  0 < bytes < 2 ^ 64 → n = (bytes - 1) / 2 ^ 21 + 1 →
  0 ≤ va → va mod 2 ^ 21 = 0 → va + n * 2 ^ 21 < 2 ^ 48 →
  (∀ x, va ≤ x ≤ va + n * 2 ^ 21 → ∃ t, descend 2 4 (k_mem s) root x = Some t) →
  ∃ s', paging_unmap c va bytes s = Ok (1, set_used (u64 (used_virtual_pages s - n * 512)) s') ∧
    state_ok T root s' ∧ grows 0 T s T s' ∧ clears_pages 2 root (vpn 2 va) n s s'.
Proof.
  intros Hs Hroot Hw Hb Hn Hva Hal Hend Ht. assert (0 ≤ (bytes - 1) / 2 ^ 21) by (apply Z.div_pos; lia).
  unfold paging_unmap, load_entry. mstep. ctx_simpl. cbn [walk] in Hw. cbn [new_index level4_table level4_index].
  rewrite table_index_39, table_index_30, table_index_21, Hroot.
  set (e4 := load64 (k_mem s) (root + 8 * idx 4 va)) in *.
  destruct (e4 =? 0) eqn:E4; [done|]. cbn [leafb] in Hw. mstep.
  set (t3 := Z.land e4 PAGING_ADDRESS_MASK) in *. set (e3 := load64 (k_mem s) (t3 + 8 * idx 3 va)) in *.
  destruct (e3 =? 0) eqn:E3; [done|]. rewrite (land_size e3 3) by auto. cbn [leafb].
  destruct (Z.testbit e3 7) eqn:L3; [done|]. mstep.
  set (t2 := Z.land e3 PAGING_ADDRESS_MASK) in *. set (e2 := load64 (k_mem s) (t2 + 8 * idx 2 va)) in *.
  destruct (e2 =? 0) eqn:E2; [done|]. rewrite (land_size e2 2) by auto. cbn [leafb].
  destruct (Z.testbit e2 7) eqn:L2.
  2: { exfalso. revert Hw. by case_match. }
  rewrite u64_small, shiftr_div by lia. rewrite <- Hn.
  change 0x1FFFFF with (2 ^ 21 - 1). rewrite aligned_land by (done || lia).
  set (c1 := set_level2_index _ _).
  assert (ctx_at 2 c1 root va (k_mem s)) as Hc1.
  { unfold c1. constructor; ctx_simpl; cbn [new_index level4_table]; [done|done| | |lia]; intros _; (split; [|done]);
      cbn [descend]; fold e4; rewrite E4; cbn [leafb orb pred]; fold t3 e3; rewrite ?E3; cbn [leafb orb];
      rewrite ?L3; cbn [pred]; done. }
  destruct (unmap_range T root s 2 unmap_2mb_body c1 va n) as (s' & Hr & Hs' & Hg & Hcl);
    [lia|apply unmap_2mb_body_ok|done|done|done|done|done|lia|done|].
  exists s'. rewrite (bind_ok _ _ _ _ _ Hr). unfold finish_unmap, add_used_virtual_pages. mstep.
  unfold ret. rewrite (g_pages _ _ _ _ _ Hg). by rewrite Z.add_opp_r.
Qed.

Lemma unmap_1gb T root s c va bytes n e :
  state_ok T root s → level4_table c = root → walk 4 (k_mem s) root va = Some (3%nat, e) →
  0 < bytes < 2 ^ 64 → n = (bytes - 1) / 2 ^ 30 + 1 →
  0 ≤ va → va mod 2 ^ 30 = 0 → va + n * 2 ^ 30 < 2 ^ 48 →
  (∀ x, va ≤ x ≤ va + n * 2 ^ 30 → ∃ t, descend 1 4 (k_mem s) root x = Some t) →
  ∃ s', paging_unmap c va bytes s = Ok (1, set_used (u64 (used_virtual_pages s - n * 512 * 512)) s') ∧
    state_ok T root s' ∧ grows 0 T s T s' ∧ clears_pages 3 root (vpn 3 va) n s s'.
Proof.
  intros Hs Hroot Hw Hb Hn Hva Hal Hend Ht. assert (0 ≤ (bytes - 1) / 2 ^ 30) by (apply Z.div_pos; lia).
  unfold paging_unmap, load_entry. mstep. ctx_simpl. cbn [walk] in Hw. cbn [new_index level4_table level4_index].
  rewrite table_index_39, table_index_30, Hroot.
  set (e4 := load64 (k_mem s) (root + 8 * idx 4 va)) in *.
  destruct (e4 =? 0) eqn:E4; [done|]. cbn [leafb] in Hw. mstep.
  set (t3 := Z.land e4 PAGING_ADDRESS_MASK) in *. set (e3 := load64 (k_mem s) (t3 + 8 * idx 3 va)) in *.
  destruct (e3 =? 0) eqn:E3; [done|]. rewrite (land_size e3 3) by auto. cbn [leafb].
  destruct (Z.testbit e3 7) eqn:L3.
  2: { exfalso. revert Hw. by repeat case_match. }
  rewrite u64_small, shiftr_div by lia. rewrite <- Hn.
  change 0x3FFFFFFF with (2 ^ 30 - 1). rewrite aligned_land by (done || lia).
  set (c1 := set_level3_index _ _).
  assert (ctx_at 3 c1 root va (k_mem s)) as Hc1.
  { unfold c1. constructor; ctx_simpl; cbn [new_index level4_table]; [done|done| |lia|lia]; intros _; (split; [|done]);
      cbn [descend]; fold e4; rewrite E4; cbn [leafb orb pred]; done. }
  destruct (unmap_range T root s 3 unmap_1gb_body c1 va n) as (s' & Hr & Hs' & Hg & Hcl);
    [lia|apply unmap_1gb_body_ok|done|done|done|done|done|lia|done|].
  exists s'. rewrite (bind_ok _ _ _ _ _ Hr). unfold finish_unmap, add_used_virtual_pages. mstep.
  unfold ret. rewrite (g_pages _ _ _ _ _ Hg). by rewrite Z.add_opp_r.
Qed.

End Unmap.
