(* ===== verification/PagingSpec.v ===== *)
(** * What the paging functions promise

    The properties of [paging.c], stated through the functions of the file:
    what [paging_get_physical_address] answers after [paging_map_physical_at]
    and [paging_unmap]. Each holds for every allocator that satisfies
    [PageAllocatorLaws]; the witnesses run the bitmap allocator of
    [memory_physical.c]. *)

From S2P Require Import Prelude Memory Allocator Lock Physical PhysicalSpec.
From S2P Require Import Paging PagingWalk PagingStep PagingMap PagingUnmap.

Section Spec.
Context {A : Type} {PA : PageAllocator A} {PAL : PageAllocatorLaws A}.
Implicit Types (s : kstate A) (T : tree).

(** ** Observing a state *)

(** [paging_get_physical_address context x] returns [y]. *)
Definition resolves (c : paging_context) s (x y : Z) : Prop :=
  ∃ s', paging_get_physical_address c x s = Ok (y, s') ∧ k_mem s' = k_mem s.

Lemma resolves_translate c s x : resolves c s x (translate (k_mem s) (level4_table c) x).
Proof.
  destruct (get_physical_address_walk s c x) as (s' & Hr & Hm & _). exists s'. by split.
Qed.

(** Two states give the same answer for [x]. *)
Definition same_answer (c : paging_context) s s' (x : Z) : Prop :=
  ∃ y, resolves c s x y ∧ resolves c s' x y.

Lemma walk_same_answer c s s' x :
  walk 4 (k_mem s') (level4_table c) x = walk 4 (k_mem s) (level4_table c) x → same_answer c s s' x.
Proof.
  intros Hw. exists (translate (k_mem s) (level4_table c) x). split; [apply resolves_translate|].
  replace (translate (k_mem s) (level4_table c) x) with (translate (k_mem s') (level4_table c) x)
    by (unfold translate; by rewrite Hw).
  apply resolves_translate.
Qed.

(** The bytes [va .. va + len - 1] resolve to [pa .. pa + len - 1], and the
    answer for every other address is as before. *)
Definition maps_exactly (c : paging_context) (va pa len : Z) s s' : Prop :=
  (∀ x, va ≤ x < va + len → resolves c s' x (pa + (x - va))) ∧
  (∀ x, 0 ≤ x < 2 ^ 48 → ¬ (va ≤ x < va + len) → same_answer c s s' x).

Definition unmaps_exactly (c : paging_context) (va len : Z) s s' : Prop :=
  (∀ x, va ≤ x < va + len → resolves c s' x 0) ∧
  (∀ x, 0 ≤ x < 2 ^ 48 → ¬ (va ≤ x < va + len) → same_answer c s s' x).

(** Memory in use that is not a table is not touched. *)
Definition data_kept T s s' : Prop :=
  ∀ b, pa_used (k_alloc s) (b / 2 ^ 12) → T !! (b / 2 ^ 12 * 2 ^ 12) = None →
    load8 (k_mem s') b = load8 (k_mem s) b.

Lemma maps_range_exactly l c va pa n g s s' u :
  (1 ≤ l ≤ 3)%nat → maps_range l (level4_table c) va pa n g s s' → 0 ≤ g < 2 ^ 12 →
  0 ≤ va → va mod 2 ^ lsh l = 0 → va + n * 2 ^ lsh l < 2 ^ 48 →
  0 ≤ pa → pa mod 2 ^ lsh l = 0 → pa + n * 2 ^ lsh l ≤ 2 ^ 52 →
  maps_exactly c va pa (n * 2 ^ lsh l) s (set_used u s').
Proof.
  intros Hl Hm Hg Hva Hal Hend Hpa Hpal Hpend. split.
  - intros x Hx.
    rewrite <- (maps_range_translate l _ va pa n g s s' Hl Hm Hg Hva Hal Hend Hpa Hpal Hpend x Hx).
    apply (resolves_translate c (set_used u s')).
  - intros x Hx Hout. apply walk_same_answer. by apply (mr_out _ _ _ _ _ _ _ _ Hm).
Qed.

Lemma clears_pages_exactly l c va n s s' u :
  clears_pages l (level4_table c) (vpn l va) n s s' → 0 ≤ n →
  0 ≤ va → va mod 2 ^ lsh l = 0 → va + n * 2 ^ lsh l < 2 ^ 48 →
  unmaps_exactly c va (n * 2 ^ lsh l) s (set_used u s').
Proof.
  intros [Hin Hout] Hn Hva Hal Hend. pose proof (pow_lsh_pos l). split.
  - intros x Hx. replace 0 with (translate (k_mem (set_used u s')) (level4_table c) x);
      [apply resolves_translate|].
    unfold translate. cbn [k_mem set_used]. rewrite Hin; [done|]. apply vpn_range; (done || nia).
  - intros x Hx Hr. apply walk_same_answer. apply Hout. by rewrite <- vpn_range.
Qed.

Lemma state_ok_set_used T root s u : state_ok T root s → state_ok T root (set_used u s).
Proof. by intros []. Qed.

Lemma data_kept_grows n T s T' s' u : grows n T s T' s' → data_kept T s (set_used u s').
Proof. intros Hg b Hb HT. by apply (g_frame _ _ _ _ _ Hg). Qed.

(** The preconditions of a mapping request that the caller of
    [paging_map_physical_at] has to meet, for pages of level [l]. *)
Record map_request (l : nat) (va pa bytes flags n : Z) : Prop := {
  req_flags : 0 ≤ flags < 2 ^ 16;
  req_bytes : 0 < bytes;
  req_pages : n = (bytes - 1) / 2 ^ lsh l + 1;
  req_va : 0 ≤ va ∧ va mod 2 ^ lsh l = 0 ∧ va + n * 2 ^ lsh l < 2 ^ 48;
  req_pa : 0 ≤ pa ∧ pa mod 2 ^ lsh l = 0 ∧ pa + n * 2 ^ lsh l ≤ 2 ^ 52
}.

Lemma request_pages l va pa bytes flags n : map_request l va pa bytes flags n → 0 < n.
Proof.
  intros [_ Hb -> _ _]. pose proof (pow_lsh_pos l).
  assert (0 ≤ (bytes - 1) / 2 ^ lsh l) by (apply Z.div_pos; lia). lia.
Qed.

(** What a mapping call leaves behind. *)
Definition mapped (l : nat) (c : paging_context) (va pa n : Z) T s (o : outcome (Z * kstate A)) : Prop :=
  ∃ s' T', o = Ok (va, s') ∧ state_ok T' (level4_table c) s' ∧
    used_virtual_pages s' = u64 (used_virtual_pages s + n * 2 ^ (lsh l - 12)) ∧
    data_kept T s s' ∧ maps_exactly c va pa (n * 2 ^ lsh l) s s'.

(** The 4KiB case: everything but the statement's packaging is in [PagingMap]. *)
Lemma mapped_4kb T s c pa va bytes flags n :
  state_ok T (level4_table c) s → map_request 1 va pa bytes flags n →
  truthy (Z.land flags PAGING_FLAG_1GB) = false → truthy (Z.land flags PAGING_FLAG_2MB) = false →
  level1_linkable (k_mem s) (level4_table c) va → walk 4 (k_mem s) (level4_table c) va = None →
  (∀ x, va ≤ x ≤ va + n * 2 ^ 12 → no_big_leaf 1 (k_mem s) (level4_table c) x) →
  3 * n + 3 ≤ pa_avail (k_alloc s) →
  ∃ s' T', paging_map_physical_at c pa va bytes flags s =
      Ok (va, set_used (u64 (used_virtual_pages s + n)) s') ∧
    state_ok T' (level4_table c) s' ∧ grows (3 * n + 3) T s T' s' ∧
    maps_range 1 (level4_table c) va pa n (paging_convert_flags flags) s s'.
Proof.
  intros Hs [Hfl Hb Hn (Hva & Hval & Hvend) (Hpa & Hpal & Hpend)] Hf1 Hf2 Hlink Hw Hno Hav.
  by apply (map_physical_at_4kb T (level4_table c) s c pa va bytes flags n).
Qed.

Lemma mapped_2mb T s c pa va bytes flags n :
  state_ok T (level4_table c) s → map_request 2 va pa bytes flags n →
  truthy (Z.land flags PAGING_FLAG_1GB) = false → truthy (Z.land flags PAGING_FLAG_2MB) = true →
  vacant 2 (k_mem s) (level4_table c) va →
  (∀ x, va ≤ x ≤ va + n * 2 ^ 21 → no_big_leaf 2 (k_mem s) (level4_table c) x) →
  2 * n + 2 ≤ pa_avail (k_alloc s) →
  ∃ s' T', paging_map_physical_at c pa va bytes flags s =
      Ok (va, set_used (u64 (used_virtual_pages s + n * 512)) s') ∧
    state_ok T' (level4_table c) s' ∧ grows (2 * n + 2) T s T' s' ∧
    maps_range 2 (level4_table c) va pa n (paging_convert_flags flags + 128) s s'.
Proof.
  intros Hs [Hfl Hb Hn (Hva & Hval & Hvend) (Hpa & Hpal & Hpend)] Hf1 Hf2 Hw Hno Hav.
  by apply (map_physical_at_2mb T (level4_table c) s c pa va bytes flags n).
Qed.

(** After mapping, every table of the range and the one at its end is there. *)
Lemma maps_range_tables l root va pa n g s s' : (1 ≤ l ≤ 3)%nat → maps_range l root va pa n g s s' →
  ∀ x, va ≤ x ≤ va + n * 2 ^ lsh l → ∃ t, descend (4 - l) 4 (k_mem s') root x = Some t.
Proof.
  intros Hl [Hin Hend _] x Hx. destruct (decide (x = va + n * 2 ^ lsh l)) as [->|]; [done|].
  destruct (walk_some_descend 4 (k_mem s') root x l _ ltac:(lia) (Hin x ltac:(lia))) as (t & Ht & _).
  by exists t.
Qed.

(** What an unmapping call leaves behind. *)
Definition unmapped (l : nat) (c : paging_context) (va n : Z) T s (o : outcome (Z * kstate A)) : Prop :=
  ∃ s', o = Ok (1, s') ∧ state_ok T (level4_table c) s' ∧
    used_virtual_pages s' = u64 (used_virtual_pages s - n * 2 ^ (lsh l - 12)) ∧
    data_kept T s s' ∧ unmaps_exactly c va (n * 2 ^ lsh l) s s'.

Lemma unmapped_intro l c va n T s s' :
  state_ok T (level4_table c) s' → grows 0 T s T s' → clears_pages l (level4_table c) (vpn l va) n s s' →
  0 ≤ n → 0 ≤ va → va mod 2 ^ lsh l = 0 → va + n * 2 ^ lsh l < 2 ^ 48 →
  unmapped l c va n T s (Ok (1, set_used (u64 (used_virtual_pages s - n * 2 ^ (lsh l - 12))) s')).
Proof.
  intros Hs Hg Hcl Hn Hva Hal Hend. eexists. split; [done|]. split; [by apply state_ok_set_used|].
  split; [done|]. split; [by eapply data_kept_grows|]. by eapply clears_pages_exactly.
Qed.

(** A range that [paging_unmap] can clear: its first page is a leaf of level
    [l], and all its tables exist, also the one where the range ends. *)
Record unmap_request (l : nat) (c : paging_context) (va bytes n : Z) s : Prop := {
  unreq_leaf : ∃ e, walk 4 (k_mem s) (level4_table c) va = Some (l, e);
  unreq_bytes : 0 < bytes < 2 ^ 64;
  unreq_pages : n = (bytes - 1) / 2 ^ lsh l + 1;
  unreq_va : 0 ≤ va ∧ va mod 2 ^ lsh l = 0 ∧ va + n * 2 ^ lsh l < 2 ^ 48;
  unreq_tables : ∀ x, va ≤ x ≤ va + n * 2 ^ lsh l →
    ∃ t, descend (4 - l) 4 (k_mem s) (level4_table c) x = Some t
}.

Lemma unmap_request_ok l T s c va bytes n : (1 ≤ l ≤ 3)%nat →
  state_ok T (level4_table c) s → unmap_request l c va bytes n s →
  unmapped l c va n T s (paging_unmap c va bytes s).
Proof.
  intros Hl Hs [[e Hw] Hb Hn (Hva & Hal & Hend) Ht].
  assert (0 ≤ n) as Hn0.
  { pose proof (pow_lsh_pos l). assert (0 ≤ (bytes - 1) / 2 ^ lsh l) by (apply Z.div_pos; lia). lia. }
  destruct l as [|[|[|[|l]]]]; [lia|..|lia].
  - destruct (unmap_4kb T _ s c va bytes n e Hs eq_refl Hw Hb Hn Hva Hal Hend Ht) as (s' & -> & Hs' & Hg & Hc).
    replace (used_virtual_pages s - n) with (used_virtual_pages s - n * 2 ^ (lsh 1 - 12))
      by (change (2 ^ (lsh 1 - 12)) with 1; lia).
    by apply unmapped_intro.
  - destruct (unmap_2mb T _ s c va bytes n e Hs eq_refl Hw Hb Hn Hva Hal Hend Ht) as (s' & -> & Hs' & Hg & Hc).
    change (n * 512) with (n * 2 ^ (lsh 2 - 12)). by apply unmapped_intro.
  - destruct (unmap_1gb T _ s c va bytes n e Hs eq_refl Hw Hb Hn Hva Hal Hend Ht) as (s' & -> & Hs' & Hg & Hc).
    replace (n * 512 * 512) with (n * 2 ^ (lsh 3 - 12)) by (change (2 ^ (lsh 3 - 12)) with (512 * 512); lia).
    by apply unmapped_intro.
Qed.

(** A mapped range is one that can be unmapped. *)
Lemma maps_range_unmap_request l c va pa bytes flags n g s s' u :
  (1 ≤ l ≤ 3)%nat → map_request l va pa bytes flags n → bytes < 2 ^ 64 →
  maps_range l (level4_table c) va pa n g s s' → unmap_request l c va bytes n (set_used u s').
Proof.
  intros Hl Hreq Hb Hm. pose proof (request_pages _ _ _ _ _ _ Hreq). pose proof (pow_lsh_pos l).
  destruct Hreq as [_ Hb0 Hn Hva _]. constructor; [|lia|done|done|exact (maps_range_tables _ _ _ _ _ _ _ _ Hl Hm)].
  eexists. apply (mr_in _ _ _ _ _ _ _ _ Hm). nia.
Qed.

(** A successful mapping loop, packaged. *)
Lemma mapped_intro l c va pa bytes flags n g k T s s' T' :
  (1 ≤ l ≤ 3)%nat → map_request l va pa bytes flags n → 0 ≤ g < 2 ^ 12 →
  state_ok T' (level4_table c) s' → grows k T s T' s' →
  maps_range l (level4_table c) va pa n g s s' →
  mapped l c va pa n T s (Ok (va, set_used (u64 (used_virtual_pages s + n * 2 ^ (lsh l - 12))) s')).
Proof.
  intros Hl [Hfl Hb Hn (Hva & Hval & Hvend) (Hpa & Hpal & Hpend)] Hg Hs Hgr Hm.
  eexists _, T'. split; [done|]. split; [by apply state_ok_set_used|]. split; [done|].
  split; [by eapply data_kept_grows|]. by eapply maps_range_exactly.
Qed.

End Spec.

(** Closed facts of arithmetic. *)
Ltac closed_arith := repeat split; vm_compute; (reflexivity || discriminate).

(** ** A concrete kernel *)

(** Page 1 is the root table, all its entries empty; pages 0 and 1 are in use. *)
Definition kernel0 : kstate phys := KState ∅ (Phys [3; 0] 0 2 2 0 []) 0 1 [].
Definition context0 : paging_context := new_index 0x1000.
Definition tree0 : tree := {[ 0x1000 := (4%nat, 0) ]}.

Lemma load8_empty a : load8 ∅ a = 0.
Proof. unfold load8. by rewrite lookup_empty. Qed.

Lemma load64_empty a : load64 ∅ a = 0.
Proof. apply load_zero. intros. apply load8_empty. Qed.

Lemma walk_empty l t va : walk l ∅ t va = None.
Proof. destruct l as [|l]; [done|]. cbn [walk]. by rewrite load64_empty. Qed.

Lemma kernel0_ok : state_ok tree0 0x1000 kernel0.
Proof.
  constructor; cbn [k_alloc kernel0 k_mem].
  - constructor; cbn [allocation_table allocation_table_length allocation_index memory_lock];
      [done|lia| |lia|done].
    apply list.Forall_cons. split; [|apply list.Forall_cons; split; [apply word_ok_zero|done]].
    split; [lia|]. intros i Hi. rewrite !(testbit_high 3 2) by lia. done.
  - split; [lia|]. intros w Hw. cbn in Hw. by injection Hw as <-.
  - constructor.
    + by vm_compute.
    + unfold tree0. intros t l p [<- [= <- <-]]%lookup_singleton_Some. split; [lia|]. split; [done|]. split; [lia|].
      split; [by vm_compute|]. intros w Hw. change (0x1000 / 2 ^ 12 / 64) with 0 in Hw. cbn in Hw.
      by injection Hw as <-.
    + intros t l p i _ Hi. left. apply load64_empty.
Qed.

Lemma kernel0_no_big_leaf l x : no_big_leaf l (k_mem kernel0) 0x1000 x.
Proof. intros l' e Hw. cbn [kernel0 k_mem] in Hw. by rewrite walk_empty in Hw. Qed.

(** ** Properties *)

(** C22. [paging_get_physical_address] computes the page walk: the answer is the frame of the
    first leaf on the path of the address (level 3, 2 or 1) plus the offset in that page, and 0 when
    there is none; only warnings are printed, nothing else changes. *)
Theorem paging_get_physical_address_walks (s : kstate phys) c va :
  ∃ s', paging_get_physical_address c va s =
      Ok (leaf_address (walk 4 (k_mem s) (level4_table c) va) va, s') ∧
    k_mem s' = k_mem s ∧ k_alloc s' = k_alloc s ∧ used_virtual_pages s' = used_virtual_pages s.
Proof.
  destruct (get_physical_address_walk s c va) as (s' & Hr & H1 & H2 & H3 & _). by exists s'.
Qed.

(** C2. Mapping 4KiB pages at an address whose level 1 table is there already or whose level 2 and
    level 3 indices agree: after [paging_map_physical_at] the whole range resolves to the physical
    range, byte for byte; every other address resolves as before; the tables are still a tree and
    memory in use outside them is unchanged. Needed: aligned addresses; a first page that is not
    mapped; no huge page in the way; pages for the tables; and [level1_linkable], the condition on
    the address just named, because line 611 of [paging.c] links a new level 1 table at the level 3
    index. In a new address space it fails at 0x200000, say, and there the call does not map the
    range: [PagingMislink.paging_map_physical_at_mislinks] is what it does instead. *)
Theorem paging_map_physical_at_4kb {A} {PA : PageAllocator A} {PAL : PageAllocatorLaws A}
    T (s : kstate A) c pa va bytes flags n :
  state_ok T (level4_table c) s → map_request 1 va pa bytes flags n →
  truthy (Z.land flags PAGING_FLAG_1GB) = false → truthy (Z.land flags PAGING_FLAG_2MB) = false →
  level1_linkable (k_mem s) (level4_table c) va → walk 4 (k_mem s) (level4_table c) va = None →
  (∀ x, va ≤ x ≤ va + n * 2 ^ 12 → no_big_leaf 1 (k_mem s) (level4_table c) x) →
  3 * n + 3 ≤ pa_avail (k_alloc s) →
  mapped 1 c va pa n T s (paging_map_physical_at c pa va bytes flags s).
Proof.
  intros Hs Hreq Hf1 Hf2 Hlink Hw Hno Hav. pose proof (paging_convert_flags_range flags) as Hf.
  destruct (mapped_4kb T s c pa va bytes flags n Hs Hreq Hf1 Hf2 Hlink Hw Hno Hav)
    as (s' & T' & -> & Hs' & Hg & Hm).
  assert (n = n * 2 ^ (lsh 1 - 12)) as Hn by (change (2 ^ (lsh 1 - 12)) with 1; lia). rewrite Hn at 2.
  eapply mapped_intro; [lia|done| |done|done|done]. lia.
Qed.

Definition request0 : map_request 1 0x40201000 0xB8000 4096 PAGING_FLAG_WRITE 1.
Proof. constructor; closed_arith. Defined.

Lemma paging_map_physical_at_4kb_witness :
  mapped 1 context0 0x40201000 0xB8000 1 tree0 kernel0
    (paging_map_physical_at context0 0xB8000 0x40201000 4096 PAGING_FLAG_WRITE kernel0).
Proof.
  apply (paging_map_physical_at_4kb tree0 kernel0 context0 0xB8000 0x40201000 4096 PAGING_FLAG_WRITE 1).
  - exact kernel0_ok.
  - exact request0.
  - reflexivity.
  - reflexivity.
  - left. by vm_compute.
  - apply walk_empty.
  - intros x _. apply kernel0_no_big_leaf.
  - by vm_compute.
Defined.

(** Mapping 2MiB pages: as for 4KiB pages, for an empty level 2 slot. *)
Theorem paging_map_physical_at_2mb {A} {PA : PageAllocator A} {PAL : PageAllocatorLaws A}
    T (s : kstate A) c pa va bytes flags n :
  state_ok T (level4_table c) s → map_request 2 va pa bytes flags n →
  truthy (Z.land flags PAGING_FLAG_1GB) = false → truthy (Z.land flags PAGING_FLAG_2MB) = true →
  vacant 2 (k_mem s) (level4_table c) va →
  (∀ x, va ≤ x ≤ va + n * 2 ^ 21 → no_big_leaf 2 (k_mem s) (level4_table c) x) →
  2 * n + 2 ≤ pa_avail (k_alloc s) →
  mapped 2 c va pa n T s (paging_map_physical_at c pa va bytes flags s).
Proof.
  intros Hs Hreq Hf1 Hf2 Hw Hno Hav. pose proof (paging_convert_flags_range flags) as Hf.
  destruct (mapped_2mb T s c pa va bytes flags n Hs Hreq Hf1 Hf2 Hw Hno Hav)
    as (s' & T' & -> & Hs' & Hg & Hm).
  change (n * 512) with (n * 2 ^ (lsh 2 - 12)).
  eapply mapped_intro; [lia|done| |done|done|done]. lia.
Qed.

Lemma paging_map_physical_at_2mb_witness :
  mapped 2 context0 0x8000000000 0x40000000 2 tree0 kernel0
    (paging_map_physical_at context0 0x40000000 0x8000000000 0x200001
       (PAGING_FLAG_WRITE + PAGING_FLAG_2MB) kernel0).
Proof.
  apply (paging_map_physical_at_2mb tree0 kernel0 context0 0x40000000 0x8000000000 0x200001
    (PAGING_FLAG_WRITE + PAGING_FLAG_2MB) 2).
  - exact kernel0_ok.
  - constructor; closed_arith.
  - reflexivity.
  - reflexivity.
  - split; [apply walk_empty|]. by right; vm_compute.
  - intros x _. apply kernel0_no_big_leaf.
  - by vm_compute.
Defined.

(** Mapping 1GiB pages within one level 3 table, on a processor that supports them. *)
Theorem paging_map_physical_at_1gb {A} {PA : PageAllocator A} {PAL : PageAllocatorLaws A}
    T (s : kstate A) c pa va bytes flags n :
  state_ok T (level4_table c) s → hugepages_supported s ≠ 0 → map_request 3 va pa bytes flags n →
  truthy (Z.land flags PAGING_FLAG_1GB) = true → va mod 2 ^ 39 + n * 2 ^ 30 < 2 ^ 39 →
  vacant 3 (k_mem s) (level4_table c) va → n + 1 ≤ pa_avail (k_alloc s) →
  mapped 3 c va pa n T s (paging_map_physical_at c pa va bytes flags s).
Proof.
  intros Hs Hh Hreq Hf1 Hblock Hw Hav. pose proof (paging_convert_flags_range flags) as Hf.
  pose proof Hreq as [Hfl Hb Hn (Hva & Hval & Hvend) (Hpa & Hpal & Hpend)].
  destruct (map_physical_at_1gb T (level4_table c) s c pa va bytes flags n Hs eq_refl Hh Hfl Hf1 Hb Hn Hva Hval
    Hblock Hvend Hpa Hpal Hpend Hw Hav) as (s' & T' & -> & Hs' & Hg & Hm).
  replace (n * 512 * 512) with (n * 2 ^ (lsh 3 - 12)) by (change (2 ^ (lsh 3 - 12)) with (512 * 512); lia).
  eapply mapped_intro; [lia|done| |done|done|done]. lia.
Qed.

Lemma paging_map_physical_at_1gb_witness :
  mapped 3 context0 0x40000000 0 1 tree0 kernel0
    (paging_map_physical_at context0 0 0x40000000 0x1000 PAGING_FLAG_1GB kernel0).
Proof.
  apply (paging_map_physical_at_1gb tree0 kernel0 context0 0 0x40000000 0x1000 PAGING_FLAG_1GB 1).
  - exact kernel0_ok.
  - discriminate.
  - constructor; closed_arith.
  - reflexivity.
  - by vm_compute.
  - split; [apply walk_empty|]. by right; vm_compute.
  - by vm_compute.
Defined.

(** C3. [paging_unmap] of a mapped range of 4KiB, 2MiB or 1GiB pages (whichever the first page
    is) returns 1: afterwards no address of the range resolves, every other address resolves as
    before, the tables are intact, no other memory changed, and the page count went down by the
    pages of the range. Needed: the tables of the range exist up to its end. *)
Theorem paging_unmap_clears_range {A} {PA : PageAllocator A} {PAL : PageAllocatorLaws A}
    l T (s : kstate A) c va bytes n :
  (1 ≤ l ≤ 3)%nat → state_ok T (level4_table c) s → unmap_request l c va bytes n s →
  unmapped l c va n T s (paging_unmap c va bytes s).
Proof. apply unmap_request_ok. Qed.

(** A kernel with the page of [request0] mapped. *)
Lemma kernel1_exists : ∃ s T, paging_map_physical_at context0 0xB8000 0x40201000 4096 PAGING_FLAG_WRITE kernel0
    = Ok (0x40201000, s) ∧ state_ok T (level4_table context0) s ∧ unmap_request 1 context0 0x40201000 4096 1 s.
Proof.
  destruct (mapped_4kb tree0 kernel0 context0 0xB8000 0x40201000 4096 PAGING_FLAG_WRITE 1 kernel0_ok request0)
    as (s' & T' & Hr & Hs' & _ & Hm); [done|done|by left; vm_compute|apply walk_empty
    |intros x _; apply kernel0_no_big_leaf|by vm_compute|].
  eexists _, T'. split; [exact Hr|]. split; [by apply state_ok_set_used|].
  by apply (maps_range_unmap_request 1 _ _ _ _ _ _ _ _ _ _ ltac:(lia) request0 ltac:(lia) Hm).
Qed.

Lemma paging_unmap_clears_range_witness :
  ∃ s T, paging_map_physical_at context0 0xB8000 0x40201000 4096 PAGING_FLAG_WRITE kernel0 = Ok (0x40201000, s) ∧
    unmapped 1 context0 0x40201000 1 T s (paging_unmap context0 0x40201000 4096 s).
Proof.
  destruct kernel1_exists as (s & T & Hr & Hs & Hreq). exists s, T. split; [exact Hr|].
  apply (paging_unmap_clears_range 1 T s context0 0x40201000 4096 1); [lia|exact Hs|exact Hreq].
Defined.

(** C18. Round trip, for an address whose level 1 table is there already or whose level 2 and level
    3 indices agree: mapping a range of 4KiB pages and unmapping it again leaves no address of the
    range mapped, every other address as it was before both calls, and the page count as it was.
    Needed: what [paging_map_physical_at_4kb] needs, the condition [level1_linkable] on the address
    included (without it [PagingMislink.paging_map_physical_at_mislinks] applies and there is
    nothing at the address to unmap). *)
Theorem paging_map_unmap_roundtrip {A} {PA : PageAllocator A} {PAL : PageAllocatorLaws A}
    T (s : kstate A) c pa va bytes flags n :
  state_ok T (level4_table c) s → map_request 1 va pa bytes flags n → bytes < 2 ^ 64 →
  truthy (Z.land flags PAGING_FLAG_1GB) = false → truthy (Z.land flags PAGING_FLAG_2MB) = false →
  level1_linkable (k_mem s) (level4_table c) va → walk 4 (k_mem s) (level4_table c) va = None →
  (∀ x, va ≤ x ≤ va + n * 2 ^ 12 → no_big_leaf 1 (k_mem s) (level4_table c) x) →
  3 * n + 3 ≤ pa_avail (k_alloc s) → 0 ≤ used_virtual_pages s < 2 ^ 64 →
  ∃ s1 s2, paging_map_physical_at c pa va bytes flags s = Ok (va, s1) ∧
    paging_unmap c va bytes s1 = Ok (1, s2) ∧
    (∀ x, va ≤ x < va + n * 2 ^ 12 → resolves c s2 x 0) ∧
    (∀ x, 0 ≤ x < 2 ^ 48 → ¬ (va ≤ x < va + n * 2 ^ 12) →
       ∃ y, resolves c s x y ∧ resolves c s1 x y ∧ resolves c s2 x y) ∧
    used_virtual_pages s2 = used_virtual_pages s.
Proof.
  intros Hs Hreq Hb Hf1 Hf2 Hlink Hw Hno Hav Hused.
  destruct (mapped_4kb T s c pa va bytes flags n Hs Hreq Hf1 Hf2 Hlink Hw Hno Hav)
    as (s1 & T1 & Hr1 & Hs1 & Hg & Hm). set (s1' := set_used _ s1) in *.
  pose proof (maps_range_unmap_request 1 c va pa bytes flags n _ s s1 (used_virtual_pages s1') ltac:(lia) Hreq Hb Hm) as Hun.
  destruct (unreq_leaf _ _ _ _ _ _ Hun) as [e Hw1].
  destruct (unmap_4kb T1 _ s1' c va bytes n e (state_ok_set_used _ _ _ _ Hs1) eq_refl Hw1)
    as (s2 & Hr2 & Hs2 & Hg2 & Hc); [split; [apply Hreq|done]|apply Hreq|apply Hreq|apply Hreq|apply Hreq|apply Hun|].
  eexists s1', _. split; [exact Hr1|]. split; [exact Hr2|].
  destruct (clears_pages_exactly 1 c va n s1' s2 (u64 (used_virtual_pages s1' - n)) Hc) as [Hin Hout];
    [pose proof (request_pages _ _ _ _ _ _ Hreq); lia|apply Hreq|apply Hreq|apply Hreq|].
  split; [exact Hin|]. split.
  - intros x Hx Hx'. exists (translate (k_mem s1) (level4_table c) x).
    split; [|split; [apply (resolves_translate c s1')|]].
    + unfold translate. rewrite (mr_out _ _ _ _ _ _ _ _ Hm x Hx Hx'). apply resolves_translate.
    + assert (walk 4 (k_mem s2) (level4_table c) x = walk 4 (k_mem s1) (level4_table c) x) as Hw2.
      { apply (proj2 Hc x). rewrite <- vpn_range; [exact Hx'|apply Hreq|apply Hreq|apply Hreq|done]. }
      unfold translate. rewrite <- Hw2. apply (resolves_translate c (set_used _ s2)).
  - cbn [used_virtual_pages set_used s1']. unfold u64. rewrite Zminus_mod_idemp_l.
    replace (used_virtual_pages s + n - n) with (used_virtual_pages s) by lia. by apply Z.mod_small.
Qed.

Lemma paging_map_unmap_roundtrip_witness :
  ∃ s1 s2, paging_map_physical_at context0 0xB8000 0x40201000 4096 PAGING_FLAG_WRITE kernel0 = Ok (0x40201000, s1) ∧
    paging_unmap context0 0x40201000 4096 s1 = Ok (1, s2) ∧ used_virtual_pages s2 = 0.
Proof.
  destruct (paging_map_unmap_roundtrip tree0 kernel0 context0 0xB8000 0x40201000 4096 PAGING_FLAG_WRITE 1
    kernel0_ok request0) as (s1 & s2 & H1 & H2 & _ & _ & H3).
  - lia.
  - reflexivity.
  - reflexivity.
  - left. by vm_compute.
  - apply walk_empty.
  - intros x _. apply kernel0_no_big_leaf.
  - by vm_compute.
  - cbn. lia.
  - exists s1, s2. split; [exact H1|]. split; [exact H2|exact H3].
Defined.

(** The entry flags: every mapped page is present; it is writable exactly when
    [PAGING_FLAG_WRITE] was given and open to user mode exactly when [PAGING_FLAG_USER] was, and no
    bit that holds part of the frame or the page size is set. *)
Theorem paging_convert_flags_spec flags :
  Z.testbit (paging_convert_flags flags) 0 = true ∧
  Z.testbit (paging_convert_flags flags) 1 = Z.testbit flags 1 ∧
  Z.testbit (paging_convert_flags flags) 2 = Z.testbit flags 3 ∧
  ∀ i, 3 ≤ i → Z.testbit (paging_convert_flags flags) i = false.
Proof.
  unfold paging_convert_flags.
  change PAGING_FLAG_WRITE with (2 ^ 1). change PAGING_FLAG_USER with (2 ^ 3).
  rewrite !land_bit by lia.
  destruct (Z.testbit flags 1), (Z.testbit flags 3); repeat (split; [reflexivity|]);
    intros i Hi; apply (testbit_high _ 3); (done || lia).
Qed.

(** A 4KiB page that is already mapped is not mapped again: [paging_map_physical_at] returns
    0 and no translation, no page in use and no page count changes. *)
Theorem paging_map_physical_at_refuses_mapped_page {A} {PA : PageAllocator A} {PAL : PageAllocatorLaws A}
    T (s : kstate A) c pa va bytes flags e :
  state_ok T (level4_table c) s → 0 ≤ flags < 2 ^ 16 → 0 < bytes → va mod 2 ^ 12 = 0 →
  truthy (Z.land flags PAGING_FLAG_1GB) = false → truthy (Z.land flags PAGING_FLAG_2MB) = false →
  walk 4 (k_mem s) (level4_table c) va = Some (1%nat, e) → 3 ≤ pa_avail (k_alloc s) →
  ∃ s', paging_map_physical_at c pa va bytes flags s = Ok (0, s') ∧
    used_virtual_pages s' = used_virtual_pages s ∧ ∀ x, same_answer c s s' x.
Proof.
  intros Hs Hfl Hb Hal Hf1 Hf2 Hw Hav.
  destruct (walk_some_descend 4 _ _ _ 1 e ltac:(lia) Hw) as (t & Ht & _ & He). cbn [Nat.sub] in Ht.
  assert (e ≠ 0) as Hne by apply (walk_leaf_level _ _ _ _ _ _ Hw).
  destruct (index_4kb_ok T (level4_table c) s (new_index (level4_table c)) va flags 0 Hs eq_refl Hf1 Hf2 Hal)
    as (c1 & s1 & T1 & Hr1 & [Hs1 Hg1 Hw1] & Hc1 & _);
    [intros l' e' H; rewrite Hw in H; injection H as <- <-; lia|right; by exists t|lia|lia|].
  destruct (at_1 _ _ _ _ _ Hc1) as [Hd1 Hi1]; [done|]. destruct (at_2 _ _ _ _ _ Hc1) as [Hd2 Hi2]; [lia|].
  destruct (at_3 _ _ _ _ _ Hc1) as [Hd3 Hi3]; [lia|].
  assert (load64 (k_mem s1) (level1_table c1 + 8 * idx 1 va) = e) as He1.
  { assert (walk 4 (k_mem s1) (level4_table c) va = Some (1%nat, e)) as Hw' by (by rewrite (proj1 Hw1)).
    destruct (walk_some_descend 4 _ _ _ 1 e ltac:(lia) Hw') as (t' & Ht' & _ & ->).
    cbn [Nat.sub] in Ht'. congruence. }
  exists (add_log (CPrint ("[paging_map_index_physical] tried to map at already mapped address (4KiB)" +:+ nl)) s1).
  split; [|split; [apply (g_pages _ _ _ _ _ Hg1)|intros x; apply walk_same_answer; apply (proj1 Hw1)]].
  unfold paging_map_physical_at. rewrite (bind_ok _ _ _ _ _ Hr1). cbn [truthy Z.eqb negb].
  rewrite u16_small by lia. unfold paging_map_index_physical, load_entry.
  rewrite (proj2 (Z.leb_gt _ _)) by lia. cbv zeta. mstep. rewrite Hi3, Hi2, Hi1, Hf1, Hf2.
  rewrite (descend_not_leaf 3 _ _ va _ _ ltac:(lia) Hd3 Hd2). cbn [orb]. mstep.
  rewrite (descend_not_leaf 2 _ _ va _ _ ltac:(lia) Hd2 Hd1). cbn [orb]. mstep.
  rewrite He1, (proj2 (truthy_spec e) Hne). reflexivity.
Qed.

Lemma paging_map_physical_at_refuses_mapped_page_witness :
  ∃ s s', paging_map_physical_at context0 0xB8000 0x40201000 4096 PAGING_FLAG_WRITE kernel0 = Ok (0x40201000, s) ∧
    paging_map_physical_at context0 0x5000 0x40201000 4096 PAGING_FLAG_WRITE s = Ok (0, s').
Proof.
  destruct (mapped_4kb tree0 kernel0 context0 0xB8000 0x40201000 4096 PAGING_FLAG_WRITE 1 kernel0_ok request0)
    as (s' & T' & Hr & Hs' & Hg & Hm); [done|done|by left; vm_compute|apply walk_empty
    |intros x _; apply kernel0_no_big_leaf|by vm_compute|].
  pose proof (g_avail _ _ _ _ _ Hg) as Hav. change (pa_avail (k_alloc kernel0)) with 62 in Hav.
  pose proof (mr_in _ _ _ _ _ _ _ _ Hm 0x40201000 ltac:(split; by vm_compute)) as Hw.
  assert (∃ e, walk 4 (k_mem s') (level4_table context0) 0x40201000 = Some (1%nat, e)) as [e He] by by eexists.
  destruct (paging_map_physical_at_refuses_mapped_page T' (set_used (u64 (0 + 1)) s') context0 0x5000 0x40201000
    4096 PAGING_FLAG_WRITE e (state_ok_set_used _ _ _ _ Hs')) as (s2 & H2 & _).
  - unfold PAGING_FLAG_WRITE; lia.
  - lia.
  - reflexivity.
  - reflexivity.
  - reflexivity.
  - exact He.
  - cbn [k_alloc set_used]. lia.
  - eexists _, s2. split; [exact Hr|exact H2].
Defined.
