(* ===== verification/PagingMislink.v ===== *)
(** * The level 1 table linked through the wrong index

    [paging_virtual_address_to_index] links a new level 1 table at
    [level3_index] of the level 2 table (line 611). [PagingSpec] has the
    mapping functions where that is right; this file says what a mapping does
    where it is not. *)

From S2P Require Import Prelude Memory Allocator Lock Physical PhysicalSpec.
From S2P Require Import Paging PagingWalk PagingStep PagingMap PagingUnmap PagingSpec.

Section Mislink.
Context {A : Type} {PA : PageAllocator A} {PAL : PageAllocatorLaws A}.
Implicit Types (s : kstate A) (T : tree).

(** The address whose level 2 index is the level 3 index of [va]. *)
Definition alias_address (va : Z) : Z := va + (idx 3 va - idx 2 va) * 2 ^ 21.

(** Nothing is behind an empty level 2 slot. *)
Lemma vacant2_free m root va x : vacant 2 m root va → vpn 2 x = vpn 2 va → walk 4 m root x = None.
Proof.
  intros [Hw Hd] E. destruct (walk 4 m root x) as [[l e]|] eqn:Hx; [exfalso|done].
  destruct Hd as [?|Hd]; [done|]. destruct (decide (2 ≤ l)%nat) as [Hl|Hl].
  - rewrite (walk_cong 4 m root x va l e Hx) in Hw; [done|]. by apply (vpn_eq_up 2).
  - pose proof (walk_level_pos _ _ _ _ _ _ Hx). assert (l = 1%nat) as -> by lia.
    destruct (walk_some_descend 4 m root x 1 e ltac:(lia) Hx) as (t & Ht & _). change (4 - 1)%nat with 3%nat in Ht.
    rewrite (descend_cong 3 4 m root x va) in Ht; [|lia|exact E]. change (5 - 2)%nat with 3%nat in Hd. congruence.
Qed.

Lemma vacant2_no_big_leaf m root va x k : vacant 2 m root va → vpn 2 x = vpn 2 va → no_big_leaf k m root x.
Proof. intros Hv E l e. by rewrite (vacant2_free m root va x Hv E). Qed.

(** ** The address where the mapping lands *)

Lemma alias_facts va n :
  0 ≤ va → va mod 2 ^ 12 = 0 → va + n * 2 ^ 12 < 2 ^ 48 → 0 < n → idx 1 va + n < 512 →
  let va' := alias_address va in
  (0 ≤ va' ∧ va' mod 2 ^ 12 = 0 ∧ va' + n * 2 ^ 12 < 2 ^ 48) ∧
  idx 1 va' = idx 1 va ∧ idx 2 va' = idx 3 va ∧ vpn 3 va' = vpn 3 va ∧
  (∀ x, va ≤ x ≤ va + n * 2 ^ 12 → vpn 2 x = vpn 2 va) ∧
  (∀ x, va' ≤ x ≤ va' + n * 2 ^ 12 → vpn 2 x = vpn 2 va').
Proof.
  intros Hva Hal Hend Hn Hroom va'. pose proof (idx_range 2 va) as R2. pose proof (idx_range 3 va) as R3.
  set (q := va / 2 ^ 30). set (r := va mod 2 ^ 21).
  assert (idx 2 va = va / 2 ^ 21 mod 512) as I2 by (unfold idx; rewrite vpn_small by lia; done).
  assert (idx 1 va = va / 2 ^ 12 mod 512) as I1 by (unfold idx; rewrite vpn_small by lia; done).
  assert (va = q * 2 ^ 30 + idx 2 va * 2 ^ 21 + r) as Eva by (rewrite I2; unfold q, r; divmod_lia).
  assert (va' = q * 2 ^ 30 + idx 3 va * 2 ^ 21 + r) as Eva' by (unfold va', alias_address; lia).
  assert (r = idx 1 va * 2 ^ 12 ∧ 0 ≤ q < 2 ^ 18) as [Er Hq] by (rewrite I1; unfold r, q; divmod_lia).
  assert (0 ≤ r ∧ r + n * 2 ^ 12 < 2 ^ 21) as Hr by (pose proof (idx_range 1 va); lia).
  clearbody q r va'.
  assert (∀ k x, 0 ≤ k < 512 → q * 2 ^ 30 + k * 2 ^ 21 + r ≤ x ≤ q * 2 ^ 30 + k * 2 ^ 21 + r + n * 2 ^ 12 →
    0 ≤ x < 2 ^ 48 ∧ vpn 2 x = q * 512 + k ∧ vpn 3 x = q) as Hvpn.
  { intros k x Hk Hx. assert (0 ≤ x < 2 ^ 48) as Hx48 by lia. split; [done|]. rewrite !vpn_small by done.
    change (lsh 2) with 21. change (lsh 3) with 30. split; [|divmod_lia].
    symmetry. apply (Z.div_unique_pos _ _ _ (x - (q * 512 + k) * 2 ^ 21)); lia. }
  destruct (Hvpn (idx 3 va) va') as (Hr' & V2' & V3'); [done|lia|].
  destruct (Hvpn (idx 2 va) va) as (_ & V2 & V3); [done|lia|].
  split; [split; [lia|]; split; [rewrite Eva', Er; divmod_lia|lia]|].
  split; [unfold idx; rewrite !vpn_small by lia; change (lsh 1) with 12; rewrite Eva', Eva at 1; divmod_lia|].
  split; [unfold idx at 1; rewrite V2'; rewrite Z.add_comm, Z.mod_add by lia; by apply Z.mod_small|].
  split; [congruence|]. split.
  - intros x Hx. rewrite V2. apply (Hvpn (idx 2 va) x R2). lia.
  - intros x Hx. rewrite V2'. apply (Hvpn (idx 3 va) x R3). lia.
Qed.

(** ** The two calls step by step *)

Lemma ensure_table_empty parent i j s :
  Z.land (load64 (k_mem s) (parent + 8 * i)) PAGING_ADDRESS_MASK = 0 →
  ensure_table parent i j s = (let! t := new_table in store_entry parent j (table_entry t) ;;; ret t) s.
Proof. intros H. unfold ensure_table, load_entry. mstep. by rewrite H. Qed.

(** The context for [va] is that for the alias but for the level 2 index. *)
Lemma index_alias T root s c va flags n :
  state_ok T root s → level4_table c = root → truthy (Z.land flags PAGING_FLAG_1GB) = false →
  truthy (Z.land flags PAGING_FLAG_2MB) = false → va mod 2 ^ 12 = 0 → alias_address va mod 2 ^ 12 = 0 →
  idx 1 (alias_address va) = idx 1 va → idx 2 (alias_address va) = idx 3 va → vpn 3 (alias_address va) = vpn 3 va →
  vacant 2 (k_mem s) root va → vacant 2 (k_mem s) root (alias_address va) → n + 2 ≤ pa_avail (k_alloc s) → 0 ≤ n →
  ∃ c2 s2, level2_index c2 = idx 2 va ∧ load64 (k_mem s2) (level2_table c2 + 8 * idx 2 va) = 0 ∧
    load64 (k_mem s2) (level2_table c2 + 8 * idx 3 va) = 0 ∧ level3_index c2 = idx 3 va ∧
    let link := let! t := new_table in store_entry (level2_table c2) (idx 3 va) (table_entry t) ;;; ret t in
    let finish c t := (1, set_level1_index (idx 1 va) (set_level1_table t c)) in
    paging_virtual_address_to_index c va flags s =
      (let! t := link in ret (finish c2 t)) s2 ∧
    paging_virtual_address_to_index c (alias_address va) flags s =
      (let! t := link in ret (finish (set_level2_index (idx 3 va) c2) t)) s2.
Proof.
  intros Hs Hroot Hf1 Hf2 Hal Hal' I1 I2 V3 Hv Hv' Hav Hn. set (va' := alias_address va) in *.
  assert (idx 3 va' = idx 3 va ∧ idx 4 va' = idx 4 va) as [I3 I4]
    by (unfold idx; split; [by rewrite V3|by rewrite !(vpn_S 3), V3]).
  destruct (index_level4_ok T root s c va (n + 1) Hs Hroot) as (c1 & s1 & T1 & Hr1 & A1 & C1 & K1 & Hav1); [lia|lia|].
  destruct (index_level3_ok T1 root s1 c1 va n (adv_ok _ _ _ _ _ _ _ A1) C1)
    as (c2 & s2 & T2 & Hr2 & A2 & C2 & K2 & Hav2); [|lia|lia|].
  { eapply no_big_leaf_kept; [by eapply adv_walks|]. by apply (vacant_no_big_leaf 2). }
  destruct (at_2 _ _ _ _ _ C2) as [Hd2 Hi2]; [done|]. destruct (at_3 _ _ _ _ _ C2) as [Hd3 Hi3]; [lia|].
  assert (∀ x, vacant 2 (k_mem s) root x → vacant 2 (k_mem s2) root x) as Hkeep.
  { intros x Hx. destruct A1 as [_ _ [W1 _] _], A2 as [_ _ [W2 _] _]. destruct Hx as [H1 H2].
    split; [by rewrite W2, W1|]. destruct H2 as [?|H2]; [by left|]. right. by rewrite K2, K1 by lia. }
  pose proof (vacant_slot 2 _ root va _ ltac:(lia) (Hkeep va Hv) Hd2) as Hz.
  assert (descend (4 - 2) 4 (k_mem s2) root va' = Some (level2_table c2)) as Hd2'
    by (rewrite <- Hd2; by apply descend_cong; [lia|]).
  pose proof (vacant_slot 2 _ root va' _ ltac:(lia) (Hkeep va' Hv') Hd2') as Hz'. rewrite I2 in Hz'.
  assert (index_level4 c va' s = Ok (c1, s1)) as Hr1'.
  { rewrite <- Hr1. unfold index_level4. by rewrite !table_index_39, !table_index_30, I3, I4. }
  assert (index_level3 c1 va' s1 = Ok (set_level2_index (idx 3 va) c2, s2)) as Hr2'.
  { revert Hr2. unfold index_level3. rewrite !table_index_21, I2. unfold bind.
    destruct (ensure_table _ _ _ s1) as [[t s']| |]; [|done|done]. by intros [= <- <-]. }
  exists c2, s2. split; [done|]. split; [done|]. split; [done|]. split; [done|]. cbv zeta. split.
  - rewrite virtual_address_to_index_eq, (bind_ok _ _ _ _ _ Hr1), Hf1. cbv iota.
    rewrite (bind_ok _ _ _ _ _ Hr2), Hf2. cbv iota zeta. rewrite Hi2, Hi3.
    change 0xFFF with (2 ^ 12 - 1). rewrite aligned_land by done. rewrite table_index_12.
    unfold bind at 1. rewrite ensure_table_empty by (by rewrite Hz). reflexivity.
  - rewrite virtual_address_to_index_eq, (bind_ok _ _ _ _ _ Hr1'), Hf1. cbv iota.
    rewrite (bind_ok _ _ _ _ _ Hr2'), Hf2. cbv iota zeta. ctx_simpl. rewrite Hi3.
    change 0xFFF with (2 ^ 12 - 1). rewrite aligned_land by done. rewrite table_index_12, I1.
    unfold bind at 1. rewrite ensure_table_empty by (by rewrite Hz'). reflexivity.
Qed.

(** While the loop stays within its level 1 table it does not look at the
    level 2 index. *)
Lemma map_loop_level2 pa f k n : ∀ i c s c' s',
  0 ≤ level1_index c → level1_index c + Z.of_nat n < 512 →
  map_loop (map_4kb_body pa f) n i c s = Ok ((true, c'), s') →
  map_loop (map_4kb_body pa f) n i (set_level2_index k c) s = Ok ((true, set_level2_index k c'), s').
Proof.
  induction n as [|n IH]; intros i c s c' s' H0 Hn; [by intros [= -> ->]|].
  cbn [map_loop]. unfold map_4kb_body at 1 3, store_entry, next_level1. cbv zeta. mstep. ctx_simpl.
  rewrite u16_small by lia. rewrite (proj2 (Z.leb_gt 512 _)) by lia. mstep.
  intros H. apply IH in H; ctx_simpl; [exact H|lia|lia].
Qed.

(** The empty slot of an unmapped address has no size bit. *)
Lemma walk_none_size l m root va t :
  (2 ≤ l ≤ 3)%nat → walk 4 m root va = None → descend (4 - l) 4 m root va = Some t →
  truthy (Z.land (load64 m (t + 8 * idx l va)) PAGING_ENTRY_FLAG_SIZE) = false.
Proof.
  intros Hl Hw Hd. rewrite (land_size _ l) by lia. destruct (leafb l _) eqn:E; [exfalso|done].
  rewrite (walk_descend (4 - l) 4 _ _ _ t) in Hw by (done || lia).
  replace (4 - (4 - l))%nat with l in Hw by lia. destruct l as [|l]; [lia|]. cbn [walk] in Hw.
  destruct (Z.eqb_spec (load64 m (t + 8 * idx (S l) va)) 0) as [H0|]; [|by rewrite E in Hw].
  rewrite H0 in E. destruct l as [|[|[|l]]]; [lia|done|done|lia].
Qed.

(** The mapping of the context: the same, whichever level 2 index it holds. *)
Lemma map_index_alias root s c pa va bytes flags k c' s' :
  ctx_at 1 c root va (k_mem s) → truthy (Z.land flags PAGING_FLAG_1GB) = false →
  truthy (Z.land flags PAGING_FLAG_2MB) = false → 0 < bytes →
  idx 1 va + ((bytes - 1) / 2 ^ 12 + 1) < 512 →
  truthy (Z.land (load64 (k_mem s) (level2_table c + 8 * k)) PAGING_ENTRY_FLAG_SIZE) = false →
  paging_map_index_physical pa c bytes flags s = Ok ((1, c'), s') →
  ∃ c'', paging_map_index_physical pa (set_level2_index k c) bytes flags s = Ok ((1, c''), s').
Proof.
  intros Hc Hf1 Hf2 Hb Hroom Hk. pose proof (idx_range 1 va).
  assert (0 ≤ (bytes - 1) / 2 ^ 12) by (apply Z.div_pos; lia).
  destruct (at_1 _ _ _ _ _ Hc) as [Hd1 Hi1]; [done|]. destruct (at_2 _ _ _ _ _ Hc) as [Hd2 Hi2]; [lia|].
  destruct (at_3 _ _ _ _ _ Hc) as [Hd3 Hi3]; [lia|].
  unfold paging_map_index_physical, load_entry. rewrite (proj2 (Z.leb_gt _ _)) by lia. cbv zeta. mstep. ctx_simpl.
  rewrite Hi3, Hi2, Hf1, Hf2, (descend_not_leaf 3 _ root va _ _ ltac:(lia) Hd3 Hd2). cbn [orb]. mstep.
  rewrite Hk, (descend_not_leaf 2 _ root va _ _ ltac:(lia) Hd2 Hd1). cbn [orb]. mstep.
  destruct (truthy (load64 _ _)); [done|]. destruct (truthy (Z.land pa _)); [done|]. rewrite shiftr_div by lia.
  unfold bind at 1 2. destruct (map_loop _ _ _ c s) as [[[ok c1] s1]| |] eqn:Hr; [|done|done].
  destruct ok; [|done]. apply map_loop_level2 with (k := k) in Hr; [rewrite Hr|lia|lia].
  unfold finish_map, add_used_virtual_pages. cbn [fst snd]. mstep. intros [= <- <-]. by eexists.
Qed.

(** The requirements of the mapping at hand: 4KiB pages, within one level 1
    table, where neither [va] nor the alias has one. *)
Record mislinked (c : paging_context) va pa bytes flags n s : Prop := {
  mis_request : map_request 1 va pa bytes flags n;
  mis_1gb : truthy (Z.land flags PAGING_FLAG_1GB) = false;
  mis_2mb : truthy (Z.land flags PAGING_FLAG_2MB) = false;
  mis_room : idx 1 va + n < 512;
  mis_vacant : vacant 2 (k_mem s) (level4_table c) va;
  mis_alias : vacant 2 (k_mem s) (level4_table c) (alias_address va);
  mis_avail : 3 * n + 3 ≤ pa_avail (k_alloc s)
}.

Lemma mislinked_facts c va pa bytes flags n s :
  mislinked c va pa bytes flags n s → let va' := alias_address va in
  map_request 1 va' pa bytes flags n ∧
  idx 1 va' = idx 1 va ∧ idx 2 va' = idx 3 va ∧ idx 2 va' = idx 3 va' ∧ vpn 3 va' = vpn 3 va ∧
  (∀ x, va ≤ x ≤ va + n * 2 ^ 12 → vpn 2 x = vpn 2 va) ∧
  (∀ x, va' ≤ x ≤ va' + n * 2 ^ 12 → vpn 2 x = vpn 2 va').
Proof.
  intros [Hreq _ _ Hroom _ _ _]. pose proof (request_pages _ _ _ _ _ _ Hreq) as Hn.
  destruct Hreq as [Hfl Hb Hpages (Hva & Hval & Hvend) Hpa].
  destruct (alias_facts va n Hva Hval Hvend Hn Hroom) as (Hva' & I1 & I2 & V3 & V2 & V2').
  split; [by constructor|]. do 2 (split; [done|]). split; [rewrite I2; unfold idx; by rewrite V3|]. done.
Qed.

(** The context of [va], whose level 2 index is not that of the new table. *)
Lemma index_mislinked T s c va pa bytes flags n c' s' :
  state_ok T (level4_table c) s → mislinked c va pa bytes flags n s →
  paging_virtual_address_to_index (new_index (level4_table c)) (alias_address va) flags s = Ok (1, c', s') →
  paging_virtual_address_to_index (new_index (level4_table c)) va flags s = Ok (1, set_level2_index (idx 2 va) c', s').
Proof.
  intros Hs Hm Hr. destruct (mislinked_facts _ _ _ _ _ _ _ Hm) as ([_ _ _ (_ & Hal' & _) _] & I1 & I2 & _ & V3 & _).
  destruct Hm as [Hreq Hf1 Hf2 _ Hv Hv' Hav]. pose proof (request_pages _ _ _ _ _ _ Hreq) as Hn.
  destruct Hreq as [_ _ _ (_ & Hal & _) _].
  destruct (index_alias T _ s (new_index (level4_table c)) va flags 0 Hs eq_refl Hf1 Hf2 Hal Hal' I1 I2 V3 Hv Hv')
    as (c2 & s2 & Hi2 & _ & _ & _ & Hi & Hi'); [lia|lia|]. cbv zeta in Hi, Hi'. rewrite Hr in Hi'. rewrite Hi.
  revert Hi'. generalize (let! t := new_table in store_entry (level2_table c2) (idx 3 va) (table_entry t) ;;; ret t).
  intros link. unfold bind. destruct (link s2) as [[t s4]| |]; [|done|done]. intros [= -> ->].
  unfold ret. rewrite <- Hi2. by destruct c2.
Qed.

(** Mapping at [va] leaves the state that mapping at the alias leaves. *)
Lemma map_physical_at_alias T s c pa va bytes flags n :
  state_ok T (level4_table c) s → mislinked c va pa bytes flags n s →
  ∃ s', paging_map_physical_at c pa (alias_address va) bytes flags s = Ok (alias_address va, s') ∧
    paging_map_physical_at c pa va bytes flags s = Ok (va, s').
Proof.
  intros Hs Hm. pose proof (index_mislinked T s c va pa bytes flags n) as Hindex.
  destruct (mislinked_facts _ _ _ _ _ _ _ Hm) as (Hreq & I1 & I2 & I23 & V3 & _ & V2').
  pose proof (request_pages _ _ _ _ _ _ Hreq) as Hn. destruct Hm as [Hreq0 Hf1 Hf2 Hroom Hv Hv' Hav] eqn:Em. clear Em.
  set (va' := alias_address va) in *. set (root := level4_table c) in *.
  assert (idx 1 va' + ((bytes - 1) / 2 ^ 12 + 1) < 512) as Hroom' by (pose proof (req_pages _ _ _ _ _ _ Hreq0) as H12; change (lsh 1) with 12 in H12; lia).
  destruct Hreq as [Hfl Hb Hpages (Hva & Hval & Hvend) (Hpa & Hpal & Hpend)].
  destruct (index_4kb_ok T root s (new_index root) va' flags (3 * n) Hs eq_refl Hf1 Hf2 Hval)
    as (c3 & s3 & T3 & Hr3 & A3 & C3 & Hav3); [by apply (vacant_no_big_leaf 2)|by left|lia|lia|].
  pose proof (adv_walks _ _ _ _ _ _ _ A3) as Hw3.
  destruct (map_index_physical_4kb T3 root s3 c3 pa va' bytes flags n (adv_ok _ _ _ _ _ _ _ A3) C3 Hf1 Hf2 Hb Hpages
    Hva Hval Hvend Hpa Hpal Hpend) as (c4 & s4 & _ & Hr4 & _).
  { rewrite (proj1 Hw3). apply Hv'. }
  { intros x Hx. eapply no_big_leaf_kept; [done|]. apply (vacant2_no_big_leaf _ _ va'); [done|by apply V2']. }
  { done. }
  eexists. unfold paging_map_physical_at. fold root. rewrite (bind_ok _ _ _ _ _ Hr3). cbn [truthy Z.eqb negb].
  rewrite u16_small by lia. rewrite (bind_ok _ _ _ _ _ Hr4). split; [done|].
  rewrite (bind_ok _ _ _ _ _ (Hindex _ _ Hs Hm Hr3)). cbn [truthy Z.eqb negb].
  destruct (at_2 _ _ _ _ _ C3) as [Hd2 _]; [lia|].
  assert (truthy (Z.land (load64 (k_mem s3) (level2_table c3 + 8 * idx 2 va)) PAGING_ENTRY_FLAG_SIZE) = false) as Hsize.
  { apply (walk_none_size 2 _ root va); [lia|rewrite (proj1 Hw3); apply Hv|].
    rewrite <- Hd2. by apply descend_cong; [lia|]. }
  destruct (map_index_alias root s3 c3 pa va' bytes flags (idx 2 va) _ _ C3 Hf1 Hf2 Hb Hroom' Hsize Hr4) as (c5 & Hr5).
  by rewrite (bind_ok _ _ _ _ _ Hr5).
Qed.

End Mislink.

(** C40. Mapping 4KiB pages at an address whose level 2 and level 3 indices differ and that has no
    level 1 table yet: [paging_map_physical_at] returns the address as on success, but no address
    of the range resolves. The pages are mapped at the alias instead, the address with the level
    3 index for its level 2 index too; every other address resolves as before, the tables are
    still a tree, and memory in use outside them is unchanged. Needed: aligned addresses, a range
    that does not reach the last page of its level 1 table, no table and no page at the alias, and
    pages for the tables. *)
Theorem paging_map_physical_at_mislinks {A} {PA : PageAllocator A} {PAL : PageAllocatorLaws A}
    T (s : kstate A) c pa va bytes flags n :
  state_ok T (level4_table c) s → mislinked c va pa bytes flags n s → idx 2 va ≠ idx 3 va →
  ∃ s', paging_map_physical_at c pa va bytes flags s = Ok (va, s') ∧
    (∀ x, va ≤ x < va + n * 2 ^ 12 → resolves c s' x 0) ∧
    mapped 1 c (alias_address va) pa n T s (Ok (alias_address va, s')).
Proof.
  intros Hs Hm Hne. destruct (map_physical_at_alias T s c pa va bytes flags n Hs Hm) as (s' & Hr' & Hr).
  exists s'. split; [exact Hr|].
  destruct (mislinked_facts _ _ _ _ _ _ _ Hm) as (Hreq & I1 & I2 & I23 & V3 & V2 & V2').
  pose proof (req_va _ _ _ _ _ _ (mis_request _ _ _ _ _ _ _ Hm)) as (Hva & _ & Hvend).
  destruct Hm as [_ Hf1 Hf2 Hroom Hv Hv' Hav].
  destruct (mapped_4kb T s c pa (alias_address va) bytes flags n Hs Hreq Hf1 Hf2) as (s1 & T1 & H1 & Hs1 & Hg & Hmr);
    [by left|apply Hv'|intros x Hx; by apply (vacant2_no_big_leaf _ _ (alias_address va)); [|apply V2']|done|].
  rewrite Hr' in H1. injection H1 as ->. split.
  - intros x Hx. replace 0 with (translate (k_mem s1) (level4_table c) x); [apply (resolves_translate c (set_used _ s1))|].
    unfold translate. rewrite (mr_out _ _ _ _ _ _ _ _ Hmr).
    + by rewrite (vacant2_free _ _ va) by (done || (apply V2; lia)).
    + change (lsh 1) with 12 in Hvend. lia.
    + intros Hx'. apply Hne. rewrite <- I2. unfold idx. by rewrite <- (V2 x ltac:(lia)), <- (V2' x ltac:(change (lsh 1) with 12 in Hx'; lia)).
  - assert (n = n * 2 ^ (lsh 1 - 12)) as Hn by (change (2 ^ (lsh 1 - 12)) with 1; lia). rewrite Hn at 2.
    pose proof (paging_convert_flags_range flags). eapply mapped_intro; [lia|done| |done|done|done]. lia.
Qed.

Lemma kernel0_vacant va : bool_decide (descend 3 4 ∅ 0x1000 va = None) = true → vacant 2 (k_mem kernel0) 0x1000 va.
Proof. intros H%bool_decide_eq_true. split; [apply walk_empty|by right]. Qed.

Lemma paging_map_physical_at_mislinks_witness :
  ∃ s', paging_map_physical_at context0 0xB8000 0x200000 4096 PAGING_FLAG_WRITE kernel0 = Ok (0x200000, s') ∧
    resolves context0 s' 0x200000 0 ∧ mapped 1 context0 0 0xB8000 1 tree0 kernel0 (Ok (0, s')).
Proof.
  destruct (paging_map_physical_at_mislinks tree0 kernel0 context0 0xB8000 0x200000 4096 PAGING_FLAG_WRITE 1)
    as (s' & Hr & Hin & Hm).
  - exact kernel0_ok.
  - constructor; [constructor; closed_arith|reflexivity|reflexivity|reflexivity
      |apply kernel0_vacant; reflexivity|apply kernel0_vacant; reflexivity|by vm_compute].
  - by vm_compute.
  - exists s'. split; [exact Hr|]. split; [apply Hin; lia|exact Hm].
Defined.
