(* ===== verification/PagingFind.v ===== *)
(** * Mapping memory at an address the kernel chooses

    [paging_map] searches the tables for free virtual memory and maps newly
    allocated pages there. The search starts from the tables the context
    remembers: none for a new context, or the ones the last call left. The
    lemmas give, for both, the address found and the pages mapped. *)

From S2P Require Import Prelude Memory Allocator Lock Physical PhysicalSpec.
From S2P Require Import Paging PagingWalk PagingStep PagingMap PagingSpec.

Section Find.
Context {A : Type} {PA : PageAllocator A} {PAL : PageAllocatorLaws A}.
Implicit Types (s : kstate A) (T : tree).

(** ** Mapping new pages *)

(** Some pages, all different and free in [s], in use and no tables in [s']. *)
Definition new_pages (ps : list Z) s T' s' : Prop :=
  NoDup ps ∧ Forall (λ p, 0 < p < 2 ^ 52 ∧ p mod 2 ^ 12 = 0 ∧ ¬ pa_used (k_alloc s) (p / 2 ^ 12) ∧
    pa_used (k_alloc s') (p / 2 ^ 12) ∧ T' !! p = None) ps.

(** The pages [ps], mapped one after the other from the page of [va] on. *)
Definition pages_at (root va f : Z) (ps : list Z) s s' : Prop :=
  (∀ i p x, ps !! i = Some p → vpn 1 x = vpn 1 va + Z.of_nat i → walk 4 (k_mem s') root x = Some (1%nat, p + f)) ∧
  (∀ x, ¬ (vpn 1 va ≤ vpn 1 x < vpn 1 va + Z.of_nat (length ps)) →
     walk 4 (k_mem s') root x = walk 4 (k_mem s) root x).

Lemma alloc_page_ok T root s :
  state_ok T root s → 0 < pa_avail (k_alloc s) →
  ∃ p s', allocate_page s = Ok (p, s') ∧ state_ok T root s' ∧ grows 1 T s T s' ∧ k_mem s' = k_mem s ∧
    0 < p < 2 ^ 52 ∧ p mod 2 ^ 12 = 0 ∧ ¬ pa_used (k_alloc s) (p / 2 ^ 12) ∧
    pa_used (k_alloc s') (p / 2 ^ 12) ∧ T !! p = None.
Proof.
  intros [Hinv H0 OK] Hav.
  destruct (alloc_step s Hinv H0 Hav) as (q & a & Hr & Hinv' & Hav' & Hq & Hn & Hu & Hm).
  exists (q * 2 ^ 12), (set_alloc a s). rewrite Z.div_mul by lia.
  assert (T !! (q * 2 ^ 12) = None) as HT by (eapply tree_not_used; [done|by rewrite Z.div_mul by lia]).
  split; [exact Hr|]. split; [|split; [|split_and!; (done || lia || (apply Z.mod_mul; lia))]].
  - constructor; [exact Hinv'|by apply Hm|]. cbn [k_mem k_alloc set_alloc].
    destruct OK as [R S E]. constructor; [exact R| |exact E].
    intros t l p Ht. destruct (S t l p Ht) as (?&?&?&?). auto.
  - constructor; cbn; (reflexivity || assumption || auto with lia).
Qed.

(** The loop body: one new page at the current slot. *)
Lemma map_current_body_ok T root s c i va va' f :
  state_ok T root s → ctx_at 1 c root va (k_mem s) → 0 < f < 2 ^ 7 → vpn 1 va' = vpn 1 va + 1 →
  no_big_leaf 1 (k_mem s) root va' → 4 ≤ pa_avail (k_alloc s) →
  ∃ p c' s' T', map_current_4kb_body f i c s = Ok ((true, c'), s') ∧ state_ok T' root s' ∧ grows 4 T s T' s' ∧
    ctx_at 1 c' root va' (k_mem s') ∧ maps_one 1 root va (p + f) s s' ∧ new_pages [p] s T' s'.
Proof.
  intros Hs Hc Hf Hv Hno Hav.
  destruct (alloc_page_ok T root s Hs) as (p & s1 & Hr1 & Hs1 & Hg1 & Hm1 & Hp & Hal & Hn & Hu & HT); [lia|].
  assert (leaf_entry p f = p + f) as Hent by (rewrite <- (u64_small p) at 1 by lia; apply leaf_entry_eq; lia).
  destruct (store_leaf_ok T root s1 1 c va (p + f) Hs1) as (s2 & Hr2 & Hs2 & Hg2 & Hc2 & Ho2 & _);
    [lia|by rewrite Hm1|lia|done|].
  pose proof (g_avail _ _ _ _ _ Hg1). pose proof (g_avail _ _ _ _ _ Hg2).
  destruct (next_level1_ok T root s2 c va va' msg_current_4kb_end Hs2 Hc2 Hv) as (c3 & s3 & T3 & Hr3 & [Hs3 Hg3 Hw3 _] & Hc3).
  { intros l' e. rewrite (proj2 Ho2), Hm1 by lia. apply Hno. }
  { lia. }
  exists p, c3, s3, T3. split; [|split; [done|split; [|split; [done|split]]]].
  - unfold map_current_4kb_body. rewrite (bind_ok _ _ _ _ _ Hr1), Hent.
    cbn [ctx_table ctx_index] in Hr2. by rewrite (bind_ok _ _ _ _ _ Hr2).
  - apply (grows_trans 1 3 _ _ T s1); [exact Hg1|]. by apply (grows_trans 0 3 _ _ T s2).
  - pose proof (maps_one_kept _ _ _ _ _ _ _ Ho2 Hw3) as [Hin Hout]. split; [exact Hin|].
    intros x Hx. by rewrite (Hout x Hx), Hm1.
  - split; [apply NoDup_singleton|]. apply list.Forall_singleton.
    pose proof (g_used _ _ _ _ _ Hg2 _ Hu) as Hu2. split_and!; try done; try lia.
    + by apply (g_used _ _ _ _ _ Hg3).
    + by apply (g_fresh _ _ _ _ _ Hg3).
Qed.

Lemma new_pages_cons p ps s s1 T1 s2 T2 n :
  new_pages [p] s T1 s1 → new_pages ps s1 T2 s2 → grows n T1 s1 T2 s2 →
  (∀ q, pa_used (k_alloc s) q → pa_used (k_alloc s1) q) → new_pages (p :: ps) s T2 s2.
Proof.
  intros [_ H1] [N2 H2] Hg Hm. apply list.Forall_singleton in H1 as (Hp & Hal & Hn & Hu & HT).
  rewrite list.Forall_forall in H2. split.
  - apply list.NoDup_cons. split; [|done]. intros Hin. by destruct (H2 p Hin) as (_ & _ & Hn2 & _).
  - apply list.Forall_cons. split.
    + split_and!; try done; try lia; [by apply (g_used _ _ _ _ _ Hg)|by apply (g_fresh _ _ _ _ _ Hg)].
    + apply list.Forall_forall. intros q Hq. destruct (H2 q Hq) as (? & ? & Hn2 & ? & ?).
      split_and!; (done || lia || auto).
Qed.

Lemma map_current_loop_ok root f n : 0 < f < 2 ^ 7 → ∀ T s c i va,
  state_ok T root s → ctx_at 1 c root va (k_mem s) → vpn 1 va + Z.of_nat n < 2 ^ 36 →
  (∀ x, vpn 1 va ≤ vpn 1 x ≤ vpn 1 va + Z.of_nat n → no_big_leaf 1 (k_mem s) root x) →
  4 * Z.of_nat n ≤ pa_avail (k_alloc s) →
  ∃ ps c' s' T', map_loop (map_current_4kb_body f) n i c s = Ok ((true, c'), s') ∧ state_ok T' root s' ∧
    grows (4 * Z.of_nat n) T s T' s' ∧ length ps = n ∧ new_pages ps s T' s' ∧ pages_at root va f ps s s' ∧
    ∃ va', vpn 1 va' = vpn 1 va + Z.of_nat n ∧ ctx_at 1 c' root va' (k_mem s').
Proof.
  intros Hf. induction n as [|n IH]; intros T s c i va Hs Hc Hb Hno Hav; cbn [map_loop].
  - exists [], c, s, T. split; [done|]. split; [done|]. split; [apply grows_refl|]. split; [done|].
    split; [split; [constructor|constructor]|]. split; [|exists va; split; [lia|done]].
    split; [intros j p x Hj; by rewrite lookup_nil in Hj|done].
  - pose proof (vpn_nonneg 1 va). set (va1 := page_address 1 (vpn 1 va + 1)).
    assert (vpn 1 va1 = vpn 1 va + 1) as Hv1 by (apply vpn_page_address; [lia|change (48 - lsh 1) with 36; lia]).
    destruct (map_current_body_ok T root s c i va va1 f Hs Hc Hf Hv1)
      as (p & c1 & s1 & T1 & Hr1 & Hs1 & Hg1 & Hc1 & [Hin1 Hout1] & Hp); [apply Hno; lia|lia|].
    rewrite (bind_ok _ _ _ _ _ Hr1). cbv beta iota. pose proof (g_avail _ _ _ _ _ Hg1).
    destruct (IH T1 s1 c1 (i + 1) va1 Hs1 Hc1)
      as (ps & c2 & s2 & T2 & Hr2 & Hs2 & Hg2 & Hlen & Hps & [Hin2 Hout2] & va2 & Hv2 & Hc2); [lia| |lia|].
    { intros x Hx l' e. rewrite Hout1 by lia. apply Hno. lia. }
    exists (p :: ps), c2, s2, T2. split; [done|]. split; [done|]. split; [|split; [|split; [|split]]].
    + replace (4 * Z.of_nat (S n)) with (4 + 4 * Z.of_nat n) by lia. by eapply grows_trans.
    + cbn [length]. lia.
    + eapply new_pages_cons; [exact Hp|exact Hps|exact Hg2|apply (g_used _ _ _ _ _ Hg1)].
    + split.
      * intros [|j] q x Hq Hx; cbn in Hq.
        -- injection Hq as <-. rewrite Hout2 by lia. apply Hin1. lia.
        -- apply (Hin2 j q x Hq). lia.
      * intros x Hx. cbn [length] in Hx. rewrite Hout2, Hout1 by lia. done.
    + exists va2. split; [lia|done].
Qed.

Lemma map_index_current_4kb T root s c va bytes flags n :
  state_ok T root s → ctx_at 1 c root va (k_mem s) →
  truthy (Z.land flags PAGING_FLAG_1GB) = false → truthy (Z.land flags PAGING_FLAG_2MB) = false →
  0 < bytes → n = (bytes - 1) / 2 ^ 12 + 1 → vpn 1 va + n < 2 ^ 36 → walk 4 (k_mem s) root va = None →
  (∀ x, vpn 1 va ≤ vpn 1 x ≤ vpn 1 va + n → no_big_leaf 1 (k_mem s) root x) →
  4 * n ≤ pa_avail (k_alloc s) →
  ∃ ps c' s' T', paging_map_index_current c bytes flags s =
      Ok ((1, c'), set_used (u64 (used_virtual_pages s + n)) s') ∧ state_ok T' root s' ∧
    grows (4 * n) T s T' s' ∧ Z.of_nat (length ps) = n ∧ new_pages ps s T' s' ∧
    pages_at root va (paging_convert_flags flags) ps s s' ∧
    ∃ va', vpn 1 va' = vpn 1 va + n ∧ ctx_at 1 c' root va' (k_mem s').
Proof.
  intros Hs Hc Hf1 Hf2 Hb Hn Hend Hvac Hno Hav.
  assert (0 < n) as Hn0 by (subst n; assert (0 ≤ (bytes - 1) / 2 ^ 12) by (apply Z.div_pos; lia); lia).
  destruct (at_1 _ _ _ _ _ Hc) as [Hd1 Hi1]; [done|]. destruct (at_2 _ _ _ _ _ Hc) as [Hd2 Hi2]; [lia|].
  destruct (at_3 _ _ _ _ _ Hc) as [Hd3 Hi3]; [lia|].
  destruct (map_current_loop_ok root (paging_convert_flags flags) (Z.to_nat n) (paging_convert_flags_range flags)
    T s c 0 va Hs Hc) as (ps & c' & s' & T' & Hr & H); rewrite ?Z2Nat.id in * by lia; [lia|done|lia|].
  destruct H as (Hs' & Hg & Hlen & Hps & Hat & Hnext).
  exists ps, c', s', T'. split; [|split_and!; (done || lia)].
  unfold paging_map_index_current, load_entry. rewrite (proj2 (Z.leb_gt _ _)) by lia. cbv zeta. mstep.
  rewrite Hi3, Hi2, Hi1, Hf1, Hf2.
  rewrite (descend_not_leaf 3 _ root va _ _ ltac:(lia) Hd3 Hd2). cbn [orb]. mstep.
  rewrite (descend_not_leaf 2 _ root va _ _ ltac:(lia) Hd2 Hd1). cbn [orb]. mstep.
  rewrite (vacant_slot 1 _ root va _ ltac:(lia) (conj Hvac (or_introl eq_refl)) Hd1).
  cbn [truthy Z.eqb negb]. rewrite shiftr_div, <- Hn by lia. rewrite (bind_ok _ _ _ _ _ Hr).
  unfold finish_map, add_used_virtual_pages. cbn [fst snd]. mstep. by rewrite (g_pages _ _ _ _ _ Hg).
Qed.

(** ** A new context: the first free slot of the root table *)

Lemma link_is_ensure parent i s :
  load64 (k_mem s) (parent + 8 * i) = 0 → link_table parent i s = ensure_table parent i i s.
Proof. intros H. rewrite ensure_table_eq. cbv zeta. by rewrite H. Qed.

Lemma fresh_level3_eq c s :
  fresh_level3 c s = bind (link_table (level4_table c) (level4_index c))
    (λ t, ret (set_level3_table t (set_level3_index 0 c))) s.
Proof. unfold fresh_level3, link_table, bind. destruct (new_table s) as [[t s1]| |]; reflexivity. Qed.

Lemma fresh_level2_eq c s :
  fresh_level2 c s = bind (link_table (level3_table c) (level3_index c))
    (λ t, ret (set_level2_table t (set_level2_index 0 c))) s.
Proof. unfold fresh_level2, link_table, bind. destruct (new_table s) as [[t s1]| |]; reflexivity. Qed.

Lemma fresh_level1_eq c s :
  fresh_level1 c s = bind (link_table (level2_table c) (level2_index c))
    (λ t, ret (set_level1_table t (set_level1_index 0 c))) s.
Proof. unfold fresh_level1, link_table, bind. destruct (new_table s) as [[t s1]| |]; reflexivity. Qed.

(** Linking a new table at the empty slot of [va]. *)
Lemma link_at T root s parent l va n :
  state_ok T root s → (2 ≤ l ≤ 4)%nat → descend (4 - l) 4 (k_mem s) root va = Some parent →
  load64 (k_mem s) (parent + 8 * idx l va) = 0 → walk 4 (k_mem s) root va = None →
  n + 1 ≤ pa_avail (k_alloc s) → 0 ≤ n →
  ∃ t s' T', link_table parent (idx l va) s = Ok (t, s') ∧ advanced (slot_of va) 1 T root s T' s' ∧
    descend (5 - l) 4 (k_mem s') root va = Some t ∧ deep_kept (6 - l) root s s' ∧ n ≤ pa_avail (k_alloc s').
Proof.
  intros Hs Hl Hd Hz Hw Hav Hn. rewrite (link_is_ensure _ _ _ Hz).
  apply (ensure_at T root s parent l va n); try done. intros l' e. by rewrite Hw.
Qed.

(** The root slot of [va] is empty: nothing at all is behind it. *)
Lemma empty_slot_walk root m x : load64 m (root + 8 * idx 4 x) = 0 → walk 4 m root x = None.
Proof. intros H. cbn [walk]. by rewrite H. Qed.

Lemma empty_slot_vacant l root m x :
  (1 ≤ l ≤ 3)%nat → load64 m (root + 8 * idx 4 x) = 0 → vacant l m root x.
Proof.
  intros Hl H. split; [by apply empty_slot_walk|]. right.
  replace (5 - l)%nat with (S (4 - l)) by lia. cbn [descend]. by rewrite H.
Qed.

Definition fresh_tables (c : paging_context) : M (kstate A) paging_context :=
  let! c := fresh_level3 c in let! c := fresh_level2 c in fresh_level1 c.

Lemma fresh_tables_ok T root s c va :
  state_ok T root s → level4_table c = root → level4_index c = idx 4 va →
  idx 3 va = 0 → idx 2 va = 0 → idx 1 va = 0 → load64 (k_mem s) (root + 8 * idx 4 va) = 0 →
  3 ≤ pa_avail (k_alloc s) →
  ∃ c' s' T', fresh_tables c s = Ok (c', s') ∧ advanced (slot_of va) 3 T root s T' s' ∧ ctx_at 1 c' root va (k_mem s').
Proof.
  intros Hs Hroot Hi4 Hi3 Hi2 Hi1 Hz Hav. pose proof (empty_slot_walk _ _ _ Hz) as Hw.
  pose proof (empty_slot_vacant 3 _ _ _ ltac:(lia) Hz) as V3. pose proof (empty_slot_vacant 2 _ _ _ ltac:(lia) Hz) as V2.
  destruct (link_at T root s root 4 va 2 Hs ltac:(lia) eq_refl Hz Hw) as (t3 & s1 & T1 & Hr1 & A1 & D3 & K1 & Hav1); [lia|lia|].
  assert (vacant 3 (k_mem s1) root va) as V3' by (apply (vacant_advanced 3 1 _ T root s T1 s1 va A1); [by left|lia|done]).
  assert (vacant 2 (k_mem s1) root va) as V2'.
  { apply (vacant_advanced 2 1 _ T root s T1 s1 va A1); [|lia|done]. left. intros k x Hk. apply K1. lia. }
  destruct (link_at T1 root s1 t3 3 va 1 (adv_ok _ _ _ _ _ _ _ A1) ltac:(lia) D3) as (t2 & s2 & T2 & Hr2 & A2 & D2 & K2 & Hav2);
    [apply (vacant_slot 3 _ root va); [lia|done|done]|apply V3'|lia|lia|].
  assert (vacant 2 (k_mem s2) root va) as V2'' by (apply (vacant_advanced 2 1 _ T1 root s1 T2 s2 va A2); [by left|lia|done]).
  destruct (link_at T2 root s2 t2 2 va 0 (adv_ok _ _ _ _ _ _ _ A2) ltac:(lia) D2) as (t1 & s3 & T3 & Hr3 & A3 & D1 & _ & _);
    [apply (vacant_slot 2 _ root va); [lia|done|done]|apply V2''|lia|lia|].
  eexists _, s3, T3. split; [|split; [apply (advanced_trans 2 1 _ _ _ _ T2 s2); [by apply (advanced_trans 1 1 _ _ _ _ T1 s1)|done]|]].
  - unfold fresh_tables. rewrite <- Hi4, <- Hroot in Hr1. rewrite Hi3 in Hr2. rewrite Hi2 in Hr3.
    rewrite (bind_ok _ _ _ (set_level3_table t3 (set_level3_index 0 c)) s1)
      by (rewrite fresh_level3_eq, (bind_ok _ _ _ _ _ Hr1); reflexivity).
    rewrite (bind_ok _ _ _ (set_level2_table t2 (set_level2_index 0 (set_level3_table t3 (set_level3_index 0 c)))) s2)
      by (rewrite fresh_level2_eq; ctx_simpl; rewrite (bind_ok _ _ _ _ _ Hr2); reflexivity).
    rewrite fresh_level1_eq. ctx_simpl. rewrite (bind_ok _ _ _ _ _ Hr3). reflexivity.
  - pose proof (advanced_descend _ _ _ _ _ _ _ 1 va t3 A2 ltac:(lia) D3) as D3'.
    pose proof (advanced_descend _ _ _ _ _ _ _ 1 va t3 A3 ltac:(lia) D3') as D3''.
    pose proof (advanced_descend _ _ _ _ _ _ _ 2 va t2 A3 ltac:(lia) D2) as D2'.
    constructor; ctx_simpl; [done|done|by intros _|by intros _|by intros _].
Qed.

(** The search stops at the first empty slot from the remembered one on. *)
Lemma find_free_level4_ok k n : ∀ fuel c s,
  0 ≤ level4_index c → k = level4_index c + Z.of_nat n → k < 512 → (n < fuel)%nat →
  (∀ j, level4_index c ≤ j < k → load64 (k_mem s) (level4_table c + 8 * j) ≠ 0) →
  load64 (k_mem s) (level4_table c + 8 * k) = 0 →
  find_free_level4 fuel c s = Ok (set_level4_index k c, s).
Proof.
  induction n as [|n IH]; intros [|fuel] c s H0 Hk Hk5 Hf Hj Hz; try lia;
    cbn [find_free_level4]; unfold load_entry; mstep.
  - replace (level4_index c) with k by lia. rewrite Hz. cbn [truthy Z.eqb negb].
    unfold ret. do 2 f_equal. assert (level4_index c = k) as <- by lia. by destruct c.
  - rewrite (proj2 (truthy_spec _)) by (apply Hj; lia). ctx_simpl.
    rewrite u16_small, (proj2 (Z.leb_gt _ _)) by lia.
    rewrite (IH fuel (set_level4_index (level4_index c + 1) c) s); ctx_simpl; (done || lia || (intros; apply Hj; lia)).
Qed.

(** [k] is the first empty slot of the root table from the remembered one on. *)
Definition first_empty_slot (c : paging_context) s (k : Z) : Prop :=
  0 ≤ level4_index c ≤ k ∧ k < 512 ∧ load64 (k_mem s) (level4_table c + 8 * k) = 0 ∧
  ∀ j, level4_index c ≤ j < k → load64 (k_mem s) (level4_table c + 8 * j) ≠ 0.

Lemma slot_start k : 0 ≤ k < 512 →
  vpn 1 (k * 2 ^ 39) = k * 2 ^ 27 ∧ idx 4 (k * 2 ^ 39) = k ∧ idx 3 (k * 2 ^ 39) = 0 ∧
  idx 2 (k * 2 ^ 39) = 0 ∧ idx 1 (k * 2 ^ 39) = 0.
Proof.
  intros Hk. unfold idx. rewrite !vpn_small by lia.
  change (lsh 1) with 12. change (lsh 2) with 21. change (lsh 3) with 30. change (lsh 4) with 39.
  split_and!; divmod_lia.
Qed.

(** Pages of the slot [k] go through the slot [k]. *)
Lemma slot_page k x : 0 ≤ k → k * 2 ^ 27 ≤ vpn 1 x < (k + 1) * 2 ^ 27 → vpn 4 x = k.
Proof.
  intros Hk Hx. rewrite (vpn_S 3), (vpn_S 2), (vpn_S 1), !Z.div_div by lia.
  change (512 * (512 * 512)) with (2 ^ 27).
  symmetry. apply (Z.div_unique_pos _ _ _ (vpn 1 x - k * 2 ^ 27)); lia.
Qed.

Lemma find_spot_fresh T s c bytes flags fuel k :
  state_ok T (level4_table c) s → level3_table c = 0 → level2_table c = 0 → first_empty_slot c s k →
  0 < bytes ≤ 2 ^ 39 → truthy (Z.land flags PAGING_FLAG_1GB) = false →
  truthy (Z.land flags PAGING_FLAG_2MB) = false → (512 ≤ fuel)%nat → 3 ≤ pa_avail (k_alloc s) →
  ∃ c' s' T', paging_index_find_spot fuel c bytes flags s = Ok ((1, c'), s') ∧
    advanced (slot_of (k * 2 ^ 39)) 3 T (level4_table c) s T' s' ∧ ctx_at 1 c' (level4_table c) (k * 2 ^ 39) (k_mem s').
Proof.
  intros Hs H3 H2 ([Hk0 Hk1] & Hk & Hz & Hne) Hb Hf1 Hf2 Hfuel Hav.
  destruct (slot_start k ltac:(lia)) as (_ & Hi4 & Hi3 & Hi2 & Hi1).
  destruct (fresh_tables_ok T (level4_table c) s (set_level4_index k c) (k * 2 ^ 39) Hs)
    as (c' & s' & T' & Hr & Hadv & Hc); ctx_simpl; [done|lia|lia|lia|lia|by rewrite Hi4|lia|].
  exists c', s', T'. split; [|done]. unfold paging_index_find_spot. cbv zeta.
  rewrite (proj2 (Z.leb_gt bytes 0)), H2, H3, Hf1, Hf2 by lia. cbn [Z.eqb negb].
  rewrite !andb_false_r, orb_true_r. cbn [andb]. rewrite (proj2 (Z.leb_le bytes _)) by lia.
  rewrite (bind_ok _ _ _ _ _ (find_free_level4_ok k (Z.to_nat (k - level4_index c)) fuel c s
    ltac:(lia) ltac:(lia) Hk ltac:(lia) Hne Hz)).
  unfold fresh_tables in Hr. revert Hr. unfold bind.
  destruct (fresh_level3 _ s) as [[c3 s3]| |]; [|done|done].
  destruct (fresh_level2 c3 s3) as [[c2 s2]| |]; [|done|done]. by intros ->.
Qed.

(** Where the last call stopped, when there is room in the level 1 table. *)
Lemma find_spot_room T s c bytes flags fuel va n :
  state_ok T (level4_table c) s → ctx_at 1 c (level4_table c) va (k_mem s) →
  0 < bytes → n = (bytes - 1) / 2 ^ 12 + 1 → idx 1 va + n ≤ 512 →
  truthy (Z.land flags PAGING_FLAG_1GB) = false →
  paging_index_find_spot fuel c bytes flags s = Ok ((1, c), s).
Proof.
  intros Hs Hc Hb Hn Hroom Hf1. pose proof (ok_tables _ _ _ Hs) as OK. pose proof (idx_range 1 va).
  destruct (at_1 _ _ _ _ _ Hc) as [Hd1 Hi1]; [done|]. destruct (at_2 _ _ _ _ _ Hc) as [Hd2 Hi2]; [lia|].
  destruct (table_shape _ _ _ _ OK _ _ _ (descend_tree OK 3 4 _ va _ (root_tree OK va) ltac:(lia) Hd1)) as (_ & _ & Ht1 & _).
  destruct (table_shape _ _ _ _ OK _ _ _ (descend_tree OK 2 4 _ va _ (root_tree OK va) ltac:(lia) Hd2)) as (_ & _ & Ht2 & _).
  assert (bytes ≤ 512 * 4096) by (clear -Hn Hroom H; divmod_lia).
  unfold paging_index_find_spot. cbv zeta.
  rewrite (proj2 (Z.leb_gt bytes 0)), (proj2 (Z.leb_le bytes _)), Hf1 by lia.
  rewrite (proj2 (Z.eqb_neq (level2_table c) 0)), (proj2 (Z.eqb_neq (level1_table c) 0)) by lia.
  cbn [negb andb]. rewrite shiftr_div, Hi1, (proj2 (Z.ltb_ge _ _)) by lia. reflexivity.
Qed.

Lemma context_address_at c root va m :
  ctx_at 1 c root va m → 0 ≤ va < 2 ^ 48 → va mod 2 ^ 12 = 0 → context_address c = va.
Proof.
  intros Hc Hva Hal. destruct (at_1 _ _ _ _ _ Hc) as [_ H1]; [done|]. destruct (at_2 _ _ _ _ _ Hc) as [_ H2]; [lia|].
  destruct (at_3 _ _ _ _ _ Hc) as [_ H3]; [lia|]. pose proof (at_4 _ _ _ _ _ Hc) as H4.
  unfold context_address. rewrite H1, H2, H3, H4.
  pose proof (idx_range 1 va). pose proof (idx_range 2 va). pose proof (idx_range 3 va).
  rewrite !Z.shiftl_mul_pow2 by lia.
  rewrite (Z.lor_comm (idx 1 va * 2 ^ 12)), lor_add_low by lia.
  rewrite (Z.lor_comm _ (idx 3 va * 2 ^ 30)), lor_add_low by lia.
  rewrite (Z.lor_comm _ (idx 4 va * 2 ^ 39)), lor_add_low by lia.
  pose proof (vpn_split 1 va). pose proof (vpn_split 2 va). pose proof (vpn_split 3 va). pose proof (vpn_split 4 va).
  pose proof (vpn_5 va). assert (va = vpn 1 va * 2 ^ 12) by (rewrite vpn_small by lia; change (lsh 1) with 12; divmod_lia).
  lia.
Qed.

(** ** [paging_map] *)

(** Where the search stands for [n] pages: [va] starts the first empty slot of
    the root table, when the context is new, or is the address the context
    stands at, when the level 1 table has room for [n] pages from there. In the
    second case the code looks at the first page only (line 326): pages further
    on may be mapped. Behind a range that fills the level 1 table the loop goes
    on to the next table, so there must not be a huge page. *)
Definition spot (c : paging_context) s (va n : Z) : Prop :=
  (∃ k, level3_table c = 0 ∧ level2_table c = 0 ∧ first_empty_slot c s k ∧ va = k * 2 ^ 39 ∧ n < 2 ^ 27) ∨
  (ctx_at 1 c (level4_table c) va (k_mem s) ∧ idx 1 va + n ≤ 512 ∧ 0 ≤ va ∧ va mod 2 ^ 12 = 0 ∧
    va + n * 2 ^ 12 < 2 ^ 48 ∧ walk 4 (k_mem s) (level4_table c) va = None ∧
    (idx 1 va + n = 512 → no_big_leaf 1 (k_mem s) (level4_table c) (va + n * 2 ^ 12))).

(** What was free before: the first page, and with a new context the whole
    range. *)
Definition free_before (c : paging_context) s (va n : Z) : Prop :=
  (∀ x, va ≤ x < va + 2 ^ 12 → walk 4 (k_mem s) (level4_table c) x = None) ∧
  (level3_table c = 0 → ∀ x, va ≤ x < va + n * 2 ^ 12 → walk 4 (k_mem s) (level4_table c) x = None).

(** What [paging_map] leaves behind: [n] new pages at [va] and a context that
    stands behind them. *)
Definition mapped_new (c : paging_context) (va n : Z) T s (o : outcome ((Z * paging_context) * kstate A)) : Prop :=
  ∃ ps c' s' T', o = Ok ((va, c'), s') ∧ state_ok T' (level4_table c) s' ∧
    Z.of_nat (length ps) = n ∧ new_pages ps s T' s' ∧
    used_virtual_pages s' = u64 (used_virtual_pages s + n) ∧
    pa_avail (k_alloc s) - (4 * n + 3) ≤ pa_avail (k_alloc s') ∧
    (∀ q, pa_used (k_alloc s) q → pa_used (k_alloc s') q) ∧ data_kept T s s' ∧ T ⊆ T' ∧
    (∀ t, pa_used (k_alloc s) (t / 2 ^ 12) → T !! t = None → T' !! t = None) ∧
    hugepages_supported s' = hugepages_supported s ∧
    (∀ i p y, ps !! i = Some p → 0 ≤ y < 4096 → resolves c s' (va + 4096 * Z.of_nat i + y) (p + y)) ∧
    free_before c s va n ∧
    (∀ x, 0 ≤ x < 2 ^ 48 → ¬ (va ≤ x < va + n * 2 ^ 12) → same_answer c s s' x) ∧
    ctx_at 1 c' (level4_table c) (va + n * 2 ^ 12) (k_mem s').

Lemma vpn_va va n x :
  0 ≤ va → va mod 2 ^ 12 = 0 → va + n * 2 ^ 12 < 2 ^ 48 → 0 ≤ x < 2 ^ 48 →
  (va ≤ x < va + n * 2 ^ 12 ↔ vpn 1 va ≤ vpn 1 x < vpn 1 va + n).
Proof. apply (vpn_range 1). Qed.

Lemma vpn_va_add va k n :
  0 ≤ va → va mod 2 ^ 12 = 0 → va + n * 2 ^ 12 < 2 ^ 48 → 0 ≤ k ≤ n → vpn 1 (va + k * 2 ^ 12) = vpn 1 va + k.
Proof. intros Hva Hal Hend Hk. rewrite !vpn_small by lia. change (lsh 1) with 12. divmod_lia. Qed.

Lemma walk_none_page m root x x' :
  walk 4 m root x = None → vpn 1 x = vpn 1 x' → walk 4 m root x' = None.
Proof.
  intros Hx E. destruct (walk 4 m root x') as [[l e]|] eqn:Hx'; [|done].
  pose proof (walk_level_pos _ _ _ _ _ _ Hx').
  rewrite (walk_cong 4 m root x' x l e Hx') in Hx; [done|]. by apply (vpn_eq_up 1).
Qed.

(** Behind a level 1 table there are only small pages. *)
Lemma table_no_big_leaf m root x t : descend 3 4 m root x = Some t → no_big_leaf 1 m root x.
Proof.
  intros Hd l e He. rewrite (walk_descend 3 4 m root x t ltac:(lia) Hd) in He. cbn [walk Nat.sub] in He.
  destruct (_ =? 0); [done|]. destruct (leafb _ _); [|done]. injection He as <- _. lia.
Qed.

(** Free pages from an address to another, and no huge page behind. *)
Lemma free_no_big_leaf m root va n x :
  0 ≤ va → va mod 2 ^ 12 = 0 → va + n * 2 ^ 12 < 2 ^ 48 →
  (∀ x, vpn 1 va ≤ vpn 1 x < vpn 1 va + n → no_big_leaf 1 m root x) → no_big_leaf 1 m root (va + n * 2 ^ 12) →
  vpn 1 va ≤ vpn 1 x ≤ vpn 1 va + n → no_big_leaf 1 m root x.
Proof.
  intros Hva Hal Hend Hfree Hno Hx l e He. destruct (decide (vpn 1 x < vpn 1 va + n)) as [|E]; [by apply (Hfree x ltac:(lia) l e)|].
  destruct (decide (l ≤ 1)%nat) as [|Hl]; [done|]. apply (Hno l e). apply (walk_cong 4 _ _ x); [done|].
  apply (vpn_eq_up 1); [|lia]. rewrite (vpn_va_add va n n) by lia. lia.
Qed.

(** The pages of a range that does not go beyond the level 1 table of [va]. *)
Lemma same_table va n x : idx 1 va + n ≤ 512 → vpn 1 va ≤ vpn 1 x < vpn 1 va + n → vpn 2 x = vpn 2 va.
Proof.
  intros Hroom Hx. pose proof (vpn_split 1 va). pose proof (vpn_split 1 x).
  pose proof (idx_range 1 va). pose proof (idx_range 1 x). lia.
Qed.

Lemma room_no_big_leaf c root m va n x :
  ctx_at 1 c root va m → idx 1 va + n ≤ 512 → 0 ≤ va → va mod 2 ^ 12 = 0 → va + n * 2 ^ 12 < 2 ^ 48 →
  (idx 1 va + n = 512 → no_big_leaf 1 m root (va + n * 2 ^ 12)) → 0 ≤ n →
  vpn 1 va ≤ vpn 1 x ≤ vpn 1 va + n → no_big_leaf 1 m root x.
Proof.
  intros Hc Hroom Hva Hal Hend Hno Hn Hx. destruct (at_1 _ _ _ _ _ Hc) as [Hd _]; [done|].
  assert (∀ k x, idx 1 va + k ≤ 512 → vpn 1 va ≤ vpn 1 x < vpn 1 va + k → no_big_leaf 1 m root x) as Hin.
  { intros k y Hk Hy. apply (table_no_big_leaf _ _ _ (level1_table c)). rewrite <- Hd.
    apply descend_cong; [lia|]. by apply (same_table va k). }
  destruct (decide (idx 1 va + n = 512)) as [E|E]; [|by apply (Hin (n + 1)); lia].
  apply (free_no_big_leaf m root va n x); try done; [intros y Hy; by apply (Hin n)|auto].
Qed.

Lemma ctx_at_cong l c root va va' m : (l ≤ 4)%nat → vpn l va = vpn l va' → ctx_at l c root va m → ctx_at l c root va' m.
Proof.
  intros Hl4 E [C0 C4 C3 C2 C1].
  assert (∀ k, (l ≤ k)%nat → idx k va' = idx k va) as Hi by (intros k Hk; by apply (idx_cong l); [|lia]).
  assert (∀ n, (n ≤ 3)%nat → (l + n ≤ 4)%nat → descend n 4 m root va' = descend n 4 m root va) as Hd.
  { intros n Hn Hl. apply descend_cong; [lia|]. symmetry. apply (vpn_eq_up l); [done|lia]. }
  constructor; [done|by rewrite Hi|intros Hl; rewrite Hd, Hi by lia; auto..].
Qed.

(** From a context at [va] whose range is free. *)
Lemma map_current_new T s s1 T1 c c1 va bytes flags n :
  advanced (slot_of va) 3 T (level4_table c) s T1 s1 → ctx_at 1 c1 (level4_table c) va (k_mem s1) →
  truthy (Z.land flags PAGING_FLAG_1GB) = false → truthy (Z.land flags PAGING_FLAG_2MB) = false →
  0 ≤ flags < 2 ^ 16 → 0 < bytes → n = (bytes - 1) / 2 ^ 12 + 1 → 0 ≤ va → va mod 2 ^ 12 = 0 →
  va + n * 2 ^ 12 < 2 ^ 48 → free_before c s va n →
  (∀ x, vpn 1 va ≤ vpn 1 x ≤ vpn 1 va + n → no_big_leaf 1 (k_mem s) (level4_table c) x) →
  4 * n + 3 ≤ pa_avail (k_alloc s) →
  mapped_new c va n T s
    (bind (paging_map_index_current c1 bytes (u16 flags))
      (λ '(mapped, c), if truthy mapped then ret (va, c) else ret (0, c)) s1).
Proof.
  intros [Hs1 Hg1 Hw1 _] Hc1 Hf1 Hf2 Hfl Hb Hn Hva Hal Hend Hfree Hno Hav.
  assert (0 < n) as Hn0 by (subst n; assert (0 ≤ (bytes - 1) / 2 ^ 12) by (apply Z.div_pos; lia); lia).
  pose proof (g_avail _ _ _ _ _ Hg1) as Hav1. pose proof Hw1 as [Hwalk _].
  assert (vpn 1 va = va / 2 ^ 12) as Hv by (apply vpn_small; lia).
  assert (∀ k, 0 ≤ k ≤ n → vpn 1 (va + k * 2 ^ 12) = vpn 1 va + k) as Hvk.
  { intros k Hk. by apply (vpn_va_add va k n). }
  assert (∀ x, vpn 1 va ≤ vpn 1 x ≤ vpn 1 va + n → no_big_leaf 1 (k_mem s1) (level4_table c) x) as Hno1.
  { intros x Hx. eapply no_big_leaf_kept; [exact Hw1|by apply Hno]. }
  rewrite u16_small by lia.
  destruct (map_index_current_4kb T1 (level4_table c) s1 c1 va bytes flags n Hs1 Hc1 Hf1 Hf2 Hb Hn)
    as (ps & c2 & s2 & T2 & Hr & Hs2 & Hg2 & Hlen & [Hnd Hps] & [Hin Hout] & va2 & Hva2 & Hc2);
    [rewrite Hv; divmod_lia|rewrite Hwalk; apply (proj1 Hfree); lia|done|lia|].
  rewrite (bind_ok _ _ _ _ _ Hr). cbn [truthy Z.eqb negb].
  pose proof (grows_trans 3 (4 * n) _ _ _ _ _ _ Hg1 Hg2) as Hg. pose proof (g_avail _ _ _ _ _ Hg).
  assert (∀ x, 0 ≤ x < 2 ^ 48 → ¬ (va ≤ x < va + n * 2 ^ 12) →
    walk 4 (k_mem s2) (level4_table c) x = walk 4 (k_mem s) (level4_table c) x) as Hkept.
  { intros x Hx Hr'. rewrite Hout, Hwalk; [done|]. rewrite Hlen, <- vpn_va by (done || lia). done. }
  exists ps, c2, (set_used (u64 (used_virtual_pages s1 + n)) s2), T2.
  split; [reflexivity|]. split; [by apply state_ok_set_used|]. split; [done|].
  split; [split; [done|]|split; [|split; [|split; [|split; [|split; [|split; [|split; [|split; [|split; [exact Hfree|split]]]]]]]]]].
  - eapply list.Forall_impl; [exact Hps|]. intros p (Hp & Hpa & Hpn & Hpu & HpT). split_and!; try done; try lia.
    intros Hu. apply Hpn. by apply (g_used _ _ _ _ _ Hg1).
  - cbn [used_virtual_pages set_used]. by rewrite (g_pages _ _ _ _ _ Hg1).
  - cbn [k_alloc set_used]. lia.
  - apply (g_used _ _ _ _ _ Hg).
  - by eapply data_kept_grows.
  - apply (g_sub _ _ _ _ _ Hg).
  - apply (g_fresh _ _ _ _ _ Hg).
  - apply (g_huge _ _ _ _ _ Hg).
  - intros i p y Hi Hy. set (x := va + 4096 * Z.of_nat i + y). apply list.lookup_lt_Some in Hi as Hil.
    assert (vpn 1 x = vpn 1 va + Z.of_nat i) as Hx.
    { unfold x. rewrite Hv, vpn_small by lia. change (lsh 1) with 12. divmod_lia. }
    replace (p + y) with (translate (k_mem s2) (level4_table c) x); [apply (resolves_translate c (set_used _ s2))|].
    unfold translate. rewrite (Hin i p x Hi Hx). cbn [leaf_address].
    destruct (proj1 (list.Forall_forall _ _) Hps p (list_elem_of_lookup_2 _ _ _ Hi)) as (Hp & Hpa & _).
    pose proof (paging_convert_flags_range flags). rewrite leaf_frame by lia.
    change (lsh 1) with 12. f_equal. unfold x. divmod_lia.
  - intros x Hx Hr'. apply walk_same_answer. by apply Hkept.
  - cbn [k_mem set_used]. apply (ctx_at_cong 1 c2 _ va2); [lia| |done]. by rewrite Hva2, Hvk by lia.
Qed.

(** The whole slot is free. *)
Lemma empty_slot_free m root k x :
  0 ≤ k < 512 → load64 m (root + 8 * k) = 0 → k * 2 ^ 39 ≤ x < (k + 1) * 2 ^ 39 → walk 4 m root x = None.
Proof.
  intros Hk Hz Hx. apply empty_slot_walk. replace (idx 4 x) with k; [done|].
  unfold idx. rewrite vpn_small by lia. change (lsh 4) with 39. divmod_lia.
Qed.

(** The search stands at [va], where there is room for [n] pages. *)
Lemma spot_found T s c va bytes flags n fuel :
  state_ok T (level4_table c) s → truthy (Z.land flags PAGING_FLAG_1GB) = false →
  truthy (Z.land flags PAGING_FLAG_2MB) = false → 0 < bytes → n = (bytes - 1) / 2 ^ 12 + 1 → spot c s va n →
  (512 ≤ fuel)%nat → 3 ≤ pa_avail (k_alloc s) →
  ∃ c1 s1 T1, paging_index_find_spot fuel c bytes flags s = Ok ((1, c1), s1) ∧
    advanced (slot_of va) 3 T (level4_table c) s T1 s1 ∧ ctx_at 1 c1 (level4_table c) va (k_mem s1) ∧
    context_address c1 = va ∧ (0 ≤ va ∧ va mod 2 ^ 12 = 0 ∧ va + n * 2 ^ 12 < 2 ^ 48) ∧
    free_before c s va n ∧
    (∀ x, vpn 1 va ≤ vpn 1 x ≤ vpn 1 va + n → no_big_leaf 1 (k_mem s) (level4_table c) x).
Proof.
  intros Hs Hf1 Hf2 Hb Hn Hspot Hfuel Hav.
  assert (0 < n) as Hn0 by (subst n; assert (0 ≤ (bytes - 1) / 2 ^ 12) by (apply Z.div_pos; lia); lia).
  destruct Hspot as [(k & H3 & H2 & Hk & -> & Hn27)|(Hc & Hroom & Hva & Hal & Hend & Hfirst & Hno)].
  - pose proof Hk as ((Hk0 & Hk1) & Hk5 & Hz & _).
    destruct (find_spot_fresh T s c bytes flags fuel k Hs H3 H2 Hk) as (c1 & s1 & T1 & Hr & Hadv & Hc1);
      [clear -Hn Hn27 Hb; divmod_lia|done|done|done|lia|].
    exists c1, s1, T1. split; [done|]. split; [done|]. split; [done|].
    split; [apply (context_address_at _ _ _ _ Hc1); (lia || divmod_lia)|]. split; [split_and!; (lia || divmod_lia)|]. split.
    + assert (∀ x, k * 2 ^ 39 ≤ x < k * 2 ^ 39 + n * 2 ^ 12 → walk 4 (k_mem s) (level4_table c) x = None) as Hfree
        by (intros x Hx; apply (empty_slot_free _ _ k); (done || lia)).
      split; [intros x Hx; apply Hfree; lia|done].
    + intros x Hx. destruct (slot_start k ltac:(lia)) as (Hv & _). rewrite Hv in Hx. intros l e.
      assert (idx 4 x = k) as Hi by (unfold idx; rewrite (slot_page k x) by lia; apply Z.mod_small; lia).
      rewrite empty_slot_walk by (by rewrite Hi). done.
  - exists c, s, T. split; [by apply (find_spot_room T s c bytes flags fuel va n)|].
    split; [eapply advanced_weaken; [|by apply advanced_refl]; lia|].
    split; [done|]. split; [by apply (context_address_at _ _ _ _ Hc); lia|]. split; [by split_and!|]. split.
    + split.
      * intros x Hx. apply (walk_none_page _ _ va); [done|]. rewrite !vpn_small by lia. change (lsh 1) with 12. divmod_lia.
      * intros H3. exfalso. pose proof (ok_tables _ _ _ Hs) as OK. destruct (at_3 _ _ _ _ _ Hc) as [Hd3 _]; [lia|].
        destruct (table_shape _ _ _ _ OK _ _ _ (descend_tree OK 1 4 _ va _ (root_tree OK va) ltac:(lia) Hd3)) as (_ & _ & Ht & _).
        lia.
    + intros x Hx. apply (room_no_big_leaf c (level4_table c) (k_mem s) va n x); (done || lia).
Qed.

Lemma paging_map_run T s c va bytes flags n fuel :
  state_ok T (level4_table c) s → 0 ≤ flags < 2 ^ 16 →
  truthy (Z.land flags PAGING_FLAG_1GB) = false → truthy (Z.land flags PAGING_FLAG_2MB) = false →
  0 < bytes → n = (bytes - 1) / 2 ^ 12 + 1 → spot c s va n → (512 ≤ fuel)%nat →
  4 * n + 3 ≤ pa_avail (k_alloc s) → mapped_new c va n T s (paging_map fuel c bytes flags s).
Proof.
  intros Hs Hfl Hf1 Hf2 Hb Hn Hspot Hfuel Hav.
  assert (0 ≤ (bytes - 1) / 2 ^ 12) by (apply Z.div_pos; lia).
  destruct (spot_found T s c va bytes flags n fuel Hs Hf1 Hf2 Hb Hn Hspot Hfuel)
    as (c1 & s1 & T1 & Hr & Hadv & Hc1 & Haddr & (Hva & Hal & Hend) & Hfree & Hno); [lia|].
  unfold paging_map. rewrite (bind_ok _ _ _ _ _ Hr). cbn [truthy Z.eqb negb]. rewrite Haddr.
  by apply (map_current_new T s s1 T1 c c1 va bytes flags n).
Qed.

(** C9. [paging_map] maps the pages of a range to newly allocated pages, all different and none of them a
    table; every address outside the range resolves as before, memory in use is unchanged, and the context
    is left behind the range. With a new context the range starts the first empty slot of the root table, and none
    of it was mapped before. With a context that stands in a level 1 table with room for the range, the
    range starts there; the code checks that its first page is not mapped (needed here) and overwrites the
    others if they are. Not covered: a context whose table has no room, and huge pages. *)
Theorem paging_map_spec T s c va bytes flags n fuel :
  state_ok T (level4_table c) s → 0 ≤ flags < 2 ^ 16 →
  truthy (Z.land flags PAGING_FLAG_1GB) = false → truthy (Z.land flags PAGING_FLAG_2MB) = false →
  0 < bytes → n = (bytes - 1) / 2 ^ 12 + 1 → spot c s va n → (512 ≤ fuel)%nat →
  4 * n + 3 ≤ pa_avail (k_alloc s) → mapped_new c va n T s (paging_map fuel c bytes flags s).
Proof. apply paging_map_run. Qed.

(** ** [paging_map_physical] *)

(** The result without the context it leaves. *)
Definition forget_context (o : outcome ((Z * paging_context) * kstate A)) : outcome (Z * kstate A) :=
  match o with Ok ((a, _), s) => Ok (a, s) | Undef => Undef | Hang => Hang end.

(** C19. [paging_map_physical] maps a physical range at an address it finds: the range there resolves to
    the physical range, byte for byte, every other address resolves as before, and memory in use outside
    the tables is unchanged. With a new context the range starts the first empty slot of the root table, and none
    of it was mapped before; with a context that stands in a level 1 table with room for the range, it
    starts there, its first page was not mapped (needed here), and pages further on are overwritten if
    they were. *)
Theorem paging_map_physical_spec T s c pa va bytes flags n fuel :
  state_ok T (level4_table c) s → map_request 1 va pa bytes flags n →
  truthy (Z.land flags PAGING_FLAG_1GB) = false → truthy (Z.land flags PAGING_FLAG_2MB) = false →
  spot c s va n → (512 ≤ fuel)%nat → 3 * n + 3 ≤ pa_avail (k_alloc s) →
  free_before c s va n ∧
  mapped 1 c va pa n T s (forget_context (paging_map_physical fuel c pa bytes flags s)).
Proof.
  intros Hs Hreq Hf1 Hf2 Hspot Hfuel Hav. pose proof Hreq as [Hfl Hb Hn (Hva & Hal & Hend) (Hpa & Hpal & Hpend)].
  change (lsh 1) with 12 in *. assert (0 ≤ (bytes - 1) / 2 ^ 12) by (apply Z.div_pos; lia).
  destruct (spot_found T s c va bytes flags n fuel Hs Hf1 Hf2 Hb Hn Hspot Hfuel)
    as (c1 & s1 & T1 & Hr & Hadv & Hc1 & Haddr & _ & Hfree & Hno); [lia|].
  split; [exact Hfree|]. pose proof (adv_walks _ _ _ _ _ _ _ Hadv) as Hw1.
  pose proof (adv_grows _ _ _ _ _ _ _ Hadv) as Hg1. pose proof (g_avail _ _ _ _ _ Hg1).
  destruct (map_index_physical_4kb T1 (level4_table c) s1 c1 pa va bytes flags n (adv_ok _ _ _ _ _ _ _ Hadv) Hc1 Hf1 Hf2
    Hb Hn Hva Hal Hend Hpa Hpal Hpend) as (c2 & s2 & T2 & Hr2 & Hs2 & Hg2 & Hm2).
  { rewrite (proj1 Hw1). apply (proj1 Hfree). lia. }
  { intros x Hx. eapply no_big_leaf_kept; [exact Hw1|]. apply Hno.
    rewrite !vpn_small by lia. change (lsh 1) with 12. divmod_lia. }
  { lia. }
  unfold paging_map_physical. rewrite (bind_ok _ _ _ _ _ Hr). cbn [truthy Z.eqb negb]. rewrite Haddr, u16_small by lia.
  rewrite (bind_ok _ _ _ _ _ Hr2), (g_pages _ _ _ _ _ Hg1). cbn [truthy Z.eqb negb ret forget_context].
  pose proof (paging_convert_flags_range flags).
  replace n with (n * 2 ^ (lsh 1 - 12)) at 2 by (change (2 ^ (lsh 1 - 12)) with 1; lia).
  apply (mapped_intro 1 c va pa bytes flags n (paging_convert_flags flags) (3 + 3 * n) T s s2 T2);
    [lia|exact Hreq|lia|done|by eapply grows_trans|].
  eapply maps_range_from; [exact Hw1|by apply Hadv|lia|done].
Qed.
End Find.

(** A stack of eight pages in a new address space whose first slot is taken. *)
Definition context1 : paging_context := PagingContext 0x1000 0 0 0 1 0 0 0.

Lemma paging_map_spec_witness :
  mapped_new context1 0x8000000000 8 tree0 kernel0 (paging_map 512 context1 0x8000 PAGING_FLAG_WRITE kernel0).
Proof.
  apply (paging_map_spec tree0 kernel0 context1 0x8000000000 0x8000 PAGING_FLAG_WRITE 8 512).
  - exact kernel0_ok.
  - split; by vm_compute.
  - reflexivity.
  - reflexivity.
  - reflexivity.
  - reflexivity.
  - left. exists 1. split; [reflexivity|]. split; [reflexivity|]. split; [|split; reflexivity].
    split; [split; by vm_compute|]. split; [reflexivity|]. split; [apply load64_empty|].
    cbn [context1 level4_index]. lia.
  - lia.
  - by vm_compute.
Defined.

(** The registers of an IO APIC in a new address space. *)
Lemma paging_map_physical_spec_witness :
  mapped 1 context1 0x8000000000 0xFEC00000 1 tree0 kernel0
    (forget_context (paging_map_physical 512 context1 0xFEC00000 32 PAGING_FLAG_WRITE kernel0)).
Proof.
  apply (paging_map_physical_spec tree0 kernel0 context1 0xFEC00000 0x8000000000 32 PAGING_FLAG_WRITE 1 512).
  - exact kernel0_ok.
  - constructor; closed_arith.
  - reflexivity.
  - reflexivity.
  - left. exists 1. split; [reflexivity|]. split; [reflexivity|]. split; [|split; reflexivity].
    split; [split; by vm_compute|]. split; [reflexivity|]. split; [apply load64_empty|].
    cbn [context1 level4_index]. lia.
  - lia.
  - by vm_compute.
Defined.

(** In an address space without any table the first address is 0, which the
    callers of [paging_map] take for a failure. *)
Example first_address_is_zero :
  match paging_map 512 context0 0x1000 PAGING_FLAG_WRITE kernel0 with
  | Ok ((0, _), s) => used_virtual_pages s = 1
  | _ => False
  end.
Proof. by vm_compute. Qed.

(** A page mapped further on is overwritten: the search stands at the page
    before it, which is free, and does not look at it. *)
Example paging_map_overwrites :
  match (let! '(first, c) := paging_map 512 context1 0x1000 PAGING_FLAG_WRITE in
         let! fixed := paging_map_physical_at c 0xB8000 0x8000002000 0x1000 PAGING_FLAG_WRITE in
         let! before := paging_get_physical_address c 0x8000002000 in
         let! '(second, c) := paging_map 512 c 0x2000 PAGING_FLAG_WRITE in
         let! after := paging_get_physical_address c 0x8000002000 in
         ret (first, fixed, second, before =? 0xB8000, after =? 0xB8000)) kernel0 with
  | Ok (r, _) => r = (0x8000000000, 0x8000002000, 0x8000001000, true, false)
  | _ => False
  end.
Proof. by vm_compute. Qed.
