(* ===== verification/Cpu.v ===== *)
(** * The state of a CPU

    The state the descriptor table, scheduler and CPU set-up code works on:
    the memory, page allocator and messages of the paging code, and what the
    instructions of [src/src/common/cpu.c] and the stores to the local APIC
    change. [struct cpu] of [cpu.h] lives in the byte memory of [Memory]. *)

From S2P Require Import Prelude Memory Allocator Paging.

(** ** Layout of [struct cpu] *)

Definition cpu_address : Z := 0.
Definition cpu_id_field : Z := 8.
Definition cpu_local_apic_physical : Z := 16.
Definition cpu_interrupt_descriptor_table : Z := 24.
Definition cpu_global_descriptor_table : Z := 32.
Definition cpu_current_process : Z := 40.

Definition CPU_APIC_ADDRESS : Z := 0x8000000000.
Definition sizeof_apic : Z := 0x540.

(** Stores to [CPU_APIC] and instructions with an effect outside memory. *)
Inductive device_write :=
| EndOfInterrupt (v : Z)
| TimerInitialCount (v : Z)
| TimerDivideConfig (v : Z)
| TimerVector (v : Z)
| SpuriousInterruptVector (v : Z)
| LoadInterruptTable (limit address : Z)
| LoadGlobalTable (limit address : Z)
| LoadTaskRegister (selector : Z)
| LoadStackPointer (address : Z)
| Halt.

(** The kernel state of the paging code, the segment base behind
    [cpu_get_current], [cr3], the interrupt flag, the static variables
    [current_process_id] of [scheduler.c] and [current_cpu_id] of [cpu.c],
    [max_memory_address] of [main.c], and the device writes so far, newest
    first. *)
Record cpu_state (A : Type) := CpuState {
  s_kernel : kstate A;
  s_fs : Z;
  s_cr3 : Z;
  s_interrupts : bool;
  current_process_id : Z;
  current_cpu_id : Z;
  max_memory_address : Z;
  s_writes : list device_write
}.
Arguments CpuState {A}.
Arguments s_kernel {A}.
Arguments s_fs {A}.
Arguments s_cr3 {A}.
Arguments s_interrupts {A}.
Arguments current_process_id {A}.
Arguments current_cpu_id {A}.
Arguments max_memory_address {A}.
Arguments s_writes {A}.

Section Cpu.
Context {A : Type} {PA : PageAllocator A}.
Implicit Type s : cpu_state A.

Definition with_kernel (k : kstate A) s : cpu_state A := CpuState k (s_fs s) (s_cr3 s)
  (s_interrupts s) (current_process_id s) (current_cpu_id s) (max_memory_address s) (s_writes s).
Definition with_mem (f : mem → mem) s : cpu_state A := with_kernel (set_mem f (s_kernel s)) s.
Definition set_fs (v : Z) s : cpu_state A := CpuState (s_kernel s) v (s_cr3 s)
  (s_interrupts s) (current_process_id s) (current_cpu_id s) (max_memory_address s) (s_writes s).
Definition set_cr3 (v : Z) s : cpu_state A := CpuState (s_kernel s) (s_fs s) v
  (s_interrupts s) (current_process_id s) (current_cpu_id s) (max_memory_address s) (s_writes s).
Definition set_interrupts (b : bool) s : cpu_state A := CpuState (s_kernel s) (s_fs s) (s_cr3 s)
  b (current_process_id s) (current_cpu_id s) (max_memory_address s) (s_writes s).
Definition set_process_id (v : Z) s : cpu_state A := CpuState (s_kernel s) (s_fs s) (s_cr3 s)
  (s_interrupts s) v (current_cpu_id s) (max_memory_address s) (s_writes s).
Definition set_cpu_id (v : Z) s : cpu_state A := CpuState (s_kernel s) (s_fs s) (s_cr3 s)
  (s_interrupts s) (current_process_id s) v (max_memory_address s) (s_writes s).
Definition log_write (w : device_write) s : cpu_state A := CpuState (s_kernel s) (s_fs s) (s_cr3 s)
  (s_interrupts s) (current_process_id s) (current_cpu_id s) (max_memory_address s) (w :: s_writes s).
Definition device (w : device_write) : M (cpu_state A) unit := modify (log_write w).

Definition s_mem s : mem := k_mem (s_kernel s).

(** Loads and stores of 64-bit fields. *)
Definition field (a : Z) : M (cpu_state A) Z := gets (λ s, load64 (s_mem s) a).
Definition set_field (a v : Z) : M (cpu_state A) unit := modify (with_mem (λ m, store64 m a v)).

(** A call of the paging code. *)
Definition kernel {R} (k : M (kstate A) R) : M (cpu_state A) R := λ s,
  match k (s_kernel s) with
  | Ok (r, k') => Ok (r, with_kernel k' s)
  | Undef => Undef
  | Hang => Hang
  end.

(** Calls to the console. *)
Definition says (c : console_call) : M (cpu_state A) unit := kernel (modify (add_log c)).
Definition print (msg : string) : M (cpu_state A) unit := says (CPrint msg).

(** [mov %0, [fs:0]]: the first field of [struct cpu] is its own address. *)
Definition cpu_get_current : M (cpu_state A) Z :=
  let! fs := gets s_fs in field fs.

(** [ALIGN_TO_NEXT(n, to)] for [unsigned long]s. *)
Definition align_to_next (n to : Z) : Z := u64 (Z.land (u64 (n - 1)) (u64 (- to)) + to).

Lemma s_mem_with_mem f s : s_mem (with_mem f s) = f (s_mem s). Proof. reflexivity. Qed.
End Cpu.
