(* ===== verification/CpuSpec.v ===== *)
(** * Well-formed CPU states

    What the set-up of a CPU relies on: [fs] points to a [struct cpu] that
    holds its own address, on a page that is in use, and the page allocator is
    well formed. Pages allocated from such a state are apart from the
    [struct cpu] and from all memory in use. *)

From S2P Require Import Prelude Memory Allocator Paging PagingStep Cpu.

Section CpuSpec.
Context {A : Type} {PA : PageAllocator A} {PAL : PageAllocatorLaws A}.
Implicit Type s : cpu_state A.

Definition s_alloc s : A := k_alloc (s_kernel s).

Record cpu_ready s : Prop := CpuReady {
  ready_alloc : pa_inv (s_alloc s);
  ready_zero : pa_used (s_alloc s) 0;
  ready_cpu : load64 (s_mem s) (s_fs s) = s_fs s;
  ready_used : pa_used (s_alloc s) (s_fs s / 2 ^ 12);
  ready_aligned : s_fs s mod 2 ^ 12 = 0
}.

Definition with_alloc (a : A) s : cpu_state A := with_kernel (set_alloc a (s_kernel s)) s.

(** A page that was free lies apart from every page in use. *)
Lemma fresh_page_apart s p b :
  ¬ pa_used (s_alloc s) p → pa_used (s_alloc s) (b / 2 ^ 12) →
  ¬ (p * 2 ^ 12 ≤ b < p * 2 ^ 12 + 4096).
Proof.
  intros Hp Hb Hr. apply Hp. replace p with (b / 2 ^ 12); [done|]. divmod_lia.
Qed.

Lemma fresh_page_cpu s p :
  cpu_ready s → ¬ pa_used (s_alloc s) p →
  s_fs s + 4096 ≤ p * 2 ^ 12 ∨ p * 2 ^ 12 + 4096 ≤ s_fs s.
Proof.
  intros [_ _ _ Hu Ha] Hp. assert (p ≠ s_fs s / 2 ^ 12) by (by intros ->). divmod_lia.
Qed.

Lemma cpu_alloc s :
  cpu_ready s → 0 < pa_avail (s_alloc s) →
  ∃ p a, kernel allocate_page s = Ok (p * 2 ^ 12, with_alloc a s) ∧ cpu_ready (with_alloc a s) ∧
    pa_avail a = pa_avail (s_alloc s) - 1 ∧ 0 < p < 2 ^ 40 ∧
    ¬ pa_used (s_alloc s) p ∧ pa_used a p ∧ (∀ q, pa_used (s_alloc s) q → pa_used a q).
Proof.
  intros [Hinv H0 Hc Hu Ha] Hav.
  destruct (alloc_step (s_kernel s) Hinv H0 Hav) as (p & a & Hrun & Hinv' & Hav' & Hp & Hn & Hu' & Hm).
  exists p, a. unfold kernel. rewrite Hrun. split_and!; try done; try lia. split; auto.
Qed.

(** Writes elsewhere than to the first field of [struct cpu]. *)
Lemma ready_write s f :
  cpu_ready s → (∀ x, s_fs s ≤ x < s_fs s + 8 → load8 (f (s_mem s)) x = load8 (s_mem s) x) →
  cpu_ready (with_mem f s).
Proof.
  intros [Hinv H0 Hc Hu Ha] Hf. split; [done|done| |done|done].
  change (load64 (f (s_mem s)) (s_fs s) = s_fs s).
  rewrite <- Hc at 2. apply load_ext. intros x Hx. apply Hf. lia.
Qed.

Lemma get_current_run s : cpu_ready s → cpu_get_current s = Ok (s_fs s, s).
Proof. intros [_ _ Hc _ _]. unfold cpu_get_current, field. mstep. unfold gets. by rewrite Hc. Qed.

(** [cpu_alloc] with the address of the page instead of its number. *)
Lemma cpu_alloc_page s :
  cpu_ready s → 0 < pa_avail (s_alloc s) →
  ∃ t a, kernel allocate_page s = Ok (t, with_alloc a s) ∧ cpu_ready (with_alloc a s) ∧
    pa_avail a = pa_avail (s_alloc s) - 1 ∧ 0 < t < 2 ^ 52 ∧ t mod 2 ^ 12 = 0 ∧
    ¬ pa_used (s_alloc s) (t / 2 ^ 12) ∧ pa_used a (t / 2 ^ 12) ∧
    (∀ q, pa_used (s_alloc s) q → pa_used a q) ∧ (s_fs s + 4096 ≤ t ∨ t + 4096 ≤ s_fs s).
Proof.
  intros Hs Hav. destruct (cpu_alloc s Hs Hav) as (p & a & Hrun & Hr & Hav' & Hp & Hn & Hu & Hm).
  pose proof (fresh_page_cpu s p Hs Hn) as Hap.
  exists (p * 2 ^ 12), a. rewrite Z.div_mul by lia.
  split_and!; (done || lia || (apply Z.mod_mul; lia)).
Qed.
(** Different pages, none of them in use. *)
Definition fresh_pages s (l : list Z) : Prop :=
  NoDup l ∧ Forall (λ a, 0 < a < 2 ^ 52 ∧ a mod 2 ^ 12 = 0 ∧ ¬ pa_used (s_alloc s) (a / 2 ^ 12)) l.

(** The fields of [cpu_ready] are all that matters. *)
Lemma ready_ext s s' :
  s_alloc s' = s_alloc s → s_mem s' = s_mem s → s_fs s' = s_fs s → cpu_ready s → cpu_ready s'.
Proof. intros Ha Hm Hf [H1 H2 H3 H4 H5]. split; by rewrite ?Ha, ?Hm, ?Hf. Qed.

(** Writes to a page apart from [struct cpu]. *)
Lemma ready_write_page s t f :
  cpu_ready s → s_fs s + 4096 ≤ t ∨ t + 4096 ≤ s_fs s →
  (∀ m x, ¬ (t ≤ x < t + 4096) → load8 (f m) x = load8 m x) → cpu_ready (with_mem f s).
Proof. intros Hs Ha Hf. apply ready_write; [done|]. intros x Hx. apply Hf. lia. Qed.

(** ** Executing the calls without a result of interest *)

Definition logged (c : console_call) s : cpu_state A := with_kernel (add_log c (s_kernel s)) s.

Lemma bind_says {B} c (k : unit → M (cpu_state A) B) s : bind (says c) k s = k tt (logged c s).
Proof. reflexivity. Qed.
Lemma bind_print {B} msg (k : unit → M (cpu_state A) B) s :
  bind (print msg) k s = k tt (logged (CPrint msg) s).
Proof. reflexivity. Qed.
Lemma bind_device {B} w (k : unit → M (cpu_state A) B) s : bind (device w) k s = k tt (log_write w s).
Proof. reflexivity. Qed.
Lemma bind_set_field {B} a v (k : unit → M (cpu_state A) B) s :
  bind (set_field a v) k s = k tt (with_mem (λ m, store64 m a v) s).
Proof. reflexivity. Qed.
Lemma bind_field {B} a (k : Z → M (cpu_state A) B) s :
  bind (field a) k s = k (load64 (s_mem s) a) s.
Proof. reflexivity. Qed.

(** ** What the updates leave alone *)

Lemma with_mem_mem f g s : with_mem f (with_mem g s) = with_mem (λ m, f (g m)) s.
Proof. reflexivity. Qed.
Lemma s_fs_with_mem f s : s_fs (with_mem f s) = s_fs s. Proof. reflexivity. Qed.
Lemma s_alloc_with_mem f s : s_alloc (with_mem f s) = s_alloc s. Proof. reflexivity. Qed.
Lemma s_writes_with_mem f s : s_writes (with_mem f s) = s_writes s. Proof. reflexivity. Qed.
Lemma s_fs_with_alloc a s : s_fs (with_alloc a s) = s_fs s. Proof. reflexivity. Qed.
Lemma s_mem_with_alloc a s : s_mem (with_alloc a s) = s_mem s. Proof. reflexivity. Qed.
Lemma s_alloc_with_alloc a s : s_alloc (with_alloc a s) = a. Proof. reflexivity. Qed.
Lemma s_writes_with_alloc a s : s_writes (with_alloc a s) = s_writes s. Proof. reflexivity. Qed.
Lemma s_fs_logged c s : s_fs (logged c s) = s_fs s. Proof. reflexivity. Qed.
Lemma s_mem_logged c s : s_mem (logged c s) = s_mem s. Proof. reflexivity. Qed.
Lemma s_alloc_logged c s : s_alloc (logged c s) = s_alloc s. Proof. reflexivity. Qed.
Lemma s_writes_logged c s : s_writes (logged c s) = s_writes s. Proof. reflexivity. Qed.
Lemma s_fs_log_write w s : s_fs (log_write w s) = s_fs s. Proof. reflexivity. Qed.
Lemma s_mem_log_write w s : s_mem (log_write w s) = s_mem s. Proof. reflexivity. Qed.
Lemma s_alloc_log_write w s : s_alloc (log_write w s) = s_alloc s. Proof. reflexivity. Qed.
Lemma s_writes_log_write w s : s_writes (log_write w s) = w :: s_writes s. Proof. reflexivity. Qed.

Lemma logged_ready c s : cpu_ready s → cpu_ready (logged c s).
Proof. by apply ready_ext. Qed.
Lemma log_write_ready w s : cpu_ready s → cpu_ready (log_write w s).
Proof. by apply ready_ext. Qed.
(** ** Pages collected along the way *)

(** From [s] to [s'] the fresh pages [l] were allocated; the CPU is still ready. *)
Record grown s (l : list Z) s' : Prop := Grown {
  grown_ready : cpu_ready s';
  grown_fresh : fresh_pages s l;
  grown_used : Forall (λ a, pa_used (s_alloc s') (a / 2 ^ 12)) l;
  grown_mono : ∀ q, pa_used (s_alloc s) q → pa_used (s_alloc s') q;
  grown_avail : pa_avail (s_alloc s') = pa_avail (s_alloc s) - Z.of_nat (length l);
  grown_fs : s_fs s' = s_fs s;
  grown_apart : Forall (λ a, s_fs s + 4096 ≤ a ∨ a + 4096 ≤ s_fs s) l
}.

Lemma grown_refl s : cpu_ready s → grown s [] s.
Proof. intros Hs. split; cbn [length]; (done || lia || (split; constructor)). Qed.

Lemma grown_alloc s l s1 :
  grown s l s1 → 0 < pa_avail (s_alloc s1) →
  ∃ t a, kernel allocate_page s1 = Ok (t, with_alloc a s1) ∧ grown s (l ++ [t]) (with_alloc a s1).
Proof.
  intros [Hr [Hnd Hf] Hu Hm Hav Hfs Hap] Hpos.
  destruct (cpu_alloc_page s1 Hr Hpos) as (t & a & Hrun & Hr' & Hav' & Ht & Htm & Htn & Htu & Hm' & Hta).
  exists t, a. split; [done|].
  assert (∀ x, x ∈ l → x ≠ t) as Hne.
  { intros x Hx ->. rewrite list.Forall_forall in Hu. auto. }
  split; rewrite ?s_alloc_with_alloc, ?s_fs_with_alloc; [done| | | | |done|].
  - split.
    + apply list.NoDup_app. split; [done|]. split; [|apply NoDup_singleton].
      intros x Hx Hx'%list_elem_of_singleton. by apply (Hne x).
    + apply list.Forall_app. split; [done|]. apply Forall_singleton. split_and!; [lia..|done|]. intros Hq. by apply Htn, Hm.
  - apply list.Forall_app. split; [|by apply Forall_singleton].
    eapply list.Forall_impl; [exact Hu|]. cbn beta. auto.
  - auto.
  - rewrite length_app. cbn [length]. lia.
  - apply list.Forall_app. split; [done|]. apply Forall_singleton. by rewrite <- Hfs.
Qed.

(** Writes to one of the pages. *)
Lemma grown_write s l s1 t f :
  grown s l s1 → t ∈ l → (∀ m x, ¬ (t ≤ x < t + 4096) → load8 (f m) x = load8 m x) →
  grown s l (with_mem f s1).
Proof.
  intros [Hr Hf Hu Hm Hav Hfs Hap] Ht Hout. split; [|done..].
  apply (ready_write_page _ t); [done| |done]. rewrite list.Forall_forall in Hap. rewrite Hfs. auto.
Qed.

Lemma grown_logged s l s1 c : grown s l s1 → grown s l (logged c s1).
Proof. intros []. split; [by apply logged_ready|done..]. Qed.
Lemma grown_log_write s l s1 w : grown s l s1 → grown s l (log_write w s1).
Proof. intros []. split; [by apply log_write_ready|done..]. Qed.

(** Writes to [struct cpu] behind its first field. *)
Lemma grown_write_cpu s l s1 f :
  grown s l s1 → (∀ m x, s_fs s ≤ x < s_fs s + 8 → load8 (f m) x = load8 m x) →
  grown s l (with_mem f s1).
Proof.
  intros [Hr Hf Hu Hm Hav Hfs Hap] Hout. split; [|done..].
  apply ready_write; [done|]. rewrite Hfs. auto.
Qed.

Lemma grown_page_range s l s' t :
  grown s l s' → t ∈ l → 0 < t < 2 ^ 52 ∧ 0 ≤ t + 4096 < 2 ^ 64.
Proof.
  intros [_ [_ Hf] _ _ _ _ _] Ht. rewrite list.Forall_forall in Hf.
  destruct (Hf t Ht) as [H _]. lia.
Qed.

(** Memory in use is apart from the fresh pages. *)
Lemma fresh_pages_apart s l t x :
  fresh_pages s l → t ∈ l → pa_used (s_alloc s) (x / 2 ^ 12) → ¬ (t ≤ x < t + 4096).
Proof.
  intros [_ Hf] Ht Hx Hr. rewrite list.Forall_forall in Hf. destruct (Hf t Ht) as (_ & Hm & Hn).
  apply Hn. replace (t / 2 ^ 12) with (x / 2 ^ 12); [done|]. divmod_lia.
Qed.

(** Two of the pages do not overlap. *)
Lemma fresh_pages_disjoint s l t t' :
  fresh_pages s l → t ∈ l → t' ∈ l → t ≠ t' → t + 4096 ≤ t' ∨ t' + 4096 ≤ t.
Proof.
  intros [_ Hf] Ht Ht' Hne. rewrite list.Forall_forall in Hf.
  destruct (Hf t Ht) as (_ & Hm & _), (Hf t' Ht') as (_ & Hm' & _). divmod_lia.
Qed.
End CpuSpec.

Create Rewrite HintDb cpu.
#[export] Hint Rewrite @s_mem_with_mem @s_fs_with_mem @s_alloc_with_mem @s_writes_with_mem
  @s_fs_with_alloc @s_mem_with_alloc @s_alloc_with_alloc @s_writes_with_alloc
  @s_fs_logged @s_mem_logged @s_alloc_logged @s_writes_logged
  @s_fs_log_write @s_mem_log_write @s_alloc_log_write @s_writes_log_write : cpu.
Ltac cpu_simpl := autorewrite with cpu.

(** [cstep] executes the steps at the head of a program on a CPU. *)
Ltac cstep := repeat first
  [ rewrite bind_ret | rewrite bind_modify | rewrite bind_gets | rewrite bind_assoc
  | rewrite bind_says | rewrite bind_print | rewrite bind_device | rewrite bind_set_field
  | rewrite bind_field ].
