(* ===== verification/Machine.v ===== *)
(** * A concrete machine

    The state the witnesses of the CPU set-up code start from: [struct cpu] at
    0x1000, the interrupt descriptor table at 0x2000, pages 0 to 2 in use, and
    the bitmap allocator of [memory_physical.c] over 128 pages. *)

From S2P Require Import Prelude Memory Allocator Lock Physical PhysicalSpec Paging Cpu CpuSpec.

Definition memory0 : mem := store64 (store64 ∅ 0x1000 0x1000) 0x1018 0x2000.

Definition cpu0 : cpu_state phys :=
  CpuState (KState memory0 (Phys [7; 0] 0 2 3 0 []) 0 1 []) 0x1000 0x1000 false 1 1 0x80000 [].

Lemma cpu0_phys_inv : phys_inv (Phys [7; 0] 0 2 3 0 []).
Proof.
  constructor; cbn [allocation_table allocation_table_length allocation_index memory_lock];
    [done|lia| |lia|done].
  apply list.Forall_cons. split; [|apply list.Forall_cons; split; [apply word_ok_zero|done]].
  split; [lia|]. intros i Hi. rewrite !(testbit_high 7 3) by lia. done.
Qed.

Lemma cpu0_low_pages p : 0 ≤ p < 3 → pa_used (s_alloc cpu0) p.
Proof.
  intros Hp. assert (p = 0 ∨ p = 1 ∨ p = 2) as H by lia.
  destruct H as [->|[->| ->]]; (split; [lia|]; intros w Hw; cbn in Hw; by injection Hw as <-).
Qed.

Lemma cpu0_ready : cpu_ready cpu0.
Proof.
  split; [exact cpu0_phys_inv|apply cpu0_low_pages; lia|by vm_compute| |by vm_compute].
  change (s_fs cpu0 / 2 ^ 12) with 1. apply cpu0_low_pages; lia.
Qed.

Lemma cpu0_avail : pa_avail (s_alloc cpu0) = 61.
Proof. by vm_compute. Qed.
