(* ===== verification/Gdt.v ===== *)
(** * The global descriptor table

    Models [src/src/common/gdt.c] and the structures of [gdt.h]: descriptors
    are bit fields in the byte memory of [Memory]. [GdtSpec] has the theorems. *)

From S2P Require Import Prelude Memory Bits Allocator Paging Cpu.

Definition GDT_KERNEL_CODE_SEGMENT : Z := 0x8.
Definition GDT_KERNEL_DATA_SEGMENT : Z := 0x10.
Definition GDT_KERNEL_TASK_SEGMENT : Z := 0x18.
Definition sizeof_gdt_entry : Z := 8.
Definition sizeof_gdt_system_entry : Z := 16.

(** ** struct gdt_entry *)

Definition segment_limit1 (m : mem) (d : Z) : Z := load16 m d.
Definition segment_base1 (m : mem) (d : Z) : Z := load16 m (d + 2).
Definition segment_base2 (m : mem) (d : Z) : Z := load8 m (d + 4).
Definition segment_accessed (m : mem) (d : Z) : Z := get_bits8 (d + 5) 0 1 m.
Definition segment_read_write (m : mem) (d : Z) : Z := get_bits8 (d + 5) 1 1 m.
Definition segment_direction_conforming (m : mem) (d : Z) : Z := get_bits8 (d + 5) 2 1 m.
Definition segment_executable (m : mem) (d : Z) : Z := get_bits8 (d + 5) 3 1 m.
Definition segment_non_system (m : mem) (d : Z) : Z := get_bits8 (d + 5) 4 1 m.
Definition segment_privilege (m : mem) (d : Z) : Z := get_bits8 (d + 5) 5 2 m.
Definition segment_present (m : mem) (d : Z) : Z := get_bits8 (d + 5) 7 1 m.
Definition segment_limit2 (m : mem) (d : Z) : Z := get_bits8 (d + 6) 0 4 m.
Definition segment_long_mode (m : mem) (d : Z) : Z := get_bits8 (d + 6) 5 1 m.
Definition segment_size (m : mem) (d : Z) : Z := get_bits8 (d + 6) 6 1 m.
Definition segment_granularity (m : mem) (d : Z) : Z := get_bits8 (d + 6) 7 1 m.
Definition segment_base3 (m : mem) (d : Z) : Z := load8 m (d + 7).

(** [base4] of [struct gdt_system_entry]. *)
Definition segment_base4 (m : mem) (d : Z) : Z := load32 m (d + 8).

(** ** struct gdt_task_state *)

Definition sizeof_gdt_task_state : Z := 104.
Definition task_state_ist1 : Z := 36.
Definition task_state_ist2 : Z := 44.

(** ** Writing the descriptors *)

Definition write_code_segment (d : Z) (m : mem) : mem :=
  let m := set_bits8 (d + 5) 1 1 1 m in
  let m := set_bits8 (d + 5) 3 1 1 m in
  let m := set_bits8 (d + 5) 4 1 1 m in
  let m := set_bits8 (d + 5) 7 1 1 m in
  set_bits8 (d + 6) 5 1 1 m.

Definition write_data_segment (d : Z) (m : mem) : mem :=
  let m := set_bits8 (d + 5) 1 1 1 m in
  let m := set_bits8 (d + 5) 4 1 1 m in
  let m := set_bits8 (d + 5) 7 1 1 m in
  set_bits8 (d + 6) 5 1 1 m.

Definition write_task_segment (d base limit : Z) (m : mem) : mem :=
  let m := set_bits8 (d + 5) 0 1 1 m in
  let m := set_bits8 (d + 5) 1 1 0 m in
  let m := set_bits8 (d + 5) 2 1 0 m in
  let m := set_bits8 (d + 5) 3 1 1 m in
  let m := set_bits8 (d + 5) 7 1 1 m in
  let m := store 2 m d (Z.land limit 0xFFFF) in
  let m := set_bits8 (d + 6) 0 4 (Z.land (Z.shiftr limit 16) 0xFF) m in
  let m := store 2 m (d + 2) (Z.land base 0xFFFF) in
  let m := store8 m (d + 4) (Z.land (Z.shiftr base 16) 0xFF) in
  let m := store8 m (d + 7) (Z.land (Z.shiftr base 24) 0xFF) in
  store 4 m (d + 8) (Z.land (Z.shiftr base 32) 0xFFFFFFFF).

Section Gdt.
Context {A : Type} {PA : PageAllocator A}.

(** One descriptor of [gdt_debug]; the result says whether it is a system
    descriptor, which takes up the next index as well. [base3 << 24] is a
    shift of an [int], extended to 64 bits by the call. *)
Definition gdt_debug_entry (i d : Z) : M (cpu_state A) bool :=
  let! m := gets s_mem in
  let flag (b : Z) (name : string) : M (cpu_state A) unit := if truthy b then print name else ret tt in
  if negb (truthy (segment_present m d)) then ret false
  else
    print "[gdt] entry #" ;;;
    says (CPrintU64 i 10) ;;;
    print " base=0x" ;;;
    says (CPrintU64 (u64 (Z.lor (Z.lor (segment_base1 m d) (Z.shiftl (segment_base2 m d) 16))
      (s32 (Z.shiftl (segment_base3 m d) 24)))) 16) ;;;
    print " limit=0x" ;;;
    says (CPrintU64 (Z.lor (segment_limit1 m d) (Z.shiftl (segment_limit2 m d) 16)) 16) ;;;
    print " access=" ;;;
    flag (segment_present m d) "P" ;;;
    says (CPrintU32 (segment_privilege m d) 10) ;;;
    (if truthy (segment_non_system m d) then ret tt else print "S") ;;;
    flag (segment_executable m d) "E" ;;;
    flag (segment_direction_conforming m d) "D" ;;;
    flag (segment_read_write m d) "W" ;;;
    flag (segment_accessed m d) "a" ;;;
    print " flags=" ;;;
    flag (segment_granularity m d) "G" ;;;
    flag (segment_size m d) "Z" ;;;
    flag (segment_long_mode m d) "L" ;;;
    says CNewLine ;;;
    ret (negb (truthy (segment_non_system m d))).

(** The loop over six indices; [fuel] of 6 is enough, the index grows by at
    least one. *)
Fixpoint gdt_debug_loop (fuel : nat) (table i : Z) : M (cpu_state A) unit :=
  match fuel with
  | O => ret tt
  | S fuel' =>
      if i <? 6 then
        let! system := gdt_debug_entry i (table + sizeof_gdt_entry * i) in
        gdt_debug_loop fuel' table (i + (if system then 2 else 1))
      else ret tt
  end.

Definition gdt_debug : M (cpu_state A) unit :=
  let! cpu := cpu_get_current in
  let! table := field (cpu + cpu_global_descriptor_table) in
  gdt_debug_loop 6 table 0.

(** [memory_physical_allocate() + 4096ul] *)
Definition allocate_stack : M (cpu_state A) Z :=
  let! page := kernel allocate_page in ret (u64 (page + 4096)).

Definition gdt_initialize : M (cpu_state A) unit :=
  let! table := kernel allocate_page in
  modify (with_mem (λ m, memory_zero m table 4096)) ;;;
  modify (with_mem (write_code_segment (table + GDT_KERNEL_CODE_SEGMENT))) ;;;
  modify (with_mem (write_data_segment (table + GDT_KERNEL_DATA_SEGMENT))) ;;;
  let! task_state := kernel allocate_page in
  modify (with_mem (λ m, memory_zero m task_state sizeof_gdt_task_state)) ;;;
  print "[gdt] allocate task_state at 0x" ;;;
  says (CPrintU64 task_state 16) ;;;
  says CNewLine ;;;
  let! stack1 := allocate_stack in
  set_field (task_state + task_state_ist1) stack1 ;;;
  let! stack2 := allocate_stack in
  set_field (task_state + task_state_ist2) stack2 ;;;
  print "[gdt] allocate ist1 at 0x" ;;;
  let! ist1 := field (task_state + task_state_ist1) in
  says (CPrintU64 ist1 16) ;;;
  says CNewLine ;;;
  modify (with_mem (write_task_segment (table + GDT_KERNEL_TASK_SEGMENT) task_state
    sizeof_gdt_task_state)) ;;;
  device (LoadGlobalTable (sizeof_gdt_entry * 3 + sizeof_gdt_system_entry) table) ;;;
  device (LoadTaskRegister GDT_KERNEL_TASK_SEGMENT) ;;;
  let! cpu := cpu_get_current in
  set_field (cpu + cpu_global_descriptor_table) table.
End Gdt.
