(* ===== verification/GdtSpec.v ===== *)
(** * Correctness of the global descriptor table

    The descriptors [gdt_initialize] writes are read back as the processor
    reads them: the code and data segments as 64-bit words, the task segment
    by its base, limit and access byte. *)

From S2P Require Import Prelude Memory Bits Allocator Physical PhysicalSpec Paging Cpu CpuSpec Machine Gdt.

(** ** The writes of one descriptor *)

Lemma write_code_segment_byte d m x :
  load8 (write_code_segment d m) x =
    if decide (x = d + 5) then bits_set 7 1 1 (bits_set 4 1 1 (bits_set 3 1 1 (bits_set 1 1 1 (load8 m x))))
    else if decide (x = d + 6) then bits_set 5 1 1 (load8 m x) else load8 m x.
Proof.
  unfold write_code_segment. pose proof (load8_range m x) as Hr.
  destruct (decide (x = d + 5)) as [->|H5]; [|destruct (decide (x = d + 6)) as [->|H6]].
  - rewrite load8_set_bits8_ne by lia. unfold set_bits8. rewrite !load8_store8_eq.
    repeat (rewrite (u8_small (bits_set _ _ _ _)) by (repeat (apply bits_set_range; [lia..|]); (exact Hr || apply u8_range))). done.
  - unfold set_bits8 at 1. rewrite load8_store8_eq, !load8_set_bits8_ne by lia.
    apply u8_small, bits_set_range; (lia || done).
  - by rewrite !load8_set_bits8_ne by lia.
Qed.

Lemma write_data_segment_byte d m x :
  load8 (write_data_segment d m) x =
    if decide (x = d + 5) then bits_set 7 1 1 (bits_set 4 1 1 (bits_set 1 1 1 (load8 m x)))
    else if decide (x = d + 6) then bits_set 5 1 1 (load8 m x) else load8 m x.
Proof.
  unfold write_data_segment. pose proof (load8_range m x) as Hr.
  destruct (decide (x = d + 5)) as [->|H5]; [|destruct (decide (x = d + 6)) as [->|H6]].
  - rewrite load8_set_bits8_ne by lia. unfold set_bits8. rewrite !load8_store8_eq.
    repeat (rewrite (u8_small (bits_set _ _ _ _)) by (repeat (apply bits_set_range; [lia..|]); (exact Hr || apply u8_range))). done.
  - unfold set_bits8 at 1. rewrite load8_store8_eq, !load8_set_bits8_ne by lia.
    apply u8_small, bits_set_range; (lia || done).
  - by rewrite !load8_set_bits8_ne by lia.
Qed.

Lemma write_task_segment_outside d base limit m x :
  ¬ (d ≤ x < d + 12) → load8 (write_task_segment d base limit m) x = load8 m x.
Proof.
  intros Hx. unfold write_task_segment.
  rewrite load8_store_out, !load8_store8_ne, load8_store_out, load8_set_bits8_ne, load8_store_out,
    !load8_set_bits8_ne by lia. done.
Qed.

(** A system descriptor as the processor reads it. *)
Record system_segment := SystemSegment { ss_base : Z; ss_limit : Z; ss_access : Z; ss_flags : Z }.

Definition read_system_segment (m : mem) (d : Z) : system_segment :=
  SystemSegment
    (segment_base1 m d + segment_base2 m d * 2 ^ 16 + segment_base3 m d * 2 ^ 24 + segment_base4 m d * 2 ^ 32)
    (segment_limit1 m d + segment_limit2 m d * 2 ^ 16)
    (load8 m (d + 5)) (get_bits8 (d + 6) 4 4 m).

Lemma read_system_segment_ext m1 m2 d :
  (∀ x, d ≤ x < d + 12 → load8 m1 x = load8 m2 x) → read_system_segment m1 d = read_system_segment m2 d.
Proof.
  intros H. unfold read_system_segment, segment_base1, segment_base2, segment_base3, segment_base4,
    segment_limit1, segment_limit2, get_bits8, load16, load32.
  rewrite !(load_ext _ m1 m2) by (intros; apply H; lia). by rewrite !H by lia.
Qed.

(** The access byte of the task segment. *)
Lemma write_task_segment_access d base limit m :
  load8 (write_task_segment d base limit m) (d + 5) =
    bits_set 7 1 1 (bits_set 3 1 1 (bits_set 2 1 0 (bits_set 1 1 0 (bits_set 0 1 1 (load8 m (d + 5)))))).
Proof.
  pose proof (load8_range m (d + 5)) as Hr. unfold write_task_segment.
  rewrite load8_store_out, !load8_store8_ne, load8_store_out, load8_set_bits8_ne, load8_store_out by lia.
  unfold set_bits8. rewrite !load8_store8_eq.
  repeat (rewrite (u8_small (bits_set _ _ _ _)) by (repeat (apply bits_set_range; [lia..|]); (exact Hr || apply u8_range))). done.
Qed.

(** The parts of an address and a limit. *)
Lemma base_parts b :
  0 ≤ b < 2 ^ 64 →
  b mod 2 ^ 16 + b / 2 ^ 16 mod 2 ^ 8 * 2 ^ 16 + b / 2 ^ 24 mod 2 ^ 8 * 2 ^ 24 + b / 2 ^ 32 mod 2 ^ 32 * 2 ^ 32 = b.
Proof. intros Hb. divmod_lia. Qed.

Lemma read_write_task_segment d base limit m :
  0 ≤ base < 2 ^ 64 → 0 ≤ limit < 2 ^ 20 → load8 m (d + 5) = 0 → load8 m (d + 6) = 0 →
  read_system_segment (write_task_segment d base limit m) d = SystemSegment base limit 0x89 0.
Proof.
  intros Hb Hl H5 H6. unfold read_system_segment. f_equal.
  - etransitivity; [|exact (base_parts base Hb)]. f_equal; [f_equal; [f_equal|f_equal]|f_equal].
    + unfold segment_base1, load16, write_task_segment.
      rewrite load_store_ne, !load_store8_ne, load_store_eq by lia.
      change 0xFFFF with (2 ^ 16 - 1). rewrite land_ones_mod by lia. apply Z.mod_mod. lia.
    + unfold segment_base2, write_task_segment.
      rewrite load8_store_out, load8_store8_ne, load8_store8_eq by lia.
      change 0xFF with (2 ^ 8 - 1). rewrite land_ones_mod, Z.shiftr_div_pow2 by lia.
      by rewrite u8_small by (apply Z.mod_pos_bound; lia).
    + unfold segment_base3, write_task_segment. rewrite load8_store_out, load8_store8_eq by lia.
      change 0xFF with (2 ^ 8 - 1). rewrite land_ones_mod, Z.shiftr_div_pow2 by lia.
      by rewrite u8_small by (apply Z.mod_pos_bound; lia).
    + unfold segment_base4, load32, write_task_segment. rewrite load_store_eq.
      change 0xFFFFFFFF with (2 ^ 32 - 1). rewrite land_ones_mod, Z.shiftr_div_pow2 by lia.
      apply Z.mod_mod. lia.
  - unfold segment_limit1, load16, segment_limit2, get_bits8, write_task_segment.
    rewrite load_store_ne, !load_store8_ne, load_store_ne, load_set_bits8_ne, load_store_eq by lia.
    rewrite load8_store_out, !load8_store8_ne, load8_store_out by lia. unfold set_bits8 at 1.
    rewrite load8_store8_eq, u8_small
      by (apply bits_set_range; (lia || apply load8_range)).
    rewrite bits_get_set_eq by lia. change 0xFFFF with (2 ^ 16 - 1). change 0xFF with (2 ^ 8 - 1).
    rewrite !land_ones_mod, Z.shiftr_div_pow2 by lia. divmod_lia.
  - rewrite write_task_segment_access, H5. by vm_compute.
  - unfold get_bits8, write_task_segment.
    rewrite load8_store_out, !load8_store8_ne, load8_store_out by lia. unfold set_bits8 at 1.
    rewrite load8_store8_eq, u8_small
      by (apply bits_set_range; (lia || apply load8_range)).
    rewrite bits_get_set_ne, load8_store_out, !load8_set_bits8_ne, H6 by lia. by vm_compute.
Qed.

(** ** The whole initialisation *)

Lemma write_segments_outside table m x :
  ¬ (table ≤ x < table + 4096) →
  load8 (write_data_segment (table + 16) (write_code_segment (table + 8) (memory_zero m table 4096))) x =
    load8 m x.
Proof.
  intros Hx. rewrite write_data_segment_byte, write_code_segment_byte, !decide_False by lia.
  by rewrite load8_memory_zero, decide_False by lia.
Qed.

(** Memory after [gdt_initialize], for the pages it was given. *)
Definition gdt_memory (fs table task stack1 stack2 : Z) (m : mem) : mem :=
  let m := write_data_segment (table + 16) (write_code_segment (table + 8) (memory_zero m table 4096)) in
  let m := store64 (memory_zero m task 104) (task + 36) (stack1 + 4096) in
  let m := store64 m (task + 44) (stack2 + 4096) in
  store64 (write_task_segment (table + 24) task 104 m) (fs + 32) table.

Section GdtSpec.
Context {A : Type} {PA : PageAllocator A} {PAL : PageAllocatorLaws A}.
Implicit Type s : cpu_state A.

#[local] Opaque load64 store64 memory_zero write_code_segment write_data_segment write_task_segment.

(** The four pages and the final state. *)
Lemma gdt_run s :
  cpu_ready s → 4 ≤ pa_avail (s_alloc s) →
  ∃ s' table task stack1 stack2,
    gdt_initialize s = Ok (tt, s') ∧ grown s [table; task; stack1; stack2] s' ∧
    s_mem s' = gdt_memory (s_fs s) table task stack1 stack2 (s_mem s) ∧
    s_writes s' = LoadTaskRegister 0x18 :: LoadGlobalTable 40 table :: s_writes s.
Proof.
  intros Hs Hav. unfold gdt_initialize, allocate_stack, task_state_ist1, task_state_ist2.
  destruct (grown_alloc s [] s (grown_refl s Hs)) as (g & a1 & Hr1 & G1); [lia|].
  rewrite (bind_ok _ _ _ _ _ Hr1). cstep.
  apply (grown_write _ _ _ g (λ m, memory_zero m g 4096)) in G1; [|left|].
  2: { intros m x Hx. by rewrite load8_memory_zero, decide_False by lia. }
  apply (grown_write _ _ _ g (write_code_segment (g + GDT_KERNEL_CODE_SEGMENT))) in G1; [|left|].
  2: { intros m x Hx. unfold GDT_KERNEL_CODE_SEGMENT. by rewrite write_code_segment_byte, !decide_False by lia. }
  apply (grown_write _ _ _ g (write_data_segment (g + GDT_KERNEL_DATA_SEGMENT))) in G1; [|left|].
  2: { intros m x Hx. unfold GDT_KERNEL_DATA_SEGMENT. by rewrite write_data_segment_byte, !decide_False by lia. }
  destruct (grown_alloc _ _ _ G1) as (t & a2 & Hr2 & G2); [rewrite (grown_avail _ _ _ G1); cbn; lia|].
  rewrite (bind_ok _ _ _ _ _ Hr2). cstep. clear G1. unfold sizeof_gdt_task_state.
  apply (grown_write _ _ _ t (λ m, memory_zero m t 104)) in G2; [|right; left|].
  2: { intros m x Hx. by rewrite load8_memory_zero, decide_False by lia. }
  do 3 eapply grown_logged in G2.
  destruct (grown_alloc _ _ _ G2) as (k1 & a3 & Hr3 & G3); [rewrite (grown_avail _ _ _ G2); cbn; lia|].
  rewrite (bind_ok _ _ _ _ _ Hr3). cstep. clear G2. rewrite u64_small by (apply (grown_page_range _ _ _ _ G3); set_solver).
  apply (grown_write _ _ _ t (λ m, store64 m (t + 36) (k1 + 4096))) in G3; [|right; left|].
  2: { intros m x Hx. by rewrite load8_store64_out by lia. }
  destruct (grown_alloc _ _ _ G3) as (k2 & a4 & Hr4 & G4); [rewrite (grown_avail _ _ _ G3); cbn; lia|].
  rewrite (bind_ok _ _ _ _ _ Hr4). cstep. clear G3. rewrite u64_small by (apply (grown_page_range _ _ _ _ G4); set_solver).
  apply (grown_write _ _ _ t (λ m, store64 m (t + 44) (k2 + 4096))) in G4; [|right; left|].
  2: { intros m x Hx. by rewrite load8_store64_out by lia. }
  eapply grown_logged in G4. do 2 eapply grown_logged in G4.
  apply (grown_write _ _ _ g (write_task_segment (g + GDT_KERNEL_TASK_SEGMENT) t 104)) in G4; [|left|].
  2: { intros m x Hx. unfold GDT_KERNEL_TASK_SEGMENT. by rewrite write_task_segment_outside by lia. }
  do 2 eapply grown_log_write in G4.
  rewrite (bind_ok _ _ _ _ _ (get_current_run _ (grown_ready _ _ _ G4))).
  rewrite (grown_fs _ _ _ G4).
  apply (grown_write_cpu _ _ _ (λ m, store64 m (s_fs s + cpu_global_descriptor_table) g)) in G4.
  2: { intros m x Hx. unfold cpu_global_descriptor_table. by rewrite load8_store64_out by lia. }
  eexists _, g, t, k1, k2. split; [reflexivity|]. split; [exact G4|].
  split; cpu_simpl; reflexivity.
Qed.
#[local] Transparent load64 store64 memory_zero write_code_segment write_data_segment write_task_segment.


(** ** Memory afterwards *)

Section GdtMemory.
Context (fs g t k1 k2 : Z) (m : mem).
Hypothesis Hgt : g + 4096 ≤ t ∨ t + 4096 ≤ g.
Hypothesis Hfg : fs + 4096 ≤ g ∨ g + 4096 ≤ fs.
Hypothesis Hft : fs + 4096 ≤ t ∨ t + 4096 ≤ fs.
Let M := gdt_memory fs g t k1 k2 m.

(** In front of the task segment, the table is what the first two descriptors make it. *)
Lemma gdt_memory_segments x :
  g ≤ x < g + 24 ∨ g + 36 ≤ x < g + 4096 →
  load8 M x = load8 (write_data_segment (g + 16) (write_code_segment (g + 8) (memory_zero m g 4096))) x.
Proof.
  intros Hx. unfold M, gdt_memory.
  rewrite load8_store64_out, write_task_segment_outside, !load8_store64_out by lia.
  by rewrite load8_memory_zero, decide_False by lia.
Qed.

Lemma gdt_memory_zeroed x :
  g ≤ x < g + 24 ∨ g + 36 ≤ x < g + 4096 → x ∉ [g + 13; g + 14; g + 21; g + 22] → load8 M x = 0.
Proof.
  intros Hx Hn. rewrite gdt_memory_segments by done. set_unfold.
  rewrite write_data_segment_byte, write_code_segment_byte, !decide_False by lia.
  by rewrite load8_memory_zero, decide_True by lia.
Qed.

Lemma gdt_memory_null : load64 M g = 0.
Proof. apply load_zero. intros x Hx. apply gdt_memory_zeroed; [lia|set_unfold; lia]. Qed.

(** The two bytes of a segment that are not zero. *)
Lemma load64_segment a access flags :
  (∀ x, a ≤ x < a + 8 → x ≠ a + 5 → x ≠ a + 6 → load8 M x = 0) →
  load8 M (a + 5) = access → load8 M (a + 6) = flags →
  load64 M a = le_value [0; 0; 0; 0; 0; access; flags; 0].
Proof.
  intros H0 H5 H6. apply (load_bytes_at M [0; 0; 0; 0; 0; access; flags; 0]).
  cbn [bytes_at]. rewrite <- !Z.add_assoc. cbn [Z.add Pos.add Pos.succ].
  do 5 (split; [apply H0; lia|]). split; [exact H5|]. split; [exact H6|]. split; [apply H0; lia|exact I].
Qed.

Lemma gdt_memory_code : load64 M (g + 8) = 0x00209A0000000000.
Proof.
  rewrite (load64_segment (g + 8) 0x9A 0x20); [by vm_compute|..].
  - intros x Hx H5 H6. apply gdt_memory_zeroed; [lia|set_unfold; lia].
  - rewrite gdt_memory_segments by lia.
    rewrite write_data_segment_byte, write_code_segment_byte, !decide_False, decide_True by lia.
    rewrite load8_memory_zero, decide_True by lia. by vm_compute.
  - rewrite gdt_memory_segments by lia.
    rewrite write_data_segment_byte, write_code_segment_byte, !decide_False, decide_True by lia.
    rewrite load8_memory_zero, decide_True by lia. by vm_compute.
Qed.

Lemma gdt_memory_data : load64 M (g + 16) = 0x0020920000000000.
Proof.
  rewrite (load64_segment (g + 16) 0x92 0x20); [by vm_compute|..].
  - intros x Hx H5 H6. apply gdt_memory_zeroed; [lia|set_unfold; lia].
  - rewrite gdt_memory_segments by lia.
    rewrite write_data_segment_byte, write_code_segment_byte, decide_True, !decide_False by lia.
    rewrite load8_memory_zero, decide_True by lia. by vm_compute.
  - rewrite gdt_memory_segments by lia.
    rewrite write_data_segment_byte, write_code_segment_byte.
    rewrite decide_False, decide_True, !decide_False by lia.
    rewrite load8_memory_zero, decide_True by lia. by vm_compute.
Qed.

Lemma gdt_memory_task : 0 ≤ t < 2 ^ 64 → read_system_segment M (g + 24) = SystemSegment t 104 0x89 0.
Proof.
  intros Ht. rewrite <- (read_write_task_segment (g + 24) t 104 (store64 (store64 (memory_zero
    (write_data_segment (g + 16) (write_code_segment (g + 8) (memory_zero m g 4096))) t 104)
    (t + 36) (k1 + 4096)) (t + 44) (k2 + 4096))); [|lia|lia|..].
  - apply read_system_segment_ext. intros x Hx. unfold M, gdt_memory. by rewrite load8_store64_out by lia.
  - rewrite !load8_store64_out, load8_memory_zero, decide_False by lia.
    rewrite write_data_segment_byte, write_code_segment_byte, !decide_False by lia.
    by rewrite load8_memory_zero, decide_True by lia.
  - rewrite !load8_store64_out, load8_memory_zero, decide_False by lia.
    rewrite write_data_segment_byte, write_code_segment_byte, !decide_False by lia.
    by rewrite load8_memory_zero, decide_True by lia.
Qed.

Lemma load64_write_task d base limit m' a :
  a + 8 ≤ d ∨ d + 12 ≤ a → load64 (write_task_segment d base limit m') a = load64 m' a.
Proof. intros H. apply load_ext. intros x Hx. apply write_task_segment_outside. lia. Qed.

Lemma gdt_memory_ist1 : 0 ≤ k1 + 4096 < 2 ^ 64 → load64 M (t + 36) = k1 + 4096.
Proof.
  intros Hk. unfold M, gdt_memory.
  by rewrite load64_store64_ne, load64_write_task, load64_store64_ne, load64_store64_eq by lia.
Qed.

Lemma gdt_memory_ist2 : 0 ≤ k2 + 4096 < 2 ^ 64 → load64 M (t + 44) = k2 + 4096.
Proof.
  intros Hk. unfold M, gdt_memory.
  by rewrite load64_store64_ne, load64_write_task, load64_store64_eq by lia.
Qed.

Lemma gdt_memory_task_state x : t ≤ x < t + 104 → ¬ (t + 36 ≤ x < t + 52) → load8 M x = 0.
Proof.
  intros Hx Hn. unfold M, gdt_memory.
  rewrite load8_store64_out, write_task_segment_outside, !load8_store64_out by lia.
  by rewrite load8_memory_zero, decide_True by lia.
Qed.

Lemma gdt_memory_outside x :
  ¬ (g ≤ x < g + 4096) → ¬ (t ≤ x < t + 4096) → ¬ (fs + 32 ≤ x < fs + 40) → load8 M x = load8 m x.
Proof.
  intros H1 H2 H3. unfold M, gdt_memory.
  rewrite load8_store64_out, write_task_segment_outside, !load8_store64_out by lia.
  rewrite load8_memory_zero, decide_False by lia. by apply write_segments_outside.
Qed.
End GdtMemory.

(** What [gdt_initialize] leaves: a null entry, 64-bit code and data segments,
    a task segment for a task state whose two interrupt stacks are pages of
    their own, both registers loaded, the table recorded with the CPU, and all
    other memory in use as it was. *)
Record gdt_built s s' (table task stack1 stack2 : Z) : Prop := GdtBuilt {
  built_pages : grown s [table; task; stack1; stack2] s';
  built_null : load64 (s_mem s') table = 0;
  built_code : load64 (s_mem s') (table + GDT_KERNEL_CODE_SEGMENT) = 0x00209A0000000000;
  built_data : load64 (s_mem s') (table + GDT_KERNEL_DATA_SEGMENT) = 0x0020920000000000;
  built_task : read_system_segment (s_mem s') (table + GDT_KERNEL_TASK_SEGMENT) =
    SystemSegment task 104 0x89 0;
  built_stack1 : load64 (s_mem s') (task + task_state_ist1) = stack1 + 4096;
  built_stack2 : load64 (s_mem s') (task + task_state_ist2) = stack2 + 4096;
  built_task_state : ∀ x, task ≤ x < task + 104 → ¬ (task + 36 ≤ x < task + 52) → load8 (s_mem s') x = 0;
  built_cpu : load64 (s_mem s') (s_fs s + cpu_global_descriptor_table) = table;
  built_writes : s_writes s' = LoadTaskRegister 0x18 :: LoadGlobalTable 40 table :: s_writes s;
  built_frame : ∀ x, pa_used (s_alloc s) (x / 2 ^ 12) → ¬ (s_fs s + 32 ≤ x < s_fs s + 40) →
    load8 (s_mem s') x = load8 (s_mem s) x
}.

Lemma gdt_initialize_ok s :
  cpu_ready s → 4 ≤ pa_avail (s_alloc s) →
  ∃ s' table task stack1 stack2,
    gdt_initialize s = Ok (tt, s') ∧ gdt_built s s' table task stack1 stack2.
Proof.
  intros Hs Hav. destruct (gdt_run s Hs Hav) as (s' & g & t & k1 & k2 & Hrun & G & Hm & Hw).
  assert (g ∈ [g; t; k1; k2]) as Ig by left. assert (t ∈ [g; t; k1; k2]) as It by (right; left).
  assert (k1 ∈ [g; t; k1; k2]) as Ik1 by (do 2 right; left).
  assert (k2 ∈ [g; t; k1; k2]) as Ik2 by (do 3 right; left).
  pose proof (grown_fresh _ _ _ G) as Hf.
  assert (g ≠ t) as Hne.
  { destruct Hf as [Hnd _]. apply list.NoDup_cons in Hnd as [Hn _]. intros ->. apply Hn. left. }
  pose proof (fresh_pages_disjoint s _ g t Hf Ig It Hne) as Hgt.
  pose proof (grown_apart _ _ _ G) as Hap.
  apply list.Forall_cons in Hap as [Hfg Hap]. apply list.Forall_cons in Hap as [Hft _].
  pose proof (grown_page_range _ _ _ g G Ig) as Hg. pose proof (grown_page_range _ _ _ t G It) as Ht.
  pose proof (grown_page_range _ _ _ k1 G Ik1) as Hk1. pose proof (grown_page_range _ _ _ k2 G Ik2) as Hk2.
  exists s', g, t, k1, k2. split; [exact Hrun|]. split; try rewrite Hm.
  - exact G.
  - by apply gdt_memory_null.
  - by apply gdt_memory_code.
  - by apply gdt_memory_data.
  - apply gdt_memory_task; (assumption || lia).
  - apply gdt_memory_ist1; (assumption || lia).
  - apply gdt_memory_ist2; (assumption || lia).
  - by apply gdt_memory_task_state.
  - unfold gdt_memory, cpu_global_descriptor_table. apply load64_store64_eq. lia.
  - exact Hw.
  - intros x Hx Hn. apply gdt_memory_outside;
      [exact (fresh_pages_apart _ _ _ _ Hf Ig Hx)|exact (fresh_pages_apart _ _ _ _ Hf It Hx)|exact Hn].
Qed.

(** C16. [gdt_initialize] builds, on four fresh pages, a table with a null entry, 64-bit kernel code
    and data segments and a task segment for a task state whose two interrupt stacks are the other
    pages; it loads both registers, records the table with the CPU and changes no other memory in use. *)
Theorem gdt_initialize_spec s :
  cpu_ready s → 4 ≤ pa_avail (s_alloc s) →
  ∃ s' table task stack1 stack2,
    gdt_initialize s = Ok (tt, s') ∧ gdt_built s s' table task stack1 stack2.
Proof. apply gdt_initialize_ok. Qed.
End GdtSpec.

Lemma gdt_initialize_spec_witness :
  ∃ s' table, gdt_initialize cpu0 = Ok (tt, s') ∧
    load64 (s_mem s') (table + GDT_KERNEL_CODE_SEGMENT) = 0x00209A0000000000 ∧
    load64 (s_mem s') (0x1000 + cpu_global_descriptor_table) = table.
Proof.
  destruct (gdt_initialize_spec cpu0 cpu0_ready) as (s' & g & t & k1 & k2 & H1 & H2).
  - rewrite cpu0_avail. lia.
  - exists s', g. split; [exact H1|]. split; [exact (built_code _ _ _ _ _ _ H2)|exact (built_cpu _ _ _ _ _ _ H2)].
Defined.
