(* ===== verification/Idt.v ===== *)
(** * The interrupt descriptor table

    Models [src/src/common/idt.c] and [struct idt_entry] of [idt.h]: the gates
    are bit fields in the byte memory of [Memory], sixteen bytes each. The
    addresses of the handler functions are a parameter. [IdtSpec] has the
    theorems. *)

From S2P Require Import Prelude Memory Bits Allocator Paging Cpu Gdt.

Definition IDT_GATE_TYPE_INTERRUPT : Z := 14.
Definition IDT_GATE_TYPE_TRAP : Z := 15.
Definition IDT_STACK_TYPE_CURRENT : Z := 0.
Definition IDT_STACK_TYPE_DOUBLE_FAULT : Z := 1.
Definition IDT_STACK_TYPE_SCHEDULER : Z := 2.

(** The handlers the file defines. *)
Inductive idt_handler :=
| idt_handle_divide_by_zero
| idt_handle_debug
| idt_handle_non_maskable_interrupt
| idt_handle_breakpoint
| idt_handle_overflow
| idt_handle_bound_range
| idt_handle_invalid_opcode
| idt_handle_device_not_available
| idt_handle_invalid_double_fault
| idt_handle_segment_overrun
| idt_handle_invalid_tss
| idt_handle_segment_not_present
| idt_handle_stack
| idt_handle_general_protection
| idt_handle_page_fault
| idt_handle_float_exception
| idt_handle_alignment_check
| idt_handle_machine_check
| idt_handle_simd_float_exception
| idt_handle_spurious.

#[export] Instance idt_handler_eq_dec : EqDecision idt_handler.
Proof. solve_decision. Defined.

(** The texts of the exceptions 0 to 31, which no handler prints. *)
Definition exception_messages : list string := [
  "divide by zero"; "debug"; "external non maskable interrupt"; "breakpoint"; "overflow";
  "bound range"; "invalid opcode"; "device not available"; "double fault";
  "coprocessor segment overrun"; "invalid tss"; "segment not present"; "stack";
  "general protection"; "page fault"; "reserved15"; "x87 floating point exception";
  "alignment check"; "machine check"; "SIMD floating point"; "reserved20"; "reserved21";
  "reserved22"; "reserved23"; "reserved24"; "reserved25"; "reserved26"; "reserved27";
  "hypervisor injection exception"; "VMM communication exception"; "security exception";
  "reserved"].

(** ** struct idt_entry *)

Definition gate_address (table vector : Z) : Z := table + 16 * vector.

(** The fields of the gate at [d]. *)
Definition gate_offset1 (m : mem) (d : Z) : Z := load16 m d.
Definition gate_code_segment (m : mem) (d : Z) : Z := load16 m (d + 2).
Definition gate_interrupt_stack (m : mem) (d : Z) : Z := load8 m (d + 4).
Definition gate_gate_type (m : mem) (d : Z) : Z := get_bits8 (d + 5) 0 4 m.
Definition gate_privilege_level (m : mem) (d : Z) : Z := get_bits8 (d + 5) 5 2 m.
Definition gate_present (m : mem) (d : Z) : Z := get_bits8 (d + 5) 7 1 m.
Definition gate_offset2 (m : mem) (d : Z) : Z := load16 m (d + 6).
Definition gate_offset3 (m : mem) (d : Z) : Z := load32 m (d + 8).

(** The offset as [idt_debug] puts it together. *)
Definition gate_offset (m : mem) (d : Z) : Z :=
  Z.lor (Z.lor (gate_offset1 m d) (Z.shiftl (gate_offset2 m d) 16)) (Z.shiftl (gate_offset3 m d) 32).

(** Lines 329 to 335, on memory. *)
Definition write_gate (d function_pointer interrupt_type ist : Z) (m : mem) : mem :=
  let m := store 2 m d (Z.land function_pointer 0xFFFF) in
  let m := store 2 m (d + 2) GDT_KERNEL_CODE_SEGMENT in
  let m := store8 m (d + 4) (Z.land ist 7) in
  let m := set_bits8 (d + 5) 0 4 (Z.land interrupt_type 0xF) m in
  let m := set_bits8 (d + 5) 7 1 1 m in
  let m := store 2 m (d + 6) (Z.land (Z.shiftr function_pointer 16) 0xFFFF) in
  store 4 m (d + 8) (Z.land (Z.shiftr function_pointer 32) 0xFFFFFFFF).

Section Idt.
Context {A : Type} {PA : PageAllocator A}.
Context (address_of : idt_handler → Z).

(** [cpu->interrupt_descriptor_table] of the current CPU. *)
Definition current_idt : M (cpu_state A) Z :=
  let! cpu := cpu_get_current in field (cpu + cpu_interrupt_descriptor_table).

Definition idt_register_interrupt (vector function_pointer interrupt_type ist : Z)
    : M (cpu_state A) unit :=
  let! table := current_idt in
  let d := gate_address table vector in
  let! present := gets (λ s, gate_present (s_mem s) d) in
  (if truthy present then
     print "warning: overwriting interrupt vector #" ;;;
     says (CPrintI32 vector 10) ;;;
     says CNewLine
   else ret tt) ;;;
  modify (with_mem (write_gate d function_pointer interrupt_type ist)).

Definition idt_disable_interrupt (vector : Z) : M (cpu_state A) unit :=
  let! table := current_idt in
  modify (with_mem (set_bits8 (gate_address table vector + 5) 7 1 0)).

Definition idt_enable_interrupt (vector : Z) : M (cpu_state A) unit :=
  let! table := current_idt in
  modify (with_mem (set_bits8 (gate_address table vector + 5) 7 1 1)).

(** Registration of one of the handlers of the file. *)
Definition register (vector : Z) (h : idt_handler) (interrupt_type ist : Z) : M (cpu_state A) unit :=
  idt_register_interrupt vector (address_of h) interrupt_type ist.

(** Lines 270 to 293. *)
Definition register_exceptions : M (cpu_state A) unit :=
  register 0 idt_handle_divide_by_zero IDT_GATE_TYPE_TRAP IDT_STACK_TYPE_CURRENT ;;;
  register 1 idt_handle_debug IDT_GATE_TYPE_TRAP IDT_STACK_TYPE_CURRENT ;;;
  register 2 idt_handle_non_maskable_interrupt IDT_GATE_TYPE_INTERRUPT IDT_STACK_TYPE_CURRENT ;;;
  register 3 idt_handle_breakpoint IDT_GATE_TYPE_TRAP IDT_STACK_TYPE_CURRENT ;;;
  register 4 idt_handle_overflow IDT_GATE_TYPE_TRAP IDT_STACK_TYPE_CURRENT ;;;
  register 5 idt_handle_bound_range IDT_GATE_TYPE_TRAP IDT_STACK_TYPE_CURRENT ;;;
  register 6 idt_handle_invalid_opcode IDT_GATE_TYPE_TRAP IDT_STACK_TYPE_CURRENT ;;;
  register 7 idt_handle_device_not_available IDT_GATE_TYPE_TRAP IDT_STACK_TYPE_CURRENT ;;;
  register 8 idt_handle_invalid_double_fault IDT_GATE_TYPE_INTERRUPT IDT_STACK_TYPE_DOUBLE_FAULT ;;;
  register 9 idt_handle_segment_overrun IDT_GATE_TYPE_TRAP IDT_STACK_TYPE_CURRENT ;;;
  register 10 idt_handle_invalid_tss IDT_GATE_TYPE_TRAP IDT_STACK_TYPE_CURRENT ;;;
  register 11 idt_handle_segment_not_present IDT_GATE_TYPE_TRAP IDT_STACK_TYPE_CURRENT ;;;
  register 12 idt_handle_stack IDT_GATE_TYPE_TRAP IDT_STACK_TYPE_CURRENT ;;;
  register 13 idt_handle_general_protection IDT_GATE_TYPE_TRAP IDT_STACK_TYPE_CURRENT ;;;
  register 14 idt_handle_page_fault IDT_GATE_TYPE_TRAP IDT_STACK_TYPE_CURRENT ;;;
  register 16 idt_handle_float_exception IDT_GATE_TYPE_TRAP IDT_STACK_TYPE_CURRENT ;;;
  register 17 idt_handle_alignment_check IDT_GATE_TYPE_TRAP IDT_STACK_TYPE_CURRENT ;;;
  register 18 idt_handle_machine_check IDT_GATE_TYPE_TRAP IDT_STACK_TYPE_CURRENT ;;;
  register 19 idt_handle_simd_float_exception IDT_GATE_TYPE_TRAP IDT_STACK_TYPE_CURRENT.

(** The loop of lines 296 to 299: vectors 0xff - 17 to 0xff, eighteen of them. *)
Definition register_spurious : M (cpu_state A) unit :=
  for_loop 18 (0xff - 17) (λ i, register i idt_handle_spurious IDT_GATE_TYPE_TRAP 0).

Definition idt_initialize : M (cpu_state A) unit :=
  let! table := kernel allocate_page in
  (if table =? 0 then
     print "fatal: could not initialize interrupt descriptor table" ;;; device Halt
   else ret tt) ;;;
  modify (with_mem (λ m, memory_zero m table 4096)) ;;;
  let! cpu := cpu_get_current in
  set_field (cpu + cpu_interrupt_descriptor_table) table ;;;
  device (LoadInterruptTable (256 * 16 - 1) table) ;;;
  register_exceptions ;;;
  register_spurious.

(** ** The handlers *)

(** [cli; hlt] *)
Definition stop : M (cpu_state A) unit := modify (set_interrupts false) ;;; device Halt.

(** [frame] points to the [struct idt_stack_frame], [local] is the address of
    the variable [a] of [idt_handle_breakpoint], [cr2] the faulting address. *)
Definition idt_handle (h : idt_handler) (frame error_code local cr2 : Z) : M (cpu_state A) unit :=
  match h with
  | idt_handle_divide_by_zero => print ("interrupt: divide by zero!" +:+ nl) ;;; stop
  | idt_handle_debug => print ("interrupt: debug!" +:+ nl)
  | idt_handle_non_maskable_interrupt => print ("interrupt: non maskable!" +:+ nl) ;;; stop
  | idt_handle_breakpoint =>
      print ("interrupt: breakpoint!" +:+ nl) ;;;
      print "a pointer = 0x" ;;;
      says (CPrintU64 local 16) ;;;
      says CNewLine
  | idt_handle_overflow => print ("interrupt: overflow!" +:+ nl) ;;; stop
  | idt_handle_bound_range => print ("interrupt: bound range!" +:+ nl) ;;; stop
  | idt_handle_invalid_opcode =>
      print ("interrupt: invalid opcode! at 0x" +:+ nl) ;;;
      let! ip := field frame in
      says (CPrintU64 ip 16) ;;;
      says CNewLine ;;;
      stop
  | idt_handle_device_not_available => print ("interrupt: device not available!" +:+ nl) ;;; stop
  | idt_handle_invalid_double_fault => print ("interrupt: double fault!" +:+ nl) ;;; stop
  | idt_handle_segment_overrun => print ("interrupt: segment overrun!" +:+ nl) ;;; stop
  | idt_handle_invalid_tss => print ("interrupt: invalid tss!" +:+ nl) ;;; stop
  | idt_handle_segment_not_present => print ("interrupt: segment not present!" +:+ nl) ;;; stop
  | idt_handle_stack => print ("interrupt: stack!" +:+ nl) ;;; stop
  | idt_handle_general_protection => print ("interrupt: general protection!" +:+ nl) ;;; stop
  | idt_handle_page_fault =>
      print "interrupt: page fault! process at 0x" ;;;
      let! ip := field frame in
      says (CPrintU64 ip 16) ;;;
      print " tried to access 0x" ;;;
      says (CPrintU64 cr2 16) ;;;
      print ", error code 0b" ;;;
      says (CPrintU64 error_code 2) ;;;
      says CNewLine ;;;
      stop
  | idt_handle_float_exception => print ("interrupt: floating-point exception!" +:+ nl) ;;; stop
  | idt_handle_alignment_check => print ("interrupt: alignment check!" +:+ nl) ;;; stop
  | idt_handle_machine_check => print ("interrupt: machine check!" +:+ nl) ;;; stop
  | idt_handle_simd_float_exception =>
      print ("interrupt: simd floating-point exception!" +:+ nl) ;;; stop
  | idt_handle_spurious => ret tt
  end.

(** One line of [idt_debug], for the gate at [d]. *)
Definition idt_debug_gate (i d : Z) : M (cpu_state A) unit :=
  let! m := gets s_mem in
  if negb (truthy (gate_present m d)) then ret tt
  else
    print "[idt] entry #" ;;;
    says (CPrintU64 i 10) ;;;
    print " offset=0x" ;;;
    says (CPrintU64 (gate_offset m d) 16) ;;;
    print " code_segment=" ;;;
    says (CPrintU64 (gate_code_segment m d) 10) ;;;
    print " type=0b" ;;;
    says (CPrintU64 (gate_gate_type m d) 2) ;;;
    print " level=" ;;;
    says (CPrintU64 (gate_privilege_level m d) 10) ;;;
    print " ist=" ;;;
    says (CPrintU64 (gate_interrupt_stack m d) 10) ;;;
    says CNewLine.

Definition idt_debug : M (cpu_state A) unit :=
  let! table := current_idt in
  for_loop (256 - 17) 0 (λ i, idt_debug_gate i (gate_address table i)).
End Idt.
