(* ===== verification/IdtSpec.v ===== *)
(** * Correctness of the interrupt descriptor table

    A gate in memory is read back as a [gate]; registering an interrupt writes
    exactly one gate, and [idt_initialize] builds the table that [exceptions]
    and [spurious] list on a page of its own. *)

From stdpp Require Import relations.
From S2P Require Import Prelude Memory Bits Allocator Physical PhysicalSpec Paging Cpu CpuSpec Machine Idt.

Open Scope Z_scope.

(** What the processor reads from a gate. *)
Record gate := Gate {
  g_offset : Z;
  g_segment : Z;
  g_stack : Z;
  g_type : Z;
  g_level : Z;
  g_present : Z
}.

Definition read_gate (m : mem) (d : Z) : gate :=
  Gate (gate_offset m d) (gate_code_segment m d) (gate_interrupt_stack m d) (gate_gate_type m d)
    (gate_privilege_level m d) (gate_present m d).

(** ** Reading back a gate *)

Lemma read_gate_ext m1 m2 d :
  (∀ x, d ≤ x < d + 12 → load8 m1 x = load8 m2 x) → read_gate m1 d = read_gate m2 d.
Proof.
  intros H. unfold read_gate, gate_offset, gate_offset1, gate_offset2, gate_offset3,
    gate_code_segment, gate_interrupt_stack, gate_gate_type, gate_privilege_level, gate_present,
    get_bits8, load16, load32.
  rewrite !(load_ext _ m1 m2) by (intros; apply H; lia). by rewrite !H by lia.
Qed.

Lemma write_gate_outside d f ty ist m x :
  ¬ (d ≤ x < d + 12) → load8 (write_gate d f ty ist m) x = load8 m x.
Proof.
  intros Hx. unfold write_gate, set_bits8.
  rewrite !load8_store_out by lia. rewrite !load8_store8_ne by lia.
  by rewrite !load8_store_out by lia.
Qed.

(** The three parts of an address. *)
Lemma address_parts f :
  0 ≤ f < 2 ^ 64 →
  Z.lor (Z.lor (Z.land f 0xFFFF) (Z.shiftl (Z.land (Z.shiftr f 16) 0xFFFF) 16))
    (Z.shiftl (Z.land (Z.shiftr f 32) 0xFFFFFFFF) 32) = f.
Proof.
  intros Hf. change 0xFFFF with (2 ^ 16 - 1). change 0xFFFFFFFF with (2 ^ 32 - 1).
  rewrite !land_ones_mod, !Z.shiftr_div_pow2 by lia.
  rewrite (lor_shiftl_add _ _ 16) by (lia || (apply Z.mod_pos_bound; lia)).
  rewrite lor_shiftl_add by divmod_lia. divmod_lia.
Qed.

(** The byte of the gate with the bit fields. *)
Lemma write_gate_type d f ty ist m :
  load8 (write_gate d f ty ist m) (d + 5) =
    bits_set 7 1 1 (bits_set 0 4 (Z.land ty 0xF) (load8 m (d + 5))).
Proof.
  unfold write_gate, set_bits8. rewrite !load8_store_out, !load8_store8_eq by lia.
  rewrite load8_store8_ne, !load8_store_out by lia. pose proof (load8_range m (d + 5)) as Hr.
  rewrite (u8_small (bits_set 0 4 _ _)) by (apply bits_set_range; (done || lia)).
  apply u8_small. do 2 (apply bits_set_range; [lia..|]). done.
Qed.

Lemma read_write_gate d f ty ist m :
  0 ≤ f < 2 ^ 64 →
  read_gate (write_gate d f ty ist m) d =
    Gate f 8 (ist mod 8) (ty mod 16) (gate_privilege_level m d) 1.
Proof.
  intros Hf. unfold read_gate. f_equal.
  - etransitivity; [|exact (address_parts f Hf)]. unfold gate_offset. f_equal; [f_equal|f_equal].
    + unfold gate_offset1, load16, write_gate.
      rewrite !load_store_ne, !load_set_bits8_ne, load_store8_ne, load_store_ne, load_store_eq by lia.
      change 0xFFFF with (2 ^ 16 - 1). rewrite land_ones_mod by lia. apply Z.mod_mod. lia.
    + unfold gate_offset2, load16, write_gate. rewrite load_store_ne, load_store_eq by lia. f_equal.
      change 0xFFFF with (2 ^ 16 - 1). rewrite land_ones_mod by lia. apply Z.mod_mod. lia.
    + unfold gate_offset3, load32, write_gate. rewrite load_store_eq.
      change 0xFFFFFFFF with (2 ^ 32 - 1). rewrite land_ones_mod by lia. apply Z.mod_mod. lia.
  - unfold gate_code_segment, load16, write_gate.
    by rewrite !load_store_ne, !load_set_bits8_ne, load_store8_ne, load_store_eq by lia.
  - unfold gate_interrupt_stack, write_gate.
    rewrite !load8_store_out, !load8_set_bits8_ne, load8_store8_eq by lia.
    change 7 with (2 ^ 3 - 1). rewrite land_ones_mod by lia. apply u8_small. divmod_lia.
  - unfold gate_gate_type, get_bits8. rewrite write_gate_type, bits_get_set_ne, bits_get_set_eq by lia.
    change 0xF with (2 ^ 4 - 1). rewrite land_ones_mod by lia. apply Z.mod_mod. lia.
  - unfold gate_privilege_level at 1, get_bits8. by rewrite write_gate_type, !bits_get_set_ne by lia.
  - unfold gate_present, get_bits8. by rewrite write_gate_type, bits_get_set_eq by lia.
Qed.

(** ** The table of the current CPU *)

(** The gates a list of registrations [(vector, function, type, stack)] writes. *)
Definition write_gates (table : Z) (l : list (Z * Z * Z * Z)) (m : mem) : mem :=
  foldl (λ m '(v, f, ty, ist), write_gate (gate_address table v) f ty ist m) m l.

Lemma write_gates_cons table v f ty ist l m :
  write_gates table ((v, f, ty, ist) :: l) m =
    write_gates table l (write_gate (gate_address table v) f ty ist m).
Proof. done. Qed.

Definition vector_of (r : Z * Z * Z * Z) : Z := r.1.1.1.

Lemma gates_apart table v v' x :
  v ≠ v' → gate_address table v ≤ x < gate_address table v + 12 →
  ¬ (gate_address table v' ≤ x < gate_address table v' + 12).
Proof. unfold gate_address. lia. Qed.

Lemma read_write_gate_ne table v v' f ty ist m :
  v ≠ v' → read_gate (write_gate (gate_address table v') f ty ist m) (gate_address table v) =
    read_gate m (gate_address table v).
Proof. intros Hv. apply read_gate_ext. intros x Hx. by eapply write_gate_outside, gates_apart. Qed.

Lemma write_gates_notin table v l : ∀ m,
  v ∉ vector_of <$> l → read_gate (write_gates table l m) (gate_address table v) =
    read_gate m (gate_address table v).
Proof.
  induction l as [|[[[v' f] ty] ist] l IH]; intros m Hv; [done|].
  cbn in Hv. apply not_elem_of_cons in Hv as [Hne Hv]. rewrite write_gates_cons.
  by rewrite (IH _ Hv), read_write_gate_ne.
Qed.

Lemma write_gates_in table v f ty ist l : ∀ m,
  NoDup (vector_of <$> l) → (v, f, ty, ist) ∈ l → 0 ≤ f < 2 ^ 64 →
  read_gate (write_gates table l m) (gate_address table v) =
    Gate f 8 (ist mod 8) (ty mod 16) (gate_privilege_level m (gate_address table v)) 1.
Proof.
  induction l as [|[[[v' f'] ty'] ist'] l IH]; intros m Hnd Hin Hf; [by apply not_elem_of_nil in Hin|].
  cbn in Hnd. apply list.NoDup_cons in Hnd as [Hv' Hnd].
  rewrite write_gates_cons.
  apply elem_of_cons in Hin as [[= -> -> -> ->]|Hin].
  - rewrite write_gates_notin by done. by apply read_write_gate.
  - rewrite (IH _ Hnd Hin Hf). f_equal.
    assert (v ≠ v') as Hne by (intros ->; apply Hv'; by apply (list_elem_of_fmap_2 vector_of) in Hin).
    pose proof (read_write_gate_ne table v v' f' ty' ist' m Hne) as Hg. by injection Hg.
Qed.

Lemma write_gates_outside table l : ∀ m x,
  (∀ v, v ∈ vector_of <$> l → ¬ (gate_address table v ≤ x < gate_address table v + 12)) →
  load8 (write_gates table l m) x = load8 m x.
Proof.
  induction l as [|[[[v f] ty] ist] l IH]; intros m x Hx; [done|].
  rewrite write_gates_cons, IH by (intros v' Hv'; apply Hx; by right). apply write_gate_outside. apply Hx. left.
Qed.

Section Idt.
Context {A : Type} {PA : PageAllocator A}.
Implicit Type s : cpu_state A.

(** The current CPU, and its table in a region of its own. *)
Record idt_state s (table : Z) : Prop := IdtState {
  idt_cpu : load64 (s_mem s) (s_fs s) = s_fs s;
  idt_table : load64 (s_mem s) (s_fs s + cpu_interrupt_descriptor_table) = table;
  idt_apart : s_fs s + 48 ≤ table ∨ table + 4096 ≤ s_fs s
}.

Lemma current_idt_run s table : idt_state s table → current_idt s = Ok (table, s).
Proof.
  intros [Hc Ht _]. unfold current_idt, cpu_get_current, field. mstep. rewrite Hc. unfold gets.
  by rewrite Ht.
Qed.

(** Writes inside the table keep the state well formed. *)
Lemma idt_state_write s table f :
  idt_state s table → (∀ x, ¬ (table ≤ x < table + 4096) → load8 (f (s_mem s)) x = load8 (s_mem s) x) →
  idt_state (with_mem f s) table.
Proof.
  intros [Hc Ht Ha] Hf. unfold cpu_interrupt_descriptor_table in *.
  split; [..|done]; cbn [s_fs with_mem with_kernel]; change (s_mem (with_mem f s)) with (f (s_mem s)).
  - rewrite <- Hc at 2. apply load_ext. intros x Hx. apply Hf. lia.
  - rewrite <- Ht. apply load_ext. intros x Hx. apply Hf. lia.
Qed.

Definition warning (vector : Z) : list console_call :=
  [CNewLine; CPrintI32 vector 10; CPrint "warning: overwriting interrupt vector #"].

Definition with_log (l : list console_call) s : cpu_state A :=
  with_kernel (KState (k_mem (s_kernel s)) (k_alloc (s_kernel s)) (used_virtual_pages (s_kernel s))
    (hugepages_supported (s_kernel s)) (l ++ k_log (s_kernel s))) s.

Lemma register_run s table v f ty ist :
  idt_state s table →
  idt_register_interrupt v f ty ist s =
    Ok (tt, with_mem (write_gate (gate_address table v) f ty ist)
      (if truthy (gate_present (s_mem s) (gate_address table v)) then with_log (warning v) s else s)).
Proof.
  intros Hs. unfold idt_register_interrupt. rewrite (bind_ok _ _ _ _ _ (current_idt_run _ _ Hs)). mstep.
  by destruct (truthy (gate_present _ _)).
Qed.
(** ** A list of registrations *)

Definition register_one (r : Z * Z * Z * Z) : M (cpu_state A) unit :=
  let '(v, f, ty, ist) := r in idt_register_interrupt v f ty ist.

(** The statements one after the other, as the code has them. *)
Fixpoint register_all (l : list (Z * Z * Z * Z)) : M (cpu_state A) unit :=
  match l with
  | [] => ret tt
  | [r] => register_one r
  | r :: l => register_one r ;;; register_all l
  end.

Lemma register_fresh s table v f ty ist :
  idt_state s table → g_present (read_gate (s_mem s) (gate_address table v)) = 0 → 0 ≤ v < 256 →
  idt_register_interrupt v f ty ist s =
    Ok (tt, with_mem (write_gate (gate_address table v) f ty ist) s) ∧
  idt_state (with_mem (write_gate (gate_address table v) f ty ist) s) table.
Proof.
  intros Hs Hp Hv. cbn [read_gate g_present] in Hp. split.
  - rewrite (register_run _ _ _ _ _ _ Hs), Hp. done.
  - apply idt_state_write; [done|]. intros x Hx. apply write_gate_outside. unfold gate_address. lia.
Qed.

Definition absent table s (l : list (Z * Z * Z * Z)) : Prop :=
  Forall (λ r, 0 ≤ vector_of r < 256 ∧
    g_present (read_gate (s_mem s) (gate_address table (vector_of r))) = 0) l.

(** After one registration the others of the list are still absent. *)
Lemma absent_step table s v f ty ist l :
  v ∉ vector_of <$> l → absent table s l →
  absent table (with_mem (write_gate (gate_address table v) f ty ist) s) l.
Proof.
  unfold absent. rewrite !list.Forall_forall. intros Hv H r Hr. destruct (H r Hr) as [Hr1 Hr2].
  split; [done|].
  change (s_mem (with_mem ?f s)) with (f (s_mem s)). rewrite read_write_gate_ne; [done|].
  intros <-. apply Hv. by apply list_elem_of_fmap_2.
Qed.

Lemma register_all_run table l : ∀ s,
  idt_state s table → NoDup (vector_of <$> l) → absent table s l →
  register_all l s = Ok (tt, with_mem (write_gates table l) s) ∧
  idt_state (with_mem (write_gates table l) s) table.
Proof.
  induction l as [|[[[v f] ty] ist] l IH]; intros s Hs Hnd Hab.
  - destruct s as [[] ? ? ? ? ? ? ?]. done.
  - cbn [fmap list_fmap] in Hnd. apply list.NoDup_cons in Hnd as [Hv Hnd].
    pose proof Hab as [[Hv1 Hp] Hab']%list.Forall_cons.
    destruct (register_fresh s table v f ty ist Hs Hp Hv1) as [Hrun Hs'].
    apply (absent_step table s v f ty ist l Hv) in Hab'.
    destruct (IH _ Hs' Hnd Hab') as [Hrun' Hs''].
    split; [|exact Hs'']. destruct l as [|r l]; [exact Hrun|].
    change (register_all ((v, f, ty, ist) :: r :: l))
      with (idt_register_interrupt (A:=A) v f ty ist ;;; register_all (r :: l)).
    rewrite (bind_ok _ _ _ _ _ Hrun). exact Hrun'.
Qed.

(** ** The table of [idt_initialize] *)

Context (address_of : idt_handler → Z).

(** The handler, type and stack of each vector. *)
Definition exceptions : list (Z * idt_handler * Z * Z) :=
  [(0, idt_handle_divide_by_zero, 15, 0); (1, idt_handle_debug, 15, 0);
   (2, idt_handle_non_maskable_interrupt, 14, 0); (3, idt_handle_breakpoint, 15, 0);
   (4, idt_handle_overflow, 15, 0); (5, idt_handle_bound_range, 15, 0);
   (6, idt_handle_invalid_opcode, 15, 0); (7, idt_handle_device_not_available, 15, 0);
   (8, idt_handle_invalid_double_fault, 14, 1); (9, idt_handle_segment_overrun, 15, 0);
   (10, idt_handle_invalid_tss, 15, 0); (11, idt_handle_segment_not_present, 15, 0);
   (12, idt_handle_stack, 15, 0); (13, idt_handle_general_protection, 15, 0);
   (14, idt_handle_page_fault, 15, 0); (16, idt_handle_float_exception, 15, 0);
   (17, idt_handle_alignment_check, 15, 0); (18, idt_handle_machine_check, 15, 0);
   (19, idt_handle_simd_float_exception, 15, 0)].

Definition spurious : list (Z * idt_handler * Z * Z) :=
  (λ v, (v, idt_handle_spurious, 15, 0)) <$> seqZ 238 18.

Definition registration (r : Z * idt_handler * Z * Z) : Z * Z * Z * Z :=
  let '(v, h, ty, ist) := r in (v, address_of h, ty, ist).

Definition registrations : list (Z * Z * Z * Z) := registration <$> exceptions ++ spurious.

Lemma register_exceptions_eq :
  register_exceptions address_of = register_all (registration <$> exceptions).
Proof. reflexivity. Qed.

Lemma bind_ret_tt (m : M (cpu_state A) unit) s : bind m (λ _, ret tt) s = m s.
Proof. unfold bind, ret. by destruct (m s) as [[[] ?]| |]. Qed.

Lemma for_loop_register_all h ty ist n : ∀ i s,
  for_loop n i (λ i, register address_of i h ty ist) s =
    register_all (registration <$> ((λ v, (v, h, ty, ist)) <$> seqZ i (Z.of_nat n))) s.
Proof.
  induction n as [|n IH]; intros i s; [done|].
  rewrite seqZ_cons by lia. replace (Z.pred (Z.of_nat (S n))) with (Z.of_nat n) by lia.
  destruct n as [|n].
  - exact (bind_ret_tt (register address_of i h ty ist) s).
  - transitivity ((register address_of i h ty ist ;;; register_all (registration <$>
      ((λ v, (v, h, ty, ist)) <$> seqZ (Z.succ i) (Z.of_nat (S n))))) s);
      [|by rewrite (seqZ_cons (Z.succ i)) by lia].
    change (for_loop (S (S n)) i (λ i, register address_of i h ty ist) s)
      with ((register address_of i h ty ist ;;; for_loop (S n) (i + 1) (λ i, register address_of i h ty ist)) s).
    apply bind_cong. intros u s' _. apply IH.
Qed.

Lemma seqZ_vectors (f : Z → Z * Z * Z * Z) n i :
  (∀ v, vector_of (f v) = v) → vector_of <$> (f <$> seqZ i n) = seqZ i n.
Proof.
  intros Hf. rewrite <- list_fmap_compose. rewrite <- (list_fmap_id (seqZ i n)) at 2.
  apply list_fmap_ext. intros j v _. apply Hf.
Qed.

Lemma registrations_nodup : NoDup (vector_of <$> registrations).
Proof.
  change (vector_of <$> registrations) with (seqZ 0 15 ++ seqZ 16 4 ++ seqZ 238 18).
  apply (bool_decide_unpack _). by vm_compute.
Qed.

(** ** The prologue of [idt_initialize] *)

Definition zero_gate : gate := Gate 0 0 0 0 0 0.

Lemma read_zero_gate m d : (∀ x, d ≤ x < d + 12 → load8 m x = 0) → read_gate m d = zero_gate.
Proof.
  intros H. unfold read_gate, gate_offset, gate_offset1, gate_offset2, gate_offset3,
    gate_code_segment, gate_interrupt_stack, gate_gate_type, gate_privilege_level, gate_present,
    get_bits8, load16, load32.
  rewrite !load_zero by (intros; apply H; lia). rewrite !H by lia. reflexivity.
Qed.

(** The memory [register_exceptions] starts from. *)
Definition fresh_idt (fs table : Z) (m : mem) : mem :=
  store64 (memory_zero m table 4096) (fs + cpu_interrupt_descriptor_table) table.

Lemma fresh_idt_gates fs table m v :
  (fs + 48 ≤ table ∨ table + 4096 ≤ fs) → 0 ≤ v < 256 →
  read_gate (fresh_idt fs table m) (gate_address table v) = zero_gate.
Proof.
  intros Ha Hv. apply read_zero_gate. intros x Hx. unfold fresh_idt, gate_address, store64,
    cpu_interrupt_descriptor_table in *.
  rewrite load8_store_out by lia. rewrite load8_memory_zero, decide_True by lia. done.
Qed.

Lemma register_all_app l1 l2 s :
  l1 ≠ [] → l2 ≠ [] → (register_all l1 ;;; register_all l2) s = register_all (l1 ++ l2) s.
Proof.
  intros H1 H2. revert s H1. induction l1 as [|r l1 IH]; intros s H1; [done|].
  destruct l1 as [|r' l1]; [by destruct l2|].
  change (register_all (r :: r' :: l1)) with (register_one r ;;; register_all (r' :: l1)).
  rewrite bind_assoc.
  change (register_all ((r :: r' :: l1) ++ l2) s)
    with ((register_one r ;;; register_all ((r' :: l1) ++ l2)) s).
  apply bind_cong. intros u s' _. by apply IH.
Qed.

(** All registrations of [idt_initialize], from a zeroed table. *)
Lemma register_everything table s :
  idt_state s table →
  (∀ v, 0 ≤ v < 256 → read_gate (s_mem s) (gate_address table v) = zero_gate) →
  (register_exceptions address_of ;;; register_spurious address_of) s =
    Ok (tt, with_mem (write_gates table registrations) s) ∧
  idt_state (with_mem (write_gates table registrations) s) table.
Proof.
  intros Hs Hz. destruct (register_all_run table registrations s Hs registrations_nodup) as [Hrun Hs'].
  { apply list.Forall_forall. intros r Hr.
    assert (0 ≤ vector_of r < 256) as Hv; [|split; [done|by rewrite Hz]].
    assert (vector_of r ∈ vector_of <$> registrations) as Hin by (by apply list_elem_of_fmap_2).
    revert Hin. change (vector_of <$> registrations) with (seqZ 0 15 ++ seqZ 16 4 ++ seqZ 238 18).
    rewrite !elem_of_app, !elem_of_seqZ. lia. }
  split; [|exact Hs']. rewrite register_exceptions_eq, <- Hrun. unfold registrations at 1.
  rewrite fmap_app, <- register_all_app by done.
  apply bind_cong. intros u s1 _. apply (for_loop_register_all idt_handle_spurious 15 0 18 238 s1).
Qed.

Lemma registration_types :
  Forall (λ r : Z * idt_handler * Z * Z, 0 ≤ r.1.1.1 < 256 ∧ r.1.2 mod 16 = r.1.2 ∧ r.2 mod 8 = r.2)
    (exceptions ++ spurious).
Proof. apply (bool_decide_unpack _). by vm_compute. Qed.

Lemma spurious_vectors : vector_of <$> registrations = (λ r, r.1.1.1) <$> (exceptions ++ spurious).
Proof. reflexivity. Qed.

Lemma registered_vectors v : v ∈ vector_of <$> registrations → 0 ≤ v < 256.
Proof.
  rewrite spurious_vectors. intros ([[[v' h] ty] ist] & -> & Hin)%list_elem_of_fmap.
  pose proof registration_types as Hty. rewrite list.Forall_forall in Hty.
  by destruct (Hty _ Hin) as (Hv & _).
Qed.

(** The gates in memory after all registrations. *)
Lemma registered_gates table s s' :
  (∀ v, 0 ≤ v < 256 → read_gate (s_mem s) (gate_address table v) = zero_gate) →
  (∀ h, 0 ≤ address_of h < 2 ^ 64) →
  s_mem s' = write_gates table registrations (s_mem s) →
  (∀ v h ty ist, (v, h, ty, ist) ∈ exceptions ++ spurious →
     read_gate (s_mem s') (gate_address table v) = Gate (address_of h) 8 ist ty 0 1) ∧
  (∀ v, 0 ≤ v < 256 → v ∉ (λ r, r.1.1.1) <$> (exceptions ++ spurious) →
     read_gate (s_mem s') (gate_address table v) = zero_gate).
Proof.
  intros Hz Haddr ->. split.
  - intros v h ty ist Hin.
    pose proof registration_types as Hty. rewrite list.Forall_forall in Hty.
    destruct (Hty _ Hin) as (Hv & Ht & Hi). cbn [fst snd] in Hv, Ht, Hi.
    apply (list_elem_of_fmap_2 registration) in Hin.
    rewrite (write_gates_in _ _ _ _ _ _ _ registrations_nodup Hin (Haddr h)), Ht, Hi. f_equal.
    specialize (Hz v Hv). by injection Hz.
  - intros v Hv Hn. rewrite <- spurious_vectors in Hn. rewrite write_gates_notin by done. auto.
Qed.

Context {PAL : PageAllocatorLaws A}.

#[local] Opaque load64 store64 memory_zero.

(** The state in which the registrations of [idt_initialize] start. *)
Lemma idt_prologue s :
  cpu_ready s → 0 < pa_avail (s_alloc s) →
  ∃ s1 t, idt_initialize address_of s =
      (register_exceptions address_of ;;; register_spurious address_of) s1 ∧
    idt_state s1 t ∧ grown s [t] s1 ∧ s_mem s1 = fresh_idt (s_fs s) t (s_mem s) ∧
    s_writes s1 = LoadInterruptTable 4095 t :: s_writes s ∧ k_log (s_kernel s1) = k_log (s_kernel s).
Proof.
  intros Hs Hav. destruct (grown_alloc s [] s (grown_refl s Hs) Hav) as (t & a & Hrun & G).
  pose proof (grown_page_range _ _ _ t G ltac:(left)) as [Ht _].
  apply (grown_write _ _ _ t (λ m, memory_zero m t 4096)) in G; [|left|].
  2: { intros m x Hx. by rewrite load8_memory_zero, decide_False by lia. }
  set (s1 := with_mem _ _) in G. pose proof (grown_ready _ _ _ G) as Hs1.
  assert (s_fs s1 = s_fs s) as Hfs by reflexivity.
  pose proof (grown_apart _ _ _ G) as Hap. apply list.Forall_cons in Hap as [Hap _].
  exists (log_write (LoadInterruptTable 4095 t) (with_mem (λ m, store64 m (s_fs s + 24) t) s1)), t.
  split; [|split; [|split; [|split; [reflexivity|split; reflexivity]]]].
  - unfold idt_initialize. rewrite (bind_ok _ _ _ _ _ Hrun), (proj2 (Z.eqb_neq t 0)) by lia. mstep.
    rewrite (bind_ok _ _ _ _ _ (get_current_run s1 Hs1)). reflexivity.
  - pose proof (ready_cpu _ Hs1) as Hc. split; [| |change (s_fs s + 48 ≤ t ∨ t + 4096 ≤ s_fs s); lia].
    + change (load64 (store64 (s_mem s1) (s_fs s + 24) t) (s_fs s1) = s_fs s1).
      rewrite load64_store64_ne; [done|]. rewrite Hfs. lia.
    + apply load64_store64_eq. lia.
  - apply grown_log_write, grown_write_cpu; [exact G|]. intros m x Hx. apply load8_store64_out. lia.
Qed.
#[local] Transparent load64 store64 memory_zero.

(** What [idt_initialize] leaves: the table on a page of its own with exactly
    the gates of the two lists present, loaded with its exact limit, no warning
    printed and all other memory in use as it was. *)
Record idt_built s s' (table : Z) : Prop := IdtBuilt {
  idt_built_state : idt_state s' table;
  idt_built_pages : grown s [table] s';
  idt_built_gates : ∀ v h ty ist, (v, h, ty, ist) ∈ exceptions ++ spurious →
    read_gate (s_mem s') (gate_address table v) = Gate (address_of h) 8 ist ty 0 1;
  idt_built_absent : ∀ v, 0 ≤ v < 256 → v ∉ (λ r, r.1.1.1) <$> (exceptions ++ spurious) →
    g_present (read_gate (s_mem s') (gate_address table v)) = 0;
  idt_built_writes : s_writes s' = LoadInterruptTable 4095 table :: s_writes s;
  idt_built_log : k_log (s_kernel s') = k_log (s_kernel s);
  idt_built_frame : ∀ x, pa_used (s_alloc s) (x / 2 ^ 12) → ¬ (s_fs s + 24 ≤ x < s_fs s + 32) →
    load8 (s_mem s') x = load8 (s_mem s) x
}.

Lemma idt_initialize_ok s :
  cpu_ready s → 0 < pa_avail (s_alloc s) → (∀ h, 0 ≤ address_of h < 2 ^ 64) →
  ∃ s' t, idt_initialize address_of s = Ok (tt, s') ∧ idt_built s s' t.
Proof.
  intros Hs Hav Haddr.
  destruct (idt_prologue s Hs Hav) as (s1 & t & -> & Hs1 & G & Hm & Hw & Hl).
  pose proof (grown_apart _ _ _ G) as Hap. apply list.Forall_cons in Hap as [Hap _].
  assert (∀ v, 0 ≤ v < 256 → read_gate (s_mem s1) (gate_address t v) = zero_gate) as Hz.
  { intros v Hv. rewrite Hm. apply fresh_idt_gates; [lia|done]. }
  destruct (register_everything t s1 Hs1 Hz) as [-> Hs2].
  destruct (registered_gates t s1 (with_mem (write_gates t registrations) s1) Hz Haddr
    (s_mem_with_mem _ _)) as [Hg1 Hg2].
  exists (with_mem (write_gates t registrations) s1), t. split; [reflexivity|].
  split; [exact Hs2| |exact Hg1|intros v Hv Hv'; rewrite (Hg2 v Hv Hv'); reflexivity|exact Hw|exact Hl|].
  { apply (grown_write _ _ _ t); [exact G|left|].
    intros m x Hx. apply write_gates_outside. intros v Hv. apply registered_vectors in Hv.
    unfold gate_address. lia. }
  intros x Hx Hx'. rewrite s_mem_with_mem.
  assert (¬ (t ≤ x < t + 4096)) as Ht.
  { exact (fresh_pages_apart _ _ _ _ (grown_fresh _ _ _ G) ltac:(left) Hx). }
  rewrite write_gates_outside, Hm.
  - unfold fresh_idt, store64, cpu_interrupt_descriptor_table. rewrite load8_store_out by lia.
    by rewrite load8_memory_zero, decide_False by lia.
  - intros v Hv. apply registered_vectors in Hv. unfold gate_address. lia.
Qed.

(** C24. [idt_initialize] builds the table on a fresh page: every vector of the exceptions and of the
    spurious interrupts has a present gate with the address of its handler, the kernel code segment and
    its type and stack, all others are absent; the table is loaded with its exact limit, no warning is
    printed and no other memory in use changes. *)
Theorem idt_initialize_spec s :
  cpu_ready s → 0 < pa_avail (s_alloc s) → (∀ h, 0 ≤ address_of h < 2 ^ 64) →
  ∃ s' t, idt_initialize address_of s = Ok (tt, s') ∧ idt_built s s' t.
Proof. apply idt_initialize_ok. Qed.
End Idt.

(** Handler addresses of a kernel at 0x100000. *)
Definition handlers0 (h : idt_handler) : Z :=
  match h with idt_handle_page_fault => 0x104000 | idt_handle_spurious => 0x105000 | _ => 0x103000 end.

Lemma handlers0_range h : 0 ≤ handlers0 h < 2 ^ 64.
Proof. destruct h; split; (done || vm_compute; done). Qed.

Lemma idt_initialize_spec_witness :
  ∃ s' t, idt_initialize handlers0 cpu0 = Ok (tt, s') ∧
    read_gate (s_mem s') (gate_address t 14) = Gate 0x104000 8 0 15 0 1 ∧
    g_present (read_gate (s_mem s') (gate_address t 15)) = 0.
Proof.
  destruct (idt_initialize_spec handlers0 cpu0 cpu0_ready) as (s' & t & H1 & H2).
  - rewrite cpu0_avail. lia.
  - exact handlers0_range.
  - exists s', t. split; [exact H1|]. split.
    + apply (idt_built_gates _ _ _ _ H2 14 idt_handle_page_fault 15 0). apply (bool_decide_unpack _). by vm_compute.
    + apply (idt_built_absent _ _ _ _ H2); [lia|]. apply (bool_decide_unpack _). by vm_compute.
Defined.
