(* ===== verification/IdtHistory.v ===== *)
(** * The interrupt descriptor table over time

    The table as its users see it: a gate per vector, replaced by
    [idt_register_interrupt], switched off and on by [idt_disable_interrupt]
    and [idt_enable_interrupt]. Any sequence of these calls implements that
    specification, and the gates stay well typed. *)

From S2P Require Import Prelude Memory Bits Allocator Paging Cpu CpuSpec Gdt Idt IdtSpec.
From S2P Require Import Lock Physical PhysicalSpec Machine.

(** A call to one of the three functions. *)
Inductive idt_op :=
| Register (vector function_pointer interrupt_type ist : Z)
| Disable (vector : Z)
| Enable (vector : Z).

Definition op_vector (o : idt_op) : Z :=
  match o with Register v _ _ _ => v | Disable v => v | Enable v => v end.

(** Vectors are array indices, addresses 64-bit. *)
Definition op_valid (o : idt_op) : Prop :=
  0 ≤ op_vector o < 256 ∧ match o with Register _ f _ _ => 0 ≤ f < 2 ^ 64 | _ => True end.

(** ** The specification *)

Definition idt_table := Z → gate.

Definition present_as (b : Z) (g : gate) : gate :=
  Gate (g_offset g) (g_segment g) (g_stack g) (g_type g) (g_level g) b.

(** The gate of its vector after a call. *)
Definition op_gate (o : idt_op) (g : gate) : gate :=
  match o with
  | Register _ f ty ist => Gate f 8 (ist mod 8) (ty mod 16) (g_level g) 1
  | Disable _ => present_as 0 g
  | Enable _ => present_as 1 g
  end.

Definition op_table (o : idt_op) (T : idt_table) : idt_table := λ v,
  if v =? op_vector o then op_gate o (T v) else T v.

(** The warning a call prints. *)
Definition op_warning (o : idt_op) (T : idt_table) : list console_call :=
  match o with
  | Register v _ _ _ => if truthy (g_present (T v)) then warning v else []
  | _ => []
  end.

Definition ops_table (l : list idt_op) (T : idt_table) : idt_table := foldl (λ T o, op_table o T) T l.

Fixpoint ops_warnings (l : list idt_op) (T : idt_table) : list console_call :=
  match l with
  | [] => []
  | o :: l => ops_warnings l (op_table o T) ++ op_warning o T
  end.

(** ** Well-typed gates *)

(** A gate that was never set, or one the processor accepts: kernel code
    segment, privilege level 0, an interrupt or trap gate on one of the three
    stacks of [enum idt_stack_type]. *)
Definition gate_typed (g : gate) : Prop :=
  (g_segment g = 0 ∧ g_present g = 0 ∧ g_level g = 0) ∨
  (g_segment g = GDT_KERNEL_CODE_SEGMENT ∧ g_level g = 0 ∧
   g_type g ∈ [IDT_GATE_TYPE_INTERRUPT; IDT_GATE_TYPE_TRAP] ∧
   g_stack g ∈ [IDT_STACK_TYPE_CURRENT; IDT_STACK_TYPE_DOUBLE_FAULT; IDT_STACK_TYPE_SCHEDULER] ∧
   g_present g ∈ [0; 1]).

(** Calls with the constants of [idt.h]; only vectors that were registered are
    enabled. *)
Definition op_typed (o : idt_op) (T : idt_table) : Prop :=
  match o with
  | Register _ _ ty ist => ty ∈ [IDT_GATE_TYPE_INTERRUPT; IDT_GATE_TYPE_TRAP] ∧
      ist ∈ [IDT_STACK_TYPE_CURRENT; IDT_STACK_TYPE_DOUBLE_FAULT; IDT_STACK_TYPE_SCHEDULER]
  | Disable _ => True
  | Enable v => g_segment (T v) = GDT_KERNEL_CODE_SEGMENT
  end.

Fixpoint ops_typed (l : list idt_op) (T : idt_table) : Prop :=
  match l with [] => True | o :: l => op_typed o T ∧ ops_typed l (op_table o T) end.

Lemma op_gate_typed o T :
  gate_typed (T (op_vector o)) → op_typed o T → gate_typed (op_gate o (T (op_vector o))).
Proof.
  destruct o as [v f ty ist|v|v]; cbn [op_vector op_typed op_gate]; intros Hg Ho.
  - assert (g_level (T v) = 0) as Hl by (destruct Hg as [(_ & _ & ?)|(_ & ? & _)]; done).
    right. cbn [g_segment g_level g_type g_stack g_present]. destruct Ho as [Hty Hist].
    set_unfold. destruct Hty as [->|[->|[]]], Hist as [->|[->|[->|[]]]]; split_and!; auto.
  - unfold present_as, gate_typed in *. cbn. set_unfold. tauto.
  - unfold present_as, gate_typed in *. cbn. rewrite Ho in *. set_unfold.
    destruct Hg as [(? & _)|Hg]; [done|]. tauto.
Qed.

Lemma op_table_typed o T :
  (∀ v, 0 ≤ v < 256 → gate_typed (T v)) → op_valid o → op_typed o T →
  ∀ v, 0 ≤ v < 256 → gate_typed (op_table o T v).
Proof.
  intros HT [Hv _] Ho v Hr. unfold op_table. destruct (Z.eqb_spec v (op_vector o)) as [->|]; [|auto].
  apply op_gate_typed; auto.
Qed.

Lemma ops_table_typed l : ∀ T,
  (∀ v, 0 ≤ v < 256 → gate_typed (T v)) → Forall op_valid l → ops_typed l T →
  ∀ v, 0 ≤ v < 256 → gate_typed (ops_table l T v).
Proof.
  induction l as [|o l IH]; intros T HT Hval Hty; [done|].
  apply list.Forall_cons in Hval as [Ho Hval]. destruct Hty as [Hot Hty].
  apply (IH (op_table o T)); [|done..]. by apply op_table_typed.
Qed.

Section IdtHistory.
Context {A : Type} {PA : PageAllocator A}.
Implicit Type s : cpu_state A.

Definition run_op (o : idt_op) : M (cpu_state A) unit :=
  match o with
  | Register v f ty ist => idt_register_interrupt v f ty ist
  | Disable v => idt_disable_interrupt v
  | Enable v => idt_enable_interrupt v
  end.

Fixpoint run_ops (l : list idt_op) : M (cpu_state A) unit :=
  match l with [] => ret tt | o :: l => run_op o ;;; run_ops l end.

(** The gates in memory. *)
Definition table_of s (table : Z) : idt_table := λ v, read_gate (s_mem s) (gate_address table v).

(** Setting the present bit. *)
Lemma read_set_present d b m :
  0 ≤ b < 2 → read_gate (set_bits8 (d + 5) 7 1 b m) d = present_as b (read_gate m d).
Proof.
  intros Hb. unfold read_gate, present_as. cbn [g_offset g_segment g_stack g_type g_level]. f_equal.
  - unfold gate_offset, gate_offset1, gate_offset2, gate_offset3, load16, load32.
    by rewrite !load_set_bits8_ne by lia.
  - unfold gate_code_segment, load16. by rewrite !load_set_bits8_ne by lia.
  - unfold gate_interrupt_stack. by rewrite load8_set_bits8_ne by lia.
  - unfold gate_gate_type. by rewrite get_set_bits8_ne by lia.
  - unfold gate_privilege_level. by rewrite get_set_bits8_ne by lia.
  - unfold gate_present. rewrite get_set_bits8_eq by lia. by apply Z.mod_small.
Qed.

(** What a call does to memory. *)
Definition op_mem (table : Z) (o : idt_op) (m : mem) : mem :=
  match o with
  | Register v f ty ist => write_gate (gate_address table v) f ty ist m
  | Disable v => set_bits8 (gate_address table v + 5) 7 1 0 m
  | Enable v => set_bits8 (gate_address table v + 5) 7 1 1 m
  end.

Lemma op_mem_outside table o m x :
  ¬ (gate_address table (op_vector o) ≤ x < gate_address table (op_vector o) + 12) →
  load8 (op_mem table o m) x = load8 m x.
Proof.
  intros Hx. destruct o as [v f ty ist|v|v]; cbn [op_mem op_vector] in *;
    [by apply write_gate_outside|apply load8_set_bits8_ne; lia..].
Qed.

Lemma op_mem_gate table o m v :
  op_valid o → read_gate (op_mem table o m) (gate_address table v) =
    op_table o (λ v, read_gate m (gate_address table v)) v.
Proof.
  intros [Hv Hf]. unfold op_table. destruct (Z.eqb_spec v (op_vector o)) as [->|Hne].
  - destruct o as [v f ty ist|v|v]; cbn [op_mem op_vector op_gate] in *;
      [by apply read_write_gate|apply read_set_present; lia..].
  - apply read_gate_ext. intros x Hx. apply op_mem_outside. by eapply gates_apart.
Qed.

Lemma run_op_run o s table :
  idt_state s table → op_valid o →
  run_op o s = Ok (tt, with_mem (op_mem table o) (with_log (op_warning o (table_of s table)) s)) ∧
  idt_state (with_mem (op_mem table o) (with_log (op_warning o (table_of s table)) s)) table.
Proof.
  intros Hs [Hv _]. pose proof (current_idt_run s table Hs) as Hcur. split.
  - destruct o as [v f ty ist|v|v]; cbn [run_op op_mem op_warning].
    + rewrite (register_run _ _ _ _ _ _ Hs). unfold table_of. cbn [read_gate g_present].
      destruct (truthy _); [done|]. by destruct s as [[] ? ? ? ? ? ? ?].
    + unfold idt_disable_interrupt. rewrite (bind_ok _ _ _ _ _ Hcur). by destruct s as [[] ? ? ? ? ? ? ?].
    + unfold idt_enable_interrupt. rewrite (bind_ok _ _ _ _ _ Hcur). by destruct s as [[] ? ? ? ? ? ? ?].
  - apply idt_state_write; [destruct Hs; by split|].
    intros x Hx. apply op_mem_outside. unfold gate_address. lia.
Qed.

(** One call as a step of the specification. *)
Lemma run_op_step o s table :
  idt_state s table → op_valid o →
  ∃ s', run_op o s = Ok (tt, s') ∧ idt_state s' table ∧
    (∀ v, table_of s' table v = op_table o (table_of s table) v) ∧
    k_log (s_kernel s') = op_warning o (table_of s table) ++ k_log (s_kernel s) ∧
    s_writes s' = s_writes s ∧
    (∀ x, ¬ (table ≤ x < table + 4096) → load8 (s_mem s') x = load8 (s_mem s) x).
Proof.
  intros Hs Ho. destruct (run_op_run o s table Hs Ho) as [Hrun Hs'].
  eexists. split; [exact Hrun|]. split; [exact Hs'|]. split; [|split; [done|split; [done|]]].
  - intros v. unfold table_of at 1. rewrite s_mem_with_mem. by apply op_mem_gate.
  - intros x Hx. rewrite s_mem_with_mem. apply op_mem_outside. destruct Ho as [Hv _].
    unfold gate_address. lia.
Qed.

(** The specification only looks at the gates. *)
Lemma op_table_ext o T1 T2 : (∀ v, T1 v = T2 v) → ∀ v, op_table o T1 v = op_table o T2 v.
Proof. intros H v. unfold op_table. by rewrite H. Qed.

Lemma ops_table_ext l : ∀ T1 T2, (∀ v, T1 v = T2 v) → ∀ v, ops_table l T1 v = ops_table l T2 v.
Proof. induction l as [|o l IH]; intros T1 T2 H; [done|]. apply IH. by apply op_table_ext. Qed.

Lemma ops_warnings_ext l : ∀ T1 T2, (∀ v, T1 v = T2 v) → ops_warnings l T1 = ops_warnings l T2.
Proof.
  induction l as [|o l IH]; intros T1 T2 H; [done|]. cbn [ops_warnings]. f_equal.
  - apply IH. by apply op_table_ext.
  - unfold op_warning. destruct o; [by rewrite H|done..].
Qed.

Lemma run_ops_steps table l : ∀ s,
  idt_state s table → Forall op_valid l →
  ∃ s', run_ops l s = Ok (tt, s') ∧ idt_state s' table ∧
    (∀ v, table_of s' table v = ops_table l (table_of s table) v) ∧
    k_log (s_kernel s') = ops_warnings l (table_of s table) ++ k_log (s_kernel s) ∧
    s_writes s' = s_writes s ∧
    (∀ x, ¬ (table ≤ x < table + 4096) → load8 (s_mem s') x = load8 (s_mem s) x).
Proof.
  induction l as [|o l IH]; intros s Hs Hl.
  { exists s. split_and!; done. }
  apply list.Forall_cons in Hl as [Ho Hl].
  destruct (run_op_step o s table Hs Ho) as (s1 & Hrun & Hs1 & HT & Hlog & Hw & Hm).
  destruct (IH s1 Hs1 Hl) as (s' & Hrun' & Hs' & HT' & Hlog' & Hw' & Hm').
  exists s'. cbn [run_ops]. rewrite (bind_ok _ _ _ _ _ Hrun). split_and!; [done..| | | |].
  - intros v. rewrite HT'. by apply (ops_table_ext l).
  - rewrite Hlog', Hlog, (ops_warnings_ext l _ _ HT). cbn [ops_warnings]. by rewrite app_assoc.
  - by rewrite Hw'.
  - intros x Hx. by rewrite Hm', Hm.
Qed.

(** C15. Any sequence of registrations, disabling and enabling of interrupts does to the gates in
    memory exactly what the specification of the table says, vector by vector, prints a warning exactly
    for the registrations that replace a present gate and touches no memory outside the table. *)
Theorem idt_operations_refine_table table l s :
  idt_state s table → Forall op_valid l →
  ∃ s', run_ops l s = Ok (tt, s') ∧ idt_state s' table ∧
    (∀ v, table_of s' table v = ops_table l (table_of s table) v) ∧
    k_log (s_kernel s') = ops_warnings l (table_of s table) ++ k_log (s_kernel s) ∧
    (∀ x, ¬ (table ≤ x < table + 4096) → load8 (s_mem s') x = load8 (s_mem s) x).
Proof.
  intros Hs Hl. destruct (run_ops_steps table l s Hs Hl) as (s' & H1 & H2 & H3 & H4 & _ & H5).
  by exists s'.
Qed.

(** C25. The gates stay well typed: after any calls that use the constants of [idt.h] and enable only
    vectors that were registered, every gate is unused or an interrupt or trap gate of the kernel code
    segment on one of the three stacks, at privilege level 0. *)
Theorem idt_gates_stay_typed table l s :
  idt_state s table → Forall op_valid l → ops_typed l (table_of s table) →
  (∀ v, 0 ≤ v < 256 → gate_typed (table_of s table v)) →
  ∃ s', run_ops l s = Ok (tt, s') ∧ ∀ v, 0 ≤ v < 256 → gate_typed (table_of s' table v).
Proof.
  intros Hs Hl Hty HT. destruct (run_ops_steps table l s Hs Hl) as (s' & H1 & _ & H3 & _).
  exists s'. split; [done|]. intros v Hv. rewrite H3. by apply ops_table_typed.
Qed.
End IdtHistory.

(** ** The calls of the kernel on a concrete table *)

(** The timer and keyboard registrations of [scheduler_initialize] and
    [keyboard_initialize], then the timer switched off and on. *)
Definition calls0 : list idt_op :=
  [Register 0x23 0x103000 14 2; Disable 0x23; Register 0x24 0x104000 14 0; Enable 0x23;
   Register 0x23 0x104000 14 0].

Lemma cpu0_idt_state : idt_state cpu0 0x2000.
Proof. split; [by vm_compute..|left; by vm_compute]. Qed.

Lemma calls0_valid : Forall op_valid calls0.
Proof. unfold calls0. repeat (apply list.Forall_cons; split); [..|done]; repeat split; (done || by vm_compute). Qed.

Lemma idt_operations_refine_table_witness :
  ∃ s', run_ops calls0 cpu0 = Ok (tt, s') ∧
    table_of s' 0x2000 0x23 = Gate 0x104000 8 0 14 0 1 ∧ k_log (s_kernel s') = warning 0x23.
Proof.
  destruct (idt_operations_refine_table 0x2000 calls0 cpu0 cpu0_idt_state calls0_valid)
    as (s' & H1 & _ & H2 & H3 & _).
  exists s'. split; [exact H1|]. split; [rewrite H2; by vm_compute|]. rewrite H3. by vm_compute.
Defined.

Lemma memory0_gates v : 0 ≤ v < 256 → gate_typed (table_of cpu0 0x2000 v).
Proof.
  intros Hv. left. unfold table_of. rewrite (read_zero_gate (s_mem cpu0) (gate_address 0x2000 v)); [done|].
  intros x Hx. unfold gate_address in Hx. change (s_mem cpu0) with memory0. unfold memory0, store64.
  rewrite !load8_store_out by lia. by vm_compute.
Qed.

Lemma idt_gates_stay_typed_witness :
  ∃ s', run_ops calls0 cpu0 = Ok (tt, s') ∧ gate_typed (table_of s' 0x2000 0x24).
Proof.
  destruct (idt_gates_stay_typed 0x2000 calls0 cpu0 cpu0_idt_state calls0_valid) as (s' & H1 & H2).
  - cbn [calls0 ops_typed op_typed]. repeat split; (apply (bool_decide_unpack _); by vm_compute).
  - exact memory0_gates.
  - exists s'. split; [exact H1|]. apply H2. lia.
Defined.
