(* ===== verification/Scheduler.v ===== *)
(** * The round-robin scheduler

    Models [src/src/common/scheduler.c] with the structures of [scheduler.h]
    and the parts of [struct cpu], [struct idt_stack_frame] and [struct apic]
    it uses. Processes, the [struct cpu] and the interrupt frame live in the
    byte memory of [Memory], at the offsets the compiler gives their fields.
    The stores to the local APIC, [cr3] and the interrupt flag are part of the
    state. [SchedulerSpec] has the theorems. *)

From S2P Require Import Prelude Memory Allocator Paging Cpu Idt.

(** ** Layout *)

(** [struct scheduler_process] *)
Definition process_id : Z := 0.
Definition process_next : Z := 8.
Definition process_previous : Z := 16.
Definition process_paging_context : Z := 24.
Definition process_saved_rflags : Z := 72.
Definition process_saved_instruction_pointer : Z := 80.
Definition process_saved_stack_pointer : Z := 88.
Definition process_saved_registers : Z := 96.
(** [sizeof(struct scheduler_saved_registers)]: eleven registers. *)
Definition sizeof_saved_registers : Z := 88.
Definition sizeof_process : Z := 184.

(** [struct scheduler_interrupt_frame]: the registers, then [base]. *)
Definition frame_registers : Z := 0.
Definition frame_instruction_pointer : Z := 88.
Definition frame_rflags : Z := 104.
Definition frame_stack_pointer : Z := 112.
Definition sizeof_frame : Z := 128.

Definition SCHEDULER_TIMER_INTERVAL : Z := 10000.

Section Scheduler.
Context {A : Type} {PA : PageAllocator A}.

(** ** The timer interrupt *)

(** Lines 42 to 45. *)
Definition save_process (process stack : Z) : M (cpu_state A) unit :=
  let! rflags := field (stack + frame_rflags) in
  set_field (process + process_saved_rflags) rflags ;;;
  let! ip := field (stack + frame_instruction_pointer) in
  set_field (process + process_saved_instruction_pointer) ip ;;;
  let! sp := field (stack + frame_stack_pointer) in
  set_field (process + process_saved_stack_pointer) sp ;;;
  modify (with_mem (λ m, memory_copy m (stack + frame_registers)
    (process + process_saved_registers) sizeof_saved_registers)).

(** Lines 48 to 51. *)
Definition restore_process (process stack : Z) : M (cpu_state A) unit :=
  let! ip := field (process + process_saved_instruction_pointer) in
  set_field (stack + frame_instruction_pointer) ip ;;;
  let! sp := field (process + process_saved_stack_pointer) in
  set_field (stack + frame_stack_pointer) sp ;;;
  let! rflags := field (process + process_saved_rflags) in
  set_field (stack + frame_rflags) rflags ;;;
  modify (with_mem (λ m, memory_copy m (process + process_saved_registers)
    (stack + frame_registers) sizeof_saved_registers)).

Definition scheduler_handle_interrupt (stack : Z) : M (cpu_state A) unit :=
  let! current_cpu := cpu_get_current in
  device (EndOfInterrupt 0) ;;;
  let! current := field (current_cpu + cpu_current_process) in
  let! next := field (current + process_next) in
  (if negb (current =? next) then
     save_process current stack ;;;
     restore_process next stack ;;;
     let! level4_table := field (next + process_paging_context) in
     modify (set_cr3 level4_table) ;;;
     set_field (current_cpu + cpu_current_process) next
   else ret tt) ;;;
  device (TimerInitialCount SCHEDULER_TIMER_INTERVAL).

(** [scheduler_interrupt] is the address of the assembly entry. *)
Definition scheduler_initialize (scheduler_interrupt : Z) : M (cpu_state A) unit :=
  let! _ := cpu_get_current in
  idt_register_interrupt 0x23 scheduler_interrupt IDT_GATE_TYPE_TRAP IDT_STACK_TYPE_SCHEDULER ;;;
  device (TimerInitialCount SCHEDULER_TIMER_INTERVAL) ;;;
  device (TimerDivideConfig 10) ;;;
  device (TimerVector 0x23).

(** ** Creating a process *)

(** [struct paging_context] in memory. *)
Definition load_context (a : Z) (m : mem) : paging_context :=
  PagingContext (load64 m a) (load64 m (a + 8)) (load64 m (a + 16)) (load64 m (a + 24))
    (load16 m (a + 32)) (load16 m (a + 34)) (load16 m (a + 36)) (load16 m (a + 38)).
Definition store_context (a : Z) (c : paging_context) (m : mem) : mem :=
  store 2 (store 2 (store 2 (store 2
    (store64 (store64 (store64 (store64 m a (level4_table c)) (a + 8) (level3_table c))
      (a + 16) (level2_table c)) (a + 24) (level1_table c))
    (a + 32) (level4_index c)) (a + 34) (level3_index c)) (a + 36) (level2_index c))
    (a + 38) (level1_index c).

(** [paging_map_physical_at(&context, ...)] reads the context only. *)
Definition map_physical_at (context physical_address virtual_address bytes flags : Z) : M (cpu_state A) Z :=
  let! c := gets (λ s, load_context context (s_mem s)) in
  kernel (paging_map_physical_at c physical_address virtual_address bytes flags).

(** [paging_map(&context, ...)] leaves the context where the search ended. *)
Definition map_anywhere (fuel : nat) (context bytes flags : Z) : M (cpu_state A) Z :=
  let! c := gets (λ s, load_context context (s_mem s)) in
  let! '(address, c) := kernel (paging_map fuel c bytes flags) in
  modify (with_mem (store_context context c)) ;;;
  ret address.

(** Lines 89 to 97. *)
Definition new_paging_context (context : Z) : M (cpu_state A) unit :=
  let! table := kernel allocate_page in
  set_field context table ;;;
  modify (with_mem (λ m, memory_zero m table 4096)) ;;;
  modify (with_mem (store_context context (PagingContext table 0 0 0 0 0 0 0))).

(** Lines 100 to 117. *)
Definition identity_map (context : Z) : M (cpu_state A) unit :=
  let! huge := gets (λ s, paging_get_hugepages_supported (s_kernel s)) in
  let! limit := gets max_memory_address in
  if truthy huge then
    print ("[paging] identity map using 1GiB pages" +:+ nl) ;;;
    map_physical_at context 0 0 (align_to_next limit 0x40000000)
      (Z.lor (Z.lor PAGING_FLAG_1GB PAGING_FLAG_READ) PAGING_FLAG_WRITE) ;;;
    print ("[paging] done" +:+ nl)
  else
    print ("[paging] identity map using 2MiB pages (1GiB pages not supported)" +:+ nl) ;;;
    map_physical_at context 0 0 (align_to_next limit 0x200000)
      (Z.lor (Z.lor PAGING_FLAG_2MB PAGING_FLAG_READ) PAGING_FLAG_WRITE) ;;;
    print ("[paging] done" +:+ nl).

(** Lines 127 to 146. *)
Definition insert_process (cpu process : Z) : M (cpu_state A) unit :=
  modify (set_interrupts false) ;;;
  let! current := field (cpu + cpu_current_process) in
  (if truthy current then
     let! next := field (current + process_next) in
     set_field (process + process_next) next ;;;
     set_field (process + process_previous) current ;;;
     set_field (current + process_next) process
   else
     set_field (process + process_next) process ;;;
     set_field (process + process_previous) process ;;;
     set_field (cpu + cpu_current_process) process) ;;;
  modify (set_interrupts true).

Definition scheduler_execute (fuel : nat) (entrypoint : Z) : M (cpu_state A) unit :=
  let! cpu := cpu_get_current in
  let! process := kernel allocate_page in
  let! id := gets current_process_id in
  modify (set_process_id (u64 (id + 1))) ;;;
  set_field (process + process_id) id ;;;
  new_paging_context (process + process_paging_context) ;;;
  identity_map (process + process_paging_context) ;;;
  let! apic := field (cpu + cpu_local_apic_physical) in
  map_physical_at (process + process_paging_context) apic CPU_APIC_ADDRESS sizeof_apic
    (Z.lor PAGING_FLAG_WRITE PAGING_FLAG_READ) ;;;
  set_field (process + process_saved_rflags) 0x246 ;;;
  modify (with_mem (λ m, memory_zero m (process + process_saved_registers) sizeof_saved_registers)) ;;;
  let! stack := map_anywhere fuel (process + process_paging_context) (4096 * 8)
    (Z.lor (Z.lor PAGING_FLAG_READ PAGING_FLAG_WRITE) PAGING_FLAG_USER) in
  set_field (process + process_saved_stack_pointer) (u64 (stack + 4096 * 8)) ;;;
  set_field (process + process_saved_instruction_pointer) entrypoint ;;;
  insert_process cpu process.
End Scheduler.
