(* ===== verification/SchedulerSpec.v ===== *)
(** * Correctness of the scheduler

    The abstract scheduler is a running process and a queue of the waiting
    ones, each with its saved [context]; a timer interrupt puts the running
    process with the interrupted context at the back of the queue and resumes
    the front. [sched_rel] relates it to the ring of [struct scheduler_process]
    in memory; the handler is proved to implement it. *)

From S2P Require Import Prelude Memory Allocator Paging Cpu Scheduler.

Record context := Context_ {
  c_rflags : Z;
  c_instruction_pointer : Z;
  c_stack_pointer : Z;
  c_registers : list Z
}.

(** ** Words of memory *)

(** The [n] words from [a] on. *)
Fixpoint words (n : nat) (m : mem) (a : Z) : list Z :=
  match n with O => [] | S n => load64 m a :: words n m (a + 8) end.

Lemma words_ext n m1 m2 : ∀ a b,
  (∀ i, 0 ≤ i < 8 * Z.of_nat n → load8 m1 (a + i) = load8 m2 (b + i)) →
  words n m1 a = words n m2 b.
Proof.
  induction n as [|n IH]; intros a b H; cbn [words]; [done|]. f_equal.
  - apply load_shift. intros i Hi. apply H. lia.
  - apply IH. intros i Hi. rewrite <- !Z.add_assoc. apply H. lia.
Qed.

Definition saved_context (m : mem) (p : Z) : context :=
  Context_ (load64 m (p + process_saved_rflags)) (load64 m (p + process_saved_instruction_pointer))
    (load64 m (p + process_saved_stack_pointer)) (words 11 m (p + process_saved_registers)).

Definition frame_context (m : mem) (f : Z) : context :=
  Context_ (load64 m (f + frame_rflags)) (load64 m (f + frame_instruction_pointer))
    (load64 m (f + frame_stack_pointer)) (words 11 m (f + frame_registers)).

(** ** The abstract scheduler *)

(** The process that runs after a timer interrupt, with the context it runs
    with, and the queue. *)
Definition rotate (current : Z) (frame : context) (queue : list (Z * context))
    : (Z * context) * list (Z * context) :=
  match queue with
  | [] => ((current, frame), [])
  | next :: queue => (next, queue ++ [(current, frame)])
  end.

(** The processes resumed by a run of interrupts, given the context each of
    them interrupts. *)
Fixpoint round_robin (current : Z) (queue : list (Z * context)) (frames : list context)
    : list (Z * context) :=
  match frames with
  | [] => []
  | f :: frames =>
      let '(next, queue) := rotate current f queue in
      next :: round_robin next.1 queue frames
  end.

Lemma round_robin_short : ∀ frames current queue,
  (length frames ≤ length queue)%nat → round_robin current queue frames = take (length frames) queue.
Proof.
  induction frames as [|f frames IH]; intros current [|[p c] queue] H; cbn in *; [done|done|lia|].
  f_equal. rewrite IH by (rewrite length_app; cbn; lia). apply take_app_le. lia.
Qed.

(** One full turn resumes the waiting processes in order and then the running
    one, with the context it was interrupted with. *)
Lemma round_robin_turn current queue f frames :
  length frames = length queue → round_robin current queue (f :: frames) = queue ++ [(current, f)].
Proof.
  destruct queue as [|[p c] queue]; cbn; intros H; [by destruct frames|]. f_equal.
  rewrite round_robin_short by (rewrite length_app; cbn; lia).
  apply take_ge. rewrite length_app. cbn. lia.
Qed.

(** ** The ring in memory *)

(** The [next] pointers lead from [p] through [l] to [last]. *)
Fixpoint chain (m : mem) (p : Z) (l : list Z) (last : Z) : Prop :=
  match l with
  | [] => load64 m (p + process_next) = last
  | x :: l => load64 m (p + process_next) = x ∧ chain m x l last
  end.

(** Regions of memory that do not overlap, as start and length. *)
Definition disjoint_regions (r1 r2 : Z * Z) : Prop := r1.1 + r1.2 ≤ r2.1 ∨ r2.1 + r2.2 ≤ r1.1.

Definition region_of (p : Z) : Z * Z := (p, sizeof_process).

Fixpoint all_disjoint (l : list (Z * Z)) : Prop :=
  match l with
  | [] => True
  | r :: l => Forall (disjoint_regions r) l ∧ all_disjoint l
  end.

(** ** Saving and restoring *)

(** The memories agree outside the [n] bytes at [a]. *)
Definition same_outside (a n : Z) (m m' : mem) : Prop :=
  ∀ x, ¬ (a ≤ x < a + n) → load8 m' x = load8 m x.

Lemma outside_trans a n m1 m2 m3 :
  same_outside a n m1 m2 → same_outside a n m2 m3 → same_outside a n m1 m3.
Proof. intros H1 H2 x Hx. by rewrite (H2 x), (H1 x). Qed.

Lemma same_outside_store64 a n b v m :
  a ≤ b → b + 8 ≤ a + n → same_outside a n m (store64 m b v).
Proof. intros H1 H2 x Hx. apply load8_store_out. lia. Qed.

Lemma same_outside_copy a n from to size m :
  a ≤ to → to + size ≤ a + n → same_outside a n m (memory_copy m from to size).
Proof. intros H1 H2 x Hx. apply load8_memory_copy_out. lia. Qed.

Lemma load64_outside a n m m' b :
  same_outside a n m m' → b + 8 ≤ a ∨ a + n ≤ b → load64 m' b = load64 m b.
Proof. intros H Hb. apply load_ext. intros x Hx. apply H. lia. Qed.

Lemma words_outside k a n m m' b :
  same_outside a n m m' → b + 8 * Z.of_nat k ≤ a ∨ a + n ≤ b → words k m' b = words k m b.
Proof. intros H Hb. apply words_ext. intros i Hi. apply H. lia. Qed.

Definition save_mem (process stack : Z) (m : mem) : mem :=
  memory_copy
    (store64 (store64 (store64 m (process + 72) (load64 m (stack + 104)))
       (process + 80) (load64 m (stack + 88))) (process + 88) (load64 m (stack + 112)))
    stack (process + 96) 88.

Definition restore_mem (process stack : Z) (m : mem) : mem :=
  memory_copy
    (store64 (store64 (store64 m (stack + 88) (load64 m (process + 80)))
       (stack + 112) (load64 m (process + 88))) (stack + 104) (load64 m (process + 72)))
    (process + 96) stack 88.

Lemma save_mem_outside p f m : same_outside (p + 72) 112 m (save_mem p f m).
Proof.
  unfold save_mem. eapply outside_trans; [|apply same_outside_copy; lia].
  do 2 (eapply outside_trans; [|apply same_outside_store64; lia]).
  apply same_outside_store64; lia.
Qed.

Lemma restore_mem_outside p f m : same_outside f 128 m (restore_mem p f m).
Proof.
  unfold restore_mem. eapply outside_trans; [|apply same_outside_copy; lia].
  do 2 (eapply outside_trans; [|apply same_outside_store64; lia]).
  apply same_outside_store64; lia.
Qed.

(** [words] of a region that has just been copied. *)
Lemma words_memory_copy k m from to :
  let size := 8 * Z.of_nat k in
  from + size ≤ to ∨ to + size ≤ from →
  words k (memory_copy m from to size) to = words k m from.
Proof.
  intros size H. apply words_ext. intros i Hi. apply load8_memory_copy_in; lia.
Qed.

Ltac load64_stores := repeat first
  [ rewrite load64_store64_eq by apply load64_range
  | rewrite load64_store64_ne by lia ].

Lemma load64_memory_copy_out m from to size b :
  b + 8 ≤ to ∨ to + size ≤ b → load64 (memory_copy m from to size) b = load64 m b.
Proof. intros H. by eapply load64_outside, H; apply same_outside_copy. Qed.

Lemma save_mem_saves p f m :
  disjoint_regions (f, sizeof_frame) (region_of p) →
  saved_context (save_mem p f m) p = frame_context m f.
Proof.
  unfold disjoint_regions, region_of, sizeof_frame, sizeof_process. cbn [fst snd]. intros H.
  unfold saved_context, frame_context, save_mem, process_saved_rflags,
    process_saved_instruction_pointer, process_saved_stack_pointer, process_saved_registers,
    frame_rflags, frame_instruction_pointer, frame_stack_pointer, frame_registers.
  rewrite !load64_memory_copy_out by lia. load64_stores. f_equal.
  rewrite (words_memory_copy 11) by lia. rewrite Z.add_0_r.
  apply words_ext. intros i Hi.
  assert (same_outside (p + 72) 24 m (store64 (store64 (store64 m (p + 72) (load64 m (f + 104)))
    (p + 80) (load64 m (f + 88))) (p + 88) (load64 m (f + 112)))) as Hs; [|apply Hs; lia].
  do 2 (eapply outside_trans; [|apply same_outside_store64; lia]).
  apply same_outside_store64; lia.
Qed.

Lemma restore_mem_restores p f m :
  disjoint_regions (f, sizeof_frame) (region_of p) →
  frame_context (restore_mem p f m) f = saved_context m p.
Proof.
  unfold disjoint_regions, region_of, sizeof_frame, sizeof_process. cbn [fst snd]. intros H.
  unfold saved_context, frame_context, restore_mem, process_saved_rflags,
    process_saved_instruction_pointer, process_saved_stack_pointer, process_saved_registers,
    frame_rflags, frame_instruction_pointer, frame_stack_pointer, frame_registers.
  rewrite !load64_memory_copy_out by lia. load64_stores. f_equal.
  rewrite Z.add_0_r, (words_memory_copy 11) by lia.
  apply words_ext. intros i Hi.
  assert (same_outside f 128 m (store64 (store64 (store64 m (f + 88) (load64 m (p + 80)))
    (f + 112) (load64 m (p + 88))) (f + 104) (load64 m (p + 72)))) as Hs; [|apply Hs; lia].
  do 2 (eapply outside_trans; [|apply same_outside_store64; lia]).
  apply same_outside_store64; lia.
Qed.

Lemma saved_context_outside p a n m m' :
  same_outside a n m m' → disjoint_regions (a, n) (region_of p) →
  saved_context m' p = saved_context m p.
Proof.
  unfold disjoint_regions, region_of, sizeof_process. cbn [fst snd]. intros Hs H.
  unfold saved_context, process_saved_rflags, process_saved_instruction_pointer,
    process_saved_stack_pointer, process_saved_registers.
  rewrite !(load64_outside _ _ _ _ _ Hs), (words_outside _ _ _ _ _ _ Hs) by lia. done.
Qed.

(** ** Disjoint regions *)

#[export] Instance disjoint_regions_symmetric : Symmetric disjoint_regions.
Proof. intros r1 r2. unfold disjoint_regions. tauto. Qed.

Lemma all_disjoint_perm l l' : l ≡ₚ l' → all_disjoint l → all_disjoint l'.
Proof.
  induction 1 as [|r l l' Hp IH|r1 r2 l|l1 l2 l3 _ IH1 _ IH2]; cbn; [done| | |auto].
  - intros [Hr Hl]. split; [by rewrite <- Hp|auto].
  - intros [[H12 H1]%list.Forall_cons [H2 Hl]]. split; [by constructor|done].
Qed.

#[export] Instance all_disjoint_proper : Proper ((≡ₚ) ==> iff) all_disjoint.
Proof. intros l l' Hp. split; by apply all_disjoint_perm. Qed.

Lemma all_disjoint_elem r l r' : all_disjoint (r :: l) → r' ∈ l → disjoint_regions r r'.
Proof. intros [H _]. revert r'. by apply list.Forall_forall. Qed.

Lemma frame_context_outside f a n m m' :
  same_outside a n m m' → disjoint_regions (a, n) (f, sizeof_frame) →
  frame_context m' f = frame_context m f.
Proof.
  unfold disjoint_regions, sizeof_frame. cbn [fst snd]. intros Hs H.
  unfold frame_context, frame_rflags, frame_instruction_pointer, frame_stack_pointer, frame_registers.
  rewrite !(load64_outside _ _ _ _ _ Hs), (words_outside _ _ _ _ _ _ Hs) by lia. done.
Qed.

Lemma load64_same m m' p n a :
  (∀ x, p ≤ x < p + n → load8 m' x = load8 m x) → p ≤ a → a + 8 ≤ p + n → load64 m' a = load64 m a.
Proof. intros H H1 H2. apply load_ext. intros x Hx. apply H. lia. Qed.

(** The saved context lies in the part of a process from offset 72 on. *)
Lemma saved_context_above p m m' :
  (∀ x, p + 72 ≤ x < p + sizeof_process → load8 m' x = load8 m x) → saved_context m' p = saved_context m p.
Proof.
  unfold sizeof_process. intros H. unfold saved_context, process_saved_rflags,
    process_saved_instruction_pointer, process_saved_stack_pointer, process_saved_registers.
  f_equal; [apply load_ext; intros x Hx; apply H; lia..|].
  apply words_ext. intros i Hi. apply H. lia.
Qed.

(** A region inside another one is disjoint from what the other one is. *)
Lemma disjoint_sub a n b k r :
  disjoint_regions (b, k) r → b ≤ a → a + n ≤ b + k → disjoint_regions (a, n) r.
Proof. unfold disjoint_regions. cbn [fst snd]. lia. Qed.

#[local] Opaque load64 store64 memory_copy memory_zero.

(** ** The effect of the handler on memory *)

Definition handle_mem (cpu current next stack : Z) (m : mem) : mem :=
  store64 (restore_mem next stack (save_mem current stack m)) (cpu + 40) next.

Lemma handle_mem_load64 cpu current next stack m a :
  a + 8 ≤ current + 72 ∨ current + 184 ≤ a →
  a + 8 ≤ stack ∨ stack + 128 ≤ a →
  a + 8 ≤ cpu + 40 ∨ cpu + 48 ≤ a →
  load64 (handle_mem cpu current next stack m) a = load64 m a.
Proof.
  intros H1 H2 H3. unfold handle_mem. rewrite load64_store64_ne by lia.
  rewrite (load64_outside _ _ _ _ _ (restore_mem_outside next stack _)) by lia.
  apply (load64_outside _ _ _ _ _ (save_mem_outside current stack m)). lia.
Qed.

Section HandleMem.
Context (cpu current next stack : Z) (m : mem).
Context (cpu_stack : disjoint_regions (cpu, 48) (stack, sizeof_frame)).
Context (stack_current : disjoint_regions (stack, sizeof_frame) (region_of current)).
Context (stack_next : disjoint_regions (stack, sizeof_frame) (region_of next)).
Context (cpu_current : disjoint_regions (cpu, 48) (region_of current)).
Context (current_next : disjoint_regions (region_of current) (region_of next)).
Let m' := handle_mem cpu current next stack m.

Lemma store_current_outside m1 : same_outside (cpu + 40) 8 m1 (store64 m1 (cpu + 40) next).
Proof. apply same_outside_store64; lia. Qed.

Lemma handle_mem_frame : frame_context m' stack = saved_context m next.
Proof.
  unfold m', handle_mem. rewrite (frame_context_outside _ _ _ _ _ (store_current_outside _))
    by (eapply disjoint_sub; [exact cpu_stack|lia..]).
  rewrite restore_mem_restores by done.
  apply (saved_context_outside _ _ _ _ _ (save_mem_outside current stack m)).
  eapply disjoint_sub; [exact current_next|unfold sizeof_process; lia..].
Qed.

Lemma handle_mem_saved_current : saved_context m' current = frame_context m stack.
Proof.
  unfold m', handle_mem. rewrite (saved_context_outside _ _ _ _ _ (store_current_outside _))
    by (eapply disjoint_sub; [exact cpu_current|lia..]).
  rewrite (saved_context_outside _ _ _ _ _ (restore_mem_outside next stack _)) by done.
  by apply save_mem_saves.
Qed.

Lemma handle_mem_saved_other p :
  disjoint_regions (cpu, 48) (region_of p) → disjoint_regions (stack, sizeof_frame) (region_of p) →
  disjoint_regions (region_of current) (region_of p) → saved_context m' p = saved_context m p.
Proof.
  intros H1 H2 H3. unfold m', handle_mem.
  rewrite (saved_context_outside _ _ _ _ _ (store_current_outside _))
    by (eapply disjoint_sub; [exact H1|lia..]).
  rewrite (saved_context_outside _ _ _ _ _ (restore_mem_outside next stack _)) by done.
  apply (saved_context_outside _ _ _ _ _ (save_mem_outside current stack m)).
  eapply disjoint_sub; [exact H3|unfold sizeof_process; lia..].
Qed.
End HandleMem.

Lemma chain_ext m m' l : ∀ p last,
  (∀ x, x ∈ p :: l → load64 m' (x + process_next) = load64 m (x + process_next)) →
  chain m p l last → chain m' p l last.
Proof.
  induction l as [|y l IH]; intros p last H; cbn [chain]; rewrite (H p) by left; [done|].
  intros [-> Hc]. split; [done|]. apply IH; [|done]. intros x Hx. apply H. by right.
Qed.

Lemma chain_snoc m l : ∀ p x last,
  chain m p (l ++ [x]) last ↔ chain m p l x ∧ load64 m (x + process_next) = last.
Proof.
  induction l as [|y l IH]; intros p x last; cbn [chain app]; [tauto|]. rewrite IH. tauto.
Qed.

Section Scheduler.
Context {A : Type} {PA : PageAllocator A}.
Implicit Type s : cpu_state A.

Record sched_rel (stack : Z) s (current : Z) (queue : list (Z * context)) : Prop := SchedRel {
  rel_cpu : load64 (s_mem s) (s_fs s) = s_fs s;
  rel_current : load64 (s_mem s) (s_fs s + cpu_current_process) = current;
  rel_ring : chain (s_mem s) current queue.*1 current;
  rel_saved : Forall (λ pc, saved_context (s_mem s) pc.1 = pc.2) queue;
  rel_disjoint : all_disjoint
    ((s_fs s, 48) :: (stack, sizeof_frame) :: (region_of <$> current :: queue.*1));
  rel_range : Forall (λ p, 0 ≤ p < 2 ^ 64) (current :: queue.*1)
}.

(** The regions of two processes of the ring, and of a process and the rest. *)
Lemma rel_regions stack s current queue p :
  sched_rel stack s current queue → p ∈ current :: queue.*1 →
  disjoint_regions (s_fs s, 48) (region_of p) ∧
  disjoint_regions (stack, sizeof_frame) (region_of p) ∧
  disjoint_regions (s_fs s, 48) (stack, sizeof_frame).
Proof.
  intros [_ _ _ _ Hd _] Hp. pose proof Hd as [H1 [H2 _]].
  apply list.Forall_cons in H1 as [H12 H1]. rewrite list.Forall_forall in H1, H2.
  assert (region_of p ∈ region_of <$> current :: queue.*1) as Hin by (by apply list_elem_of_fmap_2).
  auto.
Qed.

Lemma rel_queue_disjoint stack s current queue p :
  sched_rel stack s current queue → p ∈ queue.*1 →
  disjoint_regions (region_of current) (region_of p).
Proof.
  intros [_ _ _ _ [_ [_ Hd]] _] Hp. eapply all_disjoint_elem; [exact Hd|].
  by apply list_elem_of_fmap_2.
Qed.

(** The state after the handler, without and with a switch. *)
Definition handled (current next stack : Z) s : cpu_state A :=
  CpuState (if decide (current = next) then s_kernel s
         else set_mem (handle_mem (s_fs s) current next stack) (s_kernel s))
    (s_fs s)
    (if decide (current = next) then s_cr3 s else load64 (s_mem s) (next + process_paging_context))
    (s_interrupts s) (current_process_id s) (current_cpu_id s) (max_memory_address s)
    (TimerInitialCount SCHEDULER_TIMER_INTERVAL :: EndOfInterrupt 0 :: s_writes s).

Lemma save_run p f s :
  disjoint_regions (f, sizeof_frame) (region_of p) →
  save_process p f s = Ok (tt, with_mem (save_mem p f) s).
Proof.
  unfold disjoint_regions, region_of, sizeof_frame, sizeof_process. cbn [fst snd]. intros H.
  unfold save_process, field, set_field, process_saved_rflags, process_saved_instruction_pointer,
    process_saved_stack_pointer, process_saved_registers, frame_rflags,
    frame_instruction_pointer, frame_stack_pointer, frame_registers, sizeof_saved_registers.
  mstep. unfold modify, s_mem, with_mem, with_kernel, set_mem. cbn [s_kernel k_mem].
  load64_stores. unfold save_mem. rewrite Z.add_0_r. reflexivity.
Qed.

Lemma restore_run p f s :
  disjoint_regions (f, sizeof_frame) (region_of p) →
  restore_process p f s = Ok (tt, with_mem (restore_mem p f) s).
Proof.
  unfold disjoint_regions, region_of, sizeof_frame, sizeof_process. cbn [fst snd]. intros H.
  unfold restore_process, field, set_field, process_saved_rflags, process_saved_instruction_pointer,
    process_saved_stack_pointer, process_saved_registers, frame_rflags,
    frame_instruction_pointer, frame_stack_pointer, frame_registers, sizeof_saved_registers.
  mstep. unfold modify, s_mem, with_mem, with_kernel, set_mem. cbn [s_kernel k_mem].
  load64_stores. unfold restore_mem. rewrite Z.add_0_r. reflexivity.
Qed.

(** The successor of the running process in the ring. *)
Definition successor (current : Z) (queue : list (Z * context)) : Z :=
  match queue with [] => current | pc :: _ => pc.1 end.

Lemma handler_run stack s current queue :
  sched_rel stack s current queue →
  scheduler_handle_interrupt stack s = Ok (tt, handled current (successor current queue) stack s).
Proof.
  intros Hrel. pose proof Hrel as [Hcpu Hcur Hring _ _ _].
  assert (load64 (s_mem s) (current + process_next) = successor current queue) as Hnext
    by (by destruct queue as [|pc queue]; cbn in Hring; [|destruct Hring]).
  unfold scheduler_handle_interrupt, cpu_get_current, field, device. mstep. rewrite Hcpu. mstep.
  change (s_mem (log_write (EndOfInterrupt 0) s)) with (s_mem s). rewrite Hcur. mstep.
  change (s_mem (log_write (EndOfInterrupt 0) s)) with (s_mem s). rewrite Hnext. unfold handled.
  destruct (Z.eqb_spec current (successor current queue)) as [He|He]; [by rewrite !decide_True by done|].
  destruct queue as [|[p c] queue]; [done|]. cbn [negb successor fst] in *.
  destruct (rel_regions _ _ _ _ current Hrel) as (Hcc & Hsc & Hcs); [left|].
  destruct (rel_regions _ _ _ _ p Hrel) as (Hcp & Hsp & _); [right; left|].
  pose proof (rel_queue_disjoint _ _ _ _ p Hrel ltac:(left)) as Hpc.
  rewrite !decide_False by done. mstep.
  rewrite (bind_ok _ _ _ _ _ (save_run _ _ _ Hsc)). mstep.
  rewrite (bind_ok _ _ _ _ _ (restore_run _ _ _ Hsp)). mstep.
  change (s_mem (with_mem _ (with_mem _ (log_write _ s))))
    with (restore_mem p stack (save_mem current stack (s_mem s))).
  assert (load64 (restore_mem p stack (save_mem current stack (s_mem s))) (p + process_paging_context)
    = load64 (s_mem s) (p + process_paging_context)) as Htable.
  { unfold disjoint_regions, region_of, sizeof_process, sizeof_frame, process_paging_context in *.
    cbn [fst snd] in *.
    rewrite (load64_outside _ _ _ _ _ (restore_mem_outside p stack _)) by lia.
    apply (load64_outside _ _ _ _ _ (save_mem_outside current stack _)). lia. }
  rewrite Htable. unfold set_field. mstep.
  unfold modify, log_write, with_mem, with_kernel, set_mem, set_cr3, handle_mem, cpu_current_process.
  cbn [s_kernel k_mem k_alloc used_virtual_pages hugepages_supported k_log s_fs s_cr3 s_interrupts
    current_process_id current_cpu_id max_memory_address s_writes]. reflexivity.
Qed.

Lemma handled_same stack s current :
  sched_rel stack s current [] → sched_rel stack (handled current current stack s) current [].
Proof. intros [? ? ? ? ? ?]. split; unfold handled, s_mem in *; rewrite ?decide_True by done; done. Qed.

Lemma handled_kernel current p stack s :
  current ≠ p → s_mem (handled current p stack s) = handle_mem (s_fs s) current p stack (s_mem s).
Proof. intros H. unfold handled, s_mem. by rewrite !decide_False by done. Qed.

(** A switch leaves the links between the processes alone. *)
Lemma handle_mem_next stack s current p c queue x :
  sched_rel stack s current ((p, c) :: queue) → x ∈ current :: ((p, c) :: queue).*1 →
  load64 (handle_mem (s_fs s) current p stack (s_mem s)) (x + process_next) =
  load64 (s_mem s) (x + process_next).
Proof.
  intros Hrel Hx. destruct (rel_regions _ _ _ _ x Hrel Hx) as (H1 & H2 & _).
  unfold disjoint_regions, region_of, sizeof_process, sizeof_frame, process_next in *.
  cbn [fst snd] in *. apply handle_mem_load64; [|lia|lia].
  apply elem_of_cons in Hx as [->|Hx]; [lia|].
  pose proof (rel_queue_disjoint _ _ _ _ x Hrel Hx) as H3.
  unfold disjoint_regions, region_of, sizeof_process in H3. cbn [fst snd] in H3. lia.
Qed.

Lemma handled_switch stack s current p c queue :
  sched_rel stack s current ((p, c) :: queue) →
  sched_rel stack (handled current p stack s) p (queue ++ [(current, frame_context (s_mem s) stack)]) ∧
  frame_context (s_mem (handled current p stack s)) stack = c ∧
  s_cr3 (handled current p stack s) = load64 (s_mem s) (p + process_paging_context).
Proof.
  intros Hrel. pose proof Hrel as [Hcpu Hcur [Hnext Hring] [Hc Hsaved]%list.Forall_cons Hdis Hrange].
  destruct (rel_regions _ _ _ _ current Hrel) as (Hcc & Hsc & Hcs); [left|].
  destruct (rel_regions _ _ _ _ p Hrel) as (Hcp & Hsp & _); [right; left|].
  pose proof (rel_queue_disjoint _ _ _ _ p Hrel ltac:(left)) as Hpc.
  assert (current ≠ p) as Hne.
  { intros ->. unfold disjoint_regions, region_of, sizeof_process in Hpc. cbn [fst snd] in Hpc. lia. }
  rewrite (handled_kernel _ _ _ _ Hne). split_and!; cycle 1.
  { rewrite handle_mem_frame by done. exact Hc. }
  { cbn [s_cr3 handled]. by rewrite decide_False by done. }
  split; rewrite ?(handled_kernel _ _ _ _ Hne); rewrite ?fmap_app; cbn [s_fs handled].
  - unfold disjoint_regions, region_of, sizeof_frame, sizeof_process in *. cbn [fst snd] in *.
    rewrite handle_mem_load64 by lia. exact Hcpu.
  - apply load64_store64_eq. by apply list.Forall_cons in Hrange as [_ [? _]%list.Forall_cons].
  - apply chain_snoc. split.
    + apply (chain_ext (s_mem s)); [|exact Hring]. intros x Hx.
      apply (handle_mem_next _ _ _ _ _ _ _ Hrel). by right.
    + rewrite (handle_mem_next _ _ _ _ _ _ _ Hrel) by left. exact Hnext.
  - apply list.Forall_app. split; [|constructor; [|constructor]; by apply handle_mem_saved_current].
    apply list.Forall_forall. intros pc Hin. rewrite list.Forall_forall in Hsaved.
    assert (pc.1 ∈ queue.*1) as Hin1 by (by apply list_elem_of_fmap_2).
    destruct (rel_regions _ _ _ _ pc.1 Hrel) as (H1 & H2 & _); [by right; right|].
    rewrite handle_mem_saved_other; [by apply Hsaved|done..|].
    apply (rel_queue_disjoint _ _ _ _ _ Hrel). by right.
  - revert Hdis. apply all_disjoint_perm. do 2 f_equiv. apply fmap_Permutation. cbn.
    rewrite (comm (++)). apply perm_swap.
  - revert Hrange. apply Forall_Permutation; [done|]. cbn. rewrite (comm (++)). apply perm_swap.
Qed.

(** ** A run of several interrupts

    Between two interrupts the running process may do what it likes outside
    the [struct cpu] and the processes; [frame] is what the processor and the
    assembly entry push for the next interrupt. *)

Definition untouched (processes : list Z) s s1 : Prop :=
  s_fs s1 = s_fs s ∧
  ∀ p n, (p, n) ∈ (s_fs s, 48) :: (region_of <$> processes) →
    ∀ x, p ≤ x < p + n → load8 (s_mem s1) x = load8 (s_mem s) x.

Inductive timeline (stack : Z) (processes : list Z) :
    cpu_state A → list context → list (Z * context) → cpu_state A → Prop :=
| timeline_nil s : timeline stack processes s [] [] s
| timeline_tick s s1 s2 s3 frame frames r rs :
    untouched processes s s1 → frame_context (s_mem s1) stack = frame →
    scheduler_handle_interrupt stack s1 = Ok (tt, s2) →
    load64 (s_mem s2) (s_fs s2 + cpu_current_process) = r.1 →
    frame_context (s_mem s2) stack = r.2 →
    timeline stack processes s2 frames rs s3 →
    timeline stack processes s (frame :: frames) (r :: rs) s3.

Lemma rel_untouched stack s s1 current queue processes :
  sched_rel stack s current queue → (∀ p, p ∈ current :: queue.*1 → p ∈ processes) →
  untouched processes s s1 → sched_rel stack s1 current queue.
Proof.
  intros [Hcpu Hcur Hring Hsaved Hdis Hrange] Hsub [Hfs Hsame].
  pose proof (Hsame (s_fs s) 48 ltac:(left)) as Hc.
  assert (∀ p, p ∈ current :: queue.*1 → ∀ x, p ≤ x < p + sizeof_process →
    load8 (s_mem s1) x = load8 (s_mem s) x) as Hp.
  { intros p Hin. apply Hsame. right. apply (list_elem_of_fmap_2 region_of), Hsub, Hin. }
  unfold sizeof_process in Hp. split; rewrite ?Hfs; [| | | |done|done].
  - rewrite (load64_same _ _ _ _ _ Hc) by lia. done.
  - unfold cpu_current_process in *. rewrite (load64_same _ _ _ _ _ Hc) by lia. done.
  - apply (chain_ext (s_mem s)); [|done]. intros x Hx. unfold process_next.
    apply (load64_same _ _ _ _ _ (Hp x Hx)); lia.
  - rewrite list.Forall_forall in Hsaved |- *. intros pc Hin. rewrite <- (Hsaved pc Hin).
    assert (pc.1 ∈ current :: queue.*1) as Hin1 by (right; by apply list_elem_of_fmap_2).
    apply saved_context_above. intros x Hx. unfold sizeof_process in Hx. apply (Hp _ Hin1). lia.
Qed.

Lemma timeline_round_robin stack processes s frames rs s' :
  timeline stack processes s frames rs s' → ∀ current queue,
  sched_rel stack s current queue → (∀ p, p ∈ current :: queue.*1 → p ∈ processes) →
  rs = round_robin current queue frames.
Proof.
  induction 1 as [|s s1 s2 s3 f frames r rs Hun Hf Hrun Hcur Hframe Htl IH];
    intros current queue Hrel Hsub; [done|]. cbn [round_robin].
  pose proof (rel_untouched _ _ _ _ _ _ Hrel Hsub Hun) as Hrel1.
  rewrite (handler_run _ _ _ _ Hrel1) in Hrun. injection Hrun as <-.
  destruct queue as [|[p c] queue]; cbn [rotate successor fst] in *.
  - pose proof (handled_same _ _ _ Hrel1) as Hrel2. f_equal; [|by apply IH].
    destruct r as [r1 r2]. cbn [fst snd] in *. f_equal.
    + rewrite <- Hcur. apply (rel_current _ _ _ _ Hrel2).
    + rewrite <- Hframe, <- Hf. unfold s_mem, handled. by rewrite !decide_True by done.
  - destruct (handled_switch _ _ _ _ _ _ Hrel1) as (Hrel2 & Hc & _). rewrite <- Hf. f_equal.
    + destruct r as [r1 r2]. cbn [fst snd] in *. f_equal; [|congruence].
      rewrite <- Hcur. apply (rel_current _ _ _ _ Hrel2).
    + apply IH; [exact Hrel2|]. intros q Hq. apply Hsub. cbn in *.
      rewrite fmap_app, !elem_of_cons, elem_of_app in *. cbn in Hq.
      rewrite list_elem_of_singleton in Hq. tauto.
Qed.

(** C6. The timer interrupt implements the round-robin queue: the interrupted context is saved with
    the running process, which goes to the back of the queue, the front of the queue is resumed with
    exactly its saved context and its page table, and the ring in memory stays well formed; the
    interrupt is acknowledged and the timer restarted once. *)
Theorem scheduler_handle_interrupt_refines stack s current queue :
  sched_rel stack s current queue →
  let '(next, queue') := rotate current (frame_context (s_mem s) stack) queue in
  ∃ s', scheduler_handle_interrupt stack s = Ok (tt, s') ∧ sched_rel stack s' next.1 queue' ∧
    frame_context (s_mem s') stack = next.2 ∧
    (queue ≠ [] → s_cr3 s' = load64 (s_mem s) (next.1 + process_paging_context)) ∧
    s_writes s' = TimerInitialCount SCHEDULER_TIMER_INTERVAL :: EndOfInterrupt 0 :: s_writes s.
Proof.
  intros Hrel. destruct queue as [|[p c] queue]; cbn [rotate fst snd].
  - exists (handled current current stack s). rewrite (handler_run _ _ _ _ Hrel).
    split_and!; [done|by apply handled_same| |done|done].
    unfold s_mem, handled. by rewrite !decide_True by done.
  - exists (handled current p stack s). rewrite (handler_run _ _ _ _ Hrel).
    destruct (handled_switch _ _ _ _ _ _ Hrel) as (? & ? & ?). by split_and!.
Qed.

(** C31. The scheduler is fair: one full turn of timer interrupts runs every waiting process once, in
    the order of the ring and with the context it was last interrupted with, and then resumes the
    first process exactly where it was interrupted. *)
Theorem scheduler_full_turn stack s s' current queue frame frames rs :
  sched_rel stack s current queue → length frames = length queue →
  timeline stack (current :: queue.*1) s (frame :: frames) rs s' →
  rs = queue ++ [(current, frame)].
Proof.
  intros Hrel Hlen Htl. rewrite <- (round_robin_turn _ _ _ _ Hlen).
  by apply (timeline_round_robin _ _ _ _ _ _ Htl).
Qed.

(** ** Inserting a process *)

Definition insert_mem (process current next : Z) (m : mem) : mem :=
  store64 (store64 (store64 m (process + 8) next) (process + 16) current) (current + 8) process.

Lemma insert_mem_load64 process current next m a :
  (a + 8 ≤ process + 8 ∨ process + 24 ≤ a) → (a + 8 ≤ current + 8 ∨ current + 16 ≤ a) →
  load64 (insert_mem process current next m) a = load64 m a.
Proof. intros H1 H2. unfold insert_mem. by rewrite !load64_store64_ne by lia. Qed.

Lemma insert_mem_next process current next m :
  disjoint_regions (region_of process) (region_of current) → 0 ≤ process < 2 ^ 64 → 0 ≤ next < 2 ^ 64 →
  load64 (insert_mem process current next m) (process + 8) = next ∧
  load64 (insert_mem process current next m) (current + 8) = process.
Proof.
  unfold disjoint_regions, region_of, sizeof_process. cbn [fst snd]. intros H Hp Hn.
  unfold insert_mem. rewrite load64_store64_eq by done.
  by rewrite 2!(load64_store64_ne _ (process + 8)), load64_store64_eq by (lia || done).
Qed.

Lemma insert_mem_saved process current next m p :
  p = process ∨ disjoint_regions (region_of process) (region_of p) →
  p = current ∨ disjoint_regions (region_of current) (region_of p) →
  saved_context (insert_mem process current next m) p = saved_context m p.
Proof.
  assert (∀ q v m1, p = q ∨ disjoint_regions (region_of q) (region_of p) →
    ∀ o, o = 8 ∨ o = 16 → saved_context (store64 m1 (q + o) v) p = saved_context m1 p) as H.
  { intros q v m1 Hq o Ho. apply saved_context_above. intros x Hx. unfold sizeof_process in Hx.
    apply (same_outside_store64 (q + o) 8); [lia|lia|].
    unfold disjoint_regions, region_of, sizeof_process in Hq. cbn [fst snd] in Hq. lia. }
  intros H1 H2. unfold insert_mem. rewrite !H; auto.
Qed.

Lemma insert_run cpu process current next s :
  load64 (s_mem s) (cpu + cpu_current_process) = current → current ≠ 0 →
  load64 (s_mem s) (current + process_next) = next →
  insert_process cpu process s =
    Ok (tt, set_interrupts true (with_mem (insert_mem process current next) s)).
Proof.
  intros Hcur Hne Hnext. unfold insert_process, field, set_field. mstep.
  change (s_mem (set_interrupts false s)) with (s_mem s). rewrite Hcur, (proj2 (truthy_spec current)) by done.
  mstep. change (s_mem (set_interrupts false s)) with (s_mem s). rewrite Hnext. reflexivity.
Qed.

(** [p] lies apart from everything the scheduler uses. *)
Definition fresh_process (stack : Z) s (processes : list Z) (p : Z) : Prop :=
  0 ≤ p < 2 ^ 64 ∧ Forall (disjoint_regions (region_of p))
    ((s_fs s, 48) :: (stack, sizeof_frame) :: (region_of <$> processes)).

Lemma fresh_parts stack s current processes p :
  Forall (disjoint_regions (region_of p))
    ((s_fs s, 48) :: (stack, sizeof_frame) :: (region_of <$> current :: processes)) →
  disjoint_regions (region_of p) (s_fs s, 48) ∧ disjoint_regions (region_of p) (stack, sizeof_frame) ∧
  disjoint_regions (region_of p) (region_of current) ∧
  ∀ q, q ∈ processes → disjoint_regions (region_of p) (region_of q).
Proof.
  intros [Hc [Hs [Hp Hall]%list.Forall_cons]%list.Forall_cons]%list.Forall_cons.
  split_and!; [done..|]. intros q Hq. rewrite list.Forall_forall in Hall.
  by apply Hall, (list_elem_of_fmap_2 region_of).
Qed.

Lemma fresh_all_disjoint stack s processes p :
  fresh_process stack s processes p →
  all_disjoint ((s_fs s, 48) :: (stack, sizeof_frame) :: (region_of <$> processes)) →
  all_disjoint ((s_fs s, 48) :: (stack, sizeof_frame) :: region_of p :: (region_of <$> processes)).
Proof.
  intros [_ Hf] Hd. assert (all_disjoint (region_of p :: (s_fs s, 48) :: (stack, sizeof_frame) ::
    (region_of <$> processes))) as H by done.
  revert H. apply all_disjoint_perm. etransitivity; [apply perm_swap|]. apply perm_skip, perm_swap.
Qed.

Lemma successor_range stack s current queue :
  sched_rel stack s current queue → 0 ≤ successor current queue < 2 ^ 64.
Proof.
  intros [_ _ _ _ _ [H1 H2]%list.Forall_cons]. destruct queue as [|pc queue]; [done|].
  by apply list.Forall_cons in H2 as [? _].
Qed.

(** The links of the waiting processes are not touched by an insertion. *)
Lemma insert_mem_other stack s current queue p next q o :
  sched_rel stack s current queue → fresh_process stack s (current :: queue.*1) p →
  q ∈ queue.*1 → 0 ≤ o < 24 →
  load64 (insert_mem p current next (s_mem s)) (q + o) = load64 (s_mem s) (q + o).
Proof.
  intros Hrel [_ (_ & _ & _ & Hall)%fresh_parts] Hq Ho. pose proof (Hall q Hq) as H1.
  pose proof (rel_queue_disjoint _ _ _ _ _ Hrel Hq) as H2.
  unfold disjoint_regions, region_of, sizeof_process in *. cbn [fst snd] in *.
  apply insert_mem_load64; lia.
Qed.

Lemma insert_related stack s current queue p next :
  sched_rel stack s current queue → fresh_process stack s (current :: queue.*1) p →
  next = successor current queue →
  let s' := set_interrupts true (with_mem (insert_mem p current next) s) in
  sched_rel stack s' current ((p, saved_context (s_mem s) p) :: queue) ∧
  (∀ q, q ∈ queue.*1 → load64 (s_mem s') (q + process_previous) = load64 (s_mem s) (q + process_previous)).
Proof.
  intros Hrel Hfresh Hnext s'. pose proof Hfresh as [Hp (Hcpu & _ & Hpc & Hpq)%fresh_parts].
  destruct (rel_regions _ _ _ _ current Hrel) as (Hcc & _ & _); [left|].
  pose proof Hrel as [Hc Hcur Hring Hsaved Hdis Hrange].
  pose proof (successor_range _ _ _ _ Hrel) as Hn. rewrite <- Hnext in Hn.
  destruct (insert_mem_next p current next (s_mem s) Hpc Hp Hn) as [Hnp Hnc].
  split; [|intros q Hq; by apply (insert_mem_other _ _ _ _ _ _ _ _ Hrel Hfresh)].
  split; change (s_mem s') with (insert_mem p current next (s_mem s)).
  - unfold disjoint_regions, region_of, sizeof_process in *. cbn [fst snd] in *.
    change (s_fs s') with (s_fs s). rewrite insert_mem_load64 by lia. exact Hc.
  - unfold disjoint_regions, region_of, sizeof_process, cpu_current_process in *. cbn [fst snd] in *.
    change (s_fs s') with (s_fs s). rewrite insert_mem_load64 by lia. exact Hcur.
  - cbn [chain fmap list_fmap fst]. change (current + process_next) with (current + 8). rewrite Hnc. split; [done|].
    destruct queue as [|pc queue]; cbn [chain fmap list_fmap successor] in *;
      change (p + process_next) with (p + 8); rewrite Hnp; [done|]. split; [done|]. destruct Hring as [_ Hring].
    apply (chain_ext (s_mem s)); [|exact Hring]. intros x Hx.
    apply (insert_mem_other _ _ _ _ _ _ _ _ Hrel Hfresh); [exact Hx|unfold process_next; lia].
  - constructor.
    + cbn [fst snd]. apply insert_mem_saved; [by left|]. right. by symmetry.
    + rewrite list.Forall_forall in Hsaved |- *. intros pc Hin. rewrite <- (Hsaved pc Hin).
      assert (pc.1 ∈ queue.*1) as Hin1 by (by apply list_elem_of_fmap_2).
      apply insert_mem_saved; right; [by apply Hpq|].
      by apply (rel_queue_disjoint _ _ _ _ _ Hrel).
  - generalize (fresh_all_disjoint _ _ _ _ Hfresh Hdis). apply all_disjoint_perm.
    do 2 apply perm_skip. apply perm_swap.
  - apply list.Forall_cons in Hrange as [H1 H2]. constructor; [done|]. constructor; [done|exact H2].
Qed.

(** Inserting a process puts it at the front of the queue with the context in its structure and
    enables interrupts again. No back link of a waiting process changes: the [previous] pointer of the
    successor still leads to the running process. *)
Theorem insert_process_spec stack s current queue p :
  sched_rel stack s current queue → current ≠ 0 → fresh_process stack s (current :: queue.*1) p →
  ∃ s', insert_process (s_fs s) p s = Ok (tt, s') ∧
    sched_rel stack s' current ((p, saved_context (s_mem s) p) :: queue) ∧ s_interrupts s' = true ∧
    ∀ q, q ∈ queue.*1 → load64 (s_mem s') (q + process_previous) = load64 (s_mem s) (q + process_previous).
Proof.
  intros Hrel Hne Hfresh. eexists. split; [apply (insert_run _ _ current (successor current queue))|].
  - apply (rel_current _ _ _ _ Hrel).
  - done.
  - pose proof (rel_ring _ _ _ _ Hrel) as Hring.
    by destruct queue as [|pc queue]; cbn in Hring; [|destruct Hring].
  - destruct (insert_related stack s current queue p _ Hrel Hfresh eq_refl) as [H1 H2]. auto.
Qed.
End Scheduler.

(** ** Two processes

    The [struct cpu] is at 0x1000, the running process at 0x2000, a waiting
    one at 0x3000 with the instruction pointer 77, and the interrupt stack at
    0x4000. *)

Definition two_processes : cpu_state unit :=
  CpuState (KState
    (store64 (store64 (store64 (store64 (store64 ∅ 0x1000 0x1000) 0x1028 0x2000)
      0x2008 0x3000) 0x3008 0x2000) 0x3050 77) tt 0 0 [])
    0x1000 0 true 2 1 0 [].

Definition idle_context : context := Context_ 0 0 0 (replicate 11 0).
Definition waiting_context : context := Context_ 0 77 0 (replicate 11 0).

Lemma two_processes_rel : sched_rel 0x4000 two_processes 0x2000 [(0x3000, waiting_context)].
Proof.
  split; [by vm_compute|by vm_compute|by vm_compute|..].
  - constructor; [by vm_compute|constructor].
  - cbn. unfold disjoint_regions, region_of, sizeof_frame, sizeof_process.
    repeat (constructor || split); cbn; lia.
  - constructor; [lia|]. constructor; [cbn; lia|constructor].
Qed.

Definition after_tick (s : cpu_state unit) : cpu_state unit :=
  match scheduler_handle_interrupt 0x4000 s with Ok (_, s') => s' | _ => s end.

Lemma scheduler_handle_interrupt_refines_witness :
  ∃ s', scheduler_handle_interrupt 0x4000 two_processes = Ok (tt, s') ∧
    sched_rel 0x4000 s' 0x3000 [(0x2000, frame_context (s_mem two_processes) 0x4000)].
Proof.
  destruct (scheduler_handle_interrupt_refines 0x4000 two_processes 0x2000 [(0x3000, waiting_context)]
    two_processes_rel) as (s' & Hrun & Hrel & _). exists s'. split; [exact Hrun|exact Hrel].
Defined.

Lemma two_processes_timeline :
  timeline 0x4000 [0x2000; 0x3000] two_processes [idle_context; waiting_context]
    [(0x3000, waiting_context); (0x2000, idle_context)] (after_tick (after_tick two_processes)).
Proof.
  apply (timeline_tick _ _ _ two_processes (after_tick two_processes));
    [by split|by vm_compute|by vm_compute|by vm_compute|by vm_compute|].
  apply (timeline_tick _ _ _ (after_tick two_processes) (after_tick (after_tick two_processes)));
    [by split|by vm_compute|by vm_compute|by vm_compute|by vm_compute|].
  apply timeline_nil.
Qed.

Lemma scheduler_full_turn_witness :
  [(0x3000, waiting_context); (0x2000, idle_context)] =
  [(0x3000, waiting_context)] ++ [(0x2000, idle_context)].
Proof.
  exact (scheduler_full_turn 0x4000 two_processes (after_tick (after_tick two_processes)) 0x2000
    [(0x3000, waiting_context)] idle_context [waiting_context] _ two_processes_rel eq_refl
    two_processes_timeline).
Defined.

Lemma insert_process_spec_witness :
  ∃ s', insert_process 0x1000 0x5000 two_processes = Ok (tt, s') ∧
    sched_rel 0x4000 s' 0x2000 [(0x5000, idle_context); (0x3000, waiting_context)].
Proof.
  destruct (insert_process_spec 0x4000 two_processes 0x2000 [(0x3000, waiting_context)] 0x5000
    two_processes_rel) as (s' & Hrun & Hrel & _); [done| |].
  - split; [lia|]. unfold disjoint_regions, region_of, sizeof_frame, sizeof_process.
    repeat constructor; cbn; lia.
  - exists s'. split; [exact Hrun|exact Hrel].
Defined.
