(* ===== verification/AddressSpace.v ===== *)
(** * The address space of a process

    [cpu_initialize] and [scheduler_execute] build the same address space:
    all of physical memory identity mapped with huge pages, and the local APIC
    at [CPU_APIC_ADDRESS]. The lemmas give the result of both calls of
    [paging_map_physical_at] on an empty root table; [paging_map] finds the
    third slot of the root table free afterwards. *)

From S2P Require Import Prelude Memory Allocator Paging PagingWalk PagingStep PagingMap PagingSpec PagingFind.
From S2P Require Import Cpu CpuSpec Scheduler.

(** ** Rounding up *)

Lemma align_to_next_pow2 n k :
  0 ≤ k < 63 → 0 < n < 2 ^ 63 → align_to_next n (2 ^ k) = (n + (2 ^ k - 1)) / 2 ^ k * 2 ^ k.
Proof.
  intros Hk Hn. assert (0 < 2 ^ k) by (apply Z.pow_pos_nonneg; lia).
  assert (2 ^ k ≤ 2 ^ 62) by (apply Z.pow_le_mono_r; lia).
  unfold align_to_next. rewrite (u64_small (n - 1)) by lia.
  assert (u64 (- 2 ^ k) = 2 ^ 64 - 2 ^ k) as -> by (unfold u64; symmetry; apply (Z.mod_unique_pos _ _ (-1)); lia).
  rewrite land_mask, (Z.mod_small (n - 1)) by lia.
  assert (n + (2 ^ k - 1) = n - 1 + 1 * 2 ^ k) as -> by lia. rewrite Z.div_add by lia.
  assert ((n - 1) / 2 ^ k * 2 ^ k ≤ n - 1) by (rewrite Z.mul_comm; apply Z.mul_div_le; lia).
  assert (0 ≤ (n - 1) / 2 ^ k) by (apply Z.div_pos; lia).
  rewrite u64_small by nia. lia.
Qed.

Section AddressSpace.
Context {A : Type} {PA : PageAllocator A} {PAL : PageAllocatorLaws A}.
Implicit Types (k : kstate A) (s : cpu_state A) (T : tree).

(** ** An empty root table *)

Definition empty_root (m : mem) (root : Z) : Prop := ∀ i, 0 ≤ i < 512 → load64 m (root + 8 * i) = 0.

Lemma empty_root_walk m root x : empty_root m root → walk 4 m root x = None.
Proof. intros H. apply empty_slot_walk, H, idx_range. Qed.

Lemma empty_root_vacant l m root x : (1 ≤ l ≤ 3)%nat → empty_root m root → vacant l m root x.
Proof. intros Hl H. apply empty_slot_vacant; [done|]. apply H, idx_range. Qed.

Lemma root_table_ok k root :
  pa_inv (k_alloc k) → pa_used (k_alloc k) 0 → 0 < root < 2 ^ 52 → root mod 2 ^ 12 = 0 →
  pa_used (k_alloc k) (root / 2 ^ 12) → empty_root (k_mem k) root → state_ok {[root := (4%nat, 0)]} root k.
Proof.
  intros Hinv H0 Hr Hal Hu He. constructor; [done|done|]. constructor.
  - apply lookup_singleton_eq.
  - intros t l p [<- [= <- <-]]%lookup_singleton_Some. split_and!; (done || lia).
  - intros t l p i [<- [= <- <-]]%lookup_singleton_Some Hi. left. by apply He.
Qed.

(** ** What a change of the tables leaves alone *)

Record extends (n : Z) T k T' k' : Prop := Extends {
  ext_sub : T ⊆ T';
  ext_used : ∀ q, pa_used (k_alloc k) q → pa_used (k_alloc k') q;
  ext_avail : pa_avail (k_alloc k) - n ≤ pa_avail (k_alloc k');
  ext_frame : ∀ b, pa_used (k_alloc k) (b / 2 ^ 12) → T !! (b / 2 ^ 12 * 2 ^ 12) = None →
    load8 (k_mem k') b = load8 (k_mem k) b;
  ext_fresh : ∀ t, pa_used (k_alloc k) (t / 2 ^ 12) → T !! t = None → T' !! t = None;
  ext_huge : hugepages_supported k' = hugepages_supported k
}.

Lemma extends_grows n T k T' k' u : grows n T k T' k' → extends n T k T' (set_used u k').
Proof. by intros []. Qed.

Lemma extends_refl T k : extends 0 T k T k.
Proof. constructor; (done || lia). Qed.

Lemma extends_log n T k T' k' c : extends n T k T' k' → extends n T k T' (add_log c k').
Proof. by intros []. Qed.

Lemma extends_trans n1 n2 T1 k1 T2 k2 T3 k3 :
  extends n1 T1 k1 T2 k2 → extends n2 T2 k2 T3 k3 → extends (n1 + n2) T1 k1 T3 k3.
Proof.
  intros [H1 H2 H3 H4 H5 H6] [K1 K2 K3 K4 K5 K6]. constructor; [by etrans|auto|lia| |auto|congruence].
  intros b Hb HT. rewrite K4; [by apply H4|by apply H2|]. apply H5; [by rewrite Z.div_mul by lia|done].
Qed.

Lemma state_ok_log T root c k : state_ok T root k → state_ok T root (add_log c k).
Proof. by intros []. Qed.

(** ** The identity map *)

(** Physical memory below [len] is identity mapped, nothing else is mapped,
    and only the first slot of the root table is taken. *)
Record identity_space (root len : Z) T k : Prop := IdentitySpace {
  id_ok : state_ok T root k;
  id_low : ∀ x, 0 ≤ x < len → translate (k_mem k) root x = x;
  id_out : ∀ x, len ≤ x < 2 ^ 48 → walk 4 (k_mem k) root x = None;
  id_leaf : ∃ r, walk 4 (k_mem k) root 0 = Some r;
  id_slots : ∀ j, 1 ≤ j < 512 → load64 (k_mem k) (root + 8 * j) = 0
}.

Definition identity_flags (huge : bool) : Z :=
  Z.lor (Z.lor (if huge then PAGING_FLAG_1GB else PAGING_FLAG_2MB) PAGING_FLAG_READ) PAGING_FLAG_WRITE.

(** From the range lemmas of [PagingMap]. *)
Lemma identity_of_range l root len n g T T' k k' u :
  (1 ≤ l ≤ 3)%nat → empty_root (k_mem k) root → state_ok T' root k' → len = n * 2 ^ lsh l → 0 < n → len < 2 ^ 39 →
  0 ≤ g < 2 ^ 12 → maps_range l root 0 0 n g k k' → identity_space root len T' (set_used u k').
Proof.
  intros Hl He Hs' Hlen Hn Hmax Hg Hm. pose proof (pow_lsh_pos l). constructor.
  - by apply state_ok_set_used.
  - intros x Hx. replace x with (0 + (x - 0)) at 2 by lia.
    apply (maps_range_translate l root 0 0 n g k k' Hl Hm Hg); (done || lia).
  - intros x Hx. cbn [k_mem set_used].
    rewrite (mr_out _ _ _ _ _ _ _ _ Hm) by lia. by apply empty_root_walk.
  - eexists. apply (mr_in _ _ _ _ _ _ _ _ Hm). nia.
  - intros j Hj. cbn [k_mem set_used]. rewrite (mr_roots _ _ _ _ _ _ _ _ Hm j) by
      (lia || (intros (x & Hx & ->); unfold idx in Hj; rewrite vpn_small in Hj by lia; change (lsh 4) with 39 in Hj;
       rewrite Z.div_small in Hj by lia; change (0 mod 512) with 0 in Hj; lia)).
    apply He. lia.
Qed.

Lemma map_identity T k c (huge : bool) len n :
  let l := if huge then 3%nat else 2%nat in
  state_ok T (level4_table c) k → empty_root (k_mem k) (level4_table c) →
  (huge = true → hugepages_supported k ≠ 0) →
  len = n * 2 ^ lsh l → 0 < n → len < 2 ^ 39 → 2 * n + 2 ≤ pa_avail (k_alloc k) →
  ∃ k' T', paging_map_physical_at c 0 0 len (identity_flags huge) k = Ok (0, k') ∧
    identity_space (level4_table c) len T' k' ∧ extends (2 * n + 2) T k T' k'.
Proof.
  intros l Hs He Hhuge Hlen Hn Hmax Hav. pose proof (paging_convert_flags_range (identity_flags huge)) as Hf.
  destruct huge; cbv [l] in Hlen.
  - change (lsh 3) with 30 in Hlen.
    destruct (map_physical_at_1gb T (level4_table c) k c 0 0 len (identity_flags true) n) as (k' & T' & Hr & Hs' & Hg & Hm);
      [exact Hs|reflexivity|by apply Hhuge|split; by vm_compute|reflexivity|lia|subst len; divmod_lia|lia|reflexivity
      |rewrite Z.mod_0_l by lia; lia|lia|lia|reflexivity|lia|apply empty_root_vacant; [lia|done]|lia|].
    eexists _, T'. split; [exact Hr|]. split.
    + refine (identity_of_range 3 _ len n _ T T' k k' _ ltac:(lia) He Hs' Hlen Hn Hmax _ Hm). lia.
    + pose proof (extends_grows _ _ _ _ _ (u64 (used_virtual_pages k + n * 512 * 512)) Hg) as [? ? ? ? ? ?].
      constructor; (assumption || lia).
  - change (lsh 2) with 21 in Hlen.
    destruct (map_physical_at_2mb T (level4_table c) k c 0 0 len (identity_flags false) n) as (k' & T' & Hr & Hs' & Hg & Hm);
      [exact Hs|reflexivity|split; by vm_compute|reflexivity|reflexivity|lia|subst len; divmod_lia|lia|reflexivity
      |lia|lia|reflexivity|lia|apply empty_root_vacant; [lia|done]|intros x _ l' e; by rewrite empty_root_walk|lia|].
    eexists _, T'. split; [exact Hr|]. split.
    + refine (identity_of_range 2 _ len n _ T T' k k' _ ltac:(lia) He Hs' Hlen Hn Hmax _ Hm). lia.
    + by apply extends_grows.
Qed.

(** ** The local APIC *)

(** The identity map, one page for the local APIC, and the slots of the root
    table from 2 on still free. *)
Record address_space (root len apic : Z) T k : Prop := AddressSpaceOk {
  space_ok : state_ok T root k;
  space_low : ∀ x, 0 ≤ x < len → translate (k_mem k) root x = x;
  space_apic : ∀ x, 0 ≤ x < 4096 → translate (k_mem k) root (CPU_APIC_ADDRESS + x) = apic + x;
  space_out : ∀ x, len ≤ x < 2 ^ 48 → ¬ (CPU_APIC_ADDRESS ≤ x < CPU_APIC_ADDRESS + 4096) →
    walk 4 (k_mem k) root x = None;
  space_taken : ∀ j, 0 ≤ j < 2 → load64 (k_mem k) (root + 8 * j) ≠ 0;
  space_free : ∀ j, 2 ≤ j < 512 → load64 (k_mem k) (root + 8 * j) = 0
}.

Definition apic_flags : Z := Z.lor PAGING_FLAG_WRITE PAGING_FLAG_READ.

Lemma walk_slot m root x r : walk 4 m root x = Some r → load64 m (root + 8 * idx 4 x) ≠ 0.
Proof. intros H Hz. by rewrite empty_slot_walk in H. Qed.

Lemma idx4_small x : 0 ≤ x < 2 ^ 48 → idx 4 x = x / 2 ^ 39.
Proof. intros Hx. unfold idx. rewrite vpn_small by lia. change (lsh 4) with 39. rewrite Z.mod_small; [done|divmod_lia]. Qed.

Lemma map_apic T k c len apic :
  identity_space (level4_table c) len T k → 0 < len < 2 ^ 39 →
  0 ≤ apic → apic mod 2 ^ 12 = 0 → apic + 2 ^ 12 ≤ 2 ^ 52 → 6 ≤ pa_avail (k_alloc k) →
  ∃ k' T', paging_map_physical_at c apic CPU_APIC_ADDRESS sizeof_apic apic_flags k = Ok (CPU_APIC_ADDRESS, k') ∧
    address_space (level4_table c) len apic T' k' ∧ extends 6 T k T' k'.
Proof.
  intros [Hs Hlow Hout [r Hr0] Hslots] Hlen Hapic Hal Hend Hav.
  assert (map_request 1 CPU_APIC_ADDRESS apic sizeof_apic apic_flags 1) as Hreq.
  { constructor; [split; by vm_compute|reflexivity|reflexivity|split; [by vm_compute|by split]|].
    change (lsh 1) with 12. lia. }
  assert (∀ x, CPU_APIC_ADDRESS ≤ x ≤ CPU_APIC_ADDRESS + 4096 → walk 4 (k_mem k) (level4_table c) x = None) as Hfree.
  { unfold CPU_APIC_ADDRESS. intros x Hx. apply Hout. lia. }
  destruct (mapped_4kb T k c apic CPU_APIC_ADDRESS sizeof_apic apic_flags 1 Hs Hreq) as (k' & T' & Hrun & Hs' & Hg & Hm);
    [reflexivity|reflexivity|left; by vm_compute|apply Hfree; unfold CPU_APIC_ADDRESS; lia| |lia|].
  { intros x Hx l' e. rewrite Hfree; [done|lia]. }
  pose proof (paging_convert_flags_range apic_flags) as Hf.
  assert (∀ j, 0 ≤ j < 512 → j ≠ 1 → load64 (k_mem k') (level4_table c + 8 * j) = load64 (k_mem k) (level4_table c + 8 * j)) as Hk.
  { intros j Hj Hne. apply (mr_roots _ _ _ _ _ _ _ _ Hm j Hj). intros (x & Hx & ->). apply Hne.
    change (lsh 1) with 12 in Hx. unfold CPU_APIC_ADDRESS in Hx. rewrite idx4_small by lia. divmod_lia. }
  eexists _, T'. split; [exact Hrun|]. split; [|by apply extends_grows]. constructor.
  - by apply state_ok_set_used.
  - intros x Hx. cbn [k_mem set_used]. rewrite <- (Hlow x Hx) at 2. unfold translate.
    rewrite (mr_out _ _ _ _ _ _ _ _ Hm); [done|lia|]. unfold CPU_APIC_ADDRESS. lia.
  - intros x Hx. cbn [k_mem set_used]. replace (apic + x) with (apic + (CPU_APIC_ADDRESS + x - CPU_APIC_ADDRESS)) by lia.
    apply (maps_range_translate 1 (level4_table c) CPU_APIC_ADDRESS apic 1 _ k k' ltac:(lia) Hm);
      change (lsh 1) with 12; unfold CPU_APIC_ADDRESS; (done || lia).
  - intros x Hx Hn. cbn [k_mem set_used]. rewrite (mr_out _ _ _ _ _ _ _ _ Hm); [by apply Hout|lia|].
    change (lsh 1) with 12. lia.
  - intros j Hj. cbn [k_mem set_used]. destruct (decide (j = 0)) as [->|].
    + rewrite Hk by lia. apply (walk_slot _ _ 0 _ Hr0).
    + replace j with (idx 4 CPU_APIC_ADDRESS) by (change (idx 4 CPU_APIC_ADDRESS) with 1; lia).
      eapply walk_slot. apply (mr_in _ _ _ _ _ _ _ _ Hm). change (lsh 1) with 12. lia.
  - intros j Hj. cbn [k_mem set_used]. rewrite Hk by lia. apply Hslots. lia.
Qed.

(** ** A context in memory *)

Lemma load_context_ext a m m' :
  (∀ x, a ≤ x < a + 40 → load8 m' x = load8 m x) → load_context a m' = load_context a m.
Proof.
  intros H. unfold load_context, load64, load16.
  rewrite !(load_ext _ m' m) by (intros; apply H; lia). done.
Qed.

Lemma store_context_out a c m x : ¬ (a ≤ x < a + 40) → load8 (store_context a c m) x = load8 m x.
Proof. intros Hx. unfold store_context, store64. by rewrite !load8_store_out by lia. Qed.

(** A context written to memory reads back. *)
Lemma load_store_context a c m :
  Forall (λ v, 0 ≤ v < 2 ^ 64) [level4_table c; level3_table c; level2_table c; level1_table c] →
  Forall (λ v, 0 ≤ v < 2 ^ 16) [level4_index c; level3_index c; level2_index c; level1_index c] →
  load_context a (store_context a c m) = c.
Proof.
  rewrite !list.Forall_cons. intros (H4 & H3 & H2 & H1 & _) (I4 & I3 & I2 & I1 & _).
  destruct c as [t4 t3 t2 t1 i4 i3 i2 i1]. unfold load_context, store_context, load64, load16, store64.
  ctx_simpl. cbn [level4_table level3_table level2_table level1_table level4_index level3_index level2_index level1_index] in *.
  f_equal.
  all: repeat (rewrite load_store_ne by lia); rewrite load_store_eq; apply Z.mod_small; lia.
Qed.

(** The context at [a] belongs to [root]; no search has started in it. The
    page it is on is in use and not one of the tables. *)
Record context_cell s T (a root : Z) : Prop := ContextCell {
  cell_load : load_context a (s_mem s) = new_index root;
  cell_used : pa_used (s_alloc s) (a / 2 ^ 12);
  cell_page : a mod 2 ^ 12 + 40 ≤ 2 ^ 12;
  cell_tree : T !! (a / 2 ^ 12 * 2 ^ 12) = None
}.

Lemma cell_kept s T a root n T' k' :
  context_cell s T a root → extends n T (s_kernel s) T' k' → context_cell (with_kernel k' s) T' a root.
Proof.
  intros [Hl Hu Hp HT] [_ E2 _ E4 E5 _]. constructor; [|by apply E2|done|].
  - rewrite <- Hl. apply load_context_ext. intros x Hx. change (load8 (k_mem k') x = load8 (k_mem (s_kernel s)) x).
    assert (x / 2 ^ 12 = a / 2 ^ 12) as E by divmod_lia. apply E4; by rewrite E.
  - apply E5; [|done]. by rewrite Z.div_mul by lia.
Qed.

Lemma map_physical_at_run s a pa va bytes flags r k' :
  paging_map_physical_at (load_context a (s_mem s)) pa va bytes flags (s_kernel s) = Ok (r, k') →
  map_physical_at a pa va bytes flags s = Ok (r, with_kernel k' s).
Proof. intros H. unfold map_physical_at. cstep. unfold kernel. by rewrite H. Qed.

(** The length of the identity map. *)
Definition identity_length s : Z :=
  align_to_next (max_memory_address s) (if truthy (paging_get_hugepages_supported (s_kernel s)) then 0x40000000 else 0x200000).

Definition identity_huge s : bool := truthy (paging_get_hugepages_supported (s_kernel s)).

Definition identity_level s : nat := if identity_huge s then 3 else 2.

Lemma identity_length_pages s : 0 < max_memory_address s < 2 ^ 39 →
  ∃ n, identity_length s = n * 2 ^ lsh (identity_level s) ∧ 0 < n ∧ n ≤ identity_length s / 2 ^ 21 ∧
    max_memory_address s ≤ identity_length s.
Proof.
  intros Hmax. unfold identity_length, identity_level. fold (identity_huge s).
  set (m := max_memory_address s) in *. clearbody m.
  destruct (identity_huge s).
  - change 0x40000000 with (2 ^ 30). change (lsh 3) with 30. rewrite align_to_next_pow2 by lia.
    exists ((m + (2 ^ 30 - 1)) / 2 ^ 30). split_and!; [done|divmod_lia|divmod_lia|divmod_lia].
  - change 0x200000 with (2 ^ 21). change (lsh 2) with 21. rewrite align_to_next_pow2 by lia.
    exists ((m + (2 ^ 21 - 1)) / 2 ^ 21). split_and!; [done|divmod_lia|divmod_lia|divmod_lia].
Qed.

Lemma identity_map_run s T a root :
  state_ok T root (s_kernel s) → empty_root (s_mem s) root → context_cell s T a root →
  0 < max_memory_address s < 2 ^ 39 → identity_length s < 2 ^ 39 →
  2 * (identity_length s / 2 ^ 21) + 2 ≤ pa_avail (s_alloc s) →
  ∃ k' T', identity_map a s = Ok (tt, with_kernel k' s) ∧ identity_space root (identity_length s) T' k' ∧
    extends (2 * (identity_length s / 2 ^ 21) + 2) T (s_kernel s) T' k'.
Proof.
  intros Hs He Hc Hmax Hlen Hav. destruct (identity_length_pages s Hmax) as (n & Hn & Hn0 & Hn21 & _).
  assert (level4_table (load_context a (s_mem s)) = root) as Hroot by (by rewrite (cell_load _ _ _ _ Hc)).
  assert (∀ c, ∃ k' T', paging_map_physical_at (load_context a (s_mem s)) 0 0 (identity_length s)
      (identity_flags (identity_huge s)) (add_log c (s_kernel s)) = Ok (0, k') ∧
    identity_space root (identity_length s) T' k' ∧ extends (2 * n + 2) T (add_log c (s_kernel s)) T' k') as Hmap.
  { intros c. rewrite <- Hroot in Hs, He |- *.
    apply (map_identity T (add_log c (s_kernel s)) _ (identity_huge s) (identity_length s) n);
      [by apply state_ok_log|exact He| |exact Hn|exact Hn0|exact Hlen|change (2 * n + 2 ≤ pa_avail (s_alloc s)); lia].
    unfold identity_huge, paging_get_hugepages_supported. intros Hh Hz. cbn [add_log hugepages_supported] in Hz.
    by rewrite Hz in Hh. }
  unfold identity_map. cstep. fold (identity_huge s).
  destruct (identity_huge s) eqn:E; cstep.
  all: match goal with |- context [align_to_next ?l ?m] =>
    replace (align_to_next l m) with (identity_length s) by (unfold identity_length; fold (identity_huge s); by rewrite E) end.
  all: match goal with |- context [logged ?c ?s0] => destruct (Hmap c) as (k' & T' & Hr & Hid & Hext);
    apply (map_physical_at_run (logged c s0) a) in Hr end.
  all: erewrite bind_ok by exact Hr.
  all: exists (add_log (CPrint ("[paging] done" +:+ nl)) k'), T'; split; [reflexivity|].
  all: split; [destruct Hid; constructor; (assumption || by apply state_ok_log)|].
  all: destruct Hext as [H1 H2 H3 H4 H5 H6]; constructor; try assumption; cbn [k_alloc add_log] in *; 
    unfold s_alloc in *; lia.
Qed.

(** ** The context of a new address space *)

Lemma u64_table root : 0 < root < 2 ^ 52 → Forall (λ v, 0 ≤ v < 2 ^ 64) [root; 0; 0; 0].
Proof. intros H. by repeat (apply list.Forall_cons; split; [lia|]). Qed.

(** What a step of the set-up leaves alone outside the 40 bytes of the context at [a]. *)
Record keeps (n a : Z) T k T' k' : Prop := Keeps {
  kept_used : ∀ q, pa_used (k_alloc k) q → pa_used (k_alloc k') q;
  kept_avail : pa_avail (k_alloc k) - n ≤ pa_avail (k_alloc k');
  kept_frame : ∀ b, pa_used (k_alloc k) (b / 2 ^ 12) → T !! (b / 2 ^ 12 * 2 ^ 12) = None →
    ¬ (a ≤ b < a + 40) → load8 (k_mem k') b = load8 (k_mem k) b;
  kept_fresh : ∀ t, pa_used (k_alloc k) (t / 2 ^ 12) → T !! t = None → T' !! t = None;
  kept_huge : hugepages_supported k' = hugepages_supported k
}.

Lemma extends_keeps n a T k T' k' : extends n T k T' k' → keeps n a T k T' k'.
Proof. intros []. by constructor; auto. Qed.

Lemma new_context_run s a :
  pa_inv (s_alloc s) → pa_used (s_alloc s) 0 → pa_used (s_alloc s) (a / 2 ^ 12) →
  a mod 2 ^ 12 + 40 ≤ 2 ^ 12 → 0 < pa_avail (s_alloc s) →
  ∃ root k', let T := {[root := (4%nat, 0)]} in
    new_paging_context a s = Ok (tt, with_kernel k' s) ∧ state_ok T root k' ∧ empty_root (k_mem k') root ∧
    context_cell (with_kernel k' s) T a root ∧ ¬ pa_used (s_alloc s) (root / 2 ^ 12) ∧
    keeps 1 a ∅ (s_kernel s) T k'.
Proof.
  intros Hinv H0 Hu Hp Hav.
  destruct (alloc_step (s_kernel s) Hinv H0 Hav) as (p & al & Hrun & Hinv' & Hav' & Hpr & Hn & Hu' & Hm).
  set (root := p * 2 ^ 12) in *. assert (root / 2 ^ 12 = p) as Hrp by (unfold root; apply Z.div_mul; lia).
  assert (root mod 2 ^ 12 = 0) as Hrm by (unfold root; apply Z.mod_mul; lia).
  assert (0 < root < 2 ^ 52) as Hr by (unfold root; lia).
  assert (a / 2 ^ 12 ≠ p) as Hap by (intros E; apply Hn; by rewrite <- E).
  assert (a + 40 ≤ root ∨ root + 4096 ≤ a) as Hapart by (unfold root; divmod_lia).
  set (f := λ m, store_context a (new_index root) (memory_zero (store64 m a root) root 4096)).
  exists root, (set_mem f (set_alloc al (s_kernel s))). cbv zeta.
  assert (∀ m, empty_root (f m) root) as Hempty.
  { intros m i Hi. apply load_zero. intros x Hx. unfold f.
    rewrite store_context_out by lia. rewrite load8_memory_zero by lia. apply decide_True. lia. }
  assert (∀ m x, ¬ (a ≤ x < a + 40) → ¬ (root ≤ x < root + 4096) → load8 (f m) x = load8 m x) as Hf.
  { intros m x H1 H2. unfold f, store64. rewrite store_context_out by lia.
    rewrite load8_memory_zero, decide_False by lia. apply load8_store_out. lia. }
  split.
  { unfold new_paging_context, kernel. rewrite (bind_ok _ _ s root (with_kernel (set_alloc al (s_kernel s)) s))
      by (by rewrite Hrun). cstep. reflexivity. }
  split; [|split; [apply Hempty|split; [|split]]].
  - apply root_table_ok; [done|by apply Hm|done|done|by rewrite Hrp|apply Hempty].
  - constructor; [|by apply Hm|done|].
    + apply (load_store_context a (new_index root)); [by apply u64_table|].
      by repeat (apply list.Forall_cons; split; [split; [done|by vm_compute]|]).
    + apply lookup_singleton_None. unfold root. lia.
  - by rewrite Hrp.
  - constructor; [by apply Hm|change (pa_avail (k_alloc (s_kernel s)) - 1 ≤ pa_avail al); lia| | |done].
    2: { intros t Ht _. apply lookup_singleton_None. intros <-. apply Hn. by rewrite <- Hrp. }
    intros b Hb _ Hab. apply Hf; [done|]. intros Hbr. apply Hn.
    replace p with (b / 2 ^ 12); [done|]. unfold root in Hbr. divmod_lia.
Qed.

(** ** The local APIC on the level of the CPU *)

Lemma apic_map_run s T a root len apic :
  identity_space root len T (s_kernel s) → context_cell s T a root → 0 < len < 2 ^ 39 →
  0 ≤ apic → apic mod 2 ^ 12 = 0 → apic + 2 ^ 12 ≤ 2 ^ 52 → 6 ≤ pa_avail (s_alloc s) →
  ∃ k' T', map_physical_at a apic CPU_APIC_ADDRESS sizeof_apic apic_flags s = Ok (CPU_APIC_ADDRESS, with_kernel k' s) ∧
    address_space root len apic T' k' ∧ extends 6 T (s_kernel s) T' k'.
Proof.
  intros Hid Hc Hlen H1 H2 H3 Hav.
  assert (level4_table (load_context a (s_mem s)) = root) as Hroot by (by rewrite (cell_load _ _ _ _ Hc)).
  rewrite <- Hroot in Hid |- *.
  destruct (map_apic T (s_kernel s) _ len apic Hid Hlen H1 H2 H3 Hav) as (k' & T' & Hr & Ha & He).
  exists k', T'. split; [|by split]. by apply map_physical_at_run.
Qed.
End AddressSpace.
