(* ===== verification/ProcessSpace.v ===== *)
(** * The stack of a process, and new processes

    After the identity map and the local APIC, [paging_map] gives a process
    its stack: eight new pages at 2^40, the third slot of the root table. The
    lemmas add this step to [AddressSpace] and compose the whole address space
    of a process; [scheduler_execute] builds one and puts the process into the
    queue. *)

From S2P Require Import Prelude Memory Allocator Paging PagingWalk PagingStep PagingMap PagingSpec PagingFind.
From S2P Require Import Cpu CpuSpec Scheduler AddressSpace.

(** The address [paging_map] returns for the stack. *)
Definition stack_base : Z := 2 * 2 ^ 39.

(** The address space of a process: memory below [len] identity mapped, the
    local APIC, and the pages of the stack; nothing else is mapped. *)
Record process_space (root len apic : Z) (stack : list Z) (m : mem) : Prop := ProcessSpace {
  process_low : ∀ x, 0 ≤ x < len → translate m root x = x;
  process_apic : ∀ x, 0 ≤ x < 4096 → translate m root (CPU_APIC_ADDRESS + x) = apic + x;
  process_stack : ∀ i p y, stack !! i = Some p → 0 ≤ y < 4096 →
    translate m root (stack_base + 4096 * Z.of_nat i + y) = p + y;
  process_out : ∀ x, len ≤ x < 2 ^ 48 → ¬ (CPU_APIC_ADDRESS ≤ x < CPU_APIC_ADDRESS + 4096) →
    ¬ (stack_base ≤ x < stack_base + 4096 * Z.of_nat (length stack)) → translate m root x = 0
}.

(** The physical address of the local APIC, which the interrupt handlers of
    [keyboard.c] and [main.c] write to, is not mapped when it is above memory. *)
Lemma apic_physical_unmapped root len apic stack m x :
  process_space root len apic stack m → len ≤ apic → apic + 4096 ≤ CPU_APIC_ADDRESS → 0 ≤ x < 4096 →
  0 < len → translate m root (apic + x) = 0.
Proof.
  unfold CPU_APIC_ADDRESS. intros [_ _ _ Hout] H1 H2 Hx Hl. apply Hout; unfold stack_base, CPU_APIC_ADDRESS; lia.
Qed.

(** ** Writes outside the tables *)

Lemma table_slots_kept T root m m' used :
  tables_ok T root m used →
  (∀ b, T !! (b / 2 ^ 12 * 2 ^ 12) ≠ None → load8 m' b = load8 m b) →
  ∀ t l p i, T !! t = Some (l, p) → 0 ≤ i < 512 → load64 m' (t + 8 * i) = load64 m (t + 8 * i).
Proof.
  intros Hok Hf t l p i Ht Hi. destruct (table_shape _ _ _ _ Hok _ _ _ Ht) as (_ & Ha & _).
  apply load_ext. intros b Hb. apply Hf. replace (b / 2 ^ 12 * 2 ^ 12) with t by divmod_lia. by rewrite Ht.
Qed.

Lemma tables_ok_frame T root m m' used :
  tables_ok T root m used → (∀ b, T !! (b / 2 ^ 12 * 2 ^ 12) ≠ None → load8 m' b = load8 m b) →
  tables_ok T root m' used ∧ ∀ x, walk 4 m' root x = walk 4 m root x.
Proof.
  intros Hok Hf. pose proof (table_slots_kept T root m m' used Hok Hf) as Hs. split.
  - constructor; [apply Hok|apply Hok|]. intros t l p i Ht Hi. rewrite (Hs t l p i Ht Hi). by apply (table_entries _ _ _ _ Hok).
  - intros x. apply (walk_agree Hok m' x); [|exact (root_tree Hok x)].
    intros t l Ht. apply (Hs t l _ _ Ht). apply idx_range.
Qed.

Lemma state_ok_frame {A} {PA : PageAllocator A} {PAL : PageAllocatorLaws A} T root (k : kstate A) f :
  state_ok T root k → (∀ b, T !! (b / 2 ^ 12 * 2 ^ 12) ≠ None → load8 (f (k_mem k)) b = load8 (k_mem k) b) →
  state_ok T root (set_mem f k) ∧ ∀ x, walk 4 (f (k_mem k)) root x = walk 4 (k_mem k) root x.
Proof.
  intros [H1 H2 H3] Hf. destruct (tables_ok_frame T root _ (f (k_mem k)) _ H3 Hf) as [H4 H5].
  split; [|exact H5]. by constructor.
Qed.

Section ProcessSpace.
Context {A : Type} {PA : PageAllocator A} {PAL : PageAllocatorLaws A}.
Implicit Types (k : kstate A) (s : cpu_state A) (T : tree).

Lemma resolves_unique c k x y : resolves c k x y → y = translate (k_mem k) (level4_table c) x.
Proof.
  intros (s1 & H1 & _). destruct (resolves_translate c k x) as (s2 & H2 & _). congruence.
Qed.

Lemma same_answer_translate c k k' x :
  same_answer c k k' x → translate (k_mem k') (level4_table c) x = translate (k_mem k) (level4_table c) x.
Proof. intros (y & H1%resolves_unique & H2%resolves_unique). congruence. Qed.

Lemma translate_walk m root x : walk 4 m root x = None → translate m root x = 0.
Proof. intros H. unfold translate. by rewrite H. Qed.

(** Eight new pages at the third slot, added to the address space. *)
Lemma stack_space root len apic T k k' ps c :
  level4_table c = root → 0 < len < 2 ^ 39 → address_space root len apic T k → length ps = 8%nat →
  (∀ i p y, ps !! i = Some p → 0 ≤ y < 4096 → resolves c k' (stack_base + 4096 * Z.of_nat i + y) (p + y)) →
  (∀ x, 0 ≤ x < 2 ^ 48 → ¬ (stack_base ≤ x < stack_base + 8 * 2 ^ 12) → same_answer c k k' x) →
  process_space root len apic ps (k_mem k').
Proof.
  intros <- Hlen [Hs Hlow Hapic Hout _ _] H8 Hin Hkeep.
  assert (∀ x, 0 ≤ x < 2 ^ 48 → ¬ (stack_base ≤ x < stack_base + 8 * 2 ^ 12) →
    translate (k_mem k') (level4_table c) x = translate (k_mem k) (level4_table c) x) as Ht.
  { intros x Hx Hn. by apply same_answer_translate, Hkeep. }
  constructor.
  - intros x Hx. rewrite Ht by (unfold stack_base; lia). by apply Hlow.
  - intros x Hx. rewrite Ht by (unfold stack_base, CPU_APIC_ADDRESS; lia). by apply Hapic.
  - intros i p y Hi Hy. symmetry. by apply resolves_unique, (Hin i p y).
  - intros x Hx Hn1 Hn2. rewrite H8 in Hn2. change (Z.of_nat 8) with 8 in Hn2. rewrite Ht by lia. by apply translate_walk, Hout.
Qed.

Definition stack_pages : Z := 8.

(** The page of the context is none of the tables. *)
Lemma context_outside T a b : a mod 2 ^ 12 + 40 ≤ 2 ^ 12 → T !! (a / 2 ^ 12 * 2 ^ 12) = None →
  (T : tree) !! (b / 2 ^ 12 * 2 ^ 12) ≠ None → ¬ (a ≤ b < a + 40).
Proof.
  intros Hp HT Hb Hr. apply Hb. replace (b / 2 ^ 12) with (a / 2 ^ 12); [done|]. divmod_lia.
Qed.

Lemma load64_context_root a c m : 0 ≤ level4_table c < 2 ^ 64 → load64 (store_context a c m) a = level4_table c.
Proof.
  intros H. unfold store_context, load64, store64. repeat (rewrite load_store_ne by lia).
  rewrite load_store_eq. by apply Z.mod_small.
Qed.

Lemma stack_map_run s T a root len apic flags fuel :
  address_space root len apic T (s_kernel s) → context_cell s T a root → 0 < len < 2 ^ 39 →
  0 ≤ flags < 2 ^ 16 → truthy (Z.land flags PAGING_FLAG_1GB) = false → truthy (Z.land flags PAGING_FLAG_2MB) = false →
  (512 ≤ fuel)%nat → 35 ≤ pa_avail (s_alloc s) →
  ∃ ps k' T', map_anywhere fuel a (4096 * 8) flags s = Ok (stack_base, with_kernel k' s) ∧
    state_ok T' root k' ∧ length ps = 8%nat ∧ new_pages ps (s_kernel s) T' k' ∧
    process_space root len apic ps (k_mem k') ∧ load64 (k_mem k') a = root ∧ keeps 35 a T (s_kernel s) T' k'.
Proof.
  intros Has Hc Hlen Hfl Hf1 Hf2 Hfuel Hav. pose proof Has as [Hs _ _ _ Htaken Hfree].
  destruct Hc as [Hl Hu Hp HT]. pose proof (root_in _ _ _ _ (ok_tables _ _ _ Hs)) as Hroot.
  destruct (table_shape _ _ _ _ (ok_tables _ _ _ Hs) _ _ _ Hroot) as (_ & _ & Hr & _).
  assert (first_empty_slot (new_index root) (s_kernel s) 2) as Hslot.
  { unfold first_empty_slot. cbn [new_index level4_index level4_table]. split; [lia|]. split; [lia|]. split; [apply (Hfree 2); lia|].
    intros j Hj. by apply (Htaken j Hj). }
  destruct (paging_map_run T (s_kernel s) (new_index root) stack_base (4096 * 8) flags 8 fuel)
    as (ps & c' & k1 & T1 & Hrun & Hs1 & H8 & Hnew & _ & Hav1 & Hmono & Hdata & Hsub & Hfresh & Hhuge & Hin & _ & Hkeep & Hctx);
    [exact Hs|done|done|done|lia|reflexivity|left; exists 2; by split_and!|done|exact Hav|].
  change (level4_table (new_index root)) with root in Hs1, Hctx.
  assert (length ps = 8%nat) as H8' by lia.
  assert (T1 !! (a / 2 ^ 12 * 2 ^ 12) = None) as HT1.
  { apply Hfresh; [|done]. by rewrite Z.div_mul by lia. }
  assert (∀ b, T1 !! (b / 2 ^ 12 * 2 ^ 12) ≠ None → load8 (store_context a c' (k_mem k1)) b = load8 (k_mem k1) b) as Hstore.
  { intros b Hb. apply store_context_out. by apply (context_outside T1). }
  destruct (state_ok_frame T1 root k1 _ Hs1 Hstore) as [Hs2 Hwalk].
  exists ps, (set_mem (store_context a c') k1), T1. split.
  { unfold map_anywhere. cstep. rewrite Hl. unfold kernel. unfold bind at 1. rewrite Hrun. reflexivity. }
  split; [exact Hs2|]. split; [exact H8'|]. split; [exact Hnew|]. split; [|split].
  - destruct (stack_space root len apic T _ k1 ps (new_index root) eq_refl Hlen Has H8' Hin Hkeep) as [P1 P2 P3 P4].
    assert (∀ x, translate (store_context a c' (k_mem k1)) root x = translate (k_mem k1) root x) as Ht.
    { intros x. unfold translate. by rewrite Hwalk. }
    constructor; intros; cbn [k_mem set_mem]; rewrite Ht; auto.
  - pose proof (at_root _ _ _ _ _ Hctx) as Hroot'. rewrite <- Hroot' at 1. cbn [k_mem set_mem].
    rewrite load64_context_root; lia.
  - constructor; [exact Hmono|change (pa_avail (k_alloc (s_kernel s)) - 35 ≤ pa_avail (k_alloc k1)); lia| |exact Hfresh|exact Hhuge].
    intros b Hb HTb Hab. cbn [k_mem set_mem]. rewrite store_context_out by done. by apply Hdata.
Qed.

(** ** The address space after writes outside its tables *)

Lemma identity_space_log root len T k c : identity_space root len T k → identity_space root len T (add_log c k).
Proof. intros []. constructor; (done || by apply state_ok_log). Qed.

Lemma address_space_log root len apic T k c : address_space root len apic T k → address_space root len apic T (add_log c k).
Proof. intros []. constructor; (done || by apply state_ok_log). Qed.

Section Frame.
Context (T : tree) (root len apic : Z) (f : mem → mem) (k : kstate A).
Hypothesis Hf : ∀ b, T !! (b / 2 ^ 12 * 2 ^ 12) ≠ None → load8 (f (k_mem k)) b = load8 (k_mem k) b.

Lemma translate_frame : state_ok T root k → ∀ x, translate (f (k_mem k)) root x = translate (k_mem k) root x.
Proof using Hf. intros Hs x. unfold translate. by rewrite (proj2 (state_ok_frame T root k f Hs Hf)). Qed.

Lemma root_slot_frame j : state_ok T root k → 0 ≤ j < 512 → load64 (f (k_mem k)) (root + 8 * j) = load64 (k_mem k) (root + 8 * j).
Proof using Hf.
  intros Hs Hj. pose proof (ok_tables _ _ _ Hs) as Ht.
  apply (table_slots_kept T root _ _ _ Ht Hf root 4 0 j (root_in _ _ _ _ Ht) Hj).
Qed.

Lemma identity_space_frame : identity_space root len T k → identity_space root len T (set_mem f k).
Proof using Hf.
  intros [Hs H1 H2 [r H3] H4]. destruct (state_ok_frame T root k f Hs Hf) as [Hs' Hw].
  constructor; cbn [k_mem set_mem]; [exact Hs'| | |exists r; by rewrite Hw|].
  - intros x Hx. rewrite translate_frame by done. by apply H1.
  - intros x Hx. rewrite Hw. by apply H2.
  - intros j Hj. rewrite root_slot_frame by (done || lia). by apply H4.
Qed.

Lemma address_space_frame : address_space root len apic T k → address_space root len apic T (set_mem f k).
Proof using Hf.
  intros [Hs H1 H2 H3 H4 H5]. destruct (state_ok_frame T root k f Hs Hf) as [Hs' Hw].
  constructor; cbn [k_mem set_mem]; [exact Hs'|..].
  - intros x Hx. rewrite translate_frame by done. by apply H1.
  - intros x Hx. rewrite translate_frame by done. by apply H2.
  - intros x Hx Hn. rewrite Hw. by apply H3.
  - intros j Hj. rewrite root_slot_frame by (done || lia). by apply H4.
  - intros j Hj. rewrite root_slot_frame by (done || lia). by apply H5.
Qed.

Lemma process_space_frame stack : state_ok T root k → process_space root len apic stack (k_mem k) →
  process_space root len apic stack (f (k_mem k)).
Proof using Hf.
  intros Hs [H1 H2 H3 H4]. constructor; intros; rewrite translate_frame by done; auto.
Qed.
End Frame.

(** ** The stages of the set-up

    [s0] is the state before, [p] the page of the new process with its
    context at [p + 24], and [X] the other bytes the code writes on purpose. *)

Section Stages.
Context (s0 : cpu_state A) (p : Z) (X : Z → Prop).
Hypothesis HX : ∀ b, X b → pa_used (s_alloc s0) (b / 2 ^ 12).
Hypothesis Hp : p mod 2 ^ 12 = 0.

Definition on_page (b : Z) : Prop := p ≤ b < p + 4096.

(** At most [n] pages were allocated, and the tables [T] are none of the pages in use before. *)
Record stage (n : Z) T s : Prop := Stage {
  stage_frame : ∀ b, pa_used (s_alloc s0) (b / 2 ^ 12) → ¬ on_page b → ¬ X b → load8 (s_mem s) b = load8 (s_mem s0) b;
  stage_tables : ∀ q, pa_used (s_alloc s0) q ∨ q = p / 2 ^ 12 → T !! (q * 2 ^ 12) = None;
  stage_used : ∀ q, pa_used (s_alloc s0) q ∨ q = p / 2 ^ 12 → pa_used (s_alloc s) q;
  stage_avail : pa_avail (s_alloc s0) - n ≤ pa_avail (s_alloc s);
  stage_fs : s_fs s = s_fs s0;
  stage_huge : hugepages_supported (s_kernel s) = hugepages_supported (s_kernel s0);
  stage_max : max_memory_address s = max_memory_address s0
}.

Lemma stage_weaken n n' T s : n ≤ n' → stage n T s → stage n' T s.
Proof. intros Hn []. constructor; (done || lia). Qed.

Lemma stage_keeps n n' T s T' k' :
  stage n T s → keeps n' (p + 24) T (s_kernel s) T' k' → stage (n + n') T' (with_kernel k' s).
Proof using Hp.
  intros [Hf HT Hu Hav Hfs Hh Hmax] [K1 K2 K3 K4 K5].
  constructor; [| |by eauto|change (s_alloc (with_kernel k' s)) with (k_alloc k'); unfold s_alloc in *; lia|exact Hfs|by etrans|exact Hmax].
  - intros b Hb Hnp HnX. rewrite <- (Hf b Hb Hnp HnX). apply K3; [by apply Hu; left|by apply HT; left|].
    unfold on_page in Hnp. lia.
  - intros q Hq. apply K4; [|by apply HT]. rewrite Z.div_mul by lia. by apply Hu.
Qed.

(** Writes to the page of the process and to [X]. *)
Definition own_writes (f : mem → mem) : Prop := ∀ m b, ¬ on_page b → ¬ X b → load8 (f m) b = load8 m b.

Lemma stage_write n T s f : stage n T s → own_writes f → stage n T (with_mem f s).
Proof.
  intros [Hf HT Hu Hav Hfs Hh Hmax] Hw. constructor; [|done..].
  intros b Hb Hnp HnX. rewrite <- (Hf b Hb Hnp HnX). by apply (Hw (s_mem s)).
Qed.

Lemma own_writes_tables n T s f : stage n T s → own_writes f →
  ∀ b, T !! (b / 2 ^ 12 * 2 ^ 12) ≠ None → load8 (f (s_mem s)) b = load8 (s_mem s) b.
Proof using HX Hp.
  intros Hs Hw b Hb. apply Hw.
  - intros Hon. apply Hb. apply (stage_tables _ _ _ Hs). right. unfold on_page in Hon. divmod_lia.
  - intros HXb. apply Hb. apply (stage_tables _ _ _ Hs). left. by apply HX.
Qed.

(** The context is where it was when the writes are elsewhere. *)
Lemma cell_write n T s f root : stage n T s → context_cell s T (p + 24) root →
  (∀ m b, p + 24 ≤ b < p + 64 → load8 (f m) b = load8 m b) → context_cell (with_mem f s) T (p + 24) root.
Proof.
  intros Hs [C1 C2 C3 C4] Hf. constructor; [|done..]. rewrite <- C1.
  apply load_context_ext. intros b Hb. apply (Hf (s_mem s)). lia.
Qed.

(** Messages and device writes. *)
Lemma stage_logged n T s c : stage n T s → stage n T (logged c s).
Proof. by intros []. Qed.
Lemma stage_device n T s w : stage n T s → stage n T (log_write w s).
Proof. by intros []. Qed.
Lemma cell_logged T s a c root : context_cell s T a root → context_cell (logged c s) T a root.
Proof. by intros []. Qed.

(** Words on a page in use read as before. *)
Lemma stage_load n T s w page a :
  stage n T s → pa_used (s_alloc s0) (page / 2 ^ 12) → page mod 2 ^ 12 = 0 → ¬ pa_used (s_alloc s0) (p / 2 ^ 12) →
  page ≤ a → a + Z.of_nat w ≤ page + 4096 → (∀ b, a ≤ b < a + Z.of_nat w → ¬ X b) →
  load w (s_mem s) a = load w (s_mem s0) a.
Proof using Hp.
  intros Hs Hu Hm Hn H1 H2 H3. apply load_ext. intros b Hb.
  assert (b / 2 ^ 12 = page / 2 ^ 12) as E by divmod_lia. apply (stage_frame _ _ _ Hs); [by rewrite E| |by apply H3].
  unfold on_page. intros Hon. apply Hn. by replace (p / 2 ^ 12) with (page / 2 ^ 12) by divmod_lia.
Qed.

(** ** The steps *)

(** The memory in use and the rest of the page of the process. *)
Definition own_kept s s' : Prop := ∀ b, pa_used (s_alloc s0) (b / 2 ^ 12) ∨ on_page b → ¬ (p + 24 ≤ b < p + 64) → load8 (s_mem s') b = load8 (s_mem s) b.

Lemma keeps_own n n' T s T' k' :
  stage n T s → keeps n' (p + 24) T (s_kernel s) T' k' → own_kept s (with_kernel k' s).
Proof using Hp.
  intros Hs HK b Hb Hn. assert (pa_used (s_alloc s0) (b / 2 ^ 12) ∨ b / 2 ^ 12 = p / 2 ^ 12) as E.
  { unfold on_page in Hb. destruct Hb as [|Hb]; [by left|right; divmod_lia]. }
  apply (kept_frame _ _ _ _ _ _ HK); [by apply (stage_used _ _ _ Hs)|by apply (stage_tables _ _ _ Hs)|lia].
Qed.

Lemma own_kept_used w s s' page a :
  own_kept s s' → pa_used (s_alloc s0) (page / 2 ^ 12) → page mod 2 ^ 12 = 0 → ¬ pa_used (s_alloc s0) (p / 2 ^ 12) →
  page ≤ a → a + Z.of_nat w ≤ page + 4096 → load w (s_mem s') a = load w (s_mem s) a.
Proof using Hp.
  intros HO Hu Hm Hn H1 H2. apply load_ext. intros b Hb. assert (b / 2 ^ 12 = page / 2 ^ 12) as E by divmod_lia.
  apply HO; [left; by rewrite E|]. intros Hon. apply Hn.
  by replace (p / 2 ^ 12) with (page / 2 ^ 12) by divmod_lia.
Qed.

Lemma own_kept_own w s s' o :
  own_kept s s' → 0 ≤ o → o + Z.of_nat w ≤ 24 ∨ 64 ≤ o ∧ o + Z.of_nat w ≤ 4096 →
  load w (s_mem s') (p + o) = load w (s_mem s) (p + o).
Proof. intros HO H1 H2. apply load_ext. intros b Hb. apply HO; [right; unfold on_page; lia|lia]. Qed.

Lemma stage_length n T s : stage n T s → identity_length s = identity_length s0.
Proof.
  intros Hs. unfold identity_length, paging_get_hugepages_supported.
  by rewrite (stage_huge _ _ _ Hs), (stage_max _ _ _ Hs).
Qed.

(** The state of the set-up: the context at [p + 24] is that of [root]. *)
Definition at_root_table n T root s : Prop := stage n T s ∧ context_cell s T (p + 24) root.

Lemma at_root_logged n T root s c : at_root_table n T root s → at_root_table n T root (logged c s).
Proof. intros [H1 H2]. split; [by apply stage_logged|by apply cell_logged]. Qed.

Lemma at_root_same n T root s s' :
  s_kernel s' = s_kernel s → s_fs s' = s_fs s → max_memory_address s' = max_memory_address s →
  at_root_table n T root s → at_root_table n T root s'.
Proof.
  intros Hk Hfs Hm [[H1 H2 H3 H4 H5 H6 H7] [C1 C2 C3 C4]]. unfold at_root_table, s_alloc, s_mem in *.
  split; constructor; unfold s_alloc, s_mem; rewrite ?Hk, ?Hfs, ?Hm; done.
Qed.

Lemma at_root_device n T root s w : at_root_table n T root s → at_root_table n T root (log_write w s).
Proof. by apply at_root_same. Qed.

Lemma at_root_write n T root s f :
  at_root_table n T root s → own_writes f → (∀ m b, p + 24 ≤ b < p + 64 → load8 (f m) b = load8 m b) →
  at_root_table n T root (with_mem f s).
Proof using Hp. intros [H1 H2] Hw Hf. split; [by apply stage_write|by eapply cell_write]. Qed.

Lemma context_page : (p + 24) / 2 ^ 12 = p / 2 ^ 12 ∧ (p + 24) mod 2 ^ 12 + 40 ≤ 2 ^ 12.
Proof using Hp. divmod_lia. Qed.

Lemma context_step n s :
  stage n ∅ s → pa_inv (s_alloc s) → pa_used (s_alloc s) 0 → n < pa_avail (s_alloc s0) →
  ∃ root k', let T := {[root := (4%nat, 0)]} in
    new_paging_context (p + 24) s = Ok (tt, with_kernel k' s) ∧ state_ok T root k' ∧ empty_root (k_mem k') root ∧
    at_root_table (n + 1) T root (with_kernel k' s) ∧ ¬ pa_used (s_alloc s) (root / 2 ^ 12) ∧ own_kept s (with_kernel k' s).
Proof using Hp.
  intros Hs Hinv H0 Hn. destruct context_page as [E1 E2]. pose proof (stage_avail _ _ _ Hs) as Hav.
  destruct (new_context_run s (p + 24) Hinv H0) as (root & k' & Hr & Hok & He & Hc & Hnew & HK);
    [rewrite E1; apply (stage_used _ _ _ Hs); by right|exact E2|lia|].
  exists root, k'. cbv zeta. split; [exact Hr|]. split; [exact Hok|]. split; [exact He|].
  split; [split; [by eapply stage_keeps|exact Hc]|]. split; [exact Hnew|]. by eapply keeps_own.
Qed.

Lemma identity_step n T s root :
  at_root_table n T root s → state_ok T root (s_kernel s) → empty_root (s_mem s) root →
  let len := identity_length s0 in let n' := 2 * (len / 2 ^ 21) + 2 in
  0 < max_memory_address s0 < 2 ^ 39 → len < 2 ^ 39 → n + n' ≤ pa_avail (s_alloc s0) →
  ∃ k' T', identity_map (p + 24) s = Ok (tt, with_kernel k' s) ∧ identity_space root len T' k' ∧
    at_root_table (n + n') T' root (with_kernel k' s) ∧ own_kept s (with_kernel k' s).
Proof using Hp.
  intros [Hs Hc] Hok He len n' Hmax Hlen Hav. pose proof (stage_avail _ _ _ Hs) as Hav'.
  pose proof (stage_length _ _ _ Hs) as El. fold len in El.
  destruct (identity_map_run s T (p + 24) root Hok He Hc) as (k' & T' & Hr & Hid & Hext);
    [by rewrite (stage_max _ _ _ Hs)|by rewrite El|rewrite El; lia|].
  rewrite El in Hid, Hext. pose proof (extends_keeps _ (p + 24) _ _ _ _ Hext) as HK.
  exists k', T'. split; [exact Hr|]. split; [exact Hid|].
  split; [split; [by eapply stage_keeps|by eapply cell_kept]|by eapply keeps_own].
Qed.

Lemma apic_step n T s root len apic :
  at_root_table n T root s → identity_space root len T (s_kernel s) → 0 < len < 2 ^ 39 →
  0 ≤ apic → apic mod 2 ^ 12 = 0 → apic + 2 ^ 12 ≤ 2 ^ 52 → n + 6 ≤ pa_avail (s_alloc s0) →
  ∃ k' T', map_physical_at (p + 24) apic CPU_APIC_ADDRESS sizeof_apic apic_flags s =
      Ok (CPU_APIC_ADDRESS, with_kernel k' s) ∧
    address_space root len apic T' k' ∧ at_root_table (n + 6) T' root (with_kernel k' s) ∧ own_kept s (with_kernel k' s).
Proof using Hp.
  intros [Hs Hc] Hid Hlen H1 H2 H3 Hav. pose proof (stage_avail _ _ _ Hs) as Hav'.
  destruct (apic_map_run s T (p + 24) root len apic Hid Hc Hlen H1 H2 H3) as (k' & T' & Hr & Ha & Hext); [lia|].
  pose proof (extends_keeps _ (p + 24) _ _ _ _ Hext) as HK.
  exists k', T'. split; [exact Hr|]. split; [exact Ha|].
  split; [split; [by eapply stage_keeps|by eapply cell_kept]|by eapply keeps_own].
Qed.

Lemma stack_step n T s root len apic flags fuel :
  at_root_table n T root s → address_space root len apic T (s_kernel s) → 0 < len < 2 ^ 39 →
  0 ≤ flags < 2 ^ 16 → truthy (Z.land flags PAGING_FLAG_1GB) = false → truthy (Z.land flags PAGING_FLAG_2MB) = false →
  (512 ≤ fuel)%nat → n + 35 ≤ pa_avail (s_alloc s0) →
  ∃ ps k' T', map_anywhere fuel (p + 24) (4096 * 8) flags s = Ok (stack_base, with_kernel k' s) ∧
    state_ok T' root k' ∧ length ps = 8%nat ∧ new_pages ps (s_kernel s) T' k' ∧
    process_space root len apic ps (k_mem k') ∧ load64 (k_mem k') (p + 24) = root ∧
    stage (n + 35) T' (with_kernel k' s) ∧ own_kept s (with_kernel k' s).
Proof using Hp.
  intros [Hs Hc] Has Hlen Hfl Hf1 Hf2 Hfuel Hav. pose proof (stage_avail _ _ _ Hs) as Hav'.
  destruct (stack_map_run s T (p + 24) root len apic flags fuel Has Hc Hlen Hfl Hf1 Hf2 Hfuel)
    as (ps & k' & T' & Hr & Hok & H8 & Hnew & Hsp & Hl & HK); [lia|].
  exists ps, k', T'. do 6 (split; [done|]). split; [by eapply stage_keeps|by eapply keeps_own].
Qed.
End Stages.
End ProcessSpace.
