(* ===== verification/NewProcess.v ===== *)
(** * Creating a process

    [scheduler_execute] gives a new process its own page, its own address
    space and stack and a context that starts at the entry point, and puts it
    at the front of the queue of [SchedulerSpec]. *)

From S2P Require Import Prelude Memory Allocator Physical PhysicalSpec Paging PagingWalk PagingStep PagingMap PagingFind.
From S2P Require Import Cpu CpuSpec Machine Scheduler SchedulerSpec AddressSpace ProcessSpace.

Section NewProcess.
Context {A : Type} {PA : PageAllocator A} {PAL : PageAllocatorLaws A}.
Implicit Types (s : cpu_state A) (T : tree).

(** ** What the caller provides *)

(** The regions the scheduler reads: [struct cpu], the interrupt frame, the processes. *)
Definition scheduler_regions (stack : Z) s (current : Z) (queue : list (Z * context)) : list (Z * Z) :=
  (s_fs s, 48) :: (stack, sizeof_frame) :: (region_of <$> current :: queue.*1).

Record can_execute (stack apic : Z) s (current : Z) (queue : list (Z * context)) : Prop := CanExecute {
  can_rel : sched_rel stack s current queue;
  can_ready : cpu_ready s;
  can_current : current ≠ 0;
  can_regions : ∀ r b, r ∈ scheduler_regions stack s current queue → r.1 ≤ b < r.1 + r.2 →
    pa_used (s_alloc s) (b / 2 ^ 12);
  can_apic : load64 (s_mem s) (s_fs s + cpu_local_apic_physical) = apic;
  can_apic_page : 0 ≤ apic ∧ apic mod 2 ^ 12 = 0 ∧ apic + 2 ^ 12 ≤ 2 ^ 52;
  can_max : 0 < max_memory_address s < 2 ^ 39;
  can_length : identity_length s < 2 ^ 39;
  can_avail : 45 + 2 * (identity_length s / 2 ^ 21) ≤ pa_avail (s_alloc s);
  can_id : 0 ≤ current_process_id s < 2 ^ 64
}.

(** The context a new process starts with. *)
Definition start_context (entrypoint : Z) : context :=
  Context_ 0x246 entrypoint (stack_base + 4096 * 8) (replicate 11 0).

Definition no_other (b : Z) : Prop := False.

(** The new process [p] is complete, but not in the queue yet. *)
Record prepared (apic : Z) s (entrypoint p root : Z) (ps : list Z) T s' : Prop := Prepared {
  prep_page : 0 < p < 2 ^ 52 ∧ p mod 2 ^ 12 = 0 ∧ ¬ pa_used (s_alloc s) (p / 2 ^ 12);
  prep_stage : stage s p no_other (45 + 2 * (identity_length s / 2 ^ 21)) T s';
  prep_ok : state_ok T root (s_kernel s');
  prep_root : load64 (s_mem s') (p + process_paging_context) = root;
  prep_space : process_space root (identity_length s) apic ps (s_mem s');
  prep_stack : length ps = 8%nat ∧ NoDup ps ∧ Forall (λ q, ¬ pa_used (s_alloc s) (q / 2 ^ 12)) ps;
  prep_id : load64 (s_mem s') (p + process_id) = current_process_id s;
  prep_context : saved_context (s_mem s') p = start_context entrypoint
}.

(** ** The writes to the structure *)

Definition first_writes (p : Z) (m : mem) : mem :=
  memory_zero (store64 m (p + 72) 0x246) (p + 96) 88.

Definition last_writes (p entrypoint : Z) (m : mem) : mem :=
  store64 (store64 m (p + 88) (stack_base + 4096 * 8)) (p + 80) entrypoint.

Lemma first_writes_out p m b : ¬ (p + 72 ≤ b < p + 184) → load8 (first_writes p m) b = load8 m b.
Proof. intros H. unfold first_writes. rewrite load8_memory_zero, decide_False, load8_store64_out by lia. done. Qed.

Lemma last_writes_out p e m b : ¬ (p + 80 ≤ b < p + 96) → load8 (last_writes p e m) b = load8 m b.
Proof. intros H. unfold last_writes. by rewrite !load8_store64_out by lia. Qed.

Lemma words_zero n m a : (∀ b, a ≤ b < a + 8 * Z.of_nat n → load8 m b = 0) → words n m a = replicate n 0.
Proof.
  revert a. induction n as [|n IH]; intros a H; cbn [words replicate]; [done|]. f_equal.
  - apply (load_zero 8). intros b Hb. apply H. lia.
  - apply IH. intros b Hb. apply H. lia.
Qed.

(** The context, from the first writes over anything that keeps the structure to the last. *)
Lemma start_context_read p e m m' :
  0 ≤ e < 2 ^ 64 → (∀ b, p + 64 ≤ b < p + 184 → load8 m' b = load8 (first_writes p m) b) →
  saved_context (last_writes p e m') p = start_context e.
Proof.
  intros He H. unfold saved_context, start_context, process_saved_rflags, process_saved_instruction_pointer,
    process_saved_stack_pointer, process_saved_registers. f_equal.
  - unfold last_writes. rewrite !load64_store64_ne by lia.
    rewrite (load_ext 8 m' (first_writes p m)) by (intros b Hb; apply H; lia).
    unfold first_writes. rewrite load64_memory_zero_out by lia. by apply load64_store64_eq.
  - unfold last_writes. by apply load64_store64_eq.
  - unfold last_writes. rewrite load64_store64_ne by lia. by apply load64_store64_eq.
  - apply (words_zero 11). intros b Hb. rewrite last_writes_out, H by lia.
    unfold first_writes. rewrite load8_memory_zero by lia. apply decide_True. lia.
Qed.

#[local] Opaque load64 store64 memory_copy memory_zero.

(** ** Up to the insertion *)

(** The rest of [scheduler_execute] once the local APIC is mapped. *)
Definition finish_process (fuel : nat) (cpu process entrypoint : Z) : M (cpu_state A) unit :=
  set_field (process + process_saved_rflags) 0x246 ;;;
  modify (with_mem (λ m, memory_zero m (process + process_saved_registers) sizeof_saved_registers)) ;;;
  let! stack := map_anywhere fuel (process + process_paging_context) (4096 * 8)
    (Z.lor (Z.lor PAGING_FLAG_READ PAGING_FLAG_WRITE) PAGING_FLAG_USER) in
  set_field (process + process_saved_stack_pointer) (u64 (stack + 4096 * 8)) ;;;
  set_field (process + process_saved_instruction_pointer) entrypoint ;;;
  insert_process cpu process.

(** The new process with its identity map and its local APIC. *)
Record has_space (apic : Z) s (p root : Z) T s' : Prop := HasSpace {
  has_page : 0 < p < 2 ^ 52 ∧ p mod 2 ^ 12 = 0 ∧ ¬ pa_used (s_alloc s) (p / 2 ^ 12);
  has_stage : at_root_table s p no_other (10 + 2 * (identity_length s / 2 ^ 21)) T root s';
  has_space_ok : address_space root (identity_length s) apic T (s_kernel s');
  has_id : load64 (s_mem s') (p + process_id) = current_process_id s
}.

Lemma execute_space stack apic s current queue fuel entrypoint :
  can_execute stack apic s current queue →
  ∃ p root T k, let s' := set_process_id (u64 (current_process_id s + 1)) (with_kernel k s) in
    scheduler_execute fuel entrypoint s = finish_process fuel (s_fs s) p entrypoint s' ∧ has_space apic s p root T s'.
Proof.
  intros [Hrel Hready Hcur Hregs Hapic (Ha1 & Ha2 & Ha3) Hmax Hlen Hav Hid].
  set (len := identity_length s) in *. set (m2 := len / 2 ^ 21) in *.
  assert (0 ≤ m2 ∧ 0 < len) as [Hm2 Hlen0].
  { destruct (identity_length_pages s Hmax) as (n & _ & H1 & H2 & H3). fold len m2 in H2, H3. lia. }
  destruct (cpu_alloc_page s Hready) as (p & a & Hr0 & Hs0 & Hav0 & Hp & Hpm & Hpn & Hpu & Hmono & Hpfs); [lia|].
  set (s1 := with_mem (λ m, store64 m (p + process_id) (current_process_id s))
    (set_process_id (u64 (current_process_id s + 1)) (with_alloc a s))).
  assert (stage s p no_other 1 ∅ s1) as S1.
  { constructor; [|done| |change (pa_avail (s_alloc s) - 1 ≤ pa_avail a); lia|done..].
    - unfold on_page. intros b _ Hb _. apply load8_store64_out. unfold process_id. lia.
    - intros q [Hq| ->]; [by apply Hmono|done]. }
  unfold scheduler_execute. rewrite (bind_ok _ _ _ _ _ (get_current_run s Hready)), (bind_ok _ _ _ _ _ Hr0).
  cstep. change (current_process_id (with_alloc a s)) with (current_process_id s). fold s1.
  destruct (context_step s p no_other Hpm 1 s1 S1) as (root & k2 & Hr2 & Hok2 & He2 & A2 & Hrn & O2);
    [apply (ready_alloc _ Hs0)|apply (ready_zero _ Hs0)|lia|].
  rewrite (bind_ok _ _ _ _ _ Hr2).
  destruct (identity_step s p no_other Hpm _ _ _ root A2 Hok2 He2 Hmax Hlen) as (k3 & T3 & Hr3 & Hid3 & A3 & O3);
    [fold len m2; lia|].
  rewrite (bind_ok _ _ _ _ _ Hr3). cstep. fold len m2 in A3.
  set (s3 := with_kernel k3 (with_kernel k2 s1)) in *.
  assert (load64 (s_mem s3) (s_fs s + cpu_local_apic_physical) = apic) as ->.
  { rewrite <- Hapic. unfold cpu_local_apic_physical.
    apply (stage_load s p no_other Hpm _ T3 s3 8 (s_fs s) _ (proj1 A3) (ready_used _ Hready) (ready_aligned _ Hready) Hpn);
      [lia|lia|tauto]. }
  destruct (apic_step s p no_other Hpm _ _ _ root len apic A3 Hid3) as (k4 & T4 & Hr4 & Has4 & A4 & O4); [lia..|].
  rewrite (bind_ok _ _ _ _ _ Hr4).
  exists p, root, T4, k4. split; [reflexivity|]. constructor; [done| |exact Has4|].
  - split; [|exact (proj2 A4)]. eapply stage_weaken; [|exact (proj1 A4)]. fold len m2. lia.
  - change (load64 (k_mem k4) (p + process_id) = current_process_id s).
    transitivity (load64 (s_mem s1) (p + process_id)); [|apply load64_store64_eq; lia].
    apply (load64_same _ _ p 8); unfold process_id; [|lia..]. intros b Hb.
    assert (on_page p b) as Hon by (unfold on_page; lia).
    transitivity (load8 (s_mem s3) b); [apply (O4 b (or_intror Hon)); lia|].
    transitivity (load8 (s_mem (with_kernel k2 s1)) b); [apply (O3 b (or_intror Hon)); lia|apply (O2 b (or_intror Hon)); lia].
Qed.

Lemma finish_prepares apic s p root T s4 fuel entrypoint :
  has_space apic s p root T s4 → 0 ≤ entrypoint < 2 ^ 64 → (512 ≤ fuel)%nat → 0 < identity_length s < 2 ^ 39 →
  45 + 2 * (identity_length s / 2 ^ 21) ≤ pa_avail (s_alloc s) →
  ∃ ps T' k, finish_process fuel (s_fs s) p entrypoint s4 = insert_process (s_fs s) p (with_kernel k s4) ∧
    prepared apic s entrypoint p root ps T' (with_kernel k s4).
Proof.
  intros [(Hp & Hpm & Hpn) [S4 C4] Has4 Hid4] He Hfuel Hlen Hav.
  set (len := identity_length s) in *. set (m2 := len / 2 ^ 21) in *.
  assert (own_writes p no_other (first_writes p)) as W5.
  { unfold on_page. intros m b Hb _. apply first_writes_out. unfold on_page in Hb. lia. }
  assert (own_writes p no_other (last_writes p entrypoint)) as W7.
  { intros m b Hb _. apply last_writes_out. unfold on_page in Hb. lia. }
  assert (∀ b, no_other b → pa_used (s_alloc s) (b / 2 ^ 12)) as HX by done.
  pose proof (own_writes_tables s p no_other HX Hpm _ _ _ _ S4 W5) as F5.
  set (s5 := with_mem (first_writes p) s4).
  assert (stage s p no_other (10 + 2 * m2) T s5) as S5 by (by apply stage_write).
  assert (at_root_table s p no_other (10 + 2 * m2) T root s5) as A5.
  { split; [done|]. eapply cell_write; [exact S4|exact C4|]. intros m b Hb. apply first_writes_out. lia. }
  pose proof (address_space_frame T root len apic _ _ F5 Has4) as Has5.
  destruct (stack_step s p no_other Hpm _ T s5 root len apic
    (Z.lor (Z.lor PAGING_FLAG_READ PAGING_FLAG_WRITE) PAGING_FLAG_USER) fuel A5 Has5 Hlen)
    as (ps & k6 & T6 & Hr6 & Hok6 & H8 & Hnew & Hsp & Hroot & S6 & O6); [split; by vm_compute|done|done|done|lia|].
  pose proof (own_writes_tables s p no_other HX Hpm _ _ _ _ S6 W7) as F7.
  exists ps, T6, (set_mem (last_writes p entrypoint) k6). split.
  { unfold finish_process. cstep. rewrite (bind_ok _ _ _ _ _ Hr6). cstep. reflexivity. }
  destruct Hnew as [Hnd Hnew].
  constructor; [done| | | | | | |].
  - eapply stage_weaken; [|exact (stage_write s p no_other _ _ _ _ S6 W7)]. fold len m2. lia.
  - apply (proj1 (state_ok_frame T6 root k6 _ Hok6 F7)).
  - rewrite <- Hroot. apply (load64_same _ _ (p + 24) 8); unfold process_paging_context; [|lia..].
    intros b Hb. apply last_writes_out. lia.
  - by apply (process_space_frame T6 root len apic _ k6 F7 ps Hok6).
  - split; [done|]. split; [done|]. eapply list.Forall_impl; [exact Hnew|]. intros q (_ & _ & Hq & _) Hu.
    apply Hq. apply (stage_used _ _ _ _ _ _ S5). by left.
  - rewrite <- Hid4. apply (load64_same _ _ p 8); unfold process_id; [|lia..]. intros b Hb.
    transitivity (load8 (k_mem k6) b); [apply last_writes_out; lia|].
    transitivity (load8 (s_mem s5) b); [apply O6; [right; unfold on_page; lia|lia]|apply first_writes_out; lia].
  - apply (start_context_read p entrypoint (s_mem s4) (k_mem k6) He).
    intros b Hb. apply O6; [right; unfold on_page; lia|lia].
Qed.

(** ** The insertion *)

(** A page that was free lies apart from every region on pages in use. *)
Lemma fresh_page_regions s p l :
  p mod 2 ^ 12 = 0 → ¬ pa_used (s_alloc s) (p / 2 ^ 12) →
  (∀ r b, r ∈ l → r.1 ≤ b < r.1 + r.2 → pa_used (s_alloc s) (b / 2 ^ 12)) → Forall (λ r : Z * Z, 0 < r.2) l →
  Forall (disjoint_regions (region_of p)) l.
Proof.
  intros Hpm Hn Hl Hpos. rewrite list.Forall_forall in Hpos |- *. intros r Hr. specialize (Hpos r Hr).
  unfold disjoint_regions, region_of, sizeof_process. cbn [fst snd].
  destruct (decide (p + 184 ≤ r.1 ∨ r.1 + r.2 ≤ p)) as [|Hov]; [done|]. exfalso. apply Hn.
  replace (p / 2 ^ 12) with (Z.max r.1 p / 2 ^ 12) by divmod_lia. apply (Hl r); [done|lia].
Qed.

Lemma regions_positive stack s current queue : Forall (λ r : Z * Z, 0 < r.2) (scheduler_regions stack s current queue).
Proof.
  apply list.Forall_cons. split; [done|]. apply list.Forall_cons. split; [done|].
  apply Forall_fmap, list.Forall_forall. done.
Qed.

(** The preparations do not touch what the scheduler uses. *)
Lemma prepared_rel stack apic s current queue entrypoint p root ps T s' :
  can_execute stack apic s current queue → prepared apic s entrypoint p root ps T s' →
  sched_rel stack s' current queue ∧ fresh_process stack s' (current :: queue.*1) p.
Proof.
  intros Hcan Hprep. destruct (prep_page _ _ _ _ _ _ _ _ Hprep) as (Hp & Hpm & Hpn).
  pose proof (prep_stage _ _ _ _ _ _ _ _ Hprep) as Hst. pose proof (stage_fs _ _ _ _ _ _ Hst) as Hfs.
  pose proof (fresh_page_regions s p _ Hpm Hpn (can_regions _ _ _ _ _ Hcan) (regions_positive _ _ _ _)) as Hfresh.
  split; [|split; [lia|by rewrite Hfs]].
  apply (rel_untouched stack s s' current queue (current :: queue.*1) (can_rel _ _ _ _ _ Hcan)); [done|].
  split; [exact Hfs|]. intros q n Hq x Hx. apply (stage_frame _ _ _ _ _ _ Hst); [| |tauto].
  - apply (can_regions _ _ _ _ _ Hcan (q, n)); [|exact Hx].
    unfold scheduler_regions. apply elem_of_cons in Hq as [->|Hq]; [left|by right; right].
  - unfold on_page. intros Hon. apply Hpn. replace (p / 2 ^ 12) with (x / 2 ^ 12) by divmod_lia.
    apply (can_regions _ _ _ _ _ Hcan (q, n)); [|exact Hx].
    unfold scheduler_regions. apply elem_of_cons in Hq as [->|Hq]; [left|by right; right].
Qed.

(** What [scheduler_execute] leaves behind. *)
Record process_created (stack apic : Z) s (current : Z) (queue : list (Z * context)) (entrypoint p root : Z)
    (ps : list Z) s' : Prop := ProcessCreated {
  created_queue : sched_rel stack s' current ((p, start_context entrypoint) :: queue);
  created_page : 0 < p < 2 ^ 52 ∧ p mod 2 ^ 12 = 0 ∧ ¬ pa_used (s_alloc s) (p / 2 ^ 12);
  created_id : load64 (s_mem s') (p + process_id) = current_process_id s;
  created_root : load64 (s_mem s') (p + process_paging_context) = root;
  created_space : process_space root (identity_length s) apic ps (s_mem s');
  created_stack : length ps = 8%nat ∧ NoDup ps ∧ Forall (λ q, ¬ pa_used (s_alloc s) (q / 2 ^ 12)) ps;
  created_frame : ∀ b, pa_used (s_alloc s) (b / 2 ^ 12) → ¬ (current + process_next ≤ b < current + process_next + 8) →
    load8 (s_mem s') b = load8 (s_mem s) b
}.

(** The insertion writes to the new process and to the link of the running one. *)
Lemma insert_mem_out p current next m b :
  ¬ (p + 8 ≤ b < p + 24) → ¬ (current + 8 ≤ b < current + 16) → load8 (insert_mem p current next m) b = load8 m b.
Proof. intros H1 H2. unfold insert_mem. by rewrite !load8_store64_out by lia. Qed.

Lemma prepared_created stack apic s current queue entrypoint p root ps T s' next :
  can_execute stack apic s current queue → prepared apic s entrypoint p root ps T s' → next = successor current queue →
  process_created stack apic s current queue entrypoint p root ps
    (set_interrupts true (with_mem (insert_mem p current next) s')).
Proof.
  intros Hcan Hprep Hnext. destruct (prepared_rel _ _ _ _ _ _ _ _ _ _ _ Hcan Hprep) as [Hrel Hfresh].
  destruct Hprep as [(Hp & Hpm & Hpn) Hst Hok Hroot Hsp Hps Hid Hctx].
  destruct (insert_related stack s' current queue p next Hrel Hfresh Hnext) as [Hrel' _]. rewrite Hctx in Hrel'.
  assert (∀ b, current + 8 ≤ b < current + 16 → pa_used (s_alloc s) (b / 2 ^ 12)) as Hcurrent.
  { intros b Hb. apply (can_regions _ _ _ _ _ Hcan (region_of current));
      [right; right; left|unfold region_of, sizeof_process; cbn [fst snd]; lia]. }
  assert (∀ b, p ≤ b < p + 4096 → ¬ (current + 8 ≤ b < current + 16)) as Hapart.
  { intros b Hb Hc%Hcurrent. apply Hpn. by replace (p / 2 ^ 12) with (b / 2 ^ 12) by divmod_lia. }
  assert (∀ b, T !! (b / 2 ^ 12 * 2 ^ 12) ≠ None →
    load8 (insert_mem p current next (s_mem s')) b = load8 (s_mem s') b) as Hf.
  { intros b HT. apply insert_mem_out; intros Hb; apply HT; apply (stage_tables _ _ _ _ _ _ Hst); [right; divmod_lia|].
    left. by apply Hcurrent. }
  constructor; [exact Hrel'|done| | | |exact Hps|].
  - rewrite <- Hid. apply (load64_same _ _ p 8); unfold process_id; [|lia..].
    intros b Hb. apply insert_mem_out; [lia|apply Hapart; lia].
  - rewrite <- Hroot. apply (load64_same _ _ (p + 24) 8); unfold process_paging_context; [|lia..].
    intros b Hb. apply insert_mem_out; [lia|apply Hapart; lia].
  - by apply (process_space_frame T root (identity_length s) apic _ (s_kernel s') Hf ps Hok).
  - unfold process_next. intros b Hb Hn.
    assert (¬ on_page p b) as Hnp.
    { unfold on_page. intros Hon. apply Hpn. by replace (p / 2 ^ 12) with (b / 2 ^ 12) by divmod_lia. }
    rewrite <- (stage_frame _ _ _ _ _ _ Hst b Hb Hnp) by tauto.
    apply insert_mem_out; [unfold on_page in Hnp; lia|lia].
Qed.

(** C8. [scheduler_execute] creates a process that can run: a fresh page holds it, the next id is
    its id, and its context starts at the entry point with interrupts enabled, cleared registers and
    the top of its stack. Its own page tables identity map all of physical memory, map the local APIC
    at [CPU_APIC_ADDRESS] and the stack to eight different fresh pages at 2^40, and nothing else. It is
    first in the queue of waiting processes. Of the memory in use only the running process's link to
    its successor changes. *)
Theorem scheduler_execute_spec stack apic s current queue fuel entrypoint :
  can_execute stack apic s current queue → 0 ≤ entrypoint < 2 ^ 64 → (512 ≤ fuel)%nat →
  ∃ p root ps k, let s' := set_interrupts true (set_process_id (u64 (current_process_id s + 1)) (with_kernel k s)) in
    scheduler_execute fuel entrypoint s = Ok (tt, s') ∧ process_created stack apic s current queue entrypoint p root ps s'.
Proof.
  intros Hcan He Hfuel.
  destruct (execute_space stack apic s current queue fuel entrypoint Hcan) as (p & root & T & k1 & Hr1 & H1).
  destruct (finish_prepares apic s p root T _ fuel entrypoint H1 He Hfuel) as (ps & T' & k2 & Hr2 & H2).
  { destruct (identity_length_pages s (can_max _ _ _ _ _ Hcan)) as (n & _ & Hn & _ & Hle).
    pose proof (can_length _ _ _ _ _ Hcan). pose proof (can_max _ _ _ _ _ Hcan). lia. }
  { apply (can_avail _ _ _ _ _ Hcan). }
  destruct (prepared_rel _ _ _ _ _ _ _ _ _ _ _ Hcan H2) as [Hrel _].
  exists p, root, ps, (set_mem (insert_mem p current (successor current queue)) k2).
  split; [|exact (prepared_created _ _ _ _ _ _ _ _ _ _ _ _ Hcan H2 eq_refl)].
  rewrite Hr1, Hr2. rewrite (insert_run _ _ current (successor current queue));
    [reflexivity|apply (rel_current _ _ _ _ Hrel)|apply (can_current _ _ _ _ _ Hcan)|].
  pose proof (rel_ring _ _ _ _ Hrel) as Hring. by destruct queue as [|pc queue]; cbn in Hring; [|destruct Hring].
Qed.
End NewProcess.

(** ** One running process

    The machine of [Machine] with the running process at 0x2000, the
    interrupt stack at 0x2800 and the local APIC at 0xFEE00000; 1 GiB pages are
    not supported. *)

Definition running0 : cpu_state phys :=
  CpuState (KState (store64 (store64 (store64 (store64 ∅ 0x1000 0x1000) 0x1010 0xFEE00000) 0x1028 0x2000) 0x2008 0x2000)
    (Phys [7; 0] 0 2 3 0 []) 0 0 []) 0x1000 0x3000 true 5 1 0x80000 [].

Lemma running0_pages q : 0 ≤ q < 3 → pa_used (s_alloc running0) q.
Proof. apply cpu0_low_pages. Qed.

Lemma running0_can_execute : can_execute 0x2800 0xFEE00000 running0 0x2000 [].
Proof.
  constructor.
  - split; [by vm_compute|by vm_compute|by vm_compute|constructor| |].
    + cbn. unfold disjoint_regions, region_of, sizeof_frame, sizeof_process. repeat (constructor || split); cbn; lia.
    + constructor; [lia|constructor].
  - split; [exact cpu0_phys_inv|apply running0_pages; lia|by vm_compute| |by vm_compute].
    change (s_fs running0 / 2 ^ 12) with 1. apply running0_pages; lia.
  - done.
  - intros r b Hr Hb. apply running0_pages. unfold scheduler_regions in Hr. cbn [fmap list_fmap] in Hr.
    unfold sizeof_frame, region_of, sizeof_process in Hr. change (s_fs running0) with 0x1000 in Hr.
    repeat (apply elem_of_cons in Hr as [->|Hr]; [cbn [fst snd] in Hb; divmod_lia|]). by apply elem_of_nil in Hr.
  - by vm_compute.
  - split; [lia|]. split; [done|lia].
  - cbn. lia.
  - by vm_compute.
  - assert (pa_avail (s_alloc running0) = 61) as -> by (by vm_compute).
    assert (identity_length running0 = 2 ^ 21) as -> by (by vm_compute). done.
  - cbn. lia.
Qed.

Lemma scheduler_execute_spec_witness :
  ∃ p root ps s', scheduler_execute 512 0x101000 running0 = Ok (tt, s') ∧ current_process_id s' = 6 ∧
    process_created 0x2800 0xFEE00000 running0 0x2000 [] 0x101000 p root ps s'.
Proof.
  destruct (scheduler_execute_spec 0x2800 0xFEE00000 running0 0x2000 [] 512 0x101000 running0_can_execute)
    as (p & root & ps & k & Hr & H); [lia|lia|].
  exists p, root, ps. eexists. split; [exact Hr|]. split; [reflexivity|exact H].
Defined.
