(* ===== verification/CpuInit.v ===== *)
(** * Setting up a CPU

    Models [cpu_initialize] and the helpers of [src/src/common/cpu.c]. The
    [cpuid], [rdtsc] and [rdmsr] instructions are parameters, and so is the
    entry point that runs at the end. [CpuInitSpec] has the theorems. *)

From S2P Require Import Prelude Memory Allocator Paging Cpu Gdt Idt Scheduler.

Definition CPU_MSR_LOCAL_APIC : Z := 0x1B.
Definition CPU_MSR_FS_BASE : Z := 0xC0000100.

(** ** Time *)

(** The time stamp counter: lower and upper half. *)
Class TimestampCounter (T : Type) : Type := { rdtsc : T → (Z * Z) * T }.

Section Time.
Context {T : Type} {TC : TimestampCounter T}.

Definition cpu_timestamp : M T Z := λ t,
  let '((lower, upper), t) := rdtsc t in Ok (Z.lor lower (u64 (Z.shiftl upper 32)), t).

(** [while (current - start < ticks) current = cpu_timestamp();] *)
Fixpoint wait_loop (fuel : nat) (ticks start current : Z) : M T unit :=
  match fuel with
  | O => hang
  | S fuel' =>
      if u64 (current - start) <? ticks then
        let! current := cpu_timestamp in wait_loop fuel' ticks start current
      else ret tt
  end.

Definition cpu_wait_microsecond (fuel : nat) : M T unit :=
  let! start := cpu_timestamp in wait_loop fuel 10000 start start.

Definition cpu_wait_millisecond (fuel : nat) : M T unit :=
  let! start := cpu_timestamp in wait_loop fuel 10000000 start start.
End Time.

Section CpuInit.
Context {A : Type} {PA : PageAllocator A}.

(** The last loop never ends. *)
Definition cpu_panic {R} (message : string) : M (cpu_state A) R :=
  modify (set_interrupts false) ;;;
  print "[cpu] PANIC! " ;;;
  print message ;;;
  says CNewLine ;;;
  hang.

(** Lines 97 to 101; the result is [cpu]. *)
Definition cpu_structure : M (cpu_state A) Z :=
  let! cpu := kernel allocate_page in
  set_field (cpu + cpu_address) cpu ;;;
  let! id := gets current_cpu_id in
  modify (set_cpu_id (s32 (id + 1))) ;;;
  modify (with_mem (λ m, store 4 m (cpu + cpu_id_field) (u32 id))) ;;;
  set_field (cpu + cpu_interrupt_descriptor_table) 0 ;;;
  modify (set_fs cpu) ;;;
  ret cpu.

(** The addresses of the handlers and of the timer entry, [cpu_read_msr], and
    the id register of the local APIC. *)
Context (address_of : idt_handler → Z) (scheduler_interrupt : Z) (cpu_read_msr : Z → Z) (apic_id : Z).

(** Lines 97 to 108. *)
Definition cpu_tables : M (cpu_state A) Z :=
  let! cpu := cpu_structure in
  print ("[cpu] set up GDT" +:+ nl) ;;;
  gdt_initialize ;;;
  print ("[cpu] set up IDT" +:+ nl) ;;;
  idt_initialize address_of ;;;
  ret cpu.

(** Lines 113 to 129; the result is [dummy_process]. Lines 120 to 128 are those
    of [scheduler_execute]. *)
Definition dummy_process (cpu : Z) : M (cpu_state A) Z :=
  let! process := kernel allocate_page in
  set_field (process + process_saved_instruction_pointer) 0 ;;;
  let! stack := kernel allocate_page in
  set_field (process + process_saved_stack_pointer) (u64 (stack + 4096)) ;;;
  set_field (process + process_id) 20 ;;;
  set_field (process + process_next) process ;;;
  set_field (process + process_previous) process ;;;
  new_paging_context (process + process_paging_context) ;;;
  set_field (cpu + cpu_current_process) process ;;;
  ret process.

(** Lines 154 to 175. *)
Definition map_local_apic (cpu process : Z) : M (cpu_state A) unit :=
  print ("[cpu] mapping local APIC" +:+ nl) ;;;
  let local_apic_info := cpu_read_msr CPU_MSR_LOCAL_APIC in
  let local_apic_physical := Z.land local_apic_info 0x000ffffffffff000 in
  if negb (truthy (Z.land local_apic_info 0x800)) then
    cpu_panic ("local apic not enabled, cannot enable" +:+ nl)
  else
    set_field (cpu + cpu_local_apic_physical) local_apic_physical ;;;
    let! mapped := map_physical_at (process + process_paging_context) local_apic_physical CPU_APIC_ADDRESS
      sizeof_apic (Z.lor PAGING_FLAG_WRITE PAGING_FLAG_READ) in
    if negb (truthy mapped) then cpu_panic "could not map local apic"
    else
      print "[cpu] local_apic_physical = 0x" ;;;
      says (CPrintU64 local_apic_physical 16) ;;;
      says CNewLine.

(** Lines 110 to 179; the result is [dummy_process]. *)
Definition cpu_space (cpu : Z) : M (cpu_state A) Z :=
  print ("[cpu] set up dummy process" +:+ nl) ;;;
  let! process := dummy_process cpu in
  identity_map (process + process_paging_context) ;;;
  print ("[cpu] setting new page table" +:+ nl) ;;;
  map_local_apic cpu process ;;;
  let! current := field (cpu + cpu_current_process) in
  let! table := field (current + process_paging_context) in
  modify (set_cr3 table) ;;;
  ret process.

(** Lines 180 to 201. *)
Definition cpu_start (fuel : nat) (process : Z) : M (cpu_state A) unit :=
  print "[cpu] apic id " ;;;
  says (CPrintU64 (Z.shiftr apic_id 24) 10) ;;;
  says CNewLine ;;;
  device (SpuriousInterruptVector 0x1FF) ;;;
  print ("[cpu] allocating stack space" +:+ nl) ;;;
  let! stack := map_anywhere fuel (process + process_paging_context) (4096 * 8)
    (Z.lor PAGING_FLAG_READ PAGING_FLAG_WRITE) in
  device (LoadStackPointer (u64 (stack + 4096 * 8))) ;;;
  print ("[cpu] set up scheduler" +:+ nl) ;;;
  scheduler_initialize scheduler_interrupt ;;;
  modify (set_interrupts true).

(** Lines 96 to 201. *)
Definition cpu_setup (fuel : nat) : M (cpu_state A) unit :=
  let! cpu := cpu_tables in
  let! process := cpu_space cpu in
  cpu_start fuel process.

(** The entry point, when there is one, and the halt loop. *)
Definition cpu_initialize (fuel : nat) (entrypoint : option (M (cpu_state A) unit)) : M (cpu_state A) unit :=
  cpu_setup fuel ;;;
  match entrypoint with Some program => program | None => ret tt end ;;;
  hang.
End CpuInit.
