(* ===== verification/CpuInitSpec.v ===== *)
(** * Correctness of the set-up of a CPU

    The waiting loops end and wait long enough; the descriptor tables a CPU is
    set up with fit together. *)

From S2P Require Import Prelude Memory Bits Allocator Physical PhysicalSpec Paging PagingStep Cpu CpuSpec.
From S2P Require Import Machine Gdt GdtSpec Idt IdtSpec Scheduler CpuInit.

(** ** Time *)

(** The counter is 64 bits of a count that grows with every reading, by less
    than it takes to wrap around. *)
Class TimestampLaws (T : Type) {TC : TimestampCounter T} : Type := {
  ticks : T → Z;
  ticks_nonneg : ∀ t, 0 ≤ ticks t;
  ticks_read : ∀ t, ∃ lower upper t', rdtsc t = ((lower, upper), t') ∧
    0 ≤ lower < 2 ^ 32 ∧ 0 ≤ upper < 2 ^ 32 ∧ lower + upper * 2 ^ 32 = ticks t mod 2 ^ 64 ∧
    ticks t < ticks t' < ticks t + 2 ^ 62
}.

Section Time.
Context {T : Type} {TC : TimestampCounter T} {L : TimestampLaws T}.

Lemma timestamp_run t :
  ∃ t', cpu_timestamp t = Ok (ticks t mod 2 ^ 64, t') ∧ ticks t < ticks t' < ticks t + 2 ^ 62.
Proof.
  destruct (ticks_read t) as (lower & upper & t' & Hr & Hl & Hu & Hv & Ht). exists t'. split; [|done].
  unfold cpu_timestamp. rewrite Hr, u64_small by (rewrite Z.shiftl_mul_pow2 by lia; lia).
  by rewrite lor_shiftl_add, Hv by lia.
Qed.

(** [current] was read at the count [now], and [start] before that. *)
Lemma wait_loop_run n fuel : ∀ start now t,
  start ≤ now < start + 2 ^ 63 → now < ticks t < now + 2 ^ 62 → 0 ≤ n < 2 ^ 62 →
  n - (now - start) < Z.of_nat fuel → (0 < fuel)%nat →
  ∃ t', wait_loop fuel n (start mod 2 ^ 64) (now mod 2 ^ 64) t = Ok (tt, t') ∧ start + n < ticks t'.
Proof.
  induction fuel as [|fuel IH]; intros start now t Hnow Ht Hn Hf Hpos; [lia|]. cbn [wait_loop].
  assert (u64 (now mod 2 ^ 64 - start mod 2 ^ 64) = now - start) as ->.
  { unfold u64. rewrite <- Zminus_mod. apply Z.mod_small. lia. }
  destruct (Z.ltb_spec (now - start) n) as [Hlt|Hge].
  - destruct (timestamp_run t) as (t1 & Hrun & Ht1). rewrite (bind_ok _ _ _ _ _ Hrun).
    apply IH; lia.
  - exists t. split; [done|]. lia.
Qed.

(** C39. The two waiting functions end, within one reading of the counter for each of its ticks, and
    not before 10000 respectively 10000000 ticks have passed, also when the counter wraps around. *)
Theorem cpu_wait_waits t :
  (∃ t', cpu_wait_microsecond (Z.to_nat 10002) t = Ok (tt, t') ∧ ticks t + 10000 < ticks t') ∧
  (∃ t', cpu_wait_millisecond (Z.to_nat 10000002) t = Ok (tt, t') ∧ ticks t + 10000000 < ticks t').
Proof.
  pose proof (ticks_nonneg t). destruct (timestamp_run t) as (t1 & Hrun & Ht1).
  split.
  - unfold cpu_wait_microsecond. rewrite (bind_ok _ _ _ _ _ Hrun). apply wait_loop_run; lia.
  - unfold cpu_wait_millisecond. rewrite (bind_ok _ _ _ _ _ Hrun). apply wait_loop_run; lia.
Qed.
End Time.

(** ** The CPU structure and its tables *)

Section CpuInitSpec.
Context {A : Type} {PA : PageAllocator A} {PAL : PageAllocatorLaws A}.
Implicit Type s : cpu_state A.

(** A state before the set-up: an allocator with page 0 in use. *)
Record cpu_unset s : Prop := CpuUnset {
  unset_alloc : pa_inv (s_alloc s);
  unset_zero : pa_used (s_alloc s) 0
}.

(** The page of the new [struct cpu]. *)
Record cpu_made s s' (cpu : Z) : Prop := CpuMade {
  made_ready : cpu_ready s';
  made_fs : s_fs s' = cpu;
  made_fresh : 0 < cpu < 2 ^ 52 ∧ cpu mod 2 ^ 12 = 0 ∧ ¬ pa_used (s_alloc s) (cpu / 2 ^ 12);
  made_mono : ∀ q, pa_used (s_alloc s) q → pa_used (s_alloc s') q;
  made_avail : pa_avail (s_alloc s') = pa_avail (s_alloc s) - 1;
  made_id : load32 (s_mem s') (cpu + cpu_id_field) = u32 (current_cpu_id s);
  made_writes : s_writes s' = s_writes s;
  made_frame : ∀ x, ¬ (cpu ≤ x < cpu + 4096) → load8 (s_mem s') x = load8 (s_mem s) x
}.

Lemma cpu_structure_run s :
  cpu_unset s → 0 < pa_avail (s_alloc s) →
  ∃ s' cpu, cpu_structure s = Ok (cpu, s') ∧ cpu_made s s' cpu.
Proof.
  intros [Hinv H0] Hav.
  destruct (alloc_step (s_kernel s) Hinv H0 Hav) as (p & a & Hrun & Hinv' & Hav' & Hp & Hn & Hu & Hm).
  set (c := p * 2 ^ 12) in *. assert (0 < c < 2 ^ 52) as Hc by (unfold c; lia).
  assert (kernel allocate_page s = Ok (c, with_alloc a s)) as Hk by (unfold kernel; by rewrite Hrun).
  set (f := λ m, store64 (store 4 (store64 m c c) (c + 8) (u32 (current_cpu_id s))) (c + 24) 0).
  exists (set_fs c (with_mem f (set_cpu_id (s32 (current_cpu_id s + 1)) (with_alloc a s)))), c.
  split.
  { unfold cpu_structure. rewrite (bind_ok _ _ _ _ _ Hk). cstep. unfold cpu_address. by rewrite Z.add_0_r. }
  assert (c / 2 ^ 12 = p) as Hcp by (unfold c; apply Z.div_mul; lia).
  split; [|done|rewrite Hcp; split; [done|split; [unfold c; apply Z.mod_mul; lia|done]]|done|exact Hav'| |done|].
  - split; [exact Hinv'|by apply Hm| |change (pa_used a (c / 2 ^ 12)); by rewrite Hcp|unfold c; apply Z.mod_mul; lia].
    change (load64 (f (s_mem s)) c = c). unfold f.
    rewrite load64_store64_ne by lia. unfold load64, store64. rewrite load_store_ne by lia.
    apply load64_store64_eq. lia.
  - change (load32 (f (s_mem s)) (c + 8) = u32 (current_cpu_id s)). unfold f, load32, store64.
    rewrite load_store_ne, load_store_eq by lia. apply Z.mod_small. apply u32_range.
  - intros x Hx. change (load8 (f (s_mem s)) x = load8 (s_mem s) x). unfold f, store64.
    by rewrite !load8_store_out by lia.
Qed.

Context (address_of : idt_handler → Z).

(** The stack a gate asks for: its number in the task state, and its page. *)
Definition stack_field (ist : Z) : Z := if ist =? 1 then task_state_ist1 else task_state_ist2.

(** The tables of the new CPU. *)
Record cpu_ready_tables s s' (cpu gdt task stack1 stack2 idt : Z) : Prop := CpuReadyTables {
  tables_ready : cpu_ready s';
  tables_fs : s_fs s' = cpu;
  tables_pages : fresh_pages s [cpu; gdt; task; stack1; stack2; idt];
  tables_used : Forall (λ a, pa_used (s_alloc s') (a / 2 ^ 12)) [cpu; gdt; task; stack1; stack2; idt];
  tables_avail : pa_avail (s_alloc s') = pa_avail (s_alloc s) - 6;
  tables_id : load32 (s_mem s') (cpu + cpu_id_field) = u32 (current_cpu_id s);
  tables_gdt : load64 (s_mem s') (cpu + cpu_global_descriptor_table) = gdt;
  tables_idt : idt_state s' idt;
  tables_task : read_system_segment (s_mem s') (gdt + GDT_KERNEL_TASK_SEGMENT) = SystemSegment task 104 0x89 0;
  tables_gates : ∀ v h ty ist, (v, h, ty, ist) ∈ exceptions ++ spurious →
    let g := read_gate (s_mem s') (gate_address idt v) in
    g = Gate (address_of h) 8 ist ty 0 1 ∧
    load64 (s_mem s') (gdt + g_segment g) = 0x00209A0000000000 ∧
    (ist ≠ 0 → ∃ page, page ∈ [stack1; stack2] ∧ load64 (s_mem s') (task + stack_field ist) = page + 4096);
  tables_stack2 : load64 (s_mem s') (task + task_state_ist2) = stack2 + 4096;
  tables_writes : s_writes s' =
    [LoadInterruptTable 4095 idt; LoadTaskRegister 0x18; LoadGlobalTable 40 gdt] ++ s_writes s;
  tables_frame : ∀ x, pa_used (s_alloc s) (x / 2 ^ 12) → load8 (s_mem s') x = load8 (s_mem s) x
}.

(** Words on a used page apart from [struct cpu] survive [idt_initialize]. *)
Lemma idt_frame_load n s s' idt page a :
  idt_built address_of s s' idt → pa_used (s_alloc s) (page / 2 ^ 12) → page mod 2 ^ 12 = 0 →
  s_fs s + 4096 ≤ page ∨ page + 4096 ≤ s_fs s → page ≤ a → a + Z.of_nat n ≤ page + 4096 →
  load n (s_mem s') a = load n (s_mem s) a.
Proof.
  intros Hb Hu Hal Hap H1 H2. apply load_ext. intros x Hx. apply (idt_built_frame _ _ _ _ Hb); [|lia].
  replace (x / 2 ^ 12) with (page / 2 ^ 12); [done|]. divmod_lia.
Qed.

Lemma stacks_of_gates : Forall (λ r : Z * idt_handler * Z * Z, r.2 ∈ [0; 1]) (exceptions ++ spurious).
Proof. apply (bool_decide_unpack _). by vm_compute. Qed.

(** Pages allocated one after the other. *)
Lemma fresh_pages_app s s1 l1 l2 :
  fresh_pages s l1 → Forall (λ a, pa_used (s_alloc s1) (a / 2 ^ 12)) l1 →
  (∀ q, pa_used (s_alloc s) q → pa_used (s_alloc s1) q) → fresh_pages s1 l2 → fresh_pages s (l1 ++ l2).
Proof.
  intros [Hn1 Hf1] Hu Hm [Hn2 Hf2]. rewrite list.Forall_forall in Hu, Hf2. split.
  - apply list.NoDup_app. split; [done|]. split; [|done]. intros x H1 H2.
    destruct (Hf2 x H2) as (_ & _ & Hn). auto.
  - apply list.Forall_app. split; [done|]. apply list.Forall_forall. intros x Hx.
    destruct (Hf2 x Hx) as (Hr & Ha & Hn). split_and!; [lia|lia|done|]. auto.
Qed.

(** The three parts one after the other, with messages in between. *)
Record set_up_in_parts s s1 s2 s3 s4 s5 (c g t k1 k2 i : Z) : Prop := SetUpInParts {
  part_cpu : cpu_made s s1 c;
  part_print1 : s2 = logged (CPrint ("[cpu] set up GDT" +:+ nl)) s1;
  part_gdt : gdt_built s2 s3 g t k1 k2;
  part_print2 : s4 = logged (CPrint ("[cpu] set up IDT" +:+ nl)) s3;
  part_idt : idt_built address_of s4 s5 i
}.

Section Parts.
Context (s s1 s2 s3 s4 s5 : cpu_state A) (c g t k1 k2 i : Z).
Hypothesis H : set_up_in_parts s s1 s2 s3 s4 s5 c g t k1 k2 i.

Lemma part_same2 : s_alloc s2 = s_alloc s1 ∧ s_fs s2 = c ∧ s_mem s2 = s_mem s1 ∧ s_writes s2 = s_writes s1.
Proof. destruct H as [H1 -> _ _ _]. cpu_simpl. by rewrite (made_fs _ _ _ H1). Qed.

Lemma part_same4 : s_alloc s4 = s_alloc s3 ∧ s_fs s4 = c ∧ s_mem s4 = s_mem s3 ∧ s_writes s4 = s_writes s3.
Proof.
  pose proof (part_gdt _ _ _ _ _ _ _ _ _ _ _ _ H) as Hg.
  pose proof (grown_fs _ _ _ (built_pages _ _ _ _ _ _ Hg)) as Hf. destruct part_same2 as (_ & Hf2 & _).
  destruct H as [_ _ _ -> _]. cpu_simpl. by rewrite Hf, Hf2.
Qed.

Lemma parts_pages :
  fresh_pages s [c; g; t; k1; k2; i] ∧
  Forall (λ a, pa_used (s_alloc s5) (a / 2 ^ 12)) [c; g; t; k1; k2; i] ∧
  pa_avail (s_alloc s5) = pa_avail (s_alloc s) - 6 ∧
  (∀ q, pa_used (s_alloc s) q → pa_used (s_alloc s4) q).
Proof.
  pose proof part_same2 as (Ea2 & Ef2 & _). pose proof part_same4 as (Ea4 & Ef4 & _).
  destruct H as [H1 _ H3 _ H5]. pose proof (built_pages _ _ _ _ _ _ H3) as G3.
  pose proof (idt_built_pages _ _ _ _ H5) as G5. destruct (made_fresh _ _ _ H1) as (Hc & Hca & Hcn).
  pose proof (ready_used _ (made_ready _ _ _ H1)) as Hcu. rewrite (made_fs _ _ _ H1) in Hcu.
  pose proof (grown_mono _ _ _ G3) as M3. rewrite Ea2 in M3. pose proof (grown_mono _ _ _ G5) as M5. rewrite Ea4 in M5.
  pose proof (grown_used _ _ _ G3) as U3. pose proof (grown_used _ _ _ G5) as U5.
  assert (fresh_pages s [c]) as F1 by (split; [apply NoDup_singleton|by apply list.Forall_cons]).
  assert (fresh_pages s ([c] ++ [g; t; k1; k2])) as F3.
  { apply (fresh_pages_app s s2); rewrite ?Ea2; [done|by apply list.Forall_cons|apply H1|exact (grown_fresh _ _ _ G3)]. }
  assert (Forall (λ a, pa_used (s_alloc s3) (a / 2 ^ 12)) ([c] ++ [g; t; k1; k2])) as U.
  { apply list.Forall_app. split; [|done]. apply list.Forall_cons. split; [by apply M3|done]. }
  assert (∀ q, pa_used (s_alloc s) q → pa_used (s_alloc s4) q) as M4.
  { intros q Hq. rewrite Ea4. by apply M3, (made_mono _ _ _ H1). }
  split; [|split; [|split; [|exact M4]]].
  - apply (fresh_pages_app s s4 ([c] ++ [g; t; k1; k2]) [i] F3); [by rewrite Ea4|exact M4|exact (grown_fresh _ _ _ G5)].
  - apply (list.Forall_app _ ([c] ++ [g; t; k1; k2]) [i]). split; [|done].
    eapply list.Forall_impl; [exact U|]. intros x. apply M5.
  - pose proof (made_avail _ _ _ H1). pose proof (grown_avail _ _ _ G3) as V3. pose proof (grown_avail _ _ _ G5) as V5.
    rewrite Ea2 in V3. rewrite Ea4 in V5. cbn [length] in V3, V5. lia.
Qed.

(** What the last part keeps. *)
Lemma parts_gdt_load n page a :
  page ∈ [g; t] → page ≤ a → a + Z.of_nat n ≤ page + 4096 → load n (s_mem s5) a = load n (s_mem s3) a.
Proof.
  intros Hp H1 H2. pose proof part_same2 as (_ & Ef2 & _). pose proof part_same4 as (Ea4 & Ef4 & Em4 & _).
  pose proof (part_gdt _ _ _ _ _ _ _ _ _ _ _ _ H) as H3. pose proof (built_pages _ _ _ _ _ _ H3) as G3.
  rewrite <- Em4. assert (page ∈ [g; t; k1; k2]) as Hin by (set_unfold; tauto).
  pose proof (grown_used _ _ _ G3) as Hu. pose proof (grown_apart _ _ _ G3) as Ha.
  destruct (grown_fresh _ _ _ G3) as [_ Hf]. rewrite list.Forall_forall in Hu, Ha, Hf.
  apply (idt_frame_load n s4 s5 i page a (part_idt _ _ _ _ _ _ _ _ _ _ _ _ H)); [rewrite Ea4; auto| | |done|done].
  - by destruct (Hf page Hin) as (_ & ? & _).
  - rewrite Ef4, <- Ef2. by apply Ha.
Qed.

Lemma parts_built : cpu_ready_tables s s5 c g t k1 k2 i.
Proof.
  pose proof parts_pages as (F & U & V & M4). pose proof parts_gdt_load as Hload.
  pose proof part_same2 as (Ea2 & Ef2 & Em2 & Ew2). pose proof part_same4 as (Ea4 & Ef4 & Em4 & Ew4).
  destruct H as [H1 _ H3 _ H5]. pose proof (built_pages _ _ _ _ _ _ H3) as G3.
  pose proof (idt_built_pages _ _ _ _ H5) as G5. pose proof (grown_ready _ _ _ G5) as R5.
  pose proof (grown_fs _ _ _ G5) as Ef5. rewrite Ef4 in Ef5.
  pose proof (ready_used _ (made_ready _ _ _ H1)) as Hcu. rewrite (made_fs _ _ _ H1) in Hcu.
  destruct (made_fresh _ _ _ H1) as (Hc & Hca & Hcn).
  assert (∀ x, c ≤ x < c + 4096 → pa_used (s_alloc s2) (x / 2 ^ 12) ∧ pa_used (s_alloc s4) (x / 2 ^ 12)) as Hcx.
  { intros x Hx. replace (x / 2 ^ 12) with (c / 2 ^ 12) by divmod_lia. rewrite Ea2, Ea4. split; [done|].
    apply (grown_mono _ _ _ G3). by rewrite Ea2. }
  split; [exact R5|exact Ef5|exact F|exact U|exact V| | |exact (idt_built_state _ _ _ _ H5)| | | | |].
  - rewrite <- (made_id _ _ _ H1), <- Em2. unfold cpu_id_field. apply load_ext. intros x Hx.
    destruct (Hcx x ltac:(lia)) as [X2 X4].
    rewrite (idt_built_frame _ _ _ _ H5), Em4 by (done || lia).
    apply (built_frame _ _ _ _ _ _ H3); (done || lia).
  - rewrite <- (built_cpu _ _ _ _ _ _ H3), Ef2, <- Em4. unfold cpu_global_descriptor_table. apply load_ext. intros x Hx.
    destruct (Hcx x ltac:(lia)) as [X2 X4]. apply (idt_built_frame _ _ _ _ H5); (done || lia).
  - rewrite <- (built_task _ _ _ _ _ _ H3). unfold GDT_KERNEL_TASK_SEGMENT.
    apply read_system_segment_ext. intros x Hx.
    pose proof (Hload 1%nat g x ltac:(left) ltac:(lia) ltac:(lia)) as Hl. cbn [load] in Hl. lia.
  - intros v h ty ist Hin G0. unfold G0. rewrite (idt_built_gates _ _ _ _ H5 _ _ _ _ Hin).
    split; [done|]. cbn [g_segment]. split.
    + transitivity (load64 (s_mem s3) (g + 8)); [|exact (built_code _ _ _ _ _ _ H3)].
      apply (Hload 8%nat g (g + 8)); [left|lia|lia].
    + intros Hist. exists k1. split; [left|]. pose proof stacks_of_gates as Hst. rewrite list.Forall_forall in Hst.
      specialize (Hst _ Hin). cbn [snd] in Hst. assert (ist = 1) as -> by (set_unfold; lia).
      transitivity (load64 (s_mem s3) (t + task_state_ist1)); [|exact (built_stack1 _ _ _ _ _ _ H3)].
      apply (Hload 8%nat t (t + task_state_ist1)); [right; left|unfold task_state_ist1; lia..].
  - transitivity (load64 (s_mem s3) (t + task_state_ist2)); [|exact (built_stack2 _ _ _ _ _ _ H3)].
    apply (Hload 8%nat t (t + task_state_ist2)); [right; left|unfold task_state_ist2; lia..].
  - rewrite (idt_built_writes _ _ _ _ H5), Ew4, (built_writes _ _ _ _ _ _ H3), Ew2, (made_writes _ _ _ H1). done.
  - intros x Hx. assert (¬ (c ≤ x < c + 4096)) as Hxc.
    { intros Hr. apply Hcn. replace (c / 2 ^ 12) with (x / 2 ^ 12) by divmod_lia. done. }
    rewrite (idt_built_frame _ _ _ _ H5), Em4 by (auto || lia).
    rewrite (built_frame _ _ _ _ _ _ H3), Em2 by (lia || (rewrite Ea2; by apply (made_mono _ _ _ H1))).
    by apply (made_frame _ _ _ H1).
Qed.
End Parts.

Lemma cpu_tables_run s :
  cpu_unset s → 6 ≤ pa_avail (s_alloc s) → (∀ h, 0 ≤ address_of h < 2 ^ 64) →
  ∃ s' cpu gdt task stack1 stack2 idt,
    cpu_tables address_of s = Ok (cpu, s') ∧ cpu_ready_tables s s' cpu gdt task stack1 stack2 idt.
Proof.
  intros Hs Hav Haddr. destruct (cpu_structure_run s Hs) as (s1 & c & Hr1 & H1); [lia|].
  unfold cpu_tables. rewrite (bind_ok _ _ _ _ _ Hr1). cstep. set (s2 := logged _ s1).
  pose proof (logged_ready (CPrint ("[cpu] set up GDT" +:+ nl)) s1 (made_ready _ _ _ H1)) as Hs2.
  fold s2 in Hs2. assert (s_alloc s2 = s_alloc s1) as Ea2 by (unfold s2; by cpu_simpl).
  assert (s_fs s2 = c) as Ef2 by (unfold s2; cpu_simpl; apply (made_fs _ _ _ H1)).
  pose proof (made_avail _ _ _ H1) as Hav1.
  destruct (gdt_initialize_ok s2 Hs2) as (s3 & g & t & k1 & k2 & Hr3 & H3); [rewrite Ea2; lia|].
  rewrite (bind_ok _ _ _ _ _ Hr3). cstep. set (s4 := logged _ s3). pose proof (built_pages _ _ _ _ _ _ H3) as G3.
  pose proof (logged_ready (CPrint ("[cpu] set up IDT" +:+ nl)) s3 (grown_ready _ _ _ G3)) as Hs4.
  fold s4 in Hs4. assert (s_alloc s4 = s_alloc s3) as Ea4 by (unfold s4; by cpu_simpl).
  pose proof (grown_fs _ _ _ G3) as Ef3. rewrite Ef2 in Ef3.
  assert (s_fs s4 = c) as Ef4 by (unfold s4; cpu_simpl; exact Ef3).
  pose proof (grown_avail _ _ _ G3) as Hav3. rewrite Ea2 in Hav3. cbn [length Z.of_nat] in Hav3.
  destruct (idt_initialize_ok address_of s4 Hs4) as (s5 & i & Hr5 & H5); [rewrite Ea4; lia|done|].
  rewrite (bind_ok _ _ _ _ _ Hr5). exists s5, c, g, t, k1, k2, i. split; [reflexivity|].
  by apply (parts_built s s1 s2 s3 s4 s5).
Qed.
End CpuInitSpec.

Section CpuTables.
Context {A : Type} {PA : PageAllocator A} {PAL : PageAllocatorLaws A} (address_of : idt_handler → Z).

(** The first part of [cpu_initialize] (up to the tables) leaves a CPU whose structures fit
    together: six distinct fresh pages hold [struct cpu], the descriptor table, the task state, two
    stacks and the interrupt table; the self pointer, the id and the table pointers are in place; every
    exception gate names the 64-bit code segment of the new descriptor table, its handler, and a stack
    the task state really holds; the three tables are loaded in order; no memory in use changes. *)
Theorem cpu_tables_spec (s : cpu_state A) :
  cpu_unset s → 6 ≤ pa_avail (s_alloc s) → (∀ h, 0 ≤ address_of h < 2 ^ 64) →
  ∃ s' cpu gdt task stack1 stack2 idt,
    cpu_tables address_of s = Ok (cpu, s') ∧ cpu_ready_tables address_of s s' cpu gdt task stack1 stack2 idt.
Proof. apply cpu_tables_run. Qed.
End CpuTables.

Lemma cpu_tables_spec_witness :
  ∃ s' cpu gdt task stack1 stack2 idt, cpu_tables handlers0 cpu0 = Ok (cpu, s') ∧
    read_gate (s_mem s') (gate_address idt 8) = Gate 0x103000 8 1 14 0 1 ∧
    load64 (s_mem s') (gdt + 8) = 0x00209A0000000000 ∧
    ∃ page, page ∈ [stack1; stack2] ∧ load64 (s_mem s') (task + stack_field 1) = page + 4096.
Proof.
  destruct (cpu_tables_spec handlers0 cpu0) as (s' & c & g & t & k1 & k2 & i & Hrun & H).
  - split; [exact cpu0_phys_inv|apply cpu0_low_pages; lia].
  - rewrite cpu0_avail. lia.
  - exact handlers0_range.
  - exists s', c, g, t, k1, k2, i.
    destruct (tables_gates _ _ _ _ _ _ _ _ _ H 8 idt_handle_invalid_double_fault 14 1) as (Hg & Hc & Hs).
    { apply (bool_decide_unpack _). by vm_compute. }
    split; [exact Hrun|]. split; [exact Hg|]. rewrite Hg in Hc. split; [exact Hc|]. apply Hs. lia.
Defined.

(** A counter that advances by one cycle with every reading. *)
#[export] Instance cycle_counter : TimestampCounter N := {
  rdtsc t := ((Z.of_N t mod 2 ^ 32, (Z.of_N t / 2 ^ 32) mod 2 ^ 32), (t + 1)%N)
}.

#[export] Instance cycle_counter_laws : TimestampLaws N.
Proof.
  refine {| ticks := Z.of_N |}; [intros; lia|]. intros t.
  exists (Z.of_N t mod 2 ^ 32), ((Z.of_N t / 2 ^ 32) mod 2 ^ 32), (t + 1)%N.
  split; [done|]. split; [apply Z.mod_pos_bound; lia|]. split; [apply Z.mod_pos_bound; lia|]. split; [|lia].
  change (2 ^ 64) with (2 ^ 32 * 2 ^ 32). rewrite Z.rem_mul_r by lia. lia.
Defined.

Lemma cpu_wait_waits_witness :
  ∃ t', cpu_wait_microsecond (Z.to_nat 10002) 18446744073709551000%N = Ok (tt, t') ∧
    18446744073709561000 < Z.of_N t'.
Proof. destruct (cpu_wait_waits 18446744073709551000%N) as [(t' & H1 & H2) _].
  exists t'. split; [exact H1|exact H2].
Defined.
