(* ===== verification/Config.v ===== *)
(** * What a CPU never changes while it sets up its tables

    A small program logic for quantities that every step of a program leaves
    alone, with a hint database, applied to the size of memory and to the
    support for 1 GiB pages. *)

From S2P Require Import Prelude Memory Allocator Paging Cpu Gdt Idt Scheduler CpuInit.

Definition preserves {S B R} (f : S → B) (m : M S R) : Prop :=
  ∀ s r s', m s = Ok (r, s') → f s' = f s.

Section Preserves.
Context {S B : Type} (f : S → B).

Lemma preserves_ret {R} (r : R) : preserves f (ret r).
Proof. by intros s r' s' [= <- <-]. Qed.

Lemma preserves_gets {R} (g : S → R) : preserves f (gets g).
Proof. by intros s r' s' [= <- <-]. Qed.

Lemma preserves_modify g : (∀ s, f (g s) = f s) → preserves f (modify g).
Proof. intros H s r s' [= <- <-]. apply H. Qed.

Lemma preserves_bind {R R'} (m : M S R) (k : R → M S R') :
  preserves f m → (∀ r, preserves f (k r)) → preserves f (bind m k).
Proof.
  intros Hm Hk s r s' (a & s1 & H1 & H2)%bind_inv. rewrite <- (Hm s a s1 H1). by apply (Hk a s1 r).
Qed.

Lemma preserves_if {R} (b : bool) (m1 m2 : M S R) :
  preserves f m1 → preserves f m2 → preserves f (if b then m1 else m2).
Proof. by destruct b. Qed.

Lemma preserves_for_loop body n : (∀ i, preserves f (body i)) → ∀ i, preserves f (for_loop n i body).
Proof.
  intros Hb. induction n as [|n IH]; intros i; cbn [for_loop]; [apply preserves_ret|].
  by apply preserves_bind.
Qed.
End Preserves.

Create HintDb preserves.
#[export] Hint Resolve preserves_ret preserves_gets preserves_bind preserves_if preserves_for_loop : preserves.

Section Config.
Context {A : Type} {PA : PageAllocator A}.

(** [max_memory_address] and what [paging_get_hugepages_supported] returns. *)
Definition config (s : cpu_state A) : Z * Z := (max_memory_address s, hugepages_supported (s_kernel s)).

Lemma config_with_mem f : preserves config (modify (with_mem f)).
Proof. by apply preserves_modify. Qed.
Lemma config_set_field a v : preserves config (set_field a v).
Proof. apply config_with_mem. Qed.
Lemma config_field a : preserves config (field a).
Proof. apply preserves_gets. Qed.
Lemma config_says c : preserves config (says c).
Proof. by intros s r s' [= <- <-]. Qed.
Lemma config_print msg : preserves config (print msg).
Proof. apply config_says. Qed.
Lemma config_device w : preserves config (device w).
Proof. by apply preserves_modify. Qed.
Lemma config_set_fs v : preserves config (modify (set_fs v)).
Proof. by apply preserves_modify. Qed.
Lemma config_set_cpu_id v : preserves config (modify (set_cpu_id v)).
Proof. by apply preserves_modify. Qed.
Lemma config_allocate : preserves config (kernel allocate_page).
Proof.
  intros s r s'. unfold kernel, allocate_page. destruct (pa_alloc (k_alloc (s_kernel s))) as [[p a]| |]; [|done|done].
  by intros [= <- <-].
Qed.

#[local] Hint Resolve config_with_mem config_set_field config_field config_says config_print config_device
  config_set_fs config_set_cpu_id config_allocate : preserves.

Lemma config_current : preserves config (cpu_get_current (A := A)).
Proof. unfold cpu_get_current. auto with preserves. Qed.
#[local] Hint Resolve config_current : preserves.

Lemma config_register address_of v h ty ist : preserves config (register (A := A) address_of v h ty ist).
Proof. unfold register, idt_register_interrupt, current_idt. auto 10 with preserves. Qed.
#[local] Hint Resolve config_register : preserves.

Lemma config_gdt_initialize : preserves config (gdt_initialize (A := A)).
Proof. unfold gdt_initialize, allocate_stack. auto 60 with preserves. Qed.

Lemma config_idt_initialize address_of : preserves config (idt_initialize (A := A) address_of).
Proof. unfold idt_initialize, register_exceptions, register_spurious. auto 60 with preserves. Qed.
#[local] Hint Resolve config_gdt_initialize config_idt_initialize : preserves.

Lemma config_cpu_tables address_of : preserves config (cpu_tables (A := A) address_of).
Proof. unfold cpu_tables, cpu_structure. auto 30 with preserves. Qed.
End Config.
