(* ===== verification/CpuSetup.v ===== *)
(** * Correctness of the set-up of a CPU

    After its tables, [cpu_initialize] gives a CPU an address space, a stack,
    the process that stands for the running code, and the timer interrupt. *)

From S2P Require Import Prelude Memory Bits Allocator Physical PhysicalSpec Paging PagingWalk PagingStep PagingMap PagingFind.
From S2P Require Import Cpu CpuSpec Machine Gdt GdtSpec Idt IdtSpec Scheduler SchedulerSpec CpuInit CpuInitSpec Config AddressSpace ProcessSpace.

#[local] Opaque load64 store64 memory_zero.

Section CpuSetup.
Context {A : Type} {PA : PageAllocator A} {PAL : PageAllocatorLaws A}.
Implicit Types (s : cpu_state A) (T : tree).
Context (scheduler_interrupt : Z) (cpu_read_msr : Z → Z) (apic_id : Z).

(** The base address and the enable bit in the model specific register. *)
Definition apic_base : Z := Z.land (cpu_read_msr CPU_MSR_LOCAL_APIC) 0x000ffffffffff000.
Definition apic_enabled : Prop := truthy (Z.land (cpu_read_msr CPU_MSR_LOCAL_APIC) 0x800) = true.

Lemma apic_base_page : 0 ≤ apic_base ∧ apic_base mod 2 ^ 12 = 0 ∧ apic_base + 2 ^ 12 ≤ 2 ^ 52.
Proof.
  unfold apic_base. change 0x000ffffffffff000 with PAGE_FRAME_MASK. rewrite frame_mask_eq.
  set (x := cpu_read_msr _). pose proof (Z.mod_pos_bound x (2 ^ 52) ltac:(lia)).
  split; [divmod_lia|]. split; [apply Z.mod_mul; lia|divmod_lia].
Qed.

(** A CPU with its tables, about to get its address space. *)
Record has_tables s (idt : Z) : Prop := HasTables {
  tab_ready : cpu_ready s;
  tab_idt : idt_state s idt;
  tab_idt_used : pa_used (s_alloc s) (idt / 2 ^ 12);
  tab_idt_page : 0 < idt < 2 ^ 52 ∧ idt mod 2 ^ 12 = 0;
  tab_max : 0 < max_memory_address s < 2 ^ 39;
  tab_length : identity_length s < 2 ^ 39;
  tab_avail : 46 + 2 * (identity_length s / 2 ^ 21) ≤ pa_avail (s_alloc s)
}.

(** The bytes that are written on pages in use: two fields of [struct cpu] and
    the gate of the timer. *)
Definition cpu_writes (cpu idt b : Z) : Prop :=
  cpu + 16 ≤ b < cpu + 24 ∨ cpu + 40 ≤ b < cpu + 48 ∨ gate_address idt 0x23 ≤ b < gate_address idt 0x23 + 12.

Lemma cpu_writes_used s idt b : has_tables s idt → cpu_writes (s_fs s) idt b → pa_used (s_alloc s) (b / 2 ^ 12).
Proof.
  intros H Hb. pose proof (tab_ready _ _ H) as [_ _ _ Hu Ha]. destruct (tab_idt_page _ _ H) as [_ Hi].
  pose proof (tab_idt_used _ _ H) as Hui. unfold cpu_writes, gate_address in Hb.
  destruct (decide (s_fs s ≤ b < s_fs s + 4096)).
  - by replace (b / 2 ^ 12) with (s_fs s / 2 ^ 12) by divmod_lia.
  - replace (b / 2 ^ 12) with (idt / 2 ^ 12) by divmod_lia. exact Hui.
Qed.

(** ** The process that stands for the running code *)

Definition dummy_writes (p stack : Z) (m : mem) : mem :=
  store64 (store64 (store64 (store64 (store64 m (p + 80) 0) (p + 88) (u64 (stack + 4096))) (p + 0) 20) (p + 8) p) (p + 16) p.

Lemma dummy_writes_out p st m b : ¬ (p ≤ b < p + 96) → load8 (dummy_writes p st m) b = load8 m b.
Proof. intros H. unfold dummy_writes. by rewrite !load8_store64_out by lia. Qed.

Lemma dummy_writes_read p st m : 0 ≤ p < 2 ^ 64 →
  load64 (dummy_writes p st m) (p + 0) = 20 ∧ load64 (dummy_writes p st m) (p + 8) = p ∧
  load64 (dummy_writes p st m) (p + 16) = p.
Proof.
  intros Hp. unfold dummy_writes. split_and!.
  - rewrite 2!load64_store64_ne by lia. by apply load64_store64_eq.
  - rewrite load64_store64_ne by lia. by apply load64_store64_eq.
  - by apply load64_store64_eq.
Qed.

(** The address space is complete and loaded; [p] is the running process. *)
Record has_cpu_space s (idt p root : Z) T s' : Prop := HasCpuSpace {
  cspace_page : 0 < p < 2 ^ 52 ∧ p mod 2 ^ 12 = 0 ∧ ¬ pa_used (s_alloc s) (p / 2 ^ 12);
  cspace_stage : at_root_table s p (cpu_writes (s_fs s) idt) (11 + 2 * (identity_length s / 2 ^ 21)) T root s';
  cspace_ok : address_space root (identity_length s) apic_base T (s_kernel s');
  cspace_process : load64 (s_mem s') (p + process_id) = 20 ∧ load64 (s_mem s') (p + process_next) = p ∧
    load64 (s_mem s') (p + process_previous) = p;
  cspace_current : load64 (s_mem s') (s_fs s + cpu_current_process) = p;
  cspace_apic : load64 (s_mem s') (s_fs s + cpu_local_apic_physical) = apic_base;
  cspace_cr3 : s_cr3 s' = root;
  cspace_writes : s_writes s' = s_writes s
}.

(** ** The address space *)

Lemma dummy_run s idt c :
  has_tables s idt → ∃ p root k, let s' := with_kernel k s in
    (0 < p < 2 ^ 52 ∧ p mod 2 ^ 12 = 0 ∧ ¬ pa_used (s_alloc s) (p / 2 ^ 12)) ∧
    dummy_process (s_fs s) (logged c s) = Ok (p, s') ∧
    at_root_table s p (cpu_writes (s_fs s) idt) 3 {[root := (4%nat, 0)]} root s' ∧
    state_ok {[root := (4%nat, 0)]} root k ∧ empty_root (k_mem k) root ∧
    load64 (k_mem k) (s_fs s + cpu_current_process) = p ∧
    load64 (k_mem k) (p + 0) = 20 ∧ load64 (k_mem k) (p + 8) = p ∧ load64 (k_mem k) (p + 16) = p.
Proof.
  intros Htab. pose proof Htab as [Hready Hidt Hiu [Hi1 Hi2] Hmax Hlen Hav].
  set (X := cpu_writes (s_fs s) idt).
  assert (0 ≤ identity_length s / 2 ^ 21) as Hm2.
  { destruct (identity_length_pages s Hmax) as (n & _ & H1 & H2 & _). lia. }
  destruct (cpu_alloc_page (logged c s) (logged_ready c s Hready)) as (p & a & Hr0 & Hs0 & Hav0 & Hp & Hpm & Hpn & Hpu & Hmono & Hpfs);
    [rewrite s_alloc_logged; lia|]. rewrite s_alloc_logged in Hpn, Hav0, Hmono. rewrite s_fs_logged in Hpfs.
  assert (∀ b, X b → pa_used (s_alloc s) (b / 2 ^ 12)) as HX by (intros b; by apply cpu_writes_used).
  set (s1 := with_mem (λ m, store64 m (p + process_saved_instruction_pointer) 0) (with_alloc a (logged c s))).
  assert (cpu_ready s1) as Hs1.
  { apply (ready_write_page _ p); [exact Hs0|exact Hpfs|]. intros m x Hx. unfold process_saved_instruction_pointer. apply load8_store64_out. lia. }
  destruct (cpu_alloc_page s1 Hs1) as (st & a2 & Hr1 & Hs2 & Hav1 & Hst & Hstm & Hstn & Hstu & Hmono2 & _);
    [change (0 < pa_avail a); lia|].
  set (s2 := with_mem (dummy_writes p st) (with_alloc a2 (with_alloc a (logged c s)))).
  assert (stage s p X 2 ∅ s2) as S2.
  { constructor; [|done| |change (pa_avail (s_alloc s) - 2 ≤ pa_avail a2); change (pa_avail a2 = pa_avail a - 1) in Hav1; lia|done..].
    - unfold on_page. intros b _ Hb _. apply dummy_writes_out. lia.
    - intros q [Hq| ->]; apply Hmono2; [by apply Hmono|done]. }
  destruct (context_step s p X Hpm 2 s2 S2) as (root & k3 & Hr3 & Hok3 & He3 & A3 & Hrn & O3);
    [apply (ready_alloc _ Hs2)|apply (ready_zero _ Hs2)|lia|].
  set (f := λ m, store64 m (s_fs s + cpu_current_process) p).
  assert (own_writes p X f) as Wf.
  { intros m b _ Hb. apply load8_store64_out. unfold X, cpu_writes in Hb. unfold cpu_current_process. lia. }
  pose proof (own_writes_tables s p X HX Hpm _ _ _ _ (proj1 A3) Wf) as Ff.
  assert (∀ o, 0 ≤ o ≤ 16 → load64 (f (k_mem k3)) (p + o) = load64 (s_mem s2) (p + o)) as Hown.
  { intros o Ho. unfold f, cpu_current_process. rewrite load64_store64_ne by lia.
    apply (load64_same _ _ p 24); [|lia..]. intros b Hb. apply O3; [right; unfold on_page; lia|lia]. }
  destruct (dummy_writes_read p st (s_mem (with_alloc a2 (with_alloc a (logged c s))))) as (D1 & D2 & D3); [lia|].
  exists p, root, (set_mem f k3). split; [done|]. split; [|split; [|split; [|split; [|split]]]].
  - unfold dummy_process. rewrite (bind_ok _ _ _ _ _ Hr0). cstep. rewrite (bind_ok _ _ _ _ _ Hr1). cstep.
    etransitivity; [apply (bind_ok _ _ _ _ _ Hr3)|]. cstep. reflexivity.
  - split; [exact (stage_write s p X _ _ _ _ (proj1 A3) Wf)|].
    refine (cell_write s p X _ _ (with_kernel k3 s2) f root (proj1 A3) (proj2 A3) _).
    intros m b Hb. apply load8_store64_out. unfold cpu_current_process. lia.
  - apply (proj1 (state_ok_frame _ root k3 f Hok3 Ff)).
  - intros i Hi. cbn [k_mem set_mem]. rewrite <- (He3 i Hi). by apply (root_slot_frame _ root _ k3 Ff).
  - apply load64_store64_eq. lia.
  - cbn [k_mem set_mem]. rewrite !Hown by lia. by split_and!.
Qed.

Lemma cpu_page_apart s p :
  cpu_ready s → p mod 2 ^ 12 = 0 → ¬ pa_used (s_alloc s) (p / 2 ^ 12) → s_fs s + 4096 ≤ p ∨ p + 4096 ≤ s_fs s.
Proof.
  intros Hs Hp Hn. destruct (fresh_page_cpu s (p / 2 ^ 12) Hs Hn) as [H|H]; divmod_lia.
Qed.

(** The fields of the page and of [struct cpu] once the APIC is mapped. *)
Lemma cpu_space_fields s p root T4 n X s2 f s3 s4 :
  cpu_ready s → p mod 2 ^ 12 = 0 → 0 ≤ p → ¬ pa_used (s_alloc s) (p / 2 ^ 12) → s_mem s3 = f (s_mem s2) →
  f = (λ m, store64 m (s_fs s + cpu_local_apic_physical) apic_base) →
  own_kept s p s3 s4 → at_root_table s p X n T4 root s4 →
  (∀ o, 0 ≤ o ≤ 16 → load64 (s_mem s4) (p + o) = load64 (s_mem s2) (p + o)) ∧
  load64 (s_mem s4) (s_fs s + cpu_current_process) = load64 (s_mem s2) (s_fs s + cpu_current_process) ∧
  load64 (s_mem s4) (s_fs s + cpu_local_apic_physical) = apic_base ∧
  load64 (s_mem s4) (p + process_paging_context) = root.
Proof.
  intros Hready Hpm Hp0 Hpn E3 Ef O4 [_ C4]. pose proof (cpu_page_apart s p Hready Hpm Hpn) as Hap.
  pose proof (ready_used _ Hready) as Hu. pose proof (ready_aligned _ Hready) as Ha. destruct apic_base_page as (B1 & B2 & B3).
  unfold cpu_current_process, cpu_local_apic_physical, process_paging_context in *. split_and!.
  - intros o Ho. etransitivity; [apply (own_kept_own s p 8 _ _ o O4); lia|]. change (load64 (s_mem s3) (p + o) = load64 (s_mem s2) (p + o)). rewrite E3, Ef. apply load64_store64_ne. lia.
  - etransitivity; [apply (own_kept_used s p Hpm 8 _ _ (s_fs s) _ O4 Hu Ha Hpn); lia|].
    change (load64 (s_mem s3) (s_fs s + 40) = load64 (s_mem s2) (s_fs s + 40)). rewrite E3, Ef. apply load64_store64_ne. lia.
  - etransitivity; [apply (own_kept_used s p Hpm 8 _ _ (s_fs s) _ O4 Hu Ha Hpn); lia|].
    change (load64 (s_mem s3) (s_fs s + 16) = apic_base). rewrite E3, Ef. apply load64_store64_eq. lia.
  - pose proof (f_equal level4_table (cell_load _ _ _ _ C4)) as H. exact H.
Qed.

Lemma cpu_space_run s idt :
  has_tables s idt → apic_enabled →
  ∃ p root T k, let s' := set_cr3 root (with_kernel k s) in
    cpu_space cpu_read_msr (s_fs s) s = Ok (p, s') ∧ has_cpu_space s idt p root T s'.
Proof.
  intros Htab Hen. pose proof Htab as [Hready Hidt Hiu [Hi1 Hi2] Hmax Hlen Hav].
  set (len := identity_length s) in *. set (m2 := len / 2 ^ 21) in *.
  assert (0 ≤ m2 ∧ 0 < len) as [Hm2 Hlen0].
  { destruct (identity_length_pages s Hmax) as (n & _ & H1 & H2 & H3). fold len m2 in H2, H3. lia. }
  destruct (dummy_run s idt (CPrint ("[cpu] set up dummy process" +:+ nl)) Htab)
    as (p & root & k1 & (Hp & Hpm & Hpn) & Hr1 & A1 & Hok1 & He1 & Hcur1 & D1 & D2 & D3).
  set (X := cpu_writes (s_fs s) idt) in *.
  assert (∀ b, X b → pa_used (s_alloc s) (b / 2 ^ 12)) as HX by (intros b; by apply cpu_writes_used).
  unfold cpu_space. cstep. rewrite (bind_ok _ _ _ _ _ Hr1).
  destruct (identity_step s p X Hpm _ _ _ root A1 Hok1 He1 Hmax Hlen) as (k2 & T2 & Hr2 & Hid2 & A2 & O2);
    [fold len m2; lia|].
  rewrite (bind_ok _ _ _ _ _ Hr2). cstep. unfold map_local_apic. cstep. fold apic_base.
  unfold apic_enabled in Hen. rewrite Hen. cbn [negb]. cstep.
  set (f := λ m, store64 m (s_fs s + cpu_local_apic_physical) apic_base).
  set (s2 := with_kernel k2 (with_kernel k1 s)) in *.
  set (s2' := logged (CPrint ("[cpu] mapping local APIC" +:+ nl)) (logged (CPrint ("[cpu] setting new page table" +:+ nl)) s2)).
  assert (at_root_table s p X (5 + 2 * m2) T2 root s2') as A2'.
  { do 2 apply at_root_logged. split; [|exact (proj2 A2)]. eapply stage_weaken; [|exact (proj1 A2)]. fold len m2. lia. }
  pose proof (cpu_page_apart s p Hready Hpm Hpn) as Hap.
  assert (own_writes p X f) as Wf.
  { intros m b _ Hb. apply load8_store64_out. unfold X, cpu_writes in Hb. unfold cpu_local_apic_physical. lia. }
  assert (at_root_table s p X (5 + 2 * m2) T2 root (with_mem f s2')) as A3.
  { apply at_root_write; [done..|]. intros m b Hb. apply load8_store64_out. unfold cpu_local_apic_physical. lia. }
  assert (identity_space root len T2 (s_kernel (with_mem f s2'))) as Hid3.
  { apply (identity_space_frame T2 root len f (s_kernel s2') (own_writes_tables s p X HX Hpm _ _ _ _ (proj1 A2') Wf)).
    by do 2 apply identity_space_log. }
  destruct apic_base_page as (B1 & B2 & B3).
  destruct (apic_step s p X Hpm _ _ _ root len apic_base A3 Hid3) as (k4 & T4 & Hr4 & Has4 & A4 & O4); [lia..|].
  rewrite (bind_ok _ _ _ _ _ Hr4). cbn [truthy Z.eqb CPU_APIC_ADDRESS negb]. cstep.
  destruct (cpu_space_fields s p root T4 _ X s2' f (with_mem f s2') _ Hready Hpm ltac:(lia) Hpn eq_refl eq_refl O4 A4)
    as (F1 & F2 & F3 & F4).
  assert (∀ o, 0 ≤ o ≤ 16 → load64 (s_mem s2') (p + o) = load64 (k_mem k1) (p + o)) as F5.
  { intros o Ho. apply (own_kept_own s p 8 (with_kernel k1 s) s2 o O2); lia. }
  assert (load64 (s_mem s2') (s_fs s + cpu_current_process) = p) as F6.
  { rewrite <- Hcur1. apply (own_kept_used s p Hpm 8 (with_kernel k1 s) s2 (s_fs s) _ O2
      (ready_used _ Hready) (ready_aligned _ Hready) Hpn); unfold cpu_current_process; lia. }
  cpu_simpl. rewrite F2, F6, F4.
  exists p, root, T4, (add_log CNewLine (add_log (CPrintU64 apic_base 16) (add_log (CPrint "[cpu] local_apic_physical = 0x") k4))).
  split; [reflexivity|]. constructor; [done| |by do 3 apply address_space_log| | |exact F3|done|done].
  - apply (at_root_same s p X _ T4 root (logged CNewLine (logged (CPrintU64 apic_base 16)
      (logged (CPrint "[cpu] local_apic_physical = 0x") (with_kernel k4 (with_mem f s2')))))); [reflexivity..|].
    do 3 apply at_root_logged. split; [|exact (proj2 A4)]. eapply stage_weaken; [|exact (proj1 A4)]. fold len m2. lia.
  - unfold process_id, process_next, process_previous.
    change (s_mem (set_cr3 root _)) with (s_mem (with_kernel k4 (with_mem f s2'))).
    rewrite !F1, !F5 by lia. done.
  - change (s_mem (set_cr3 root _)) with (s_mem (with_kernel k4 (with_mem f s2'))). by rewrite F2, F6.
Qed.

(** ** The stack and the timer *)

(** The CPU is set up: [s] is the state after its tables. *)
Record cpu_started s (idt p root : Z) (ps : list Z) s' : Prop := CpuStarted {
  started_cpu : s_fs s' = s_fs s ∧ s_cr3 s' = root ∧ s_interrupts s' = true;
  started_space : process_space root (identity_length s) apic_base ps (s_mem s');
  started_stack : length ps = 8%nat ∧ NoDup ps ∧ Forall (λ q, ¬ pa_used (s_alloc s) (q / 2 ^ 12)) ps;
  started_current : load64 (s_mem s') (s_fs s + cpu_current_process) = p;
  started_apic : load64 (s_mem s') (s_fs s + cpu_local_apic_physical) = apic_base;
  started_process : load64 (s_mem s') (p + process_id) = 20 ∧ load64 (s_mem s') (p + process_next) = p ∧
    load64 (s_mem s') (p + process_previous) = p ∧ load64 (s_mem s') (p + process_paging_context) = root;
  started_page : 0 < p < 2 ^ 52 ∧ p mod 2 ^ 12 = 0 ∧ ¬ pa_used (s_alloc s) (p / 2 ^ 12);
  started_timer : ∃ level, read_gate (s_mem s') (gate_address idt 0x23) = Gate scheduler_interrupt 8 2 15 level 1;
  started_writes : s_writes s' = [TimerVector 0x23; TimerDivideConfig 10; TimerInitialCount SCHEDULER_TIMER_INTERVAL;
    LoadStackPointer (stack_base + 4096 * 8); SpuriousInterruptVector 0x1FF] ++ s_writes s;
  started_frame : ∀ b, pa_used (s_alloc s) (b / 2 ^ 12) → ¬ cpu_writes (s_fs s) idt b →
    load8 (s_mem s') b = load8 (s_mem s) b
}.

Lemma register_timer s idt v f ty ist :
  idt_state s idt → ∃ k, idt_register_interrupt v f ty ist s = Ok (tt, with_kernel k s) ∧
    k_mem k = write_gate (gate_address idt v) f ty ist (s_mem s) ∧ k_alloc k = s_alloc s.
Proof.
  intros Hs. rewrite (register_run _ _ _ _ _ _ Hs).
  destruct (truthy (gate_present _ _)); eexists (set_mem _ _); (split; [reflexivity|split; reflexivity]).
Qed.

(** What [cpu_initialize] reads of the CPU is where the tables left it. *)
Lemma space_idt_state s idt p T n s' :
  has_tables s idt → p mod 2 ^ 12 = 0 → ¬ pa_used (s_alloc s) (p / 2 ^ 12) →
  stage s p (cpu_writes (s_fs s) idt) n T s' → idt_state s' idt.
Proof.
  intros Htab Hpm Hpn Hs. pose proof (tab_ready _ _ Htab) as Hready.
  destruct (tab_idt _ _ Htab) as [I1 I2 I3]. pose proof (stage_fs _ _ _ _ _ _ Hs) as Hfs.
  pose proof (ready_aligned _ Hready) as Ha. destruct (tab_idt_page _ _ Htab) as [_ Hi].
  constructor; rewrite Hfs; [| |done].
  - rewrite <- I1 at 2. apply (stage_load s p _ Hpm _ T s' 8 (s_fs s) _ Hs (ready_used _ Hready) Ha Hpn); [lia|lia|].
    unfold cpu_writes, gate_address. lia.
  - rewrite <- I2. unfold cpu_interrupt_descriptor_table.
    apply (stage_load s p _ Hpm _ T s' 8 (s_fs s) _ Hs (ready_used _ Hready) Ha Hpn); [lia|lia|].
    unfold cpu_writes, gate_address. divmod_lia.
Qed.

(** The stack is mapped and in use. *)
Record has_stack s (idt p root : Z) T (ps : list Z) s' : Prop := HasStack {
  hstack_stage : stage s p (cpu_writes (s_fs s) idt) (46 + 2 * (identity_length s / 2 ^ 21)) T s';
  hstack_ok : state_ok T root (s_kernel s');
  hstack_space : process_space root (identity_length s) apic_base ps (s_mem s');
  hstack_pages : length ps = 8%nat ∧ NoDup ps ∧ Forall (λ q, ¬ pa_used (s_alloc s) (q / 2 ^ 12)) ps;
  hstack_current : load64 (s_mem s') (s_fs s + cpu_current_process) = p;
  hstack_apic : load64 (s_mem s') (s_fs s + cpu_local_apic_physical) = apic_base;
  hstack_process : load64 (s_mem s') (p + process_id) = 20 ∧ load64 (s_mem s') (p + process_next) = p ∧
    load64 (s_mem s') (p + process_previous) = p ∧ load64 (s_mem s') (p + process_paging_context) = root;
  hstack_cr3 : s_cr3 s' = root;
  hstack_writes : s_writes s' =
    [LoadStackPointer (stack_base + 4096 * 8); SpuriousInterruptVector 0x1FF] ++ s_writes s
}.

Definition announced s : cpu_state A :=
  logged (CPrint ("[cpu] allocating stack space" +:+ nl)) (log_write (SpuriousInterruptVector 0x1FF)
    (logged CNewLine (logged (CPrintU64 (Z.shiftr apic_id 24) 10) (logged (CPrint "[cpu] apic id ") s)))).

Lemma stack_run s idt p root T s1 fuel :
  has_tables s idt → has_cpu_space s idt p root T s1 → (512 ≤ fuel)%nat →
  ∃ ps T' s', cpu_start scheduler_interrupt apic_id fuel p s1 =
      (scheduler_initialize scheduler_interrupt ;;; modify (set_interrupts true)) s' ∧
    has_stack s idt p root T' ps s'.
Proof.
  intros Htab [(Hp & Hpm & Hpn) A1 Has1 (D1 & D2 & D3) Hcur Hapic Hcr3 Hwr] Hfuel.
  pose proof Htab as [Hready _ _ _ Hmax Hlen Hav].
  set (len := identity_length s) in *. set (m2 := len / 2 ^ 21) in *.
  assert (0 < len) as Hlen0.
  { destruct (identity_length_pages s Hmax) as (n & _ & _ & _ & H3). fold len in H3. lia. }
  set (X := cpu_writes (s_fs s) idt) in *.
  unfold cpu_start. cstep. change (logged _ _) with (announced s1). set (s2 := announced s1).
  assert (at_root_table s p X (11 + 2 * m2) T root s2) as A2.
  { apply at_root_logged, at_root_device. do 3 apply at_root_logged. exact A1. }
  assert (address_space root len apic_base T (s_kernel s2)) as Has2.
  { unfold s2, announced, logged, log_write. cbn [s_kernel with_kernel]. do 4 apply address_space_log. exact Has1. }
  destruct (stack_step s p X Hpm _ T s2 root len apic_base (Z.lor PAGING_FLAG_READ PAGING_FLAG_WRITE) fuel A2 Has2)
    as (ps & k3 & T3 & Hr3 & Hok3 & H8 & [Hnd Hnew] & Hsp3 & Hroot3 & S3 & O3);
    [lia|split; by vm_compute|done|done|done|lia|].
  rewrite (bind_ok _ _ _ _ _ Hr3). cstep. eexists ps, T3, _. split; [reflexivity|].
  assert (∀ o, 0 ≤ o ≤ 16 → load64 (k_mem k3) (p + o) = load64 (s_mem s1) (p + o)) as Fp.
  { intros o Ho. apply (own_kept_own s p 8 s2 _ o O3); lia. }
  assert (∀ o, 0 ≤ o ≤ 40 → load64 (k_mem k3) (s_fs s + o) = load64 (s_mem s1) (s_fs s + o)) as Fc.
  { intros o Ho. apply (own_kept_used s p Hpm 8 s2 _ (s_fs s) _ O3 (ready_used _ Hready) (ready_aligned _ Hready) Hpn); lia. }
  constructor.
  - apply stage_logged, stage_device. eapply stage_weaken; [|exact S3]. fold len m2. lia.
  - by apply state_ok_log.
  - exact Hsp3.
  - split; [done|]. split; [done|]. eapply list.Forall_impl; [exact Hnew|]. intros q (_ & _ & Hq & _) Hu.
    apply Hq. apply (stage_used _ _ _ _ _ _ (proj1 A2)). by left.
  - exact (eq_trans (Fc 40 ltac:(lia)) Hcur).
  - exact (eq_trans (Fc 16 ltac:(lia)) Hapic).
  - unfold process_id, process_next, process_previous in *.
    split; [exact (eq_trans (Fp 0 ltac:(lia)) D1)|]. split; [exact (eq_trans (Fp 8 ltac:(lia)) D2)|].
    split; [exact (eq_trans (Fp 16 ltac:(lia)) D3)|exact Hroot3].
  - exact Hcr3.
  - by rewrite <- Hwr.
Qed.

Lemma timer_run s idt :
  idt_state s idt → ∃ k, (scheduler_initialize scheduler_interrupt ;;; modify (set_interrupts true)) s =
      Ok (tt, set_interrupts true (log_write (TimerVector 0x23) (log_write (TimerDivideConfig 10)
        (log_write (TimerInitialCount SCHEDULER_TIMER_INTERVAL) (with_kernel k s))))) ∧
    k_mem k = write_gate (gate_address idt 0x23) scheduler_interrupt IDT_GATE_TYPE_TRAP IDT_STACK_TYPE_SCHEDULER (s_mem s).
Proof.
  intros Hs. destruct (register_timer s idt 0x23 scheduler_interrupt IDT_GATE_TYPE_TRAP IDT_STACK_TYPE_SCHEDULER Hs)
    as (k & Hr & Hm & _).
  exists k. split; [|exact Hm]. unfold scheduler_initialize, cpu_get_current. cstep.
  rewrite (bind_ok _ _ _ _ _ Hr). cstep. reflexivity.
Qed.

Definition timer_gate (idt : Z) : mem → mem :=
  write_gate (gate_address idt 0x23) scheduler_interrupt IDT_GATE_TYPE_TRAP IDT_STACK_TYPE_SCHEDULER.

Lemma stack_started s idt p root T ps s4 k :
  has_tables s idt → 0 ≤ scheduler_interrupt < 2 ^ 64 → 0 < p < 2 ^ 52 → p mod 2 ^ 12 = 0 →
  ¬ pa_used (s_alloc s) (p / 2 ^ 12) → has_stack s idt p root T ps s4 → k_mem k = timer_gate idt (s_mem s4) →
  cpu_started s idt p root ps (set_interrupts true (log_write (TimerVector 0x23) (log_write (TimerDivideConfig 10)
    (log_write (TimerInitialCount SCHEDULER_TIMER_INTERVAL) (with_kernel k s4))))).
Proof.
  intros Htab Hsi Hp Hpm Hpn [S4 Hok4 Hsp4 Hps Hcur Hapic (D1 & D2 & D3 & D4) Hcr3 Hwr] Hm.
  set (s' := set_interrupts true _). change (k_mem k) with (s_mem s') in Hm.
  pose proof (tab_ready _ _ Htab) as Hready. destruct (tab_idt _ _ Htab) as [_ _ Hia].
  destruct (tab_idt_page _ _ Htab) as [Hi1 Hi2]. set (X := cpu_writes (s_fs s) idt) in *.
  assert (∀ b, X b → pa_used (s_alloc s) (b / 2 ^ 12)) as HX by (intros b; by apply cpu_writes_used).
  assert (∀ m b, ¬ (gate_address idt 0x23 ≤ b < gate_address idt 0x23 + 12) → load8 (timer_gate idt m) b = load8 m b) as Hout.
  { intros m b. apply write_gate_outside. }
  assert (own_writes p X (timer_gate idt)) as W.
  { intros m b _ Hb. apply Hout. unfold X, cpu_writes in Hb. lia. }
  pose proof (own_writes_tables s p X HX Hpm _ _ _ _ S4 W) as F.
  assert (idt + 4096 ≤ p ∨ p + 4096 ≤ idt) as Hip.
  { assert (idt / 2 ^ 12 ≠ p / 2 ^ 12) by (intros E; apply Hpn; rewrite <- E; apply (tab_idt_used _ _ Htab)). divmod_lia. }
  assert (∀ a, a + 8 ≤ gate_address idt 0x23 ∨ gate_address idt 0x23 + 12 ≤ a → load64 (s_mem s') a = load64 (s_mem s4) a) as Hl.
  { intros a Ha. rewrite Hm. apply (load_ext 8). intros b Hb. apply Hout. lia. }
  unfold gate_address, process_id, process_next, process_previous, process_paging_context, cpu_current_process,
    cpu_local_apic_physical in *.
  constructor.
  - split; [apply (stage_fs _ _ _ _ _ _ S4)|]. split; [exact Hcr3|done].
  - rewrite Hm. by apply (process_space_frame T root _ _ _ (s_kernel s4) F ps Hok4).
  - exact Hps.
  - refine (eq_trans (Hl _ _) Hcur). unfold cpu_current_process. lia.
  - refine (eq_trans (Hl _ _) Hapic). unfold cpu_local_apic_physical. lia.
  - unfold process_id, process_next, process_previous, process_paging_context.
    split; [refine (eq_trans (Hl _ _) D1); lia|]. split; [refine (eq_trans (Hl _ _) D2); lia|].
    split; [refine (eq_trans (Hl _ _) D3); lia|refine (eq_trans (Hl _ _) D4); lia].
  - done.
  - eexists. rewrite Hm. unfold timer_gate. by apply read_write_gate.
  - cbn [s_writes log_write set_interrupts with_kernel s']. rewrite Hwr. reflexivity.
  - intros b Hb HnX. assert (¬ on_page p b) as Hnp.
    { unfold on_page. intros Hon. apply Hpn. by replace (p / 2 ^ 12) with (b / 2 ^ 12) by divmod_lia. }
    rewrite <- (stage_frame _ _ _ _ _ _ S4 b Hb Hnp HnX), Hm. by apply W.
Qed.
(** ** The whole set-up *)

Lemma tables_has_tables address_of s s1 cpu gdt task k1 k2 idt :
  cpu_tables address_of s = Ok (cpu, s1) → cpu_ready_tables address_of s s1 cpu gdt task k1 k2 idt →
  0 < max_memory_address s < 2 ^ 39 → identity_length s < 2 ^ 39 →
  52 + 2 * (identity_length s / 2 ^ 21) ≤ pa_avail (s_alloc s) → has_tables s1 idt ∧ identity_length s1 = identity_length s.
Proof.
  intros Hrun Ht Hmax Hlen Hav. pose proof (config_cpu_tables address_of s cpu s1 Hrun) as [= Hm Hh].
  assert (identity_length s1 = identity_length s) as El.
  { unfold identity_length, paging_get_hugepages_supported. by rewrite Hm, Hh. }
  split; [|exact El]. pose proof (tables_avail _ _ _ _ _ _ _ _ _ Ht) as Hav1.
  pose proof (tables_used _ _ _ _ _ _ _ _ _ Ht) as Hu. destruct (tables_pages _ _ _ _ _ _ _ _ _ Ht) as [_ Hf].
  rewrite list.Forall_forall in Hu, Hf. assert (idt ∈ [cpu; gdt; task; k1; k2; idt]) as Hin by (set_unfold; tauto).
  destruct (Hf idt Hin) as (Hi1 & Hi2 & _).
  constructor; [apply (tables_ready _ _ _ _ _ _ _ _ _ Ht)|apply (tables_idt _ _ _ _ _ _ _ _ _ Ht)|by apply Hu|done| | |].
  - by rewrite Hm.
  - by rewrite El.
  - rewrite El. lia.
Qed.

Lemma cpu_setup_run address_of s fuel :
  cpu_unset s → apic_enabled → (∀ h, 0 ≤ address_of h < 2 ^ 64) → 0 ≤ scheduler_interrupt < 2 ^ 64 →
  0 < max_memory_address s < 2 ^ 39 → identity_length s < 2 ^ 39 →
  52 + 2 * (identity_length s / 2 ^ 21) ≤ pa_avail (s_alloc s) → (512 ≤ fuel)%nat →
  ∃ s1 cpu gdt task k1 k2 idt p root ps s',
    cpu_setup address_of scheduler_interrupt cpu_read_msr apic_id fuel s = Ok (tt, s') ∧
    cpu_ready_tables address_of s s1 cpu gdt task k1 k2 idt ∧ identity_length s1 = identity_length s ∧
    cpu_started s1 idt p root ps s'.
Proof.
  intros Hs Hen Haddr Hsi Hmax Hlen Hav Hfuel.
  assert (0 ≤ identity_length s / 2 ^ 21) as Hm2.
  { destruct (identity_length_pages s Hmax) as (n & _ & H1 & H2 & _). lia. }
  destruct (cpu_tables_run address_of s Hs) as (s1 & cpu & gdt & task & k1 & k2 & idt & Hr1 & Ht); [lia|done|].
  destruct (tables_has_tables _ _ _ _ _ _ _ _ _ Hr1 Ht Hmax Hlen Hav) as [Htab El].
  destruct (cpu_space_run s1 idt Htab Hen) as (p & root & T & k & Hr2 & H2).
  pose proof (cspace_page _ _ _ _ _ _ H2) as (Hp & Hpm & Hpn).
  destruct (stack_run s1 idt p root T _ fuel Htab H2 Hfuel) as (ps & T' & s3 & Hr3 & H3).
  assert (idt_state s3 idt) as Hi3 by exact (space_idt_state s1 idt p T' _ s3 Htab Hpm Hpn (hstack_stage _ _ _ _ _ _ _ H3)).
  destruct (timer_run s3 idt Hi3) as (k4 & Hr4 & Hm4).
  pose proof (stack_started s1 idt p root T' ps s3 k4 Htab Hsi Hp Hpm Hpn H3 Hm4) as Hstarted.
  exists s1, cpu, gdt, task, k1, k2, idt, p, root, ps. eexists. split; [|split; [exact Ht|split; [exact El|exact Hstarted]]].
  unfold cpu_setup. rewrite (bind_ok _ _ _ _ _ Hr1).
  rewrite <- (tables_fs _ _ _ _ _ _ _ _ _ Ht), (bind_ok _ _ _ _ _ Hr2), Hr3. exact Hr4.
Qed.
End CpuSetup.

Section CpuSetupSpec.
Context {A : Type} {PA : PageAllocator A} {PAL : PageAllocatorLaws A}.
Context (address_of : idt_handler → Z) (scheduler_interrupt : Z) (cpu_read_msr : Z → Z) (apic_id : Z).

(** C7. The whole set-up of a CPU, up to the call of the entry point: after the descriptor tables
    ([cpu_ready_tables]) the CPU runs in its own address space, which is loaded in [cr3] and identity
    maps all of physical memory, maps its local APIC at [CPU_APIC_ADDRESS] and eight fresh pages as
    stack at 2^40, and nothing else; the running code is a process alone in its ring; the timer vector
    0x23 leads to the scheduler on a stack of its own; the local APIC, the stack pointer and the timer
    are written in this order; interrupts are on. No other memory the tables are in changes. *)
Theorem cpu_setup_spec (s : cpu_state A) fuel :
  cpu_unset s → apic_enabled cpu_read_msr → (∀ h, 0 ≤ address_of h < 2 ^ 64) → 0 ≤ scheduler_interrupt < 2 ^ 64 →
  0 < max_memory_address s < 2 ^ 39 → identity_length s < 2 ^ 39 →
  52 + 2 * (identity_length s / 2 ^ 21) ≤ pa_avail (s_alloc s) → (512 ≤ fuel)%nat →
  ∃ s1 cpu gdt task k1 k2 idt p root ps s',
    cpu_setup address_of scheduler_interrupt cpu_read_msr apic_id fuel s = Ok (tt, s') ∧
    cpu_ready_tables address_of s s1 cpu gdt task k1 k2 idt ∧ identity_length s1 = identity_length s ∧
    cpu_started scheduler_interrupt cpu_read_msr s1 idt p root ps s'.
Proof. apply cpu_setup_run. Qed.

(** [cpu_initialize] never returns: what follows a call of it does not run. *)
Lemma cpu_initialize_no_return (s s' : cpu_state A) fuel entrypoint :
  cpu_initialize address_of scheduler_interrupt cpu_read_msr apic_id fuel entrypoint s ≠ Ok (tt, s').
Proof.
  unfold cpu_initialize. intros (u & s1 & _ & H)%bind_inv. apply bind_inv in H as (u' & s2 & _ & H). done.
Qed.
End CpuSetupSpec.

(** The machine of [Machine] without 1 GiB pages, with the local APIC at
    0xFEE00000, enabled, as on the boot processor. *)
Definition cpu1 : cpu_state phys :=
  CpuState (KState memory0 (Phys [7; 0] 0 2 3 0 []) 0 0 []) 0 0 false 1 0 0x80000 [].

Definition msr0 (i : Z) : Z := if i =? CPU_MSR_LOCAL_APIC then 0xFEE00900 else 0.

Lemma cpu_setup_spec_witness :
  ∃ s' p root, cpu_setup handlers0 0x104000 msr0 0 512 cpu1 = Ok (tt, s') ∧ s_cr3 s' = root ∧
    translate (s_mem s') root 0x7FFFF = 0x7FFFF ∧ translate (s_mem s') root 0x8000000020 = 0xFEE00020 ∧
    load64 (s_mem s') (s_fs s' + 40) = p.
Proof.
  destruct (cpu_setup_spec handlers0 0x104000 msr0 0 cpu1 512)
    as (s1 & cpu & gdt & task & k1 & k2 & idt & p & root & ps & s' & Hr & Ht & El & H).
  - split; [exact cpu0_phys_inv|apply cpu0_low_pages; lia].
  - by vm_compute.
  - exact handlers0_range.
  - lia.
  - cbn. lia.
  - by vm_compute.
  - assert (pa_avail (s_alloc cpu1) = 61) as -> by (by vm_compute).
    assert (identity_length cpu1 = 2 ^ 21) as -> by (by vm_compute). done.
  - lia.
  - assert (identity_length cpu1 = 2 ^ 21) as E by (by vm_compute). rewrite E in El.
    destruct (started_cpu _ _ _ _ _ _ _ _ H) as (Hf & Hc & _). pose proof (started_space _ _ _ _ _ _ _ _ H) as Hsp.
    exists s', p, root. split; [exact Hr|]. split; [exact Hc|]. split; [|split].
    + apply (process_low _ _ _ _ _ Hsp). rewrite El. lia.
    + apply (process_apic _ _ _ _ _ Hsp 0x20). lia.
    + rewrite Hf. apply (started_current _ _ _ _ _ _ _ _ H).
Defined.
