(* ===== verification/Acpi.v ===== *)
(** * ACPI tables

    Models [src/src/common/acpi.c] and the structures of [acpi.h] it reads:
    the search for the root pointer, the checksums, the search for a table and
    the iteration over the entries of the MADT. The tables are in the byte
    memory of [Memory], nothing here writes it. The printing functions run on
    the CPU state of [Cpu], whose console log they extend. [AcpiSpec] has the
    theorems. *)

From S2P Require Import Prelude Memory Allocator Paging Cpu.

(** ** acpi.h *)

Definition ACPI_RSDTP_SIGNATURE : Z := 0x2052545020445352.
Definition ACPI_MADT_SIGNATURE : Z := 0x43495041.
Definition ACPI_FADT_SIGNATURE : Z := 0x50434146.

Definition sizeof_acpi_rsdtp : Z := 20.
Definition rsdtp_oem_id : Z := 9.
Definition rsdtp_revision : Z := 15.
Definition rsdtp_address : Z := 16.
Definition sizeof_acpi_xsdtp : Z := 36.

(** [struct acpi_sdt]; the address arrays of [struct acpi_rsdt] and
    [struct acpi_xsdt] start behind it. *)
Definition sizeof_acpi_sdt : Z := 36.
Definition sdt_signature (m : mem) (sdt : Z) : Z := load32 m sdt.
Definition sdt_length (m : mem) (sdt : Z) : Z := load32 m (sdt + 4).
Definition rsdt_table_address (m : mem) (rsdt i : Z) : Z := load32 m (rsdt + sizeof_acpi_sdt + 4 * i).
Definition xsdt_table_address (m : mem) (xsdt i : Z) : Z := load64 m (xsdt + sizeof_acpi_sdt + 8 * i).
Definition fadt_dsdt (m : mem) (fadt : Z) : Z := load32 m (fadt + 40).

Definition ACPI_MADT_TYPE_LOCAL_APIC : Z := 0.
Definition ACPI_MADT_TYPE_IO_APIC : Z := 1.
Definition sizeof_acpi_madt : Z := 44.
Definition madt_local_apic_address (m : mem) (madt : Z) : Z := load32 m (madt + 36).
Definition madt_entry_type (m : mem) (e : Z) : Z := load8 m e.
Definition madt_entry_length (m : mem) (e : Z) : Z := load8 m (e + 1).

(** ** Root pointer *)

Fixpoint find_rsdt_loop (n : nat) (m : mem) (a : Z) : Z :=
  match n with
  | O => 0
  | S n' => if load64 m a =? ACPI_RSDTP_SIGNATURE then a else find_rsdt_loop n' m (a + 16)
  end.

(** From 0x80000 in steps of 16 while below 0xFFFFF: 0x8000 addresses. *)
Definition acpi_find_rsdt_pointer (m : mem) : Z := find_rsdt_loop (Z.to_nat 0x8000) m 0x80000.

(** ** Checksums *)

Fixpoint sum_loop (wrap : Z → Z) (n : nat) (m : mem) (a sum : Z) : Z :=
  match n with O => sum | S n' => sum_loop wrap n' m (a + 1) (wrap (sum + load8 m a)) end.

Definition acpi_validate_rsdt_pointer (m : mem) (rsdp : Z) : Z :=
  Z.land (sum_loop u32 (Z.to_nat sizeof_acpi_rsdtp) m rsdp 0) 0xff.

Definition acpi_validate_xsdt_pointer (m : mem) (rsdp : Z) : Z :=
  Z.land (sum_loop u32 (Z.to_nat sizeof_acpi_xsdtp) m rsdp 0) 0xff.

(** The [int] counter overflows for lengths from 2^31 on. *)
Definition acpi_validate_sdt (m : mem) (sdt : Z) : outcome Z :=
  if 2 ^ 31 <=? sdt_length m sdt then Undef
  else Ok (sum_loop u8 (Z.to_nat (sdt_length m sdt)) m sdt 0).

(** ** Tables *)

Definition acpi_rsdt_entry_count (m : mem) (rsdt : Z) : Z :=
  s32 (u64 (sdt_length m rsdt - sizeof_acpi_sdt) / 4).

Definition acpi_xsdt_entry_count (m : mem) (xsdt : Z) : Z :=
  s32 (u64 (sdt_length m xsdt - sizeof_acpi_sdt) / 8).

Fixpoint get_table_loop (address : Z → Z) (n : nat) (m : mem) (i table_signature : Z) : Z :=
  match n with
  | O => 0
  | S n' =>
      let table := address i in
      if sdt_signature m table =? table_signature then table
      else get_table_loop address n' m (i + 1) table_signature
  end.

Definition acpi_rsdt_get_table (m : mem) (root_table table_signature : Z) : Z :=
  get_table_loop (rsdt_table_address m root_table) (Z.to_nat (acpi_rsdt_entry_count m root_table))
    m 0 table_signature.

Definition acpi_xsdt_get_table (m : mem) (root_table table_signature : Z) : Z :=
  get_table_loop (xsdt_table_address m root_table) (Z.to_nat (acpi_xsdt_entry_count m root_table))
    m 0 table_signature.

(** ** MADT entries *)

Definition acpi_madt_iterate (m : mem) (madt previous : Z) : Z :=
  if previous =? 0 then u64 (madt + sizeof_acpi_madt)
  else
    let next := u64 (previous + madt_entry_length m previous) in
    if u64 (madt + sdt_length m madt) <=? next then 0 else next.

Fixpoint acpi_madt_iterate_type (fuel : nat) (m : mem) (madt previous entry_type : Z) : outcome Z :=
  match fuel with
  | O => Hang
  | S fuel' =>
      let previous := acpi_madt_iterate m madt previous in
      if truthy previous && negb (madt_entry_type m previous =? entry_type)
      then acpi_madt_iterate_type fuel' m madt previous entry_type
      else Ok previous
  end.

(** ** Printing *)

(** The [n] characters at [a]. *)
Definition characters (m : mem) (a : Z) (n : nat) : list Z := (λ i, load8 m (a + i)) <$> seqZ 0 (Z.of_nat n).

Section Printing.
Context {A : Type} {PA : PageAllocator A}.

(** One entry, the [switch]. *)
Definition print_madt_entry (e : Z) : M (cpu_state A) unit :=
  let! m := gets s_mem in
  let type := madt_entry_type m e in
  if type =? 0 then
    print " - found local processor with id " ;;; says (CPrintU32 (load8 m (e + 2)) 10) ;;;
    print " and apic id " ;;; says (CPrintU32 (load8 m (e + 3)) 10) ;;;
    print " and flags " ;;; says (CPrintU32 (load32 m (e + 4)) 2) ;;; says CNewLine
  else if type =? 1 then
    print " - found io apic with address 0x" ;;; says (CPrintU32 (load32 m (e + 4)) 16) ;;;
    print " and id " ;;; says (CPrintU32 (load8 m (e + 2)) 10) ;;;
    print " and base " ;;; says (CPrintU32 (load32 m (e + 8)) 10) ;;; says CNewLine
  else if type =? 2 then
    print " - found io apic source with bus " ;;; says (CPrintU32 (load8 m (e + 2)) 10) ;;;
    print " and irq " ;;; says (CPrintU32 (load8 m (e + 3)) 10) ;;;
    print " and global system interrupt " ;;; says (CPrintU32 (load32 m (e + 4)) 10) ;;; says CNewLine
  else if type =? 3 then
    print " - found io apic non maskable with source " ;;; says (CPrintU32 (load8 m (e + 2)) 10) ;;;
    print " and global system interrupt " ;;; says (CPrintU32 (load32 m (e + 6)) 10) ;;; says CNewLine
  else if type =? 4 then
    print " - found local apic non maskable with processor target " ;;;
    says (CPrintU32 (load8 m (e + 2)) 10) ;;;
    print " and local interrupt " ;;; says (CPrintU32 (load8 m (e + 5)) 10) ;;; says CNewLine
  else if type =? 5 then
    print " - local apic 64 bit address 0x" ;;; says (CPrintU32 (u32 (load64 m (e + 4))) 16) ;;;
    says CNewLine
  else if type =? 9 then
    print " - found local processor with id " ;;; says (CPrintU32 (load32 m (e + 4)) 10) ;;;
    print " and x2apic id " ;;; says (CPrintU32 (load32 m (e + 12)) 10) ;;; says CNewLine
  else
    print " - madt entry of unknown type " ;;; says (CPrintU32 type 10) ;;; says CNewLine.

(** The comparison of the [int] counter with the [unsigned] length. *)
Fixpoint print_madt_loop (fuel : nat) (madt i : Z) : M (cpu_state A) unit :=
  match fuel with
  | O => hang
  | S fuel' =>
      let! m := gets s_mem in
      if u32 i <? sdt_length m madt then
        print_madt_entry (madt + i) ;;;
        print_madt_loop fuel' madt (s32 (i + madt_entry_length m (madt + i)))
      else ret tt
  end.

Definition acpi_print_madt (fuel : nat) (madt : Z) : M (cpu_state A) unit :=
  print "madt.local_apic_address = 0x" ;;;
  let! address := gets (λ s, madt_local_apic_address (s_mem s) madt) in
  says (CPrintU32 address 16) ;;;
  print nl ;;;
  print_madt_loop fuel madt sizeof_acpi_madt.

Definition acpi_print_sdt (fuel : nat) (sdt : Z) : M (cpu_state A) unit :=
  let! m := gets s_mem in
  let! sum := lift (acpi_validate_sdt m sdt) in
  (if truthy sum then print "!!INVALID!! " else ret tt) ;;;
  print "acpi table " ;;;
  says (CPrintLength (characters m sdt 4)) ;;;
  print " 0x" ;;;
  says (CPrintU32 (sdt_signature m sdt) 16) ;;;
  (if sdt_signature m sdt =? ACPI_MADT_SIGNATURE then acpi_print_madt fuel sdt else ret tt) ;;;
  print " at 0x" ;;;
  says (CPrintU64 sdt 16) ;;;
  says CNewLine.

Definition acpi_print_rsdt (fuel : nat) (rsdt : Z) : M (cpu_state A) unit :=
  let! m := gets s_mem in
  for_loop (Z.to_nat (acpi_rsdt_entry_count m rsdt)) 0
    (λ i, acpi_print_sdt fuel (rsdt_table_address m rsdt i)).

Definition acpi_print_xsdt (fuel : nat) (xsdt : Z) : M (cpu_state A) unit :=
  let! m := gets s_mem in
  for_loop (Z.to_nat (acpi_xsdt_entry_count m xsdt)) 0
    (λ i, acpi_print_sdt fuel (xsdt_table_address m xsdt i)).

Definition acpi_print_rsdtp (rsdtp : Z) : M (cpu_state A) unit :=
  let! m := gets s_mem in
  print "acpi rsdtp address: 0x" ;;; says (CPrintU64 rsdtp 16) ;;; says CNewLine ;;;
  print "acpi rsdtp revision: " ;;; says (CPrintU32 (load8 m (rsdtp + rsdtp_revision)) 10) ;;; says CNewLine ;;;
  print "acpi rsdt address: 0x" ;;; says (CPrintU32 (load32 m (rsdtp + rsdtp_address)) 16) ;;; says CNewLine ;;;
  print "acpi rsdtp oem: " ;;; says (CPrintLength (characters m (rsdtp + rsdtp_oem_id) 6)) ;;; says CNewLine.
End Printing.
