(* ===== verification/AcpiSpec.v ===== *)
(** * Correctness of the ACPI table code

    The search for the root pointer finds the first candidate, the checksums
    are the byte sums modulo 256, the table search returns the first table with
    the signature, and the MADT iteration enumerates the entries of a type. *)

From S2P Require Import Prelude Memory Acpi.

Implicit Type m : mem.

(** ** Root pointer *)

Lemma find_rsdt_loop_spec m n : ∀ a,
  (find_rsdt_loop n m a = 0 ∧ ∀ k, 0 ≤ k < Z.of_nat n → load64 m (a + 16 * k) ≠ ACPI_RSDTP_SIGNATURE) ∨
  ∃ k, 0 ≤ k < Z.of_nat n ∧ find_rsdt_loop n m a = a + 16 * k ∧
    load64 m (a + 16 * k) = ACPI_RSDTP_SIGNATURE ∧
    ∀ j, 0 ≤ j < k → load64 m (a + 16 * j) ≠ ACPI_RSDTP_SIGNATURE.
Proof.
  induction n as [|n IH]; intros a; cbn [find_rsdt_loop]; [left; split; [done|lia]|].
  destruct (Z.eqb_spec (load64 m a) ACPI_RSDTP_SIGNATURE) as [He|Hne].
  - right. exists 0. rewrite Z.add_0_r. split_and!; (done || lia).
  - assert (∀ j, 0 < j → a + 16 + 16 * (j - 1) = a + 16 * j) as Hj by lia.
    destruct (IH (a + 16)) as [[H0 H]|(k & Hk & Hr & Hs & H)].
    + left. split; [done|]. intros k Hk. destruct (decide (k = 0)) as [->|]; [by rewrite Z.add_0_r|].
      rewrite <- Hj by lia. apply H. lia.
    + right. exists (k + 1). rewrite <- (Hj (k + 1)) by lia. replace (k + 1 - 1) with k by lia.
      split_and!; [lia|lia|done|done|].
      intros j Hjk. destruct (decide (j = 0)) as [->|]; [by rewrite Z.add_0_r|].
      rewrite <- Hj by lia. apply H. lia.
Qed.

(** The addresses [acpi_find_rsdt_pointer] looks at. *)
Definition rsdt_candidate (a : Z) : Prop := 0x80000 ≤ a < 0xFFFFF ∧ a mod 16 = 0.

(** [acpi_find_rsdt_pointer] returns the lowest address of the search range, a multiple of 16 in
    0x80000 to 0xFFFFF, that holds "RSD PTR ", and 0 exactly when there is none. *)
Theorem acpi_find_rsdt_pointer_spec m :
  (acpi_find_rsdt_pointer m = 0 ∧ ∀ a, rsdt_candidate a → load64 m a ≠ ACPI_RSDTP_SIGNATURE) ∨
  (rsdt_candidate (acpi_find_rsdt_pointer m) ∧
   load64 m (acpi_find_rsdt_pointer m) = ACPI_RSDTP_SIGNATURE ∧
   ∀ a, rsdt_candidate a → load64 m a = ACPI_RSDTP_SIGNATURE → acpi_find_rsdt_pointer m ≤ a).
Proof.
  unfold acpi_find_rsdt_pointer. assert (Z.of_nat (Z.to_nat 0x8000) = 0x8000) as Hn by (rewrite Z2Nat.id; lia).
  assert (∀ a, rsdt_candidate a → ∃ k, 0 ≤ k < 0x8000 ∧ a = 0x80000 + 16 * k) as Hc.
  { intros a [H1 H2]. exists ((a - 0x80000) / 16). divmod_lia. }
  destruct (find_rsdt_loop_spec m (Z.to_nat 0x8000) 0x80000) as [[-> H]|(k & Hk & -> & Hs & H)];
    rewrite Hn in *; [left|right].
  - split; [done|]. intros a (j & Hj & ->)%Hc. auto.
  - split; [unfold rsdt_candidate; divmod_lia|]. split; [done|].
    intros a (j & Hj & ->)%Hc Ha. destruct (decide (j < k)); [|lia]. by destruct (H j ltac:(lia)).
Qed.

(** ** Checksums *)

Fixpoint byte_sum (n : nat) (m : mem) (a : Z) : Z :=
  match n with O => 0 | S n => load8 m a + byte_sum n m (a + 1) end.

Lemma sum_loop_mod k m n : ∀ a sum,
  0 < k → sum_loop (λ z, z mod k) n m a sum mod k = (sum + byte_sum n m a) mod k.
Proof.
  induction n as [|n IH]; intros a sum Hk; cbn [sum_loop byte_sum]; [by rewrite Z.add_0_r|].
  rewrite IH by done. rewrite Z.add_mod_idemp_l by lia. f_equal. lia.
Qed.

Lemma sum_loop_range k m n : ∀ a sum,
  0 < k → 0 ≤ sum < k → 0 ≤ sum_loop (λ z, z mod k) n m a sum < k.
Proof.
  induction n as [|n IH]; intros a sum Hk Hs; cbn [sum_loop]; [done|].
  apply IH; [done|]. apply Z.mod_pos_bound. done.
Qed.

(** The low byte of a 32-bit sum. *)
Lemma sum_loop_low_byte m n a :
  Z.land (sum_loop u32 n m a 0) 0xff = byte_sum n m a mod 2 ^ 8.
Proof.
  change 0xff with (2 ^ 8 - 1). rewrite land_ones_mod by lia.
  change (sum_loop u32 n m a 0) with (sum_loop (λ z, z mod 2 ^ 32) n m a 0).
  pose proof (sum_loop_mod (2 ^ 32) m n a 0 ltac:(lia)) as H.
  pose proof (sum_loop_range (2 ^ 32) m n a 0 ltac:(lia) ltac:(lia)) as Hr.
  rewrite (Z.mod_small _ (2 ^ 32) Hr) in H. rewrite H, Z.add_0_l. generalize (byte_sum n m a). intros z.
  divmod_lia.
Qed.

Lemma validate_sdt_sum m a : sdt_length m a < 2 ^ 31 →
  acpi_validate_sdt m a = Ok (byte_sum (Z.to_nat (sdt_length m a)) m a mod 2 ^ 8).
Proof.
  intros H. unfold acpi_validate_sdt. rewrite (proj2 (Z.leb_gt _ _)) by lia. f_equal.
  change (sum_loop u8 ?n m a 0) with (sum_loop (λ z, z mod 2 ^ 8) n m a 0).
  rewrite <- (Z.mod_small (sum_loop _ _ _ _ _) (2 ^ 8)) by (apply sum_loop_range; lia).
  by rewrite sum_loop_mod, Z.add_0_l by lia.
Qed.

Lemma validate_rsdt_pointer_sum m a : acpi_validate_rsdt_pointer m a = byte_sum 20 m a mod 2 ^ 8.
Proof. exact (sum_loop_low_byte m 20 a). Qed.

(** The three checksum functions compute the sum of the bytes of their structure modulo 256: 20
    bytes of the root pointer, 36 of the extended one, and the length in the header for a table. *)
Theorem acpi_checksums_are_byte_sums m a :
  acpi_validate_rsdt_pointer m a = byte_sum 20 m a mod 2 ^ 8 ∧
  acpi_validate_xsdt_pointer m a = byte_sum 36 m a mod 2 ^ 8 ∧
  acpi_validate_sdt m a =
    if decide (sdt_length m a < 2 ^ 31) then Ok (byte_sum (Z.to_nat (sdt_length m a)) m a mod 2 ^ 8) else Undef.
Proof.
  split; [|split].
  - apply validate_rsdt_pointer_sum.
  - exact (sum_loop_low_byte m 36 a).
  - case_decide; [by apply validate_sdt_sum|]. unfold acpi_validate_sdt. by rewrite (proj2 (Z.leb_le _ _)) by lia.
Qed.

(** ** Tables *)

Lemma get_table_loop_spec address m sig n : ∀ i,
  get_table_loop address n m i sig =
    default 0 (head (filter (λ t, sdt_signature m t = sig) (address <$> seqZ i (Z.of_nat n)))).
Proof.
  induction n as [|n IH]; intros i; [done|]. cbn [get_table_loop].
  rewrite (seqZ_cons i) by lia. replace (Z.pred (Z.of_nat (S n))) with (Z.of_nat n) by lia.
  rewrite fmap_cons, filter_cons. destruct (Z.eqb_spec (sdt_signature m (address i)) sig).
  - by rewrite decide_True.
  - rewrite decide_False by done. apply IH.
Qed.

(** Also a length below the size of the header gives no entries. *)
Lemma entry_count_nat m t k : k = 4 ∨ k = 8 →
  Z.to_nat (s32 (u64 (sdt_length m t - sizeof_acpi_sdt) / k)) =
    Z.to_nat ((sdt_length m t - sizeof_acpi_sdt) / k).
Proof.
  intros Hk. pose proof (load_range 4 m (t + 4)) as Hl.
  change (load 4 m (t + 4)) with (sdt_length m t) in Hl. cbn [Z.of_nat Z.mul] in Hl.
  unfold sizeof_acpi_sdt in *. destruct (decide (36 ≤ sdt_length m t)).
  - rewrite u64_small, s32_small by (destruct Hk as [->| ->]; divmod_lia). done.
  - transitivity 0%nat; [|destruct Hk as [->| ->]; divmod_lia].
    assert (s32 (u64 (sdt_length m t - 36) / k) < 0); [|lia].
    unfold s32, u64. destruct Hk as [->| ->]; divmod_lia.
Qed.

Definition rsdt_tables m rsdt : list Z :=
  rsdt_table_address m rsdt <$> seqZ 0 ((sdt_length m rsdt - sizeof_acpi_sdt) / 4).
Definition xsdt_tables m xsdt : list Z :=
  xsdt_table_address m xsdt <$> seqZ 0 ((sdt_length m xsdt - sizeof_acpi_sdt) / 8).

Lemma seqZ_to_nat i n : seqZ i (Z.of_nat (Z.to_nat n)) = seqZ i n.
Proof. unfold seqZ. by rewrite Nat2Z.id. Qed.

Lemma rsdt_get_table_first m root sig :
  acpi_rsdt_get_table m root sig = default 0 (head (filter (λ t, sdt_signature m t = sig) (rsdt_tables m root))).
Proof.
  unfold acpi_rsdt_get_table, acpi_rsdt_entry_count. by rewrite entry_count_nat, get_table_loop_spec, seqZ_to_nat by auto.
Qed.

(** [acpi_rsdt_get_table] and [acpi_xsdt_get_table] return the first table, in the order of the
    root table, that has the signature, and 0 when none has; a root table that claims to be shorter than
    its header has no entries. *)
Theorem acpi_get_table_finds_first m root sig :
  acpi_rsdt_get_table m root sig =
    default 0 (head (filter (λ t, sdt_signature m t = sig) (rsdt_tables m root))) ∧
  acpi_xsdt_get_table m root sig =
    default 0 (head (filter (λ t, sdt_signature m t = sig) (xsdt_tables m root))).
Proof.
  split; [apply rsdt_get_table_first|]. unfold acpi_xsdt_get_table, acpi_xsdt_entry_count.
  by rewrite entry_count_nat, get_table_loop_spec, seqZ_to_nat by auto.
Qed.

(** ** MADT entries *)

(** From the entry [e] on the table consists of the entries [e :: l], each
    [length] bytes behind the previous one, the last one ending at or behind
    [stop]. *)
Fixpoint entry_chain m (stop e : Z) (l : list Z) : Prop :=
  0 < e ∧ e + 2 ^ 8 < 2 ^ 64 ∧
  match l with
  | [] => stop ≤ e + madt_entry_length m e
  | e' :: l => e' = e + madt_entry_length m e ∧ e' < stop ∧ entry_chain m stop e' l
  end.

(** The entries of a MADT that has at least one and does not wrap around. *)
Definition madt_entries m madt (l : list Z) : Prop :=
  0 ≤ madt ∧ madt + sdt_length m madt < 2 ^ 64 ∧
  match l with
  | [] => False
  | e :: l => e = madt + sizeof_acpi_madt ∧ entry_chain m (madt + sdt_length m madt) e l
  end.

Lemma madt_iterate_next m madt e l :
  0 ≤ madt → madt + sdt_length m madt < 2 ^ 64 → entry_chain m (madt + sdt_length m madt) e l →
  acpi_madt_iterate m madt e = default 0 (head l).
Proof.
  intros Hm Hl Hc. unfold acpi_madt_iterate. pose proof (load8_range m (e + 1)) as Hb.
  change (load8 m (e + 1)) with (madt_entry_length m e) in Hb.
  pose proof (load_range 4 m (madt + 4)) as Hlen. change (load 4 m (madt + 4)) with (sdt_length m madt) in Hlen.
  destruct l as [|e' l]; destruct Hc as (He & Hw & Hc).
  - rewrite (proj2 (Z.eqb_neq e 0)), !u64_small by lia. by rewrite (proj2 (Z.leb_le _ _)).
  - destruct Hc as (He' & Hs & _).
    rewrite (proj2 (Z.eqb_neq e 0)), !u64_small, (proj2 (Z.leb_gt _ _)) by lia. done.
Qed.

(** Entries of a type. *)
Definition of_type m (ty : Z) (l : list Z) : list Z := filter (λ e, madt_entry_type m e = ty) l.

Lemma entry_chain_positive m stop l : ∀ e, entry_chain m stop e l → 0 < e.
Proof. destruct l; intros e Hc; by destruct Hc as (He & _). Qed.

Lemma madt_iterate_type_chain m madt ty l : ∀ e fuel,
  0 ≤ madt → madt + sdt_length m madt < 2 ^ 64 → entry_chain m (madt + sdt_length m madt) e l →
  (length l < fuel)%nat →
  acpi_madt_iterate_type fuel m madt e ty = Ok (default 0 (head (of_type m ty l))).
Proof.
  induction l as [|e' l IH]; intros e [|fuel] Hm Hl Hc Hf; cbn [length] in Hf; try lia;
    cbn [acpi_madt_iterate_type]; rewrite (madt_iterate_next _ _ _ _ Hm Hl Hc); cbn [head default]; [done|].
  destruct Hc as (He & Hw & He' & Hs & Hc).
  pose proof (entry_chain_positive _ _ _ _ Hc).
  unfold id. rewrite (proj2 (truthy_spec e')) by lia. cbn [andb].
  unfold of_type. rewrite filter_cons. destruct (Z.eqb_spec (madt_entry_type m e') ty).
  - by rewrite decide_True.
  - rewrite decide_False by done. cbn [negb]. apply IH; (done || lia).
Qed.

Lemma madt_iterate_type_start m madt ty l fuel :
  madt_entries m madt l → (length l < fuel)%nat →
  acpi_madt_iterate_type fuel m madt 0 ty = Ok (default 0 (head (of_type m ty l))).
Proof.
  intros (Hm & Hl & Hc) Hf. destruct l as [|e l]; [done|]. destruct Hc as [He Hc].
  destruct fuel as [|fuel]; [cbn in Hf; lia|]. cbn [length] in Hf.
  pose proof (entry_chain_positive _ _ _ _ Hc) as Hpos.
  assert (e + 2 ^ 8 < 2 ^ 64) as Hw by (destruct l; apply Hc).
  cbn [acpi_madt_iterate_type].
  assert (acpi_madt_iterate m madt 0 = e) as ->.
  { unfold acpi_madt_iterate. cbn [Z.eqb]. unfold sizeof_acpi_madt in *. rewrite u64_small; lia. }
  rewrite (proj2 (truthy_spec e)) by lia. cbn [andb]. unfold of_type. rewrite filter_cons.
  destruct (Z.eqb_spec (madt_entry_type m e) ty).
  - by rewrite decide_True.
  - rewrite decide_False by done. cbn [negb]. apply madt_iterate_type_chain; (done || lia).
Qed.

(** The loop [while (e = acpi_madt_iterate_type(madt, e, type)) ...] of
    [kernel_main]: the entries it visits. *)
Fixpoint visit_entries (n fuel : nat) m (madt e ty : Z) : outcome (list Z) :=
  match n with
  | O => Hang
  | S n' =>
      match acpi_madt_iterate_type fuel m madt e ty with
      | Ok next =>
          if truthy next then
            match visit_entries n' fuel m madt next ty with
            | Ok l => Ok (next :: l) | Undef => Undef | Hang => Hang
            end
          else Ok []
      | Undef => Undef
      | Hang => Hang
      end
  end.

(** The part of the chain behind its first entry of the type. *)
Lemma of_type_split m stop ty l : ∀ e,
  entry_chain m stop e l →
  of_type m ty l = [] ∨
  ∃ e' l', of_type m ty l = e' :: of_type m ty l' ∧ entry_chain m stop e' l' ∧ (length l' < length l)%nat.
Proof.
  induction l as [|e' l IH]; intros e Hc; [by left|].
  destruct Hc as (_ & _ & _ & _ & Hc). unfold of_type. rewrite filter_cons.
  destruct (decide (madt_entry_type m e' = ty)).
  - right. exists e', l. split_and!; [done..|cbn; lia].
  - destruct (IH e' Hc) as [H|(e'' & l' & H & Hc' & Hl)]; [by left|].
    right. exists e'', l'. split_and!; [done..|cbn; lia].
Qed.

Lemma visit_chain m madt ty n : ∀ l e fuel,
  0 ≤ madt → madt + sdt_length m madt < 2 ^ 64 → entry_chain m (madt + sdt_length m madt) e l →
  (length l < fuel)%nat → (length l < n)%nat →
  visit_entries n fuel m madt e ty = Ok (of_type m ty l).
Proof.
  induction n as [|n IH]; intros l e fuel Hm Hl Hc Hf Hn; [lia|]. cbn [visit_entries].
  rewrite (madt_iterate_type_chain m madt ty l e fuel Hm Hl Hc Hf).
  destruct (of_type_split m _ ty l e Hc) as [->|(e' & l' & -> & Hc' & Hlt)]; [done|].
  change (default 0 (head (e' :: ?k))) with e'. cbv iota beta.
  pose proof (entry_chain_positive _ _ _ _ Hc'). rewrite (proj2 (truthy_spec e')) by lia.
  rewrite (IH l' e' fuel Hm Hl Hc') by lia. done.
Qed.

(** C26. Iterating over a MADT from the start visits exactly the entries of the type, each once and in
    the order of the table, and ends. *)
Theorem acpi_madt_iterate_type_enumerates m madt ty l n fuel :
  madt_entries m madt l → (length l < fuel)%nat → (length l < n)%nat →
  visit_entries n fuel m madt 0 ty = Ok (of_type m ty l).
Proof.
  intros Hd Hf Hn. destruct n as [|n]; [lia|]. cbn [visit_entries].
  rewrite (madt_iterate_type_start m madt ty l fuel Hd Hf).
  destruct Hd as (Hm & Hl & Hd). destruct l as [|e l]; [done|]. destruct Hd as [_ Hc]. cbn [length] in *.
  unfold of_type. rewrite filter_cons. destruct (decide (madt_entry_type m e = ty)).
  - cbn [head]. change (default 0 (Some e)) with e.
    pose proof (entry_chain_positive _ _ _ _ Hc). rewrite (proj2 (truthy_spec e)) by lia.
    rewrite (visit_chain m madt ty n l e fuel Hm Hl Hc) by lia. done.
  - fold (of_type m ty l).
    destruct (of_type_split m _ ty l e Hc) as [->|(e' & l' & -> & Hc' & Hlt)]; [done|].
    change (default 0 (head (e' :: ?k))) with e'. cbv iota beta.
    pose proof (entry_chain_positive _ _ _ _ Hc'). rewrite (proj2 (truthy_spec e')) by lia.
    rewrite (visit_chain m madt ty n l' e' fuel Hm Hl Hc') by lia. done.
Qed.

(** An entry of length 0 inside the table makes the iteration look at itself for ever: the
    search for a type it does not have never returns. *)
Theorem acpi_madt_zero_length_hangs m madt e ty fuel :
  0 < e < 2 ^ 64 → e < u64 (madt + sdt_length m madt) → madt_entry_length m e = 0 →
  madt_entry_type m e ≠ ty → acpi_madt_iterate_type fuel m madt e ty = Hang.
Proof.
  intros He Hs Hl Ht. induction fuel as [|fuel IH]; [done|]. cbn [acpi_madt_iterate_type].
  assert (acpi_madt_iterate m madt e = e) as ->.
  { unfold acpi_madt_iterate. rewrite (proj2 (Z.eqb_neq e 0)), Hl, Z.add_0_r, (u64_small e) by lia.
    by rewrite (proj2 (Z.leb_gt _ _)). }
  rewrite (proj2 (truthy_spec e)), (proj2 (Z.eqb_neq _ _)) by (done || lia). exact IH.
Qed.

(** ** A MADT with a local APIC, an IO APIC and another local APIC *)

Definition madt0 : mem :=
  let m := store 4 ∅ 0x5004 72 in
  let m := store8 (store8 m 0x502C 0) 0x502D 8 in
  let m := store8 (store8 m 0x5034 1) 0x5035 12 in
  store8 (store8 m 0x5040 0) 0x5041 8.

Lemma acpi_madt_iterate_type_enumerates_witness :
  madt_entries madt0 0x5000 [0x502C; 0x5034; 0x5040] ∧
  visit_entries 4 4 madt0 0x5000 0 ACPI_MADT_TYPE_LOCAL_APIC = Ok [0x502C; 0x5040].
Proof.
  assert (madt_entries madt0 0x5000 [0x502C; 0x5034; 0x5040]) as H.
  { cbn [madt_entries entry_chain]. repeat split; vm_compute; (reflexivity || discriminate). }
  split; [exact H|].
  refine (eq_trans (acpi_madt_iterate_type_enumerates madt0 0x5000 0 _ 4 4 H _ _) _); [cbn; lia..|].
  by vm_compute.
Defined.

Lemma acpi_madt_zero_length_hangs_witness :
  acpi_madt_iterate_type 1000 (store 4 ∅ 0x5004 72) 0x5000 0x502C 1 = Hang.
Proof. apply acpi_madt_zero_length_hangs; vm_compute; (done || discriminate). Defined.

(** ** Observations *)

(** The first entry is returned without a look at the length of the table. *)
Example empty_madt_has_an_entry :
  acpi_madt_iterate (store 4 ∅ 0x5004 44) 0x5000 0 = 0x502C.
Proof. by vm_compute. Qed.

(** The signature called "ACPI" in a comment of [acpi.h] is "APIC". *)
Example madt_signature_text :
  ACPI_MADT_SIGNATURE = le_value [65; 80; 73; 67].
Proof. by vm_compute. Qed.
