(* ===== verification/Util.v ===== *)
(** * Strings and number formatting

    Models [src/src/common/util.c]. Strings live in the byte memory of
    [Memory]; a function that writes returns the new memory. A [char] is signed
    on the target. Loops over NUL-terminated strings and the digit loops take
    fuel; [UtilSpec] shows how much is enough. *)

From S2P Require Import Prelude Memory.

(** ** util.h *)

Definition ALIGN_TO_PREVIOUS (n to : Z) : Z := Z.land n (u64 (- to)).
Definition ALIGN_TO_NEXT (n to : Z) : Z := u64 (Z.land (u64 (n - 1)) (u64 (- to)) + to).
Definition IS_ALIGNED (n to : Z) : bool := Z.land n (u64 (to - 1)) =? 0.

(** ** Strings *)

Fixpoint string_length_loop (fuel : nat) (m : mem) (str i : Z) : outcome Z :=
  match fuel with
  | O => Hang
  | S fuel' => if load8 m str =? 0 then Ok i else string_length_loop fuel' m (str + 1) (u64 (i + 1))
  end.

Definition string_length (fuel : nat) (m : mem) (str : Z) : outcome Z := string_length_loop fuel m str 0.

Fixpoint string_compare (fuel : nat) (m : mem) (a b : Z) : outcome Z :=
  match fuel with
  | O => Hang
  | S fuel' =>
      let ca := s8 (load8 m a) in
      let cb := s8 (load8 m b) in
      let d := cb - ca in
      if truthy d then Ok d
      else if negb (truthy ca) || negb (truthy cb) then Ok (if ca =? cb then 0 else 1)
      else string_compare fuel' m (a + 1) (b + 1)
  end.

Fixpoint reverse_loop (n : nat) (m : mem) (buffer size j : Z) : mem :=
  match n with
  | O => m
  | S n' =>
      let t := load8 m (buffer + j) in
      let m := store8 m (buffer + j) (load8 m (buffer + (size - j - 1))) in
      let m := store8 m (buffer + (size - j - 1)) t in
      reverse_loop n' m buffer size (j + 1)
  end.

(** [size / 2] swaps, none when [size] is negative. *)
Definition string_reverse (m : mem) (buffer size : Z) : mem :=
  reverse_loop (Z.to_nat (Z.quot size 2)) m buffer size 0.

(** ** Numbers *)

Definition digit_char (digit : Z) : Z := if 9 <? digit then 65 + digit - 10 else 48 + digit.

(** The [do ... while (num != 0)] loop. [num] and [base] are the operands
    after the usual conversions; division truncates. *)
Fixpoint digit_loop (fuel : nat) (m : mem) (destination i num base : Z) : outcome (Z * mem) :=
  match fuel with
  | O => Hang
  | S fuel' =>
      if base =? 0 then Undef
      else
        let digit := s32 (Z.rem num base) in
        let num := Z.quot num base in
        let m := store8 m (destination + i) (digit_char digit) in
        if truthy num then digit_loop fuel' m destination (i + 1) num base else Ok (i + 1, m)
  end.

(** [string_reverse(destination, i); destination[i] = '\0'; return i;] *)
Definition finish_number (m : mem) (destination i : Z) : Z * mem :=
  (i, store8 (string_reverse m destination i) (destination + i) 0).

(** The longest result has 64 digits, in base 2. *)
Definition digit_fuel : nat := 64.

(** The sign handling shared by the two signed functions; [wrap] is the
    conversion to the type of [num], as [-num] performs it. *)
Definition string_from_signed (wrap : Z → Z) (m : mem) (destination num base : Z) : outcome (Z * mem) :=
  let isSigned := num <? 0 in
  let num := if isSigned then wrap (- num) else num in
  match digit_loop digit_fuel m destination 0 num base with
  | Ok (i, m) =>
      if isSigned then Ok (finish_number (store8 m (destination + i) 45) destination (i + 1))
      else Ok (finish_number m destination i)
  | Undef => Undef
  | Hang => Hang
  end.

Definition string_from_i32 (m : mem) (destination num base : Z) : outcome (Z * mem) :=
  string_from_signed s32 m destination num base.

Definition string_from_i64 (m : mem) (destination num base : Z) : outcome (Z * mem) :=
  string_from_signed s64 m destination num base.

Definition string_from_unsigned (m : mem) (destination num base : Z) : outcome (Z * mem) :=
  match digit_loop digit_fuel m destination 0 num base with
  | Ok (i, m) => Ok (finish_number m destination i)
  | Undef => Undef
  | Hang => Hang
  end.

(** [base] is converted to the type of [num] before the division. *)
Definition string_from_u32 (m : mem) (destination num base : Z) : outcome (Z * mem) :=
  string_from_unsigned m destination num (u32 base).

Definition string_from_u64 (m : mem) (destination num base : Z) : outcome (Z * mem) :=
  string_from_unsigned m destination num (u64 base).

(** ** Formatting *)

(** What a directive after the [%] asks for: the signedness flag, the base and
    the position of the conversion character. *)
Definition format_prefix (m : mem) (c : Z) : bool * Z * Z :=
  let unsign := load8 m c =? 117 in
  let c := if unsign then c + 1 else c in
  if load8 m c =? 98 then (unsign, 2, c + 1)
  else if load8 m c =? 104 then (unsign, 16, c + 1)
  else if load8 m c =? 111 then (unsign, 8, c + 1)
  else (unsign, 10, c).

(** One directive: the memory, the next destination and the arguments left.
    Arguments are the 64-bit values passed; [va_arg] past the last one is
    undefined. *)
Definition format_directive (m : mem) (destination : Z) (unsign : bool) (base conversion : Z) (args : list Z)
    : outcome (mem * Z * list Z) :=
  let emit (r : outcome (Z * mem)) (rest : list Z) :=
    match r with
    | Ok (n, m) => Ok (m, destination + n, rest)
    | Undef => Undef
    | Hang => Hang
    end in
  if conversion =? 105 then
    match args with
    | [] => Undef
    | v :: rest =>
        if unsign then emit (string_from_u32 m destination (u32 v) base) rest
        else emit (string_from_i32 m destination (s32 v) base) rest
    end
  else if conversion =? 108 then
    match args with
    | [] => Undef
    | v :: rest =>
        if unsign then emit (string_from_u64 m destination (u64 v) base) rest
        else emit (string_from_i64 m destination (s64 v) base) rest
    end
  else if conversion =? 112 then
    match args with
    | [] => Undef
    | v :: rest => emit (string_from_u64 m destination (u64 v) 16) rest
    end
  else if conversion =? 37 then Ok (store8 m destination 37, destination + 1, args)
  else Ok (m, destination, args).

(** The loop over the format string; a directive's last character is stepped
    over by the [c++] of the loop, whatever it is. No terminator is written. *)
Fixpoint string_format_args (fuel : nat) (m : mem) (destination c : Z) (args : list Z) : outcome (mem * Z) :=
  match fuel with
  | O => Hang
  | S fuel' =>
      if load8 m c =? 0 then Ok (m, destination)
      else if load8 m c =? 37 then
        let '(unsign, base, c) := format_prefix m (c + 1) in
        match format_directive m destination unsign base (load8 m c) args with
        | Ok (m, destination, args) => string_format_args fuel' m destination (c + 1) args
        | Undef => Undef
        | Hang => Hang
        end
      else string_format_args fuel' (store8 m destination (load8 m c)) (destination + 1) (c + 1) args
  end.

Definition string_format (fuel : nat) (m : mem) (destination format : Z) (args : list Z) : outcome (mem * Z) :=
  string_format_args fuel m destination format args.
