(* ===== verification/UtilSpec.v ===== *)
(** * Correctness of the string functions

    The text that the number functions of [Util] write: it is the canonical
    numeral of the argument, it is terminated, nothing outside it changes, and
    the loops terminate within their fuel. *)

From S2P Require Import Prelude Memory Util.

(** ** Text in memory *)

(** The bytes at [a] are [l]. *)
Definition holds (m : mem) (a : Z) (l : list Z) : Prop :=
  ∀ k x, l !! k = Some x → load8 m (a + Z.of_nat k) = x.

(** Outside [a .. a + n - 1], [m'] is [m]. *)
Definition same_outside (a n : Z) (m m' : mem) : Prop :=
  ∀ b, ¬ (a ≤ b < a + n) → load8 m' b = load8 m b.

Lemma holds_cons m a x l : holds m a (x :: l) ↔ load8 m a = x ∧ holds m (a + 1) l.
Proof.
  split.
  - intros H. split; [specialize (H 0%nat x eq_refl); by rewrite Z.add_0_r in H|].
    intros k y Hk. specialize (H (S k) y Hk). by replace (a + 1 + Z.of_nat k) with (a + Z.of_nat (S k)) by lia.
  - intros [Hx Hl] [|k] y Hk; cbn in Hk; [injection Hk as <-; by rewrite Z.add_0_r|].
    specialize (Hl k y Hk). by replace (a + Z.of_nat (S k)) with (a + 1 + Z.of_nat k) by lia.
Qed.

Lemma holds_app m a l1 l2 : holds m a (l1 ++ l2) ↔ holds m a l1 ∧ holds m (a + Z.of_nat (length l1)) l2.
Proof.
  revert a. induction l1 as [|x l1 IH]; intros a; cbn [app length].
  - rewrite Z.add_0_r. split; [|by intros [_ ?]]. intros H. split; [by intros k y|done].
  - rewrite !holds_cons, IH. replace (a + 1 + Z.of_nat (length l1)) with (a + Z.of_nat (S (length l1))) by lia. tauto.
Qed.

Lemma holds_same m m' a n l : holds m a l → same_outside (a + Z.of_nat (length l)) n m m' → holds m' a l.
Proof.
  intros H Hs k x Hk. rewrite Hs; [by apply H|]. apply lookup_lt_Some in Hk. lia.
Qed.

Lemma same_outside_trans a1 n1 a2 n2 a n m1 m2 m3 :
  same_outside a1 n1 m1 m2 → same_outside a2 n2 m2 m3 →
  a ≤ a1 → a1 + n1 ≤ a + n → a ≤ a2 → a2 + n2 ≤ a + n → same_outside a n m1 m3.
Proof. intros H1 H2 ? ? ? ? b Hb. rewrite H2, H1 by lia. done. Qed.

Lemma same_outside_store8 m a v : same_outside a 1 m (store8 m a v).
Proof. intros b Hb. apply load8_store8_ne. lia. Qed.

(** ** [string_reverse] *)

Lemma reverse_loop_ok n : ∀ m a size j,
  0 ≤ j → 2 * (j + Z.of_nat n) ≤ size →
  ∀ p, load8 (reverse_loop n m a size j) (a + p) =
    load8 m (a + if decide (j ≤ p < j + Z.of_nat n ∨ size - j - Z.of_nat n ≤ p < size - j)
                 then size - 1 - p else p).
Proof.
  induction n as [|n IH]; intros m a size j Hj Hs p; cbn [reverse_loop].
  - rewrite decide_False by lia. done.
  - rewrite IH by lia. assert (∀ q, load8 (store8 (store8 m (a + j) (load8 m (a + (size - j - 1))))
      (a + (size - j - 1)) (load8 m (a + j))) (a + q) =
      load8 m (a + if decide (q = j ∨ q = size - j - 1) then size - 1 - q else q)) as Hswap.
    { intros q. destruct (decide (q = size - j - 1)) as [->|Hq].
      - rewrite load8_store8_eq, decide_True by lia. rewrite u8_small by apply load8_range. do 2 f_equal. lia.
      - rewrite load8_store8_ne by lia. destruct (decide (q = j)) as [->|Hq'].
        + rewrite load8_store8_eq, decide_True by lia. rewrite u8_small by apply load8_range. do 2 f_equal. lia.
        + rewrite load8_store8_ne, decide_False by lia. done. }
    rewrite Hswap. do 2 f_equal. repeat case_decide; lia.
Qed.

Lemma string_reverse_holds m a l :
  holds m a l → holds (string_reverse m a (Z.of_nat (length l))) a (reverse l).
Proof.
  intros H k x Hk. set (n := length l) in *.
  assert (k < n)%nat as Hlt by (apply lookup_lt_Some in Hk; by rewrite length_reverse in Hk).
  unfold string_reverse. rewrite Z.quot_div_nonneg by lia. rewrite reverse_loop_ok by divmod_lia.
  assert (l !! (n - 1 - k)%nat = Some x) as Hx.
  { rewrite reverse_lookup in Hk by done. replace (n - 1 - k)%nat with (n - S k)%nat by lia. done. }
  apply H in Hx. rewrite <- Hx. do 2 f_equal.
  destruct (decide _) as [_|Hd]; [lia|].
  assert (Z.of_nat n = 2 * (Z.of_nat n / 2) + 1 ∧ Z.of_nat k = Z.of_nat n / 2) as [? ?]; [|lia].
  rewrite Z2Nat.id in Hd by divmod_lia. divmod_lia.
Qed.

Lemma string_reverse_outside m a n : 0 ≤ n → same_outside a n m (string_reverse m a n).
Proof.
  intros Hn b Hb. unfold string_reverse. rewrite Z.quot_div_nonneg by lia.
  replace b with (a + (b - a)) at 1 by lia. rewrite reverse_loop_ok by divmod_lia.
  rewrite Z2Nat.id by divmod_lia. rewrite decide_False by divmod_lia. f_equal. lia.
Qed.

(** ** Digits *)

(** The value of a list of digits, least significant first. *)
Fixpoint value (base : Z) (l : list Z) : Z :=
  match l with [] => 0 | d :: l => d + base * value base l end.

Definition char_digit (c : Z) : Z := if c <=? 57 then c - 48 else c - 55.

Lemma char_digit_char d : 0 ≤ d < 36 → char_digit (digit_char d) = d ∧ 0 < digit_char d < 128.
Proof.
  intros Hd. unfold char_digit, digit_char. destruct (Z.ltb_spec 9 d).
  - rewrite (proj2 (Z.leb_gt _ _)) by lia. lia.
  - rewrite (proj2 (Z.leb_le _ _)) by lia. lia.
Qed.

(** [l] is the canonical list of digits of [num]. *)
Definition digits (base num : Z) (l : list Z) : Prop :=
  Forall (λ d, 0 ≤ d < base) l ∧ value base l = num ∧ l ≠ [] ∧ (num ≠ 0 → list.last l ≠ Some 0) ∧ (num = 0 → l = [0]).

Lemma digit_step base num l :
  2 ≤ base → 0 < num / base → 0 ≤ num → digits base (num / base) l → digits base num (num mod base :: l).
Proof.
  intros Hb Hq Hn (Hd & Hv & Hne & Hl & _). split; [|split; [|split; [done|split]]].
  - apply list.Forall_cons. split; [apply Z.mod_pos_bound; lia|done].
  - cbn [value]. rewrite Hv. pose proof (Z.div_mod num base). lia.
  - intros _. rewrite last_cons. destruct (list.last l) as [x|] eqn:E; [|by apply last_None in E].
    intros [= ->]. by apply Hl; [lia|].
  - intros ->. rewrite Z.div_0_l in Hq by lia. lia.
Qed.

Lemma digit_loop_ok fuel : ∀ m a i num base,
  2 ≤ base ≤ 36 → 0 ≤ num < base ^ Z.of_nat fuel → (0 < fuel)%nat →
  ∃ l m', digit_loop fuel m a i num base = Ok (i + Z.of_nat (length l), m') ∧
    digits base num l ∧ (length l ≤ fuel)%nat ∧
    holds m' (a + i) (digit_char <$> l) ∧ same_outside (a + i) (Z.of_nat (length l)) m m'.
Proof.
  induction fuel as [|fuel IH]; intros m a i num base Hb Hn Hf; [lia|]. cbn [digit_loop].
  rewrite (proj2 (Z.eqb_neq base 0)) by lia. rewrite Z.rem_mod_nonneg, Z.quot_div_nonneg by lia.
  pose proof (Z.mod_pos_bound num base ltac:(lia)) as Hmod. rewrite s32_small by lia.
  destruct (char_digit_char (num mod base) ltac:(lia)) as [_ Hc].
  set (m1 := store8 m (a + i) _).
  assert (load8 m1 (a + i) = digit_char (num mod base)) as Hm1.
  { unfold m1. rewrite load8_store8_eq. apply u8_small. lia. }
  assert (same_outside (a + i) 1 m m1) as Ho by apply same_outside_store8.
  assert (0 ≤ num / base) as Hq0 by (apply Z.div_pos; lia).
  destruct (Z.eq_dec (num / base) 0) as [Hq|Hq].
  - rewrite Hq. cbn [truthy Z.eqb negb]. exists [num mod base], m1. split; [done|].
    assert (num mod base = num) as Hs by (pose proof (Z.div_mod num base); lia).
    split; [|split; [cbn; lia|split; [apply holds_cons; split; [done|by intros k x]|done]]].
    rewrite Hs. split; [apply list.Forall_cons; split; [lia|done]|]. cbn [value]. split; [lia|].
    split; [done|]. split; [intros ? [= ?]; lia|]. by intros ->.
  - rewrite (proj2 (truthy_spec _) Hq).
    assert (num < base * base ^ Z.of_nat fuel) as Hlt by (rewrite <- Z.pow_succ_r, <- Nat2Z.inj_succ by lia; lia).
    assert (num / base < base ^ Z.of_nat fuel) as Hq1 by (by apply Z.div_lt_upper_bound; [lia|]).
    destruct (IH m1 a (i + 1) (num / base) base Hb) as (l & m2 & Hr & Hd & Hlen & Hh & Ho2); [lia| |].
    { destruct fuel; [|lia]. cbn in Hq1. lia. }
    exists (num mod base :: l), m2. split; [rewrite Hr; do 2 f_equal; cbn [length]; lia|].
    split; [by apply digit_step; [lia|lia|lia|]|]. split; [cbn [length]; lia|].
    rewrite Z.add_assoc in Hh, Ho2. split.
    + cbn [fmap list_fmap]. apply holds_cons. split; [|done]. rewrite Ho2 by lia. done.
    + cbn [length]. eapply same_outside_trans; [exact Ho|exact Ho2|lia..].
Qed.

Lemma finish_number_ok m a l :
  holds m a l →
  let '(i, m') := finish_number m a (Z.of_nat (length l)) in
  i = Z.of_nat (length l) ∧ holds m' a (reverse l ++ [0]) ∧ same_outside a (Z.of_nat (length l) + 1) m m'.
Proof.
  intros H. unfold finish_number. split; [done|]. split.
  - apply holds_app. rewrite length_reverse. split.
    + apply (holds_same (string_reverse m a (Z.of_nat (length l))) _ a 1); [by apply string_reverse_holds|].
      rewrite length_reverse. apply same_outside_store8.
    + apply holds_cons. split; [by rewrite load8_store8_eq|by intros k x].
  - eapply same_outside_trans; [apply string_reverse_outside|apply same_outside_store8|..]; lia.
Qed.

(** ** Numerals *)

(** The value of a numeral, most significant digit first. *)
Definition parse_numeral (base : Z) (text : list Z) : Z := value base (char_digit <$> reverse text).

(** Canonical: digits of the base only, no leading zero but for "0". *)
Definition canonical (base : Z) (text : list Z) : Prop :=
  text ≠ [] ∧ Forall (λ c, 0 ≤ char_digit c < base ∧ 0 < c < 128) text ∧
  (list.head text = Some 48 → text = [48]).

Lemma digits_numeral base num l : 2 ≤ base ≤ 36 → digits base num l →
  canonical base (reverse (digit_char <$> l)) ∧ parse_numeral base (reverse (digit_char <$> l)) = num.
Proof.
  intros Hb (Hd & Hv & Hne & Hl & Hz). split; [split; [|split]|].
  - intros Hr. apply (f_equal length) in Hr. rewrite length_reverse, length_fmap in Hr. by destruct l.
  - apply Forall_reverse, Forall_fmap. eapply list.Forall_impl; [exact Hd|]. intros d Hd'. cbn in Hd' |- *.
    destruct (char_digit_char d ltac:(lia)) as [-> ?]. lia.
  - intros Hh. rewrite head_reverse, fmap_last in Hh.
    destruct (list.last l) as [d|] eqn:E; [|done]. cbn in Hh. injection Hh as Hh.
    assert (0 ≤ d < base) as Hdr.
    { rewrite list.Forall_forall in Hd. apply Hd. rewrite last_lookup in E. by eapply list_elem_of_lookup_2. }
    assert (d = 0) as -> by (destruct (char_digit_char d ltac:(lia)) as [H _]; rewrite Hh in H; by rewrite <- H).
    destruct (Z.eq_dec num 0) as [H0|H0]; [by rewrite (Hz H0)|]. by apply Hl in H0.
  - unfold parse_numeral. rewrite reverse_involutive, <- list_fmap_compose, <- Hv. f_equal. clear -Hd Hb.
    induction Hd as [|d l Hd _ IH]; [done|]. cbn. rewrite IH. f_equal. apply char_digit_char. lia.
Qed.

(** A canonical list of digits is no longer than the number is in binary. *)
Lemma value_lower base l : 2 ≤ base → Forall (λ d, 0 ≤ d < base) l → l ≠ [] → list.last l ≠ Some 0 →
  2 ^ Z.of_nat (length l - 1) ≤ value base l.
Proof.
  intros Hb Hd. induction Hd as [|d l Hd HF IH]; intros Hne Hl; [done|]. cbn [value].
  destruct l as [|d' l].
  - cbn. cbn in Hl. assert (d ≠ 0) by congruence. lia.
  - assert (2 ^ Z.of_nat (length (d' :: l) - 1) ≤ value base (d' :: l)) as H.
    { apply IH; [done|]. intros H. apply Hl. by rewrite last_cons, H. }
    replace (length (d :: d' :: l) - 1)%nat with (S (length (d' :: l) - 1)) by (cbn; lia).
    rewrite Nat2Z.inj_succ, Z.pow_succ_r by lia. nia.
Qed.

Lemma digits_length base num l k : 2 ≤ base → digits base num l → 0 ≤ num < 2 ^ k → 1 ≤ k →
  Z.of_nat (length l) ≤ k.
Proof.
  intros Hb (Hd & Hv & Hne & Hl & Hz) Hn Hk. destruct (Z.eq_dec num 0) as [H0|H0]; [rewrite (Hz H0); cbn; lia|].
  pose proof (value_lower base l Hb Hd Hne (Hl H0)) as Hlow. rewrite Hv in Hlow.
  assert (2 ^ Z.of_nat (length l - 1) < 2 ^ k) as Hlt by lia. apply Z.pow_lt_mono_r_iff in Hlt; [|lia|lia].
  destruct l; [done|]. cbn [length] in *. lia.
Qed.

(** A number function wrote [text] at [a], terminated, and nothing else. *)
Record wrote (a : Z) (text : list Z) (m : mem) (o : outcome (Z * mem)) : Prop := {
  wr_result : ∃ m', o = Ok (Z.of_nat (length text), m') ∧ holds m' a (text ++ [0]) ∧
    same_outside a (Z.of_nat (length text) + 1) m m'
}.

Lemma finish_number_wrote m0 m a l : holds m a l → same_outside a (Z.of_nat (length l)) m0 m →
  wrote a (reverse l) m0 (Ok (finish_number m a (Z.of_nat (length l)))).
Proof.
  intros H Ho. pose proof (finish_number_ok m a l H) as Hf.
  destruct (finish_number m a (Z.of_nat (length l))) as [i m'] eqn:E. destruct Hf as (-> & Hh & Ho').
  constructor. exists m'. rewrite length_reverse. split; [done|]. split; [done|].
  eapply same_outside_trans; [exact Ho|exact Ho'|lia..].
Qed.

Lemma string_from_unsigned_ok m a num base k :
  2 ≤ base ≤ 36 → 0 ≤ num < 2 ^ k → 1 ≤ k ≤ 64 →
  ∃ text, wrote a text m (string_from_unsigned m a num base) ∧ canonical base text ∧
    parse_numeral base text = num ∧ Z.of_nat (length text) ≤ k.
Proof.
  intros Hb Hn Hk. assert (2 ^ k ≤ 2 ^ 64) by (apply Z.pow_le_mono_r; lia).
  assert (2 ^ 64 ≤ base ^ 64) by (apply Z.pow_le_mono_l; lia).
  destruct (digit_loop_ok digit_fuel m a 0 num base Hb) as (l & m1 & Hr & Hd & _ & Hh & Ho);
    [change (Z.of_nat digit_fuel) with 64; lia|unfold digit_fuel; lia|].
  rewrite Z.add_0_r in Hh, Ho. exists (reverse (digit_char <$> l)). destruct (digits_numeral base num l Hb Hd) as [Hc Hp].
  split; [|split; [done|split; [done|rewrite length_reverse, length_fmap; by apply (digits_length base num l k); [lia|..|lia]]]].
  unfold string_from_unsigned. rewrite Hr, Z.add_0_l. rewrite <- (length_fmap digit_char) in *.
  by apply finish_number_wrote.
Qed.

Lemma string_from_signed_ok wrap m a num base k :
  2 ≤ base ≤ 36 → 1 ≤ k ≤ 63 → - 2 ^ k < num < 2 ^ k → (num < 0 → wrap (- num) = - num) →
  ∃ text, wrote a (if num <? 0 then 45 :: text else text) m (string_from_signed wrap m a num base) ∧
    canonical base text ∧ parse_numeral base text = Z.abs num ∧ Z.of_nat (length text) ≤ k.
Proof.
  intros Hb Hk Hn Hw. assert (2 ^ k ≤ 2 ^ 64) by (apply Z.pow_le_mono_r; lia).
  assert (2 ^ 64 ≤ base ^ 64) by (apply Z.pow_le_mono_l; lia).
  unfold string_from_signed. set (v := if num <? 0 then wrap (- num) else num).
  assert (v = Z.abs num) as Hv by (unfold v; destruct (Z.ltb_spec num 0); [rewrite Hw by done; lia|lia]).
  destruct (digit_loop_ok digit_fuel m a 0 v base Hb) as (l & m1 & Hr & Hd & _ & Hh & Ho);
    [change (Z.of_nat digit_fuel) with 64; lia|unfold digit_fuel; lia|].
  rewrite Z.add_0_r in Hh, Ho. exists (reverse (digit_char <$> l)). rewrite <- Hv.
  destruct (digits_numeral base v l Hb Hd) as [Hc Hp].
  split; [|split; [done|split; [done|rewrite length_reverse, length_fmap; apply (digits_length base v l k); [lia|done|lia|lia]]]].
  rewrite Hr, Z.add_0_l. rewrite <- (length_fmap digit_char) in *. destruct (num <? 0); [|by apply finish_number_wrote].
  set (t := digit_char <$> l) in *. rewrite <- (reverse_snoc t 45).
  replace (Z.of_nat (length t) + 1) with (Z.of_nat (length (t ++ [45]))) by (rewrite length_app; cbn; lia).
  apply finish_number_wrote.
  - apply holds_app. split; [eapply holds_same; [done|apply same_outside_store8]|].
    apply holds_cons. split; [by rewrite load8_store8_eq|by intros j x].
  - rewrite length_app. cbn [length]. eapply same_outside_trans; [exact Ho|apply same_outside_store8|lia..].
Qed.

(** ** Strings *)

(** A NUL-terminated string at [a]. *)
Definition c_string (m : mem) (a : Z) (l : list Z) : Prop :=
  holds m a (l ++ [0]) ∧ Forall (λ c, 0 < c < 2 ^ 8) l.

Lemma c_string_cons m a x l : c_string m a (x :: l) ↔ load8 m a = x ∧ 0 < x < 2 ^ 8 ∧ c_string m (a + 1) l.
Proof. unfold c_string. cbn [app]. rewrite holds_cons, list.Forall_cons. tauto. Qed.

Lemma c_string_nil m a : c_string m a [] → load8 m a = 0.
Proof. intros [H _]. by apply holds_cons in H as [? _]. Qed.

Lemma string_length_loop_ok l : ∀ fuel m a i, c_string m a l → (length l < fuel)%nat →
  0 ≤ i → i + Z.of_nat (length l) < 2 ^ 64 → string_length_loop fuel m a i = Ok (i + Z.of_nat (length l)).
Proof.
  induction l as [|x l IH]; intros [|fuel] m a i Hc Hf Hi Hb; [cbn in *; lia| |cbn in *; lia|]; cbn [string_length_loop].
  - rewrite (c_string_nil m a Hc). cbn. f_equal. lia.
  - apply c_string_cons in Hc as (Hx & Hr & Hc). rewrite Hx, (proj2 (Z.eqb_neq x 0)) by lia.
    cbn [length] in *. rewrite u64_small, IH by (done || lia). f_equal. lia.
Qed.

Lemma s8_eq x y : 0 ≤ x < 2 ^ 8 → 0 ≤ y < 2 ^ 8 → s8 x = s8 y → x = y.
Proof. intros Hx Hy H. unfold s8 in H. divmod_lia. Qed.

Lemma s8_nonzero x : 0 < x < 2 ^ 8 → s8 x ≠ 0.
Proof. intros Hx H. unfold s8 in H. divmod_lia. Qed.

Lemma string_compare_ok l1 : ∀ l2 fuel m a b, c_string m a l1 → c_string m b l2 → (length l1 < fuel)%nat →
  ∃ d, string_compare fuel m a b = Ok d ∧ (d = 0 ↔ l1 = l2).
Proof.
  induction l1 as [|x l1 IH]; intros [|y l2] [|fuel] m a b Ha Hb Hf; cbn [length] in Hf; try lia; cbn [string_compare].
  - rewrite (c_string_nil _ _ Ha), (c_string_nil _ _ Hb). by exists 0.
  - apply c_string_cons in Hb as (Hy & Hr & _). rewrite (c_string_nil _ _ Ha), Hy. change (s8 0) with 0.
    pose proof (s8_nonzero y Hr). rewrite (proj2 (truthy_spec _)) by lia. exists (s8 y - 0). split; [done|].
    split; [lia|done].
  - apply c_string_cons in Ha as (Hx & Hr & _). rewrite (c_string_nil _ _ Hb), Hx. change (s8 0) with 0.
    pose proof (s8_nonzero x Hr). rewrite (proj2 (truthy_spec _)) by lia. exists (0 - s8 x). split; [done|].
    split; [lia|done].
  - apply c_string_cons in Ha as (Hx & Hrx & Ha). apply c_string_cons in Hb as (Hy & Hry & Hb). rewrite Hx, Hy.
    destruct (Z.eq_dec (s8 y) (s8 x)) as [He|He].
    + rewrite He, Z.sub_diag. pose proof (s8_nonzero x Hrx). cbn [truthy Z.eqb negb].
      rewrite (proj2 (truthy_spec _)) by done. cbn [negb orb].
      destruct (IH l2 fuel m (a + 1) (b + 1) Ha Hb ltac:(lia)) as (d & Hd & Hiff). exists d. split; [done|].
      apply s8_eq in He as ->; [|lia|lia]. rewrite Hiff. split; [by intros ->|by intros [= ->]].
    + rewrite (proj2 (truthy_spec _)) by lia. exists (s8 y - s8 x). split; [done|]. split; [lia|].
      intros [= -> ->]. done.
Qed.

(** ** Properties *)

(** C37. [string_from_u64], in any base from 2 to 36: it terminates and writes the canonical
    numeral of the number (digits of the base, no leading zero, value equal to the number) and a
    terminating zero at the destination, returns the length of the numeral, and changes no other byte.
    The text has at most 64 characters, so the 65 bytes of [console_print_u64] are enough. *)
Theorem string_from_u64_spec m destination num base :
  2 ≤ base ≤ 36 → 0 ≤ num < 2 ^ 64 →
  ∃ text, wrote destination text m (string_from_u64 m destination num base) ∧ canonical base text ∧
    parse_numeral base text = num ∧ Z.of_nat (length text) ≤ 64.
Proof.
  intros Hb Hn. unfold string_from_u64. rewrite u64_small by lia. by apply string_from_unsigned_ok; [|lia|lia].
Qed.

Lemma string_from_u64_spec_witness :
  ∃ text, wrote 0x100 text ∅ (string_from_u64 ∅ 0x100 0xC0FFEE 16) ∧ parse_numeral 16 text = 0xC0FFEE.
Proof.
  destruct (string_from_u64_spec ∅ 0x100 0xC0FFEE 16) as (text & Hw & _ & Hp & _); [lia|lia|by exists text].
Defined.

(** [string_from_u32]: the same for 32-bit numbers, in at most 32 characters. *)
Theorem string_from_u32_spec m destination num base :
  2 ≤ base ≤ 36 → 0 ≤ num < 2 ^ 32 →
  ∃ text, wrote destination text m (string_from_u32 m destination num base) ∧ canonical base text ∧
    parse_numeral base text = num ∧ Z.of_nat (length text) ≤ 32.
Proof.
  intros Hb Hn. unfold string_from_u32. rewrite u32_small by lia. by apply string_from_unsigned_ok; [|lia|lia].
Qed.

Lemma string_from_u32_spec_witness :
  ∃ text, wrote 0 text ∅ (string_from_u32 ∅ 0 4294967295 2) ∧ parse_numeral 2 text = 4294967295.
Proof.
  destruct (string_from_u32_spec ∅ 0 4294967295 2) as (text & Hw & _ & Hp & _); [lia|lia|by exists text].
Defined.

(** The signed functions write a minus sign before the numeral of the absolute value of a
    negative number, for every [int] and [long] but the smallest, whose negation overflows; the
    texts fit in the 33 and 65 bytes that [console_print_i32] and [console_print_i64] provide. *)
Theorem string_from_signed_spec m destination num base :
  2 ≤ base ≤ 36 →
  (- 2 ^ 31 < num < 2 ^ 31 →
   ∃ text, wrote destination (if num <? 0 then 45 :: text else text) m (string_from_i32 m destination num base) ∧
     canonical base text ∧ parse_numeral base text = Z.abs num ∧ Z.of_nat (length text) ≤ 31) ∧
  (- 2 ^ 63 < num < 2 ^ 63 →
   ∃ text, wrote destination (if num <? 0 then 45 :: text else text) m (string_from_i64 m destination num base) ∧
     canonical base text ∧ parse_numeral base text = Z.abs num ∧ Z.of_nat (length text) ≤ 63).
Proof.
  intros Hb. split; intros Hn.
  - apply string_from_signed_ok; [done|lia|done|]. intros _. apply s32_small. lia.
  - apply string_from_signed_ok; [done|lia|done|]. intros _. apply s64_small. lia.
Qed.

Lemma string_from_signed_spec_witness :
  ∃ text, wrote 8 (45 :: text) ∅ (string_from_i32 ∅ 8 (-2000000000) 10) ∧ parse_numeral 10 text = 2000000000.
Proof.
  destruct (proj1 (string_from_signed_spec ∅ 8 (-2000000000) 10 ltac:(lia))) as (text & Hw & _ & Hp & _); [lia|].
  by exists text.
Defined.

(** [string_length] returns the number of characters before the terminating zero, with fuel for
    one iteration more than that. *)
Theorem string_length_spec fuel m str l :
  c_string m str l → (length l < fuel)%nat → Z.of_nat (length l) < 2 ^ 64 →
  string_length fuel m str = Ok (Z.of_nat (length l)).
Proof. intros Hc Hf Hl. unfold string_length. by rewrite (string_length_loop_ok l) by (done || lia). Qed.

(** "ab" at address 16, "ac" at address 32. *)
Definition two_strings : mem := {[ 16 := 97; 17 := 98; 32 := 97; 33 := 99 ]}.

Lemma two_strings_ok : c_string two_strings 16 [97; 98] ∧ c_string two_strings 32 [97; 99].
Proof.
  assert (∀ m a x y, load8 m a = x → load8 m (a + 1) = y → load8 m (a + 2) = 0 →
    0 < x < 2 ^ 8 → 0 < y < 2 ^ 8 → c_string m a [x; y]) as H.
  { intros m a x y Hx Hy Hz Hxr Hyr. split; [|by apply list.Forall_cons; split; [|apply list.Forall_cons; split]].
    cbn [app]. rewrite !holds_cons. replace (a + 1 + 1) with (a + 2) by lia. split; [done|]. split; [done|]. split; [done|]. by intros k z. }
  split; apply H; by vm_compute.
Qed.

Lemma string_length_spec_witness : string_length 3 two_strings 16 = Ok 2.
Proof. apply (string_length_spec 3 two_strings 16 [97; 98]); [apply two_strings_ok|cbn; lia|cbn; lia]. Defined.

(** [string_compare] of two terminated strings terminates and returns 0 exactly when they are
    equal. *)
Theorem string_compare_spec fuel m a b l1 l2 :
  c_string m a l1 → c_string m b l2 → (length l1 < fuel)%nat →
  ∃ d, string_compare fuel m a b = Ok d ∧ (d = 0 ↔ l1 = l2).
Proof. intros Ha Hb Hf. by apply string_compare_ok. Qed.

Lemma string_compare_spec_witness : ∃ d, string_compare 3 two_strings 16 32 = Ok d ∧ (d = 0 ↔ [97; 98] = [97; 99]).
Proof.
  apply (string_compare_spec 3 two_strings 16 32); [apply two_strings_ok|apply two_strings_ok|cbn; lia].
Defined.

(** ** Observations *)

(** "-2000000000" and its terminator take 12 bytes, one more than the comment
    at [string_from_i32] asks for. *)
Example string_from_i32_twelve_bytes :
  ∃ m, string_from_i32 ∅ 0 (-2000000000) 10 = Ok (11, m) ∧ load8 m 11 = 0 ∧ m !! 11 = Some 0.
Proof. eexists. by vm_compute. Qed.

(** The smallest [int] has no negation: its digits come out negative. *)
Example string_from_i32_min :
  match string_from_i32 ∅ 0 (- 2 ^ 31) 10 with
  | Ok (n, m) => (n, load8 m 0, load8 m 1, load8 m 10)
  | _ => (0, 0, 0, 0)
  end = (11, 45, 46, 40).
Proof. reflexivity. Qed.
