(* ===== verification/Port.v ===== *)
(** * I/O ports

    [src/src/common/port.c] holds the [in] and [out] instructions. What they do
    depends on the devices behind the ports, which are a parameter of the
    drivers that use them. [Instructions] models the functions of [port.c]. *)

From S2P Require Import Prelude.

(** The devices behind the I/O ports, and the passing of time while
    [cpu_wait_microsecond] reads the time stamp counter. *)
Class PortDevices (P : Type) : Type := {
  port_in8 : Z → P → Z * P;
  port_out8 : Z → Z → P → P;
  cpu_wait_microsecond : P → P
}.
