(* ===== verification/Serial.v ===== *)
(** * The serial port

    Models [src/src/common/serial.c]: the driver polls the line status register
    and writes one character at a time. The UART is behind the ports of
    [Port]; waiting takes fuel. [SerialSpec] has the theorems. *)

From S2P Require Import Prelude Memory Util Port.

Definition SERIAL_PORT : Z := 0x3F8.
Definition SERIAL_REGISTER0_PORT : Z := SERIAL_PORT.
Definition SERIAL_REGISTER1_PORT : Z := SERIAL_PORT + 1.
Definition SERIAL_REGISTER3_PORT : Z := SERIAL_PORT + 3.
Definition SERIAL_REGISTER5_PORT : Z := SERIAL_PORT + 5.

(** The devices, memory and the messages to the console. *)
Record serial (P : Type) := Serial {
  ser_devices : P;
  ser_mem : mem;
  ser_log : list console_call
}.
Arguments Serial {P}.
Arguments ser_devices {P}.
Arguments ser_mem {P}.
Arguments ser_log {P}.

Section Serial.
Context {P : Type} {PD : PortDevices P}.

Definition set_ser_devices (d : P) (s : serial P) : serial P := Serial d (ser_mem s) (ser_log s).
Definition set_ser_mem (m : mem) (s : serial P) : serial P := Serial (ser_devices s) m (ser_log s).
Definition ser_print (msg : string) : M (serial P) unit :=
  modify (λ s, Serial (ser_devices s) (ser_mem s) (CPrint msg :: ser_log s)).

Definition serial_in8 (port : Z) : M (serial P) Z := λ s,
  let '(v, d) := port_in8 port (ser_devices s) in Ok (u8 v, set_ser_devices d s).
Definition serial_out8 (port value : Z) : M (serial P) unit :=
  modify (λ s, set_ser_devices (port_out8 port (u8 value) (ser_devices s)) s).

Definition serial_available : M (serial P) Z :=
  let! status := serial_in8 SERIAL_REGISTER5_PORT in ret (Z.land status 1).

(** [while (!serial_available()) pause;] *)
Fixpoint wait_available (fuel : nat) : M (serial P) unit :=
  match fuel with
  | O => hang
  | S fuel' => let! a := serial_available in if truthy a then ret tt else wait_available fuel'
  end.

(** The result is a [char]. *)
Definition serial_read (fuel : nat) : M (serial P) Z :=
  wait_available fuel ;;;
  let! c := serial_in8 SERIAL_REGISTER0_PORT in ret (s8 c).

(** [while (!(port_in8(SERIAL_REGISTER5_PORT) & 0b00100000)) pause;] *)
Fixpoint wait_transmit (fuel : nat) : M (serial P) unit :=
  match fuel with
  | O => hang
  | S fuel' =>
      let! status := serial_in8 SERIAL_REGISTER5_PORT in
      if truthy (Z.land status 32) then ret tt else wait_transmit fuel'
  end.

Definition serial_write (fuel : nat) (c : Z) : M (serial P) unit :=
  wait_transmit fuel ;;;
  serial_out8 SERIAL_REGISTER0_PORT (u8 c).

Definition serial_initialize (fuel : nat) : M (serial P) unit :=
  ser_print ("[serial] enabling serial" +:+ nl) ;;;
  serial_out8 SERIAL_REGISTER1_PORT 0 ;;;
  serial_out8 SERIAL_REGISTER3_PORT 128 ;;;
  serial_out8 SERIAL_REGISTER0_PORT 3 ;;;
  serial_out8 SERIAL_REGISTER1_PORT 0 ;;;
  serial_out8 SERIAL_REGISTER3_PORT (Z.lor 3 4) ;;;
  ser_print ("[serial] sending test data" +:+ nl) ;;;
  for_loop 25 0 (λ i, serial_write fuel (65 + i)) ;;;
  ser_print ("[serial] initialized" +:+ nl).

(** [length] bounds the length of the string. *)
Fixpoint serial_print (length fuel : nat) (str : Z) : M (serial P) unit :=
  match length with
  | O => hang
  | S length' =>
      let! c := gets (λ s, load8 (ser_mem s) str) in
      if truthy c then serial_write fuel (s8 c) ;;; serial_print length' fuel (str + 1) else ret tt
  end.

(** [dest] is the address of the array on the stack. *)
Definition serial_print_u32 (fuel : nat) (dest num base : Z) : M (serial P) unit :=
  let! m := gets ser_mem in
  let! '(_, m) := lift (string_from_u32 m dest num base) in
  modify (set_ser_mem m) ;;;
  serial_print 34 fuel dest.
End Serial.
