(* ===== verification/SerialSpec.v ===== *)
(** * Correctness of the serial driver

    The UART is an interface: the bytes it has sent, how long its transmit
    buffer stays full, and its configuration registers. For every device with
    the laws of a 16550 the driver sends exactly the text, in order. *)

From S2P Require Import Prelude Memory Util UtilSpec Port Serial.

(** Line control, the two halves of the divisor, interrupt enable. *)
Record uart_config := UartConfig {
  line_control : Z;
  divisor_low : Z;
  divisor_high : Z;
  interrupt_enable : Z
}.

(** The divisor latch access bit: registers 0 and 1 are the divisor. *)
Definition dlab (c : uart_config) : bool := Z.testbit (line_control c) 7.

Class Uart (P : Type) {PD : PortDevices P} : Type := {
  sent : P → list Z;
  busy : P → nat;
  config : P → uart_config;
  uart_delay : nat;
  uart_busy : ∀ p, (busy p ≤ uart_delay)%nat;
  (** bit 5 of the line status: the transmit buffer is empty *)
  uart_status : ∀ p, ∃ v p', port_in8 SERIAL_REGISTER5_PORT p = (v, p') ∧
    Z.testbit v 5 = (busy p =? 0)%nat ∧ busy p' = pred (busy p) ∧ sent p' = sent p ∧ config p' = config p;
  uart_transmit : ∀ p v, dlab (config p) = false → 0 ≤ v < 2 ^ 8 → busy p = 0%nat →
    let p' := port_out8 SERIAL_REGISTER0_PORT v p in sent p' = sent p ++ [v] ∧ config p' = config p;
  uart_divisor_low : ∀ p v, dlab (config p) = true → 0 ≤ v < 2 ^ 8 →
    let p' := port_out8 SERIAL_REGISTER0_PORT v p in sent p' = sent p ∧
      config p' = UartConfig (line_control (config p)) v (divisor_high (config p)) (interrupt_enable (config p));
  uart_register1 : ∀ p v, 0 ≤ v < 2 ^ 8 →
    let p' := port_out8 SERIAL_REGISTER1_PORT v p in sent p' = sent p ∧
      config p' = (if dlab (config p)
        then UartConfig (line_control (config p)) (divisor_low (config p)) v (interrupt_enable (config p))
        else UartConfig (line_control (config p)) (divisor_low (config p)) (divisor_high (config p)) v);
  uart_line_control : ∀ p v, 0 ≤ v < 2 ^ 8 →
    let p' := port_out8 SERIAL_REGISTER3_PORT v p in sent p' = sent p ∧
      config p' = UartConfig v (divisor_low (config p)) (divisor_high (config p)) (interrupt_enable (config p))
}.

Section SerialSpec.
Context {P : Type} {PD : PortDevices P} {U : Uart P}.
Implicit Type s : serial P.

(** [l] was sent from [s] to [s'], nothing else the driver can see has changed. *)
Definition sends (l : list Z) s s' : Prop :=
  sent (ser_devices s') = sent (ser_devices s) ++ l ∧
  config (ser_devices s') = config (ser_devices s) ∧ ser_mem s' = ser_mem s ∧ ser_log s' = ser_log s.

Lemma sends_trans l1 l2 s1 s2 s3 : sends l1 s1 s2 → sends l2 s2 s3 → sends (l1 ++ l2) s1 s3.
Proof. intros (H1 & H2 & H3 & H4) (H5 & H6 & H7 & H8). split; [by rewrite H5, H1, app_assoc|]. split_and!; congruence. Qed.

Lemma wait_transmit_ok fuel : ∀ s,
  (busy (ser_devices s) < fuel)%nat →
  ∃ s', wait_transmit fuel s = Ok (tt, s') ∧ sends [] s s' ∧ busy (ser_devices s') = 0%nat.
Proof.
  induction fuel as [|fuel IH]; intros s Hf; [lia|]. cbn [wait_transmit].
  destruct (uart_status (ser_devices s)) as (v & p & Hin & Hbit & Hbusy & Hsent & Hconf).
  rewrite (bind_ok _ _ _ (u8 v) (set_ser_devices p s)) by (unfold serial_in8; by rewrite Hin).
  change 32 with (2 ^ 5). rewrite land_bit by lia. unfold u8. rewrite Z.mod_pow2_bits_low, Hbit by lia.
  assert (sends [] s (set_ser_devices p s)) as Hs.
  { split; [cbn; by rewrite Hsent, app_nil_r|]. by split. }
  destruct (Nat.eqb_spec (busy (ser_devices s)) 0) as [H0|H0].
  - exists (set_ser_devices p s). split; [done|]. split; [done|]. cbn. lia.
  - destruct (IH (set_ser_devices p s)) as (s' & Hrun & Hs' & Hb); [cbn; lia|].
    exists s'. split; [done|]. split; [by apply (sends_trans [] [] _ _ _ Hs)|done].
Qed.

Lemma serial_write_ok fuel c s :
  (uart_delay < fuel)%nat → dlab (config (ser_devices s)) = false →
  ∃ s', serial_write fuel c s = Ok (tt, s') ∧ sends [u8 c] s s'.
Proof.
  intros Hf Hd. unfold serial_write. pose proof (uart_busy (ser_devices s)).
  destruct (wait_transmit_ok fuel s) as (s1 & Hrun & Hs1 & Hb); [lia|].
  rewrite (bind_ok _ _ _ _ _ Hrun). eexists. split; [reflexivity|].
  pose proof (u8_range c) as Hr. rewrite (u8_small (u8 c)) by done. destruct Hs1 as (H1 & H2 & H3 & H4).
  destruct (uart_transmit (ser_devices s1) (u8 c)) as [H5 H6]; [by rewrite H2|done|done|].
  split; cbn; [by rewrite H5, H1, app_nil_r|]. split; [by rewrite H6|]. by split.
Qed.

Lemma u8_s8 c : 0 ≤ c < 2 ^ 8 → u8 (s8 c) = c.
Proof. intros Hc. unfold u8, s8. divmod_lia. Qed.

Lemma serial_print_ok text : ∀ length fuel str s,
  (uart_delay < fuel)%nat → dlab (config (ser_devices s)) = false →
  c_string (ser_mem s) str text → (List.length text < length)%nat →
  ∃ s', serial_print length fuel str s = Ok (tt, s') ∧ sends text s s'.
Proof.
  induction text as [|c text IH]; intros [|length] fuel str s Hf Hd Hc Hl; cbn in Hl; try lia;
    cbn [serial_print]; mstep.
  - rewrite (c_string_nil _ _ Hc). exists s. split; [done|]. split; [by rewrite app_nil_r|done].
  - apply c_string_cons in Hc as (-> & Hr & Hc). rewrite (proj2 (truthy_spec c)) by lia.
    destruct (serial_write_ok fuel (s8 c) s Hf Hd) as (s1 & Hrun & Hs1). rewrite u8_s8 in Hs1 by lia.
    rewrite (bind_ok _ _ _ _ _ Hrun). pose proof Hs1 as (_ & Hconf & Hmem & _).
    destruct (IH length fuel (str + 1) s1) as (s2 & Hrun2 & Hs2); [done|by rewrite Hconf|by rewrite Hmem|lia|].
    exists s2. split; [done|]. by apply (sends_trans [c] text _ _ _ Hs1).
Qed.

(** [serial_print] sends exactly the characters of the string, in order, and waits no longer than
    the device needs; it ends for every device with the laws of the UART. *)
Theorem serial_print_sends text length fuel str s :
  (uart_delay < fuel)%nat → dlab (config (ser_devices s)) = false →
  c_string (ser_mem s) str text → (List.length text < length)%nat →
  ∃ s', serial_print length fuel str s = Ok (tt, s') ∧ sends text s s'.
Proof. apply serial_print_ok. Qed.

(** C35. [serial_print_u32] sends the canonical numeral of the number in the base: parsing what came
    out of the port gives the number back. *)
Theorem serial_print_u32_roundtrip fuel dest num base s :
  2 ≤ base ≤ 36 → 0 ≤ num < 2 ^ 32 → (uart_delay < fuel)%nat → dlab (config (ser_devices s)) = false →
  ∃ s' text, serial_print_u32 fuel dest num base s = Ok (tt, s') ∧
    sent (ser_devices s') = sent (ser_devices s) ++ text ∧
    canonical base text ∧ parse_numeral base text = num ∧
    same_outside dest (Z.of_nat (length text) + 1) (ser_mem s) (ser_mem s').
Proof.
  intros Hb Hn Hf Hd. unfold serial_print_u32, string_from_u32. mstep. rewrite u32_small by lia.
  destruct (string_from_unsigned_ok (ser_mem s) dest num base 32 Hb Hn ltac:(lia))
    as (text & [(m & Hrun & Hh & Ho)] & Hc & Hp & Hl).
  rewrite Hrun. unfold lift. unfold bind at 1. rewrite bind_modify.
  destruct (serial_print_ok text 34 fuel dest (set_ser_mem m s)) as (s' & Hr & Hs'); [done|done| |lia|].
  { split; [done|]. destruct Hc as (_ & Hc & _). eapply list.Forall_impl; [exact Hc|]. cbn. lia. }
  exists s', text. destruct Hs' as (H1 & H2 & H3 & H4). rewrite H3. by split_and!.
Qed.

(** The configuration [serial_initialize] leaves: 8 data bits and two stop
    bits (bit 2), no parity, divisor 3, no interrupts. *)
Definition initialized : uart_config := UartConfig 7 3 0 0.

Lemma serial_out8_run port v s :
  serial_out8 port v s = Ok (tt, set_ser_devices (port_out8 port (u8 v) (ser_devices s)) s).
Proof. done. Qed.

Lemma send_all fuel n : ∀ i s,
  (uart_delay < fuel)%nat → dlab (config (ser_devices s)) = false → 0 ≤ 65 + i → 65 + i + Z.of_nat n < 2 ^ 8 →
  ∃ s', for_loop n i (λ i, serial_write fuel (65 + i)) s = Ok (tt, s') ∧
    sends (seqZ (65 + i) (Z.of_nat n)) s s'.
Proof.
  induction n as [|n IH]; intros i s Hf Hd Hi Hn; cbn [for_loop].
  - exists s. split; [done|]. split; [by rewrite app_nil_r|done].
  - destruct (serial_write_ok fuel (65 + i) s Hf Hd) as (s1 & Hrun & Hs1). rewrite u8_small in Hs1 by lia.
    rewrite (bind_ok _ _ _ _ _ Hrun). pose proof Hs1 as (_ & Hconf & _).
    destruct (IH (i + 1) s1) as (s2 & Hrun2 & Hs2); [done|by rewrite Hconf|lia|lia|].
    exists s2. split; [done|]. rewrite seqZ_cons by lia.
    replace (Z.pred (Z.of_nat (S n))) with (Z.of_nat n) by lia.
    replace (Z.succ (65 + i)) with (65 + (i + 1)) by lia. by apply (sends_trans [65 + i] _ _ _ _ Hs1).
Qed.

(** [serial_initialize] programs the divisor and the frame format, turns the serial interrupts
    and the divisor latch off, and sends the 25 letters A to Y. *)
Theorem serial_initialize_spec fuel s :
  (uart_delay < fuel)%nat → dlab (config (ser_devices s)) = false →
  ∃ s', serial_initialize fuel s = Ok (tt, s') ∧ config (ser_devices s') = initialized ∧
    sent (ser_devices s') = sent (ser_devices s) ++ seqZ 65 25 ∧ ser_mem s' = ser_mem s.
Proof.
  intros Hf Hd. unfold serial_initialize, ser_print. rewrite bind_modify.
  set (s0 := Serial _ _ _).
  change (ser_devices s) with (ser_devices s0) in Hd |- *. change (ser_mem s) with (ser_mem s0).
  destruct (uart_register1 (ser_devices s0) 0 ltac:(lia)) as [S1 C1]. rewrite Hd in C1.
  rewrite (bind_ok _ _ _ _ _ (serial_out8_run _ _ _)). set (s1 := set_ser_devices _ s0).
  change (port_out8 _ _ _) with (ser_devices s1) in S1, C1.
  destruct (uart_line_control (ser_devices s1) 128 ltac:(lia)) as [S2 C2]. rewrite C1 in C2.
  rewrite (bind_ok _ _ _ _ _ (serial_out8_run _ _ _)). set (s2 := set_ser_devices _ s1).
  change (port_out8 _ _ _) with (ser_devices s2) in S2, C2. cbn [line_control divisor_low divisor_high interrupt_enable] in C2.
  destruct (uart_divisor_low (ser_devices s2) 3) as [S3 C3]; [by rewrite C2|lia|]. rewrite C2 in C3.
  rewrite (bind_ok _ _ _ _ _ (serial_out8_run _ _ _)). set (s3 := set_ser_devices _ s2).
  change (port_out8 _ _ _) with (ser_devices s3) in S3, C3. cbn [line_control divisor_low divisor_high interrupt_enable] in C3.
  destruct (uart_register1 (ser_devices s3) 0 ltac:(lia)) as [S4 C4]. rewrite C3 in C4.
  rewrite (bind_ok _ _ _ _ _ (serial_out8_run _ _ _)). set (s4 := set_ser_devices _ s3).
  change (port_out8 _ _ _) with (ser_devices s4) in S4, C4.
  change (dlab (UartConfig 128 3 (divisor_high (config (ser_devices s0))) 0)) with true in C4.
  destruct (uart_line_control (ser_devices s4) 7 ltac:(lia)) as [S5 C5]. rewrite C4 in C5.
  rewrite (bind_ok _ _ _ _ _ (serial_out8_run _ _ _)). set (s5 := set_ser_devices _ s4).
  change (port_out8 _ _ _) with (ser_devices s5) in S5, C5. rewrite bind_modify. set (s6 := Serial _ _ _).
  change (ser_devices s5) with (ser_devices s6) in S5, C5.
  destruct (send_all fuel 25 0 s6) as (s7 & Hrun & H1 & H2 & H3 & _); [done|by rewrite C5|lia|lia|].
  rewrite (bind_ok _ _ _ _ _ Hrun). eexists. split; [reflexivity|]. cbn [ser_devices ser_mem].
  split; [by rewrite H2, C5|]. split; [|done]. rewrite H1, S5, S4, S3, S2, S1. done.
Qed.
End SerialSpec.

(** ** A UART that needs one more look after each character *)

Record uart0 := Uart0 { u_sent : list Z; u_full : bool; u_config : uart_config }.

#[local] Instance uart0_ports : PortDevices uart0 := {
  port_in8 port p :=
    if port =? SERIAL_REGISTER5_PORT then (if u_full p then 0 else 96, Uart0 (u_sent p) false (u_config p))
    else (0, p);
  port_out8 port v p :=
    let c := u_config p in
    if port =? SERIAL_REGISTER0_PORT then
      if dlab c then Uart0 (u_sent p) (u_full p) (UartConfig (line_control c) v (divisor_high c) (interrupt_enable c))
      else Uart0 (u_sent p ++ [v]) true c
    else if port =? SERIAL_REGISTER1_PORT then
      Uart0 (u_sent p) (u_full p) (if dlab c
        then UartConfig (line_control c) (divisor_low c) v (interrupt_enable c)
        else UartConfig (line_control c) (divisor_low c) (divisor_high c) v)
    else if port =? SERIAL_REGISTER3_PORT then
      Uart0 (u_sent p) (u_full p) (UartConfig v (divisor_low c) (divisor_high c) (interrupt_enable c))
    else p;
  cpu_wait_microsecond p := p
}.

#[local] Program Instance uart0_laws : Uart uart0 := {|
  sent := u_sent;
  busy p := if u_full p then 1%nat else 0%nat;
  config := u_config;
  uart_delay := 1%nat
|}.
Next Obligation. intros [l [] c]; cbn; lia. Qed.
Next Obligation.
  intros [l [] c]; [exists 0|exists 96]; eexists; by split_and!.
Qed.
Next Obligation. intros [l b c] v Hd _ _. cbn in *. by rewrite Hd. Qed.
Next Obligation. intros [l b c] v Hd _. cbn in *. by rewrite Hd. Qed.
Next Obligation. intros [l b c] v _. cbn. by destruct (dlab c). Qed.
Next Obligation. by intros [l b c] v _. Qed.

Definition serial0 : serial uart0 := Serial (Uart0 [] true (UartConfig 0 1 0 5)) two_strings [].

Lemma serial_print_sends_witness :
  ∃ s', serial_print 10 2 32 serial0 = Ok (tt, s') ∧ sends [97; 99] serial0 s'.
Proof.
  apply (serial_print_sends [97; 99]); [cbn; lia|done|apply two_strings_ok|cbn; lia].
Defined.

Lemma serial_print_u32_roundtrip_witness :
  ∃ s' text, serial_print_u32 2 0x7000 1234 10 serial0 = Ok (tt, s') ∧
    sent (ser_devices s') = text ∧ parse_numeral 10 text = 1234.
Proof.
  destruct (serial_print_u32_roundtrip 2 0x7000 1234 10 serial0) as (s' & text & H1 & H2 & _ & H3 & _);
    [lia|lia|cbn; lia|done|].
  exists s', text. split; [exact H1|]. split; [exact H2|exact H3].
Defined.

Lemma serial_initialize_spec_witness :
  ∃ s', serial_initialize 2 serial0 = Ok (tt, s') ∧ config (ser_devices s') = initialized ∧
    sent (ser_devices s') = seqZ 65 25.
Proof.
  destruct (serial_initialize_spec 2 serial0) as (s' & H1 & H2 & H3 & _); [cbn; lia|done|].
  exists s'. split; [exact H1|]. split; [exact H2|exact H3].
Defined.
