(* ===== verification/Apic.v ===== *)
(** * Interrupt controllers

    Models [src/src/common/apic.c] and [struct ioapic_entry] of [apic.h]: the
    register window of the IO APIC, the entries of its redirection table, and
    the sequence that turns the old PICs off. The devices are parameters.
    [ApicSpec] has the theorems. *)

From S2P Require Import Prelude Bits Port.

(** ** The IO APIC *)

Definition APIC_IO_REGISTER_ID : Z := 0.
Definition APIC_IO_REGISTER_VERSION : Z := 1.
Definition APIC_IO_REGISTER_ENTRY (n : Z) : Z := 0x10 + n * 2.

(** [struct ioapic]: the two memory-mapped registers, at their offsets. *)
Definition register_select : Z := 0.
Definition register_data : Z := 16.

Class IoApicDevice (D : Type) : Type := {
  mmio_write : Z → Z → D → D;
  mmio_read : Z → D → Z * D
}.

Section IoApic.
Context {D : Type} {ID : IoApicDevice D}.

Definition io_write (register value : Z) : M D unit := modify (mmio_write register (u32 value)).
Definition io_read (register : Z) : M D Z := λ d, let '(v, d) := mmio_read register d in Ok (u32 v, d).

Definition apic_io_get_id : M D Z :=
  io_write register_select APIC_IO_REGISTER_ID ;;;
  let! data := io_read register_data in
  ret (u8 (Z.land (Z.shiftr data 24) 255)).

Definition apic_io_get_version : M D Z :=
  io_write register_select APIC_IO_REGISTER_VERSION ;;;
  let! data := io_read register_data in
  ret (u8 (Z.land data 255)).

Definition apic_io_get_max_entries : M D Z :=
  io_write register_select APIC_IO_REGISTER_VERSION ;;;
  let! data := io_read register_data in
  ret (u8 (Z.land (Z.shiftr data 16) 255)).

(** [index] and [reg] are [unsigned char]s. *)
Definition apic_io_get_entry (index : Z) : M D Z :=
  let reg := u8 (APIC_IO_REGISTER_ENTRY index) in
  io_write register_select reg ;;;
  let! entry := io_read register_data in
  io_write register_select (reg + 1) ;;;
  let! upper := io_read register_data in
  ret (Z.lor entry (u64 (Z.shiftl upper 32))).

Definition apic_io_set_entry (index entry : Z) : M D unit :=
  let reg := u8 (APIC_IO_REGISTER_ENTRY index) in
  io_write register_select reg ;;;
  io_write register_data (Z.land entry 0xFFFFFFFF) ;;;
  io_write register_select (reg + 1) ;;;
  io_write register_data (Z.shiftr entry 32).

(** [struct ioapic_entry] *)
Record ioapic_entry := IoApicEntry {
  entry_vector : Z;
  delivery_mode : Z;
  destination_mode : Z;
  delivery_status : Z;
  pin_polarity : Z;
  remote_irr : Z;
  trigger_mode : Z;
  entry_mask : Z;
  destination : Z
}.

(** [*(unsigned long * )&entry]: the 39 unused bits of an initialised
    structure are zero. *)
Definition entry_word (e : ioapic_entry) : Z :=
  bits_set 56 8 (destination e)
  (bits_set 16 1 (entry_mask e)
  (bits_set 15 1 (trigger_mode e)
  (bits_set 14 1 (remote_irr e)
  (bits_set 13 1 (pin_polarity e)
  (bits_set 12 1 (delivery_status e)
  (bits_set 11 1 (destination_mode e)
  (bits_set 8 3 (delivery_mode e)
  (bits_set 0 8 (entry_vector e) 0)))))))).

Definition apic_io_register (irq : Z) (entry : ioapic_entry) : M D unit :=
  apic_io_set_entry irq (entry_word entry).
End IoApic.

(** The initialisers [{ .vector = v, .destination = d }] of [keyboard.c] and
    [main.c]. *)
Definition fixed_entry (v d : Z) : ioapic_entry := IoApicEntry v 0 0 0 0 0 0 0 d.

(** ** The old PICs *)

Definition PIC_MASTER_COMMAND_PORT : Z := 0x20.
Definition PIC_MASTER_DATA_PORT : Z := 0x21.
Definition PIC_SLAVE_COMMAND_PORT : Z := 0xA0.
Definition PIC_SLAVE_DATA_PORT : Z := 0xA1.

Section Pic.
Context {P : Type} {PD : PortDevices P}.

Definition pic_out8 (port value : Z) : M P unit := modify (port_out8 port (u8 value)).
Definition pic_wait : M P unit := modify cpu_wait_microsecond.

Definition apic_disable_pic : M P unit :=
  pic_out8 PIC_MASTER_COMMAND_PORT 0x11 ;;;
  pic_wait ;;;
  pic_out8 PIC_MASTER_DATA_PORT 247 ;;;
  pic_wait ;;;
  pic_out8 PIC_MASTER_DATA_PORT 4 ;;;
  pic_wait ;;;
  pic_out8 PIC_MASTER_DATA_PORT 0x01 ;;;
  pic_wait ;;;
  pic_out8 PIC_SLAVE_COMMAND_PORT 0x11 ;;;
  pic_wait ;;;
  pic_out8 PIC_SLAVE_DATA_PORT 239 ;;;
  pic_wait ;;;
  pic_out8 PIC_SLAVE_DATA_PORT 2 ;;;
  pic_wait ;;;
  pic_out8 PIC_SLAVE_DATA_PORT 0x01 ;;;
  pic_wait ;;;
  pic_out8 PIC_MASTER_DATA_PORT 255 ;;;
  pic_out8 PIC_SLAVE_DATA_PORT 255.
End Pic.

(** [cpu_id] of [cpu.c] is the [cpuid] instruction, a parameter: the registers
    [eax], [ebx], [ecx] and [edx] it returns for a function number. *)
Definition apic_check_supported (cpu_id : Z → Z * Z * Z * Z) : Z :=
  let '(_, _, _, edx) := cpu_id 0x1 in Z.land edx 256.
