(* ===== verification/ApicSpec.v ===== *)
(** * Correctness of the interrupt controller code

    The IO APIC is an interface: a selected register and the contents of all of
    them, with the bits that can be written. Entries of the redirection table
    round trip. The PICs are two 8259 chips stepped by the bytes they get. *)

From S2P Require Import Prelude Bits Port Apic.

(** ** Entries of the redirection table *)

Definition word_entry (w : Z) : ioapic_entry :=
  IoApicEntry (bits_get 0 8 w) (bits_get 8 3 w) (bits_get 11 1 w) (bits_get 12 1 w) (bits_get 13 1 w)
    (bits_get 14 1 w) (bits_get 15 1 w) (bits_get 16 1 w) (bits_get 56 8 w).

(** Every field fits its bits. *)
Record entry_typed (e : ioapic_entry) : Prop := EntryTyped {
  typed_vector : 0 ≤ entry_vector e < 2 ^ 8;
  typed_delivery_mode : 0 ≤ delivery_mode e < 2 ^ 3;
  typed_destination_mode : 0 ≤ destination_mode e < 2 ^ 1;
  typed_delivery_status : 0 ≤ delivery_status e < 2 ^ 1;
  typed_pin_polarity : 0 ≤ pin_polarity e < 2 ^ 1;
  typed_remote_irr : 0 ≤ remote_irr e < 2 ^ 1;
  typed_trigger_mode : 0 ≤ trigger_mode e < 2 ^ 1;
  typed_mask : 0 ≤ entry_mask e < 2 ^ 1;
  typed_destination : 0 ≤ destination e < 2 ^ 8
}.

Lemma word_entry_word e : entry_typed e → word_entry (entry_word e) = e.
Proof.
  intros []. destruct e as [v m1 m2 s1 p r t k f]. cbn in *. unfold word_entry, entry_word. cbn [entry_vector delivery_mode destination_mode
    delivery_status pin_polarity remote_irr trigger_mode entry_mask destination].
  f_equal; repeat (rewrite bits_get_set_ne by lia); rewrite bits_get_set_eq by lia; by apply Z.mod_small.
Qed.

Lemma entry_word_range e : 0 ≤ entry_word e < 2 ^ 64.
Proof. unfold entry_word. repeat (apply bits_set_range; [lia..|]). lia. Qed.

(** ** The register window *)

(** The bits of a register that a write changes: in the lower half of an entry
    all but the delivery status and the remote IRR, in the upper half the
    destination. *)
Definition writable (register : Z) : Z :=
  if (0x10 <=? register) && (register <? 0x40) then
    if Z.even register then 0x1AFFF else 0xFF000000
  else if register =? APIC_IO_REGISTER_ID then 0x0F000000
  else 0.

Class IoApic (D : Type) {ID : IoApicDevice D} : Type := {
  io_selected : D → Z;
  io_register : D → Z → Z;
  io_register_range : ∀ d r, 0 ≤ io_register d r < 2 ^ 32;
  io_select : ∀ d v, 0 ≤ v < 2 ^ 8 →
    let d' := mmio_write register_select v d in
    io_selected d' = v ∧ ∀ r, io_register d' r = io_register d r;
  io_write_data : ∀ d v, 0 ≤ v < 2 ^ 32 →
    let d' := mmio_write register_data v d in
    io_selected d' = io_selected d ∧
    ∀ r, io_register d' r =
      if r =? io_selected d then Z.lor (Z.land v (writable r)) (Z.ldiff (io_register d r) (writable r))
      else io_register d r;
  io_read_data : ∀ d, mmio_read register_data d = (io_register d (io_selected d), d)
}.

Section IoApicSpec.
Context {D : Type} {ID : IoApicDevice D} {L : IoApic D}.
Implicit Type d : D.

(** What a write leaves in a register. *)
Definition written (d : D) (r v : Z) : Z := Z.lor (Z.land v (writable r)) (Z.ldiff (io_register d r) (writable r)).

(** An entry as its two registers hold it. *)
Definition entry_at d (i : Z) : Z :=
  io_register d (0x10 + 2 * i) + io_register d (0x10 + 2 * i + 1) * 2 ^ 32.

Lemma select_run v d :
  0 ≤ v < 2 ^ 8 → ∃ d', io_write register_select v d = Ok (tt, d') ∧ io_selected d' = v ∧
    ∀ r, io_register d' r = io_register d r.
Proof.
  intros Hv. eexists. split; [reflexivity|]. rewrite u32_small by lia. by apply io_select.
Qed.

Lemma read_run d : io_read register_data d = Ok (io_register d (io_selected d), d).
Proof. unfold io_read. rewrite io_read_data, u32_small by apply io_register_range. done. Qed.

Lemma write_run v d :
  0 ≤ v < 2 ^ 32 → ∃ d', io_write register_data v d = Ok (tt, d') ∧ io_selected d' = io_selected d ∧
    ∀ r, io_register d' r = if r =? io_selected d then written d r v else io_register d r.
Proof. intros Hv. eexists. split; [reflexivity|]. rewrite u32_small by lia. by apply io_write_data. Qed.

Lemma entry_register i : 0 ≤ i < 24 → u8 (APIC_IO_REGISTER_ENTRY i) = 0x10 + 2 * i.
Proof. intros Hi. unfold APIC_IO_REGISTER_ENTRY. rewrite u8_small; lia. Qed.

Lemma get_entry_run i d :
  0 ≤ i < 24 → ∃ d', apic_io_get_entry i d = Ok (entry_at d i, d') ∧
    ∀ r, io_register d' r = io_register d r.
Proof.
  intros Hi. unfold apic_io_get_entry. rewrite entry_register by done.
  destruct (select_run (0x10 + 2 * i) d) as (d1 & Hr1 & Hs1 & Hg1); [lia|].
  rewrite (bind_ok _ _ _ _ _ Hr1), (bind_ok _ _ _ _ _ (read_run d1)).
  destruct (select_run (0x10 + 2 * i + 1) d1) as (d2 & Hr2 & Hs2 & Hg2); [lia|].
  rewrite (bind_ok _ _ _ _ _ Hr2), (bind_ok _ _ _ _ _ (read_run d2)).
  exists d2. split; [|intros r; by rewrite Hg2, Hg1].
  unfold ret, entry_at. rewrite Hs1, Hs2, Hg2, !Hg1.
  pose proof (io_register_range d (0x10 + 2 * i)). pose proof (io_register_range d (0x10 + 2 * i + 1)).
  rewrite u64_small by (rewrite Z.shiftl_mul_pow2 by lia; lia). by rewrite lor_shiftl_add by lia.
Qed.

Lemma set_entry_run i w d :
  0 ≤ i < 24 → 0 ≤ w < 2 ^ 64 → ∃ d', apic_io_set_entry i w d = Ok (tt, d') ∧
    ∀ r, io_register d' r =
      if r =? 0x10 + 2 * i then written d r (w mod 2 ^ 32)
      else if r =? 0x10 + 2 * i + 1 then written d r (w / 2 ^ 32) else io_register d r.
Proof.
  intros Hi Hw. unfold apic_io_set_entry. rewrite entry_register by done.
  change 0xFFFFFFFF with (2 ^ 32 - 1). rewrite land_ones_mod, Z.shiftr_div_pow2 by lia.
  destruct (select_run (0x10 + 2 * i) d) as (d1 & Hr1 & Hs1 & Hg1); [lia|]. rewrite (bind_ok _ _ _ _ _ Hr1).
  destruct (write_run (w mod 2 ^ 32) d1) as (d2 & Hr2 & Hs2 & Hg2); [divmod_lia|]. rewrite (bind_ok _ _ _ _ _ Hr2).
  destruct (select_run (0x10 + 2 * i + 1) d2) as (d3 & Hr3 & Hs3 & Hg3); [lia|]. rewrite (bind_ok _ _ _ _ _ Hr3).
  destruct (write_run (w / 2 ^ 32) d3) as (d4 & Hr4 & Hs4 & Hg4); [divmod_lia|].
  exists d4. split; [exact Hr4|]. intros r. unfold written in *. rewrite Hg4, Hs3, Hg3, Hg2, Hs1, Hg1.
  destruct (Z.eqb_spec r (0x10 + 2 * i + 1)), (Z.eqb_spec r (0x10 + 2 * i)); (done || lia).
Qed.

(** Fields of words put together and taken apart. *)
Lemma bits_get_low k n a b : 0 ≤ k → 0 ≤ n → k + n ≤ 32 → 0 ≤ a < 2 ^ 32 →
  bits_get k n (a + b * 2 ^ 32) = bits_get k n a.
Proof.
  intros Hk Hn H Ha. apply Z.bits_inj'. intros j Hj. rewrite !bits_get_spec by done.
  destruct (Z.ltb_spec j n); [|done]. cbn [andb]. rewrite <- (lor_shiftl_add a b 32), Z.lor_spec by lia.
  rewrite Z.shiftl_spec_low, orb_false_r by lia. done.
Qed.

Lemma bits_get_high k n a b : 0 ≤ k → 0 ≤ n → 0 ≤ a < 2 ^ 32 →
  bits_get (k + 32) n (a + b * 2 ^ 32) = bits_get k n b.
Proof.
  intros Hk Hn Ha. rewrite !bits_get_mod by lia. f_equal. rewrite Z.pow_add_r, (Z.mul_comm (2 ^ k)) by lia.
  assert (0 < 2 ^ k) by lia. rewrite <- Z.div_div by lia. rewrite Z.div_add, (Z.div_small a), Z.add_0_l by lia. done.
Qed.

Lemma bits_get_mod32 k n w : 0 ≤ k → 0 ≤ n → k + n ≤ 32 → bits_get k n (w mod 2 ^ 32) = bits_get k n w.
Proof.
  intros Hk Hn H. apply Z.bits_inj'. intros j Hj. rewrite !bits_get_spec by done.
  destruct (Z.ltb_spec j n); [|done]. cbn [andb]. by rewrite Z.mod_pow2_bits_low by lia.
Qed.

Lemma bits_get_div32 k n w : 0 ≤ k → 0 ≤ n → bits_get k n (w / 2 ^ 32) = bits_get (k + 32) n w.
Proof.
  intros Hk Hn. rewrite !bits_get_mod by lia. f_equal. rewrite Z.div_div, <- Z.pow_add_r by lia.
  by rewrite Z.add_comm.
Qed.

Lemma bits_get_written d r v k n :
  0 ≤ k → 0 ≤ n → bits_get k n (writable r) = Z.ones n → bits_get k n (written d r v) = bits_get k n v.
Proof.
  intros Hk Hn Hw. apply Z.bits_inj'. intros j Hj. rewrite !bits_get_spec by done.
  destruct (Z.ltb_spec j n); [|done]. cbn [andb].
  assert (Z.testbit (writable r) (j + k) = true) as Hb.
  { pose proof (bits_get_spec k n (writable r) j Hk Hn Hj) as Hs.
    rewrite Hw, Z.ones_spec_low, (proj2 (Z.ltb_lt j n)) in Hs by lia. by rewrite Hs. }
  unfold written. rewrite Z.lor_spec, Z.land_spec, Z.ldiff_spec, Hb. cbn. by rewrite andb_true_r, andb_false_r, orb_false_r.
Qed.

Lemma bits_get_kept d r v k n :
  0 ≤ k → 0 ≤ n → bits_get k n (writable r) = 0 → bits_get k n (written d r v) = bits_get k n (io_register d r).
Proof.
  intros Hk Hn Hw. apply Z.bits_inj'. intros j Hj. rewrite !bits_get_spec by done.
  destruct (Z.ltb_spec j n); [|done]. cbn [andb].
  assert (Z.testbit (writable r) (j + k) = false) as Hb.
  { pose proof (bits_get_spec k n (writable r) j Hk Hn Hj) as Hs.
    rewrite Hw, Z.bits_0, (proj2 (Z.ltb_lt j n)) in Hs by lia. by rewrite Hs. }
  unfold written. rewrite Z.lor_spec, Z.land_spec, Z.ldiff_spec, Hb. cbn. by rewrite andb_false_r, andb_true_r.
Qed.

Lemma writable_low i : 0 ≤ i < 24 → writable (0x10 + 2 * i) = 0x1AFFF.
Proof.
  intros Hi. unfold writable. rewrite (proj2 (Z.leb_le _ _)), (proj2 (Z.ltb_lt _ _)) by lia. cbn [andb].
  assert (Z.even (0x10 + 2 * i) = true) as ->; [|done]. rewrite Z.even_spec. exists (8 + i). lia.
Qed.

Lemma writable_high i : 0 ≤ i < 24 → writable (0x10 + 2 * i + 1) = 0xFF000000.
Proof.
  intros Hi. unfold writable. rewrite (proj2 (Z.leb_le _ _)), (proj2 (Z.ltb_lt _ _)) by lia. cbn [andb].
  assert (Z.even (0x10 + 2 * i + 1) = false) as ->; [|done].
  rewrite <- Z.negb_odd. assert (Z.odd (0x10 + 2 * i + 1) = true) as ->; [|done].
  rewrite Z.odd_spec. exists (8 + i). lia.
Qed.

(** The entry after [w] was written to it: the status bits are the device's. *)
Definition with_status (e old : ioapic_entry) : ioapic_entry :=
  IoApicEntry (entry_vector e) (delivery_mode e) (destination_mode e) (delivery_status old) (pin_polarity e)
    (remote_irr old) (trigger_mode e) (entry_mask e) (destination e).

Lemma set_entry_fields i w d d' :
  0 ≤ i < 24 →
  (∀ r, io_register d' r =
      if r =? 0x10 + 2 * i then written d r (w mod 2 ^ 32)
      else if r =? 0x10 + 2 * i + 1 then written d r (w / 2 ^ 32) else io_register d r) →
  word_entry (entry_at d' i) = with_status (word_entry w) (word_entry (entry_at d i)).
Proof.
  intros Hi Hd'. pose proof (io_register_range d (0x10 + 2 * i)) as R1.
  pose proof (io_register_range d' (0x10 + 2 * i)) as R2.
  unfold word_entry, with_status, entry_at. cbn [entry_vector delivery_mode destination_mode delivery_status
    pin_polarity remote_irr trigger_mode entry_mask destination].
  assert (∀ k n, 0 ≤ k → 0 ≤ n → k + n ≤ 32 → bits_get k n 0x1AFFF = Z.ones n →
    bits_get k n (io_register d' (0x10 + 2 * i) + io_register d' (0x10 + 2 * i + 1) * 2 ^ 32) = bits_get k n w) as Hlow.
  { intros k n Hk Hn Hkn Hw. rewrite bits_get_low, Hd', Z.eqb_refl by done.
    rewrite bits_get_written by (done || by rewrite writable_low). by apply bits_get_mod32. }
  assert (∀ k n, 0 ≤ k → 0 ≤ n → k + n ≤ 32 → bits_get k n 0x1AFFF = 0 →
    bits_get k n (io_register d' (0x10 + 2 * i) + io_register d' (0x10 + 2 * i + 1) * 2 ^ 32) =
    bits_get k n (io_register d (0x10 + 2 * i) + io_register d (0x10 + 2 * i + 1) * 2 ^ 32)) as Hkept.
  { intros k n Hk Hn Hkn Hw. rewrite !bits_get_low, Hd', Z.eqb_refl by done.
    by rewrite bits_get_kept by (done || by rewrite writable_low). }
  f_equal; try (apply Hlow; (lia || reflexivity)); try (apply Hkept; (lia || reflexivity)).
  change 56 with (24 + 32). rewrite bits_get_high, Hd' by lia.
  rewrite (proj2 (Z.eqb_neq _ _)), Z.eqb_refl by lia.
  rewrite bits_get_written by (lia || by rewrite writable_high). by apply bits_get_div32.
Qed.

(** C36. An entry registered with an IO APIC reads back with every field as it was given, but for the
    two status bits, which stay the device's own; no other entry changes. *)
Theorem apic_io_register_roundtrip i e d :
  0 ≤ i < 24 → entry_typed e →
  ∃ d' w d'', apic_io_register i e d = Ok (tt, d') ∧ apic_io_get_entry i d' = Ok (w, d'') ∧
    word_entry w = with_status e (word_entry (entry_at d i)) ∧
    ∀ j, 0 ≤ j < 24 → j ≠ i → entry_at d'' j = entry_at d j.
Proof.
  intros Hi He. unfold apic_io_register.
  destruct (set_entry_run i (entry_word e) d Hi (entry_word_range e)) as (d' & Hrun & Hd').
  destruct (get_entry_run i d' Hi) as (d'' & Hget & Hd'').
  exists d', (entry_at d' i), d''. split; [done|]. split; [done|]. split.
  - by rewrite (set_entry_fields i _ d d' Hi Hd'), word_entry_word.
  - intros j Hj Hne. unfold entry_at. by rewrite !Hd'', !Hd', !(proj2 (Z.eqb_neq _ _)) by lia.
Qed.
End IoApicSpec.

(** ** The 8259 chips *)

(** The initialisation word expected next, the vector of the first interrupt
    (its low three bits come from the interrupt number) and the mask. *)
Record pic := Pic { pic_stage : nat; pic_base : Z; pic_mask : Z }.

(** A command byte with bit 4 starts the initialisation. *)
Definition pic_command (v : Z) (c : pic) : pic :=
  if Z.testbit v 4 then Pic 2 (pic_base c) 0 else c.

(** Words 2, 3 and 4 of the initialisation, then the mask. *)
Definition pic_data (v : Z) (c : pic) : pic :=
  match pic_stage c with
  | 2 => Pic 3 (Z.land v 0xF8) (pic_mask c)
  | 3 => Pic 4 (pic_base c) (pic_mask c)
  | 4 => Pic 0 (pic_base c) (pic_mask c)
  | _ => Pic (pic_stage c) (pic_base c) v
  end%nat.

Class Pics (P : Type) {PD : PortDevices P} : Type := {
  pic_master : P → pic;
  pic_slave : P → pic;
  pic_master_command : ∀ p v, let p' := port_out8 PIC_MASTER_COMMAND_PORT v p in
    pic_master p' = pic_command v (pic_master p) ∧ pic_slave p' = pic_slave p;
  pic_master_data : ∀ p v, let p' := port_out8 PIC_MASTER_DATA_PORT v p in
    pic_master p' = pic_data v (pic_master p) ∧ pic_slave p' = pic_slave p;
  pic_slave_command : ∀ p v, let p' := port_out8 PIC_SLAVE_COMMAND_PORT v p in
    pic_slave p' = pic_command v (pic_slave p) ∧ pic_master p' = pic_master p;
  pic_slave_data : ∀ p v, let p' := port_out8 PIC_SLAVE_DATA_PORT v p in
    pic_slave p' = pic_data v (pic_slave p) ∧ pic_master p' = pic_master p;
  pic_waits : ∀ p, pic_master (cpu_wait_microsecond p) = pic_master p ∧
    pic_slave (cpu_wait_microsecond p) = pic_slave p
}.

(** The vector interrupt [n] of a chip raises. *)
Definition pic_vector (c : pic) (n : Z) : Z := pic_base c + n.

Section PicSpec.
Context {P : Type} {PD : PortDevices P} {L : Pics P}.

(** Both chips at once, as the writes change them. *)
Definition pics (p : P) : pic * pic := (pic_master p, pic_slave p).

Lemma pic_step port v p f g :
  pic_master (port_out8 port (u8 v) p) = f (pic_master p) → pic_slave (port_out8 port (u8 v) p) = g (pic_slave p) →
  ∃ p', pic_out8 port v p = Ok (tt, p') ∧ pics p' = (f (pic_master p), g (pic_slave p)).
Proof. intros Hf Hg. eexists. split; [reflexivity|]. unfold pics. by rewrite Hf, Hg. Qed.

(** A program of writes and waits, and what the chips make of it. *)
Inductive pic_event := Out (port v : Z) | Wait.

Definition pic_event_run (e : pic_event) : M P unit :=
  match e with Out port v => pic_out8 port v | Wait => pic_wait end.

Fixpoint pic_events_run (l : list pic_event) : M P unit :=
  match l with
  | [] => ret tt
  | [e] => pic_event_run e
  | e :: l => pic_event_run e ;;; pic_events_run l
  end.

Definition pic_effect (e : pic_event) (c : pic * pic) : pic * pic :=
  match e with
  | Out port v =>
      if port =? PIC_MASTER_COMMAND_PORT then (pic_command v c.1, c.2)
      else if port =? PIC_MASTER_DATA_PORT then (pic_data v c.1, c.2)
      else if port =? PIC_SLAVE_COMMAND_PORT then (c.1, pic_command v c.2)
      else (c.1, pic_data v c.2)
  | Wait => c
  end.

Definition pic_port (e : pic_event) : Prop :=
  match e with
  | Out port v => port ∈ [PIC_MASTER_COMMAND_PORT; PIC_MASTER_DATA_PORT; PIC_SLAVE_COMMAND_PORT; PIC_SLAVE_DATA_PORT] ∧
      0 ≤ v < 2 ^ 8
  | Wait => True
  end.

Lemma pic_event_ok e p :
  pic_port e → ∃ p', pic_event_run e p = Ok (tt, p') ∧ pics p' = pic_effect e (pics p).
Proof.
  destruct e as [port v|]; intros He; cbn [pic_event_run pic_effect].
  - eexists. split; [reflexivity|]. destruct He as [Hport Hv]. rewrite u8_small by done. set_unfold. unfold pics.
    destruct Hport as [->|[->|[->|[->|[]]]]]; cbn [Z.eqb Pos.eqb].
    + by destruct (pic_master_command p v) as [-> ->].
    + by destruct (pic_master_data p v) as [-> ->].
    + by destruct (pic_slave_command p v) as [-> ->].
    + by destruct (pic_slave_data p v) as [-> ->].
  - eexists. split; [reflexivity|]. unfold pics. by destruct (pic_waits p) as [-> ->].
Qed.

Lemma pic_events_ok l : ∀ p,
  Forall pic_port l → ∃ p', pic_events_run l p = Ok (tt, p') ∧ pics p' = foldl (flip pic_effect) (pics p) l.
Proof.
  induction l as [|e l IH]; intros p Hl; [by exists p|]. apply list.Forall_cons in Hl as [He Hl].
  destruct (pic_event_ok e p He) as (p1 & Hr1 & H1). destruct l as [|e' l]; [by exists p1|].
  destruct (IH p1 Hl) as (p2 & Hr2 & H2). exists p2. split; [|by rewrite H2, H1].
  change (pic_events_run (e :: e' :: l)) with (pic_event_run e ;;; pic_events_run (e' :: l)).
  by rewrite (bind_ok _ _ _ _ _ Hr1).
Qed.

(** The sequence of [apic_disable_pic]. *)
Definition disable_events : list pic_event :=
  [Out 0x20 0x11; Wait; Out 0x21 247; Wait; Out 0x21 4; Wait; Out 0x21 1; Wait;
   Out 0xA0 0x11; Wait; Out 0xA1 239; Wait; Out 0xA1 2; Wait; Out 0xA1 1; Wait; Out 0x21 255; Out 0xA1 255].

(** Whatever state the two PICs are in, [apic_disable_pic] leaves them initialised, with every
    interrupt masked and with their sixteen vectors above the exceptions, at 240 and at 232: an 8259
    ignores the low three bits of the offsets 247 and 239 it is given. *)
Theorem apic_disable_pic_spec p :
  ∃ p', apic_disable_pic p = Ok (tt, p') ∧
    pic_master p' = Pic 0 240 255 ∧ pic_slave p' = Pic 0 232 255 ∧
    ∀ n, 0 ≤ n < 8 → 32 ≤ pic_vector (pic_slave p') n < pic_vector (pic_master p') n ∧
      pic_vector (pic_master p') n < 0xff.
Proof.
  assert (Forall pic_port disable_events) as Hports.
  { unfold disable_events. repeat (apply list.Forall_cons; split); [..|done];
      first [exact I|split; [apply (bool_decide_unpack _); by vm_compute|lia]]. }
  destruct (pic_events_ok disable_events p Hports) as (p' & Hrun & Hp).
  exists p'. split; [exact Hrun|]. unfold pics in Hp.
  destruct (pic_master p) as [st b mk], (pic_slave p) as [st' b' mk'].
  assert ((pic_master p', pic_slave p') = (Pic 0 240 255, Pic 0 232 255)) as [= -> ->] by exact Hp.
  split; [done|]. split; [done|]. intros n Hn. unfold pic_vector. cbn [pic_base]. lia.
Qed.
End PicSpec.

(** [apic_check_supported] tests bit 8 of [edx], not bit 9 as its comment and the manual have it:
    a processor with an APIC and without that other feature is turned away. *)
Theorem apic_check_supported_tests_bit_8 cpu_id eax ebx ecx edx :
  cpu_id 1 = (eax, ebx, ecx, edx) → truthy (apic_check_supported cpu_id) = Z.testbit edx 8.
Proof. intros H. unfold apic_check_supported. rewrite H. change 256 with (2 ^ 8). by apply land_bit. Qed.

Lemma apic_check_supported_tests_bit_8_witness :
  truthy (apic_check_supported (λ _, (0, 0, 0, 2 ^ 9))) = Z.testbit (2 ^ 9) 8.
Proof. apply (apic_check_supported_tests_bit_8 _ 0 0 0 (2 ^ 9)). reflexivity. Defined.

(** ** Concrete devices *)

Record ioapic0 := IoApic0 { i_selected : Z; i_registers : gmap Z Z }.
Definition i_register (d : ioapic0) (r : Z) : Z := u32 (default 0 (i_registers d !! r)).

#[local] Instance ioapic0_device : IoApicDevice ioapic0 := {
  mmio_write offset v d :=
    if offset =? register_select then IoApic0 (u8 v) (i_registers d)
    else let r := i_selected d in
      IoApic0 r (<[r := Z.lor (Z.land v (writable r)) (Z.ldiff (i_register d r) (writable r))]> (i_registers d));
  mmio_read offset d := if offset =? register_select then (i_selected d, d) else (i_register d (i_selected d), d)
}.

Lemma merge_range v w o : 0 ≤ v < 2 ^ 32 → 0 ≤ o < 2 ^ 32 →
  0 ≤ Z.lor (Z.land v w) (Z.ldiff o w) < 2 ^ 32.
Proof.
  intros Hv Ho. set (x := Z.lor _ _). assert (x = x mod 2 ^ 32) as ->; [|apply Z.mod_pos_bound; lia].
  apply Z.bits_inj'. intros i Hi. destruct (decide (i < 32)); [by rewrite Z.mod_pow2_bits_low by lia|].
  rewrite Z.mod_pow2_bits_high by lia. unfold x.
  by rewrite Z.lor_spec, Z.land_spec, Z.ldiff_spec, (testbit_high v 32), (testbit_high o 32) by (done || lia).
Qed.

#[local] Program Instance ioapic0_laws : IoApic ioapic0 := {|
  io_selected := i_selected;
  io_register := i_register
|}.
Next Obligation. intros d r. apply u32_range. Qed.
Next Obligation. intros [r m] v Hv. cbn. by rewrite u8_small. Qed.
Next Obligation.
  intros [q m] v Hv. cbn. split; [done|]. intros r. unfold i_register at 1. cbn.
  destruct (Z.eqb_spec r q) as [->|Hne].
  - rewrite lookup_insert_eq. cbn. apply Z.mod_small. apply merge_range; [done|apply u32_range].
  - by rewrite lookup_insert_ne.
Qed.
Next Obligation. by intros [q m]. Qed.

Definition ioapic_empty : ioapic0 := IoApic0 0 ∅.

Lemma apic_io_register_roundtrip_witness :
  ∃ d' w d'', apic_io_register 2 (fixed_entry 0x24 1) ioapic_empty = Ok (tt, d') ∧
    apic_io_get_entry 2 d' = Ok (w, d'') ∧ entry_vector (word_entry w) = 0x24.
Proof.
  destruct (apic_io_register_roundtrip 2 (fixed_entry 0x24 1) ioapic_empty) as (d' & w & d'' & H1 & H2 & H3 & _).
  - lia.
  - constructor; cbn; lia.
  - exists d', w, d''. split; [exact H1|]. split; [exact H2|]. rewrite H3. reflexivity.
Defined.

Record pics0 := Pics0 { p_master : pic; p_slave : pic }.

#[local] Instance pics0_ports : PortDevices pics0 := {
  port_in8 port p := (0, p);
  port_out8 port v p :=
    if port =? PIC_MASTER_COMMAND_PORT then Pics0 (pic_command v (p_master p)) (p_slave p)
    else if port =? PIC_MASTER_DATA_PORT then Pics0 (pic_data v (p_master p)) (p_slave p)
    else if port =? PIC_SLAVE_COMMAND_PORT then Pics0 (p_master p) (pic_command v (p_slave p))
    else if port =? PIC_SLAVE_DATA_PORT then Pics0 (p_master p) (pic_data v (p_slave p)) else p;
  cpu_wait_microsecond p := p
}.

#[local] Program Instance pics0_laws : Pics pics0 := {| pic_master := p_master; pic_slave := p_slave |}.
Solve Obligations with done.

Lemma apic_disable_pic_spec_witness :
  ∃ p', apic_disable_pic (Pics0 (Pic 3 8 0) (Pic 0 0x70 0x8F)) = Ok (tt, p') ∧ pic_mask (p_master p') = 255.
Proof.
  destruct (apic_disable_pic_spec (Pics0 (Pic 3 8 0) (Pic 0 0x70 0x8F))) as (p' & H1 & H2 & _).
  exists p'. split; [exact H1|]. change (p_master p') with (pic_master p'). rewrite H2. reflexivity.
Defined.
