(* ===== verification/Main.v ===== *)
(** * The kernel entry

    Models the part of [kernel_main] of [src/src/common/main.c] behind the set-up
    of the boot processor: the search for the ACPI tables with its error
    exits, the report on the local APIC, and the start of the other processors.
    The interrupt command registers of the local APIC, the other processors and
    their answer in [cpu_startup_increment] are a parameter, [StartupBus].
    [MainSpec] has the theorems. *)

From S2P Require Import Prelude Memory Allocator Paging Cpu Scheduler Acpi Apic.

(** The registers and variables the processors share. *)
Class StartupBus (B : Type) : Type := {
  write_interrupt_command0 : Z → B → B;
  write_interrupt_command1 : Z → B → B;
  wait_millisecond : B → B;
  clear_startup_increment : B → B;
  read_startup_increment : B → Z * B;
  set_startup_done : B → B
}.

Section Main.
Context {A : Type} {PA : PageAllocator A}.

(** ** The ACPI tables, lines 357 to 449 *)

(** [cpu_id] is the [cpuid] instruction. [None] is one of the early returns. *)
Context (cpu_id : Z → Z * Z * Z * Z).

(** [if (condition) { console_print(message); return; }] *)
Definition early_return {R} (message : string) : M (cpu_state A) (option R) := print message ;;; ret None.

(** Lines 420 to 449. *)
Definition find_madt (rsdt : Z) : M (cpu_state A) (option Z) :=
  let! m := gets s_mem in
  let madt := acpi_rsdt_get_table m rsdt ACPI_MADT_SIGNATURE in
  if negb (truthy madt) then early_return ("[acpi] fatal: MADT not found!" +:+ nl)
  else
    let! sum := lift (acpi_validate_sdt m madt) in
    if truthy sum then early_return ("[acpi] fatal: MADT not valid" +:+ nl)
    else if negb (truthy (apic_check_supported cpu_id)) then early_return ("[acpi] fatal: apic is not supported!" +:+ nl)
    else ret (Some madt).

(** Lines 387 to 418: the description tables, [true] when they are valid. *)
Definition check_fadt (rsdt : Z) : M (cpu_state A) (option Z) :=
  let! m := gets s_mem in
  let fadt := acpi_rsdt_get_table m rsdt ACPI_FADT_SIGNATURE in
  if negb (truthy fadt) then early_return ("[acpi] fatal: FADT not found!" +:+ nl)
  else
    let! sum := lift (acpi_validate_sdt m fadt) in
    if truthy sum then early_return ("[acpi] fatal: FADT not valid" +:+ nl)
    else
      let dsdt := fadt_dsdt m fadt in
      if negb (truthy dsdt) then early_return ("[acpi] fatal: DSDT not found!" +:+ nl)
      else
        let! sum := lift (acpi_validate_sdt m dsdt) in
        if truthy sum then early_return ("[acpi] fatal: DSDT not valid" +:+ nl)
        else
          print "aml code size = " ;;;
          says (CPrintU32 (u32 (sdt_length m dsdt - sizeof_acpi_sdt)) 10) ;;;
          says CNewLine ;;;
          ret (Some fadt).

(** Lines 357 to 449; the result is [madt]. *)
Definition find_tables (fuel : nat) : M (cpu_state A) (option Z) :=
  print ("[acpi] find rsdt" +:+ nl) ;;;
  let! m := gets s_mem in
  let rsdtp := acpi_find_rsdt_pointer m in
  if negb (truthy rsdtp) then early_return ("[acpi] rsdp not found!" +:+ nl)
  else
    acpi_print_rsdtp rsdtp ;;;
    if truthy (acpi_validate_rsdt_pointer m rsdtp) then early_return ("[acpi] rsdp checksum does not match!" +:+ nl)
    else
      let rsdt := load32 m (rsdtp + rsdtp_address) in
      let! sum := lift (acpi_validate_sdt m rsdt) in
      if truthy sum then early_return ("[acpi] rsdt checksum does not match!" +:+ nl)
      else
        acpi_print_rsdt fuel rsdt ;;;
        let! fadt := check_fadt rsdt in
        match fadt with
        | None => ret None
        | Some _ => find_madt rsdt
        end.

(** ** The other processors, lines 519 to 588 *)

Context {B : Type} {SB : StartupBus B}.

Definition on_cpu {R} (m : M (cpu_state A) R) : M (cpu_state A * B) R := λ '(s, b),
  match m s with Ok (r, s) => Ok (r, (s, b)) | Undef => Undef | Hang => Hang end.
Definition on_bus (f : B → B) : M (cpu_state A * B) unit := modify (λ '(s, b), (s, f b)).

(** [struct acpi_madt_entry_local_apic] *)
Definition entry_apic_id (m : mem) (e : Z) : Z := load8 m (e + 3).
Definition entry_flags (m : mem) (e : Z) : Z := load32 m (e + 4).

(** [while (!cpu_startup_increment) pause;] *)
Fixpoint wait_started (fuel : nat) : M (cpu_state A * B) unit := λ '(s, b),
  match fuel with
  | O => Hang
  | S fuel' =>
      let '(v, b) := read_startup_increment b in
      if truthy v then Ok (tt, (s, b)) else wait_started fuel' (s, b)
  end.

(** Lines 558 to 580. *)
Definition start_processor (fuel : nat) (apic_id startup_vector : Z) : M (cpu_state A * B) unit :=
  let command1 := u32 (Z.shiftl apic_id 24) in
  on_bus clear_startup_increment ;;;
  on_bus (write_interrupt_command1 command1) ;;;
  on_bus (write_interrupt_command0 (Z.lor (Z.shiftl 1 14) (Z.shiftl 5 8))) ;;;
  on_bus wait_millisecond ;;;
  on_bus (write_interrupt_command1 command1) ;;;
  on_bus (write_interrupt_command0 (Z.lor (Z.lor (Z.shiftl 1 14) (Z.shiftl 6 8)) startup_vector)) ;;;
  on_bus wait_millisecond ;;;
  on_bus (write_interrupt_command1 command1) ;;;
  on_bus (write_interrupt_command0 (Z.lor (Z.lor (Z.shiftl 1 14) (Z.shiftl 6 8)) startup_vector)) ;;;
  wait_started fuel.

(** The body of the loop, lines 545 to 583. *)
Definition visit_processor (fuel : nat) (boot_apic_id startup_vector e : Z) : M (cpu_state A * B) unit :=
  let! m := on_cpu (gets s_mem) in
  if negb (truthy (Z.land (entry_flags m e) 1)) then
    on_cpu (print ("[smp] skipping because the processor enabled flag is 0" +:+ nl))
  else if entry_apic_id m e =? boot_apic_id then
    on_cpu (print ("[smp] skipping because boot processor" +:+ nl))
  else start_processor fuel (entry_apic_id m e) startup_vector.

(** [while (e = acpi_madt_iterate_type(madt, e, type)) body(e);] *)
Fixpoint for_entries (n fuel : nat) (madt entry_type e : Z) (body : Z → M (cpu_state A * B) unit)
    : M (cpu_state A * B) unit :=
  match n with
  | O => hang
  | S n' =>
      let! m := on_cpu (gets s_mem) in
      let! next := lift (acpi_madt_iterate_type fuel m madt e entry_type) in
      if truthy next then body next ;;; for_entries n' fuel madt entry_type next body else ret tt
  end.

(** Lines 521 to 588: [false] is the early return. [cpu_startup16] is the
    address of the entry code, [boot_apic_id] that of this processor. *)
Definition start_processors (n fuel : nat) (madt boot_apic_id cpu_startup16 : Z) : M (cpu_state A * B) bool :=
  let startup_vector := u32 (Z.shiftr cpu_startup16 12) in
  on_cpu (print "[smp] cpu entry code at 0x" ;;; says (CPrintU64 cpu_startup16 16) ;;; says CNewLine ;;;
    print "[smp] cpu entry code vector " ;;; says (CPrintI32 (s32 startup_vector) 10) ;;; says CNewLine) ;;;
  if 255 <? startup_vector then
    on_cpu (print ("[smp] fatal: cpu entry code is not under the 1mb barrier, cannot start multiple processors" +:+ nl)) ;;;
    ret false
  else
    on_cpu (says CClear) ;;;
    for_entries n fuel madt ACPI_MADT_TYPE_LOCAL_APIC 0 (visit_processor fuel boot_apic_id startup_vector) ;;;
    on_bus set_startup_done ;;;
    on_cpu (modify (set_interrupts true)) ;;;
    ret true.
End Main.
