(* ===== verification/MainSpec.v ===== *)
(** * Correctness of the kernel entry

    The other processors are started one after the other as the MADT lists
    them; the ACPI tables are used only after all their checks. *)

From S2P Require Import Prelude Memory Allocator Physical PhysicalSpec Paging Cpu CpuSpec Machine Config Acpi AcpiSpec Apic Main.

(** ** The processors behind the registers *)

(** What the boot processor does on the bus: it clears
    [cpu_startup_increment], sends an interrupt (target and command register),
    waits a millisecond, reads the increment, and sets [cpu_startup_done]. *)
Inductive startup_event :=
| Cleared
| Command (target value : Z)
| Delayed
| Polled (value : Z)
| Released.

(** [events] are those of the past, newest first; [target] is the target
    register; [delay] is the number of readings before
    [cpu_startup_increment] is set, at most [latency] after an interrupt to a
    processor that [answers]. *)
Class StartupLaws (B : Type) {SB : StartupBus B} : Type := {
  events : B → list startup_event;
  target : B → Z;
  delay : B → nat;
  latency : nat;
  answers : Z → Prop;
  command0_law : ∀ v b, events (write_interrupt_command0 v b) = Command (target b) v :: events b ∧
    (answers (target b) → (delay (write_interrupt_command0 v b) ≤ latency)%nat);
  command1_law : ∀ v b, events (write_interrupt_command1 v b) = events b ∧ target (write_interrupt_command1 v b) = v;
  wait_law : ∀ b, events (wait_millisecond b) = Delayed :: events b ∧ target (wait_millisecond b) = target b;
  clear_law : ∀ b, events (clear_startup_increment b) = Cleared :: events b;
  done_law : ∀ b, events (set_startup_done b) = Released :: events b;
  read_law : ∀ b, ∃ v b', read_startup_increment b = (v, b') ∧ events b' = Polled v :: events b ∧
    (delay b = O → v ≠ 0) ∧ ∀ n, delay b = S n → (delay b' ≤ n)%nat
}.

(** Up to the wait: the increment is cleared, then INIT and twice SIPI to the
    processor with the given id, a millisecond behind the first two. *)
Definition startup_commands (startup_vector apic_id : Z) : list startup_event :=
  let t := u32 (Z.shiftl apic_id 24) in
  [Cleared; Command t 0x4500; Delayed; Command t (Z.lor 0x4600 startup_vector); Delayed;
   Command t (Z.lor 0x4600 startup_vector)].

(** The start of one processor, oldest event first: the commands, then the
    increment is read until it is not zero. *)
Definition started_by (startup_vector apic_id : Z) (trace : list startup_event) : Prop :=
  ∃ k v, trace = startup_commands startup_vector apic_id ++ replicate k (Polled 0) ++ [Polled v] ∧ v ≠ 0.

Section Startup.
Context {A : Type} {PA : PageAllocator A} {B : Type} {SB : StartupBus B} {L : StartupLaws B}.
Implicit Types (s : cpu_state A) (b : B).

Definition mem_of (st : cpu_state A * B) : mem := s_mem st.1.

(** ** The loop over the entries *)

Fixpoint run_all (body : Z → M (cpu_state A * B) unit) (l : list Z) : M (cpu_state A * B) unit :=
  match l with
  | [] => ret tt
  | e :: l => body e ;;; run_all body l
  end.

Lemma for_entries_chain madt ty body (Hb : ∀ e, preserves mem_of (body e)) n : ∀ l e fuel st m,
  mem_of st = m → 0 ≤ madt → madt + sdt_length m madt < 2 ^ 64 → entry_chain m (madt + sdt_length m madt) e l →
  (length l < fuel)%nat → (length l < n)%nat →
  for_entries n fuel madt ty e body st = run_all body (of_type m ty l) st.
Proof using Type.
  induction n as [|n IH]; intros l e fuel st m Hst Hm Hl Hc Hf Hn; [lia|]. cbn [for_entries].
  destruct st as [s b]. unfold bind at 1, on_cpu, gets. change (s_mem s) with (mem_of (s, b)). rewrite Hst.
  unfold bind at 1, lift. rewrite (madt_iterate_type_chain m madt ty l e fuel Hm Hl Hc Hf).
  destruct (of_type_split m _ ty l e Hc) as [->|(e' & l' & -> & Hc' & Hlt)]; [done|].
  change (default 0 (head (e' :: ?k))) with e'.
  pose proof (entry_chain_positive _ _ _ _ Hc'). rewrite (proj2 (truthy_spec e')) by lia. cbn [run_all].
  apply bind_cong. intros [] st' Hr. apply IH; [|done|done|done|lia|lia].
  rewrite (Hb e' _ _ _ Hr). exact Hst.
Qed.

Lemma for_entries_run madt ty body (Hb : ∀ e, preserves mem_of (body e)) n l fuel st :
  madt_entries (mem_of st) madt l → (length l < fuel)%nat → (length l < n)%nat →
  for_entries n fuel madt ty 0 body st = run_all body (of_type (mem_of st) ty l) st.
Proof using Type.
  intros Hd Hf Hn. destruct n as [|n]; [lia|]. cbn [for_entries].
  destruct st as [s b]. unfold bind at 1, on_cpu, gets. change (s_mem s) with (mem_of (s, b)).
  unfold bind at 1, lift. rewrite (madt_iterate_type_start _ madt ty l fuel Hd Hf).
  destruct Hd as (Hm & Hl & Hd). destruct l as [|e l]; [done|]. destruct Hd as [_ Hc]. cbn [length] in *.
  assert (∀ x l', entry_chain (mem_of (s, b)) (madt + sdt_length (mem_of (s, b)) madt) x l' → (length l' ≤ length l)%nat →
    (if truthy x then body x ;;; for_entries n fuel madt ty x body else ret tt) (s, b) =
    run_all body (x :: of_type (mem_of (s, b)) ty l') (s, b)) as Hnext.
  { intros x l' Hc' Hl'. pose proof (entry_chain_positive _ _ _ _ Hc'). rewrite (proj2 (truthy_spec x)) by lia.
    cbn [run_all]. apply bind_cong. intros [] st' Hr.
    apply for_entries_chain; [exact Hb|exact (Hb x _ _ _ Hr)|done|done|done|lia|lia]. }
  unfold of_type. rewrite filter_cons. destruct (decide (madt_entry_type (mem_of (s, b)) e = ty)); [by apply (Hnext e l)|].
  fold (of_type (mem_of (s, b)) ty l).
  destruct (of_type_split _ _ ty l e Hc) as [->|(e' & l' & -> & Hc' & Hlt)]; [done|].
  apply (Hnext e' l'); [done|lia].
Qed.

(** ** One processor *)

Lemma preserves_on_cpu {R} (m : M (cpu_state A) R) : preserves s_mem m → preserves mem_of (on_cpu (B := B) m).
Proof using Type.
  intros Hm [s b] r [s' b'] Hr. unfold on_cpu in Hr. destruct (m s) as [[r1 s1]| |] eqn:E; [|done|done].
  injection Hr as <- <- <-. exact (Hm s r1 s1 E).
Qed.

Lemma preserves_on_bus f : preserves mem_of (on_bus (A := A) (B := B) f).
Proof using Type. by intros [s b] r st [= <- <-]. Qed.

Lemma preserves_wait_started fuel : preserves mem_of (wait_started (A := A) (B := B) fuel).
Proof using Type.
  induction fuel as [|fuel IH]; intros [s b] r st Hr; [done|]. cbn [wait_started] in Hr.
  destruct (read_startup_increment b) as [v b']. destruct (truthy v); [by injection Hr as <- <-|exact (IH _ _ _ Hr)].
Qed.

Lemma preserves_print msg : preserves s_mem (print (A := A) msg).
Proof using Type. by intros s r s' [= <- <-]. Qed.

#[local] Hint Resolve preserves_on_cpu preserves_on_bus preserves_wait_started preserves_print : preserves.

Lemma preserves_visit fuel boot vector e : preserves mem_of (visit_processor (A := A) (B := B) fuel boot vector e).
Proof using Type. unfold visit_processor, start_processor. auto 30 with preserves. Qed.

Lemma wait_started_run fuel : ∀ s b, (delay b < fuel)%nat →
  ∃ b' k v, wait_started fuel (s, b) = Ok (tt, (s, b')) ∧ v ≠ 0 ∧
    events b' = Polled v :: replicate k (Polled 0) ++ events b.
Proof using L.
  induction fuel as [|fuel IH]; intros s b Hf; [lia|]. cbn [wait_started].
  destruct (read_law b) as (v & b1 & -> & Hc & H0 & HS). destruct (truthy v) eqn:Ev.
  { exists b1, 0%nat, v. apply truthy_spec in Ev. by split_and!. }
  assert (v = 0) as -> by (destruct (decide (v = 0)) as [|Hv]; [done|apply truthy_spec in Hv; congruence]).
  destruct (delay b) as [|d] eqn:Ed; [by destruct (H0 eq_refl)|].
  specialize (HS d eq_refl). destruct (IH s b1) as (b' & k & v & Hr & Hv & Hc'); [lia|]. exists b', (S k), v.
  split; [done|]. split; [done|]. rewrite Hc', Hc, replicate_S_end, <- (assoc (++)). done.
Qed.

Lemma start_processor_run fuel id vector s b :
  answers (u32 (Z.shiftl id 24)) → (latency < fuel)%nat →
  ∃ b' t, start_processor fuel id vector (s, b) = Ok (tt, (s, b')) ∧ started_by vector id t ∧
    events b' = reverse t ++ events b.
Proof using L.
  intros Ha Hf. set (t := u32 (Z.shiftl id 24)) in *. unfold start_processor. fold t.
  unfold on_bus. mstep. cbv beta iota.
  match goal with |- context [wait_started fuel (s, ?b0)] => set (b9 := b0) end.
  assert (events b9 = reverse (startup_commands vector id) ++ events b ∧ (delay b9 ≤ latency)%nat) as [Hc Hd].
  { unfold b9. match goal with |- context [write_interrupt_command0 ?v (write_interrupt_command1 ?w ?b0)] =>
      destruct (command0_law v (write_interrupt_command1 w b0)) as [-> Hdel];
      rewrite (proj2 (command1_law w b0)) in *; rewrite (proj1 (command1_law w b0)) end.
    split; [|by apply Hdel].
    rewrite (proj1 (wait_law _)), (proj1 (command0_law _ _)), !(proj2 (command1_law _ _)), !(proj1 (command1_law _ _)).
    rewrite (proj1 (wait_law _)), (proj1 (command0_law _ _)), !(proj2 (command1_law _ _)), !(proj1 (command1_law _ _)), clear_law.
    reflexivity. }
  destruct (wait_started_run fuel s b9) as (b' & k & v & Hr & Hv & Hc'); [lia|].
  exists b', (startup_commands vector id ++ replicate k (Polled 0) ++ [Polled v]). split; [exact Hr|].
  split; [by exists k, v|]. rewrite Hc', Hc, !reverse_app, reverse_replicate, <- !(assoc (++)). done.
Qed.

(** ** All processors *)

Definition startable (m : mem) (boot_apic_id e : Z) : Prop :=
  truthy (Z.land (entry_flags m e) 1) = true ∧ entry_apic_id m e ≠ boot_apic_id.

#[export] Instance startable_dec m boot e : Decision (startable m boot e).
Proof. unfold startable. apply _. Defined.

(** The processors to start, in the order of the table. *)
Definition processors (m : mem) (boot_apic_id : Z) (l : list Z) : list Z :=
  entry_apic_id m <$> filter (startable m boot_apic_id) (of_type m ACPI_MADT_TYPE_LOCAL_APIC l).

Lemma bind_on_cpu {R R'} (m : M (cpu_state A) R) (k : R → M (cpu_state A * B) R') s b r s' :
  m s = Ok (r, s') → bind (on_cpu m) k (s, b) = k r (s', b).
Proof using Type. unfold bind, on_cpu. by intros ->. Qed.

Lemma visit_processor_run fuel boot vector e s b :
  (startable (s_mem s) boot e → answers (u32 (Z.shiftl (entry_apic_id (s_mem s) e) 24))) → (latency < fuel)%nat →
  ∃ s' b', visit_processor fuel boot vector e (s, b) = Ok (tt, (s', b')) ∧ s_mem s' = s_mem s ∧
    if decide (startable (s_mem s) boot e)
    then ∃ t, started_by vector (entry_apic_id (s_mem s) e) t ∧ events b' = reverse t ++ events b
    else events b' = events b.
Proof using L.
  intros Ha Hf. unfold visit_processor. rewrite (bind_on_cpu _ _ s b (s_mem s) s) by done.
  destruct (decide (startable (s_mem s) boot e)) as [Hs|Hs].
  - pose proof Hs as [-> E]. rewrite (proj2 (Z.eqb_neq _ _) E). cbn [negb].
    destruct (start_processor_run fuel (entry_apic_id (s_mem s) e) vector s b) as (b' & t & Hr & Ht & Hc); [auto|done|].
    exists s, b'. split; [exact Hr|]. split; [done|]. by exists t.
  - destruct (truthy (Z.land (entry_flags (s_mem s) e) 1)) eqn:E1; cbn [negb].
    + destruct (Z.eqb_spec (entry_apic_id (s_mem s) e) boot) as [E2|E2]; [|by destruct Hs].
      eexists _, b. split; [reflexivity|]. by split_and!.
    + eexists _, b. split; [reflexivity|]. by split_and!.
Qed.

Lemma run_all_run fuel boot vector m l : ∀ s b,
  s_mem s = m → (∀ e, e ∈ l → startable m boot e → answers (u32 (Z.shiftl (entry_apic_id m e) 24))) → (latency < fuel)%nat →
  ∃ s' b' ts, run_all (visit_processor fuel boot vector) l (s, b) = Ok (tt, (s', b')) ∧ s_mem s' = m ∧
    Forall2 (started_by vector) (entry_apic_id m <$> filter (startable m boot) l) ts ∧
    events b' = reverse (mjoin ts) ++ events b.
Proof using L.
  induction l as [|e l IH]; intros s b Hs Ha Hf; cbn [run_all].
  - exists s, b, []. by split_and!.
  - destruct (visit_processor_run fuel boot vector e s b) as (s1 & b1 & Hr & Hm & Hc);
      [rewrite Hs; apply Ha; left|done|].
    destruct (IH s1 b1) as (s2 & b2 & ts & Hr2 & Hm2 & Hts & Hc2); [congruence|intros x Hx; apply Ha; by right|done|].
    rewrite (bind_ok _ _ _ _ _ Hr). rewrite Hs in Hc. rewrite filter_cons.
    destruct (decide (startable m boot e)).
    + destruct Hc as (t & Ht & Hc). exists s2, b2, (t :: ts). split; [exact Hr2|]. split; [done|].
      split; [by constructor|]. rewrite Hc2, Hc. cbn [mjoin list_join]. by rewrite reverse_app, <- (assoc (++)).
    + exists s2, b2, ts. rewrite Hc2, Hc. done.
Qed.

(** C11. The boot processor starts every other processor: for each local APIC of the MADT that is
    enabled and not its own, in the order of the table, it clears the increment, sends INIT, waits a
    millisecond, sends the start-up interrupt with the page number of the entry code, waits again, sends it
    again, and reads the increment until it is no longer zero, before it goes on with the next
    ([started_by]). Behind the last one, and only there, it lets all go on ([Released]), and interrupts are
    enabled. Nothing else happens on the bus, and memory does not change. Needed: that the processors in
    question answer within the fuel. With entry code at 1 MiB or above it returns without touching the
    bus. *)
Theorem start_processors_spec n fuel madt boot_apic_id cpu_startup16 l s b :
  madt_entries (s_mem s) madt l → (length l < fuel)%nat → (length l < n)%nat → (latency < fuel)%nat →
  0 ≤ cpu_startup16 < 2 ^ 44 →
  Forall (λ id, answers (u32 (Z.shiftl id 24))) (processors (s_mem s) boot_apic_id l) →
  ∃ s' b', start_processors n fuel madt boot_apic_id cpu_startup16 (s, b) =
      Ok (bool_decide (cpu_startup16 < 2 ^ 20), (s', b')) ∧ s_mem s' = s_mem s ∧
    if decide (cpu_startup16 < 2 ^ 20) then
      s_interrupts s' = true ∧ ∃ traces,
        Forall2 (started_by (cpu_startup16 / 2 ^ 12)) (processors (s_mem s) boot_apic_id l) traces ∧
        events b' = Released :: reverse (mjoin traces) ++ events b
    else events b' = events b.
Proof using L.
  intros Hd Hf Hn Hl Hc Hans. unfold start_processors.
  assert (u32 (Z.shiftr cpu_startup16 12) = cpu_startup16 / 2 ^ 12) as ->.
  { rewrite Z.shiftr_div_pow2 by lia. apply u32_small. divmod_lia. }
  erewrite bind_on_cpu by reflexivity. set (s1 := with_kernel _ _).
  assert (cpu_startup16 / 2 ^ 12 ≤ 255 ↔ cpu_startup16 < 2 ^ 20) as Hlow by divmod_lia.
  destruct (decide (cpu_startup16 < 2 ^ 20)) as [Hl1|Hl1].
  - rewrite bool_decide_eq_true_2, (proj2 (Z.ltb_ge _ _)) by (done || lia).
    erewrite bind_on_cpu by reflexivity. set (s2 := with_kernel _ _).
    destruct (run_all_run fuel boot_apic_id (cpu_startup16 / 2 ^ 12) (s_mem s)
      (of_type (s_mem s) ACPI_MADT_TYPE_LOCAL_APIC l) s2 b eq_refl) as (s3 & b3 & ts & Hr3 & Hm3 & Hts & Hc3); [|done|].
    { intros e He Hst. unfold processors in Hans. rewrite list.Forall_fmap, list.Forall_forall in Hans.
      apply (Hans e). by apply list_elem_of_filter. }
    pose proof (for_entries_run madt ACPI_MADT_TYPE_LOCAL_APIC _ (preserves_visit fuel boot_apic_id (cpu_startup16 / 2 ^ 12))
      n l fuel (s2, b) Hd Hf Hn) as Hrun.
    rewrite (bind_ok _ _ _ _ _ (eq_trans Hrun Hr3)).
    exists (set_interrupts true s3), (set_startup_done b3). split; [reflexivity|]. split; [exact Hm3|].
    split; [done|]. exists ts. split; [exact Hts|]. by rewrite done_law, Hc3.
  - rewrite bool_decide_eq_false_2, (proj2 (Z.ltb_lt _ _)) by (done || lia).
    erewrite bind_on_cpu by reflexivity. eexists _, b. split; [reflexivity|]. by split.
Qed.
End Startup.

(** ** Two processors

    A bus that answers at the third reading, and a MADT with the boot
    processor 0 and a processor 1. *)

Record bus0 := Bus0 { b_target : Z; b_events : list startup_event; b_delay : nat }.

Definition record_event (e : startup_event) (b : bus0) : bus0 := Bus0 (b_target b) (e :: b_events b) (b_delay b).

#[export] Instance bus0_device : StartupBus bus0 := {
  write_interrupt_command0 v b := Bus0 (b_target b) (Command (b_target b) v :: b_events b) 2;
  write_interrupt_command1 v b := Bus0 v (b_events b) (b_delay b);
  wait_millisecond := record_event Delayed;
  clear_startup_increment := record_event Cleared;
  read_startup_increment b :=
    let v := if decide (b_delay b = O) then 1 else 0 in
    (v, Bus0 (b_target b) (Polled v :: b_events b) (pred (b_delay b)));
  set_startup_done := record_event Released
}.

#[export] Instance bus0_laws : StartupLaws bus0.
Proof.
  refine {| events := b_events; target := b_target; delay := b_delay; latency := 2; answers := λ _, True |}; try done.
  intros [t c d]. eexists _, _. split; [reflexivity|]. split; [done|]. cbn. split; [by intros ->|]. intros n ->. done.
Defined.

Definition smp_memory : mem :=
  store8 (store8 (store8 (store8 madt0 0x502F 0) 0x5030 1) 0x5043 1) 0x5044 1.

Definition smp0 : cpu_state unit := CpuState (KState smp_memory tt 0 0 []) 0 0 false 1 1 0x80000 [].

Lemma start_processors_spec_witness :
  ∃ s' b' trace, start_processors 4 4 0x5000 0 0x8000 (smp0, Bus0 0 [] 0) = Ok (true, (s', b')) ∧ s_interrupts s' = true ∧
    started_by 8 1 trace ∧ b_events b' = Released :: reverse trace.
Proof.
  destruct (start_processors_spec 4 4 0x5000 0 0x8000 [0x502C; 0x5034; 0x5040] smp0 (Bus0 0 [] 0))
    as (s' & b' & Hr & _ & H).
  - cbn [madt_entries entry_chain]. repeat split; vm_compute; (reflexivity || discriminate).
  - cbn. lia.
  - cbn. lia.
  - cbn. lia.
  - lia.
  - apply list.Forall_forall. done.
  - destruct H as (Hi & traces & Ht & Hc).
    assert (processors smp_memory 0 [0x502C; 0x5034; 0x5040] = [1]) as E by (by vm_compute).
    change (s_mem smp0) with smp_memory in Ht. rewrite E in Ht.
    destruct traces as [|trace [|? ?]]; [by inversion Ht| |inversion Ht as [|? ? ? ? _ Hn]; inversion Hn].
    exists s', b', trace. split; [exact Hr|]. split; [exact Hi|]. apply list.Forall2_cons in Ht as [Ht _].
    split; [exact Ht|]. refine (eq_trans Hc _). cbn [mjoin list_join]. by rewrite !app_nil_r.
Defined.
