(* ===== verification/AcpiDiscovery.v ===== *)
(** * Finding the ACPI tables

    [find_tables] of [Main], the part of [kernel_main] that looks for the MADT,
    returns it exactly when every table on the way is there and valid. It
    prints, and changes nothing else: [quiet] is a program logic for such
    programs. *)

From S2P Require Import Prelude Memory Allocator Paging Cpu CpuSpec IdtSpec Acpi AcpiSpec Apic Main.

Section Quiet.
Context {A : Type} {PA : PageAllocator A}.
Implicit Type s : cpu_state A.

(** On the memory [m] the program ends with a result in [P], and only adds to
    the console log. *)
Definition quiet (m : mem) {R} (p : M (cpu_state A) R) (P : R → Prop) : Prop :=
  ∀ s, s_mem s = m → ∃ r l, p s = Ok (r, with_log l s) ∧ P r.

Lemma with_log_nil s : with_log [] s = s.
Proof. by destruct s as [[] ? ? ? ? ? ? ?]. Qed.

Lemma with_log_app l1 l2 s : with_log l1 (with_log l2 s) = with_log (l1 ++ l2) s.
Proof. unfold with_log, with_kernel. cbn. by rewrite <- app_assoc. Qed.

Lemma quiet_ret m {R} (r : R) (P : R → Prop) : P r → quiet m (ret r) P.
Proof. intros Hr s _. exists r, []. by rewrite with_log_nil. Qed.

Lemma quiet_bind m {R R'} (p : M (cpu_state A) R) (k : R → M (cpu_state A) R') P Q :
  quiet m p P → (∀ r, P r → quiet m (k r) Q) → quiet m (bind p k) Q.
Proof.
  intros Hp Hk s Hs. destruct (Hp s Hs) as (r & l & Hr & HP).
  destruct (Hk r HP (with_log l s) Hs) as (r' & l' & Hr' & HQ).
  exists r', (l' ++ l). rewrite (bind_ok _ _ _ _ _ Hr), Hr', with_log_app. done.
Qed.

(** For programs whose result does not matter. *)
Lemma quiet_seq m {R} (p : M (cpu_state A) unit) (k : M (cpu_state A) R) P :
  quiet m p (λ _, True) → quiet m k P → quiet m (p ;;; k) P.
Proof. intros Hp Hk. by eapply quiet_bind; [exact Hp|]. Qed.

Lemma quiet_says m c : quiet m (says c) (λ _, True).
Proof. intros s _. exists tt, [c]. by split. Qed.

Lemma quiet_print m msg : quiet m (print msg) (λ _, True).
Proof. apply quiet_says. Qed.

Lemma quiet_gets m {R R'} (g : mem → R) (k : R → M (cpu_state A) R') P :
  quiet m (k (g m)) P → quiet m (bind (gets (λ s, g (s_mem s))) k) P.
Proof. intros Hk s Hs. unfold bind, gets. rewrite Hs. by apply Hk. Qed.

Lemma quiet_mem m {R} (k : mem → M (cpu_state A) R) P : quiet m (k m) P → quiet m (bind (gets s_mem) k) P.
Proof. intros Hk s Hs. unfold bind, gets. rewrite Hs. by apply Hk. Qed.

Lemma quiet_lift m {R R'} (o : outcome R) r (k : R → M (cpu_state A) R') P :
  o = Ok r → quiet m (k r) P → quiet m (bind (lift o) k) P.
Proof. intros -> Hk s Hs. unfold bind, lift. by apply Hk. Qed.

Lemma quiet_if m {R} (b : bool) (p q : M (cpu_state A) R) P :
  (b = true → quiet m p P) → (b = false → quiet m q P) → quiet m (if b then p else q) P.
Proof. destruct b; auto. Qed.

Lemma quiet_for_loop m body n : ∀ i,
  (∀ j, i ≤ j < i + Z.of_nat n → quiet m (body j) (λ _, True)) → quiet m (for_loop n i body) (λ _, True).
Proof.
  induction n as [|n IH]; intros i Hb; cbn [for_loop]; [by apply quiet_ret|].
  apply quiet_seq; [apply Hb; lia|]. apply IH. intros j Hj. apply Hb. lia.
Qed.
End Quiet.

Create HintDb quiet.
#[export] Hint Resolve quiet_seq quiet_says quiet_print quiet_mem quiet_if : quiet.
#[export] Hint Extern 1 (quiet _ (ret _) _) => apply quiet_ret : quiet.

Section Printing.
Context {A : Type} {PA : PageAllocator A}.

Lemma quiet_madt_entry m e : quiet m (print_madt_entry (A := A) e) (λ _, True).
Proof. unfold print_madt_entry. apply quiet_mem. cbv zeta. auto 100 with quiet nocore. Qed.

(** The loop over a MADT whose entries lead to its end. *)
Lemma quiet_madt_loop m madt l : ∀ i fuel,
  0 ≤ i < 2 ^ 31 → sdt_length m madt < 2 ^ 31 → entry_chain m (madt + sdt_length m madt) (madt + i) l →
  (length l + 1 < fuel)%nat → quiet m (print_madt_loop (A := A) fuel madt i) (λ _, True).
Proof.
  induction l as [|e l IH]; intros i fuel Hi Hlen Hc Hf; (destruct fuel as [|fuel]; [lia|]); cbn [print_madt_loop];
    apply quiet_mem; (destruct (Z.ltb_spec (u32 i) (sdt_length m madt)) as [Hlt|]; [|by apply quiet_ret]);
    (apply quiet_seq; [apply quiet_madt_entry|]); pose proof (load8_range m (madt + i + 1)) as Hb;
    change (load8 m (madt + i + 1)) with (madt_entry_length m (madt + i)) in Hb; cbn [length] in Hf.
  - destruct fuel as [|fuel]; [lia|]. cbn [print_madt_loop]. apply quiet_mem. destruct Hc as (_ & _ & Hend).
    rewrite (proj2 (Z.ltb_ge _ _)); [by apply quiet_ret|].
    rewrite u32_small in Hlt by lia. unfold u32, s32. divmod_lia.
  - destruct Hc as (_ & _ & He & Hs & Hc). subst e.
    replace (s32 (i + madt_entry_length m (madt + i))) with (i + madt_entry_length m (madt + i)) by
      (rewrite s32_small; [done|lia]).
    apply IH; [lia|done| |lia]. by rewrite Z.add_assoc.
Qed.

(** A table the printing functions get through. *)
Definition printable (m : mem) (fuel : nat) (t : Z) : Prop :=
  sdt_length m t < 2 ^ 31 ∧
  (sdt_signature m t = ACPI_MADT_SIGNATURE → ∃ l, madt_entries m t l ∧ (length l < fuel)%nat).

Lemma quiet_print_madt m fuel madt l :
  madt_entries m madt l → sdt_length m madt < 2 ^ 31 → (length l < fuel)%nat →
  quiet m (acpi_print_madt (A := A) fuel madt) (λ _, True).
Proof.
  intros (Hm & _ & Hd) Hlen Hf. destruct l as [|e l]; [done|]. destruct Hd as [-> Hc]. cbn [length] in Hf.
  unfold acpi_print_madt. apply quiet_seq; [apply quiet_print|].
  apply (quiet_gets m (λ m, madt_local_apic_address m madt)).
  apply quiet_seq; [apply quiet_says|]. apply quiet_seq; [apply quiet_print|].
  apply (quiet_madt_loop m madt l); [by unfold sizeof_acpi_madt|done|done|lia].
Qed.

Lemma quiet_print_sdt m fuel t : printable m fuel t → quiet m (acpi_print_sdt (A := A) fuel t) (λ _, True).
Proof.
  intros [Hlen Hmadt]. unfold acpi_print_sdt. apply quiet_mem. eapply quiet_lift; [by apply validate_sdt_sum|].
  apply quiet_seq; [auto with quiet|]. do 4 (apply quiet_seq; [auto with quiet|]).
  apply quiet_seq; [|auto with quiet]. destruct (Z.eqb_spec (sdt_signature m t) ACPI_MADT_SIGNATURE) as [E|]; [|auto with quiet].
  destruct (Hmadt E) as (l & Hl & Hf). by apply (quiet_print_madt m fuel t l).
Qed.

Lemma quiet_print_rsdt m fuel rsdt :
  Forall (printable m fuel) (rsdt_tables m rsdt) → quiet m (acpi_print_rsdt (A := A) fuel rsdt) (λ _, True).
Proof.
  intros Ht. unfold acpi_print_rsdt. apply quiet_mem. unfold acpi_rsdt_entry_count. rewrite entry_count_nat by auto.
  apply quiet_for_loop. intros j Hj. apply quiet_print_sdt. rewrite list.Forall_forall in Ht. apply Ht.
  unfold rsdt_tables. apply (list_elem_of_fmap_2 (rsdt_table_address m rsdt)). apply elem_of_seqZ. lia.
Qed.

Lemma quiet_print_rsdtp m p : quiet m (acpi_print_rsdtp (A := A) p) (λ _, True).
Proof. unfold acpi_print_rsdtp. apply quiet_mem. auto 50 with quiet. Qed.
End Printing.

(** ** What makes a MADT usable *)

Definition valid_sdt (m : mem) (t : Z) : Prop := byte_sum (Z.to_nat (sdt_length m t)) m t mod 2 ^ 8 = 0.

(** The first table with the signature; address 0 counts as none. *)
Definition first_table (m : mem) (rsdt sig t : Z) : Prop :=
  t ≠ 0 ∧ head (filter (λ t, sdt_signature m t = sig) (rsdt_tables m rsdt)) = Some t.

(** The lowest address of the search area with the signature of the root pointer. *)
Definition root_pointer (m : mem) (p : Z) : Prop :=
  rsdt_candidate p ∧ load64 m p = ACPI_RSDTP_SIGNATURE ∧
  ∀ a, rsdt_candidate a → load64 m a = ACPI_RSDTP_SIGNATURE → p ≤ a.

Definition usable_fadt (m : mem) (rsdt : Z) : Prop := ∃ fadt, first_table m rsdt ACPI_FADT_SIGNATURE fadt ∧
  valid_sdt m fadt ∧ fadt_dsdt m fadt ≠ 0 ∧ valid_sdt m (fadt_dsdt m fadt).

Definition usable_madt (m : mem) (has_apic : Prop) (rsdt madt : Z) : Prop :=
  first_table m rsdt ACPI_MADT_SIGNATURE madt ∧ valid_sdt m madt ∧ has_apic.

Definition discovered (m : mem) (has_apic : Prop) (madt : Z) : Prop := ∃ p, root_pointer m p ∧ byte_sum 20 m p mod 2 ^ 8 = 0 ∧
  let rsdt := load32 m (p + rsdtp_address) in
  valid_sdt m rsdt ∧ usable_fadt m rsdt ∧ usable_madt m has_apic rsdt madt.

Lemma first_table_get m rsdt sig t : first_table m rsdt sig t ↔ t ≠ 0 ∧ acpi_rsdt_get_table m rsdt sig = t.
Proof.
  unfold first_table. rewrite rsdt_get_table_first. destruct (head _) as [x|]; cbn.
  - split; [by intros [? [= ->]]|by intros [? ->]].
  - split; [by intros []|by intros [? <-]].
Qed.

Lemma get_table_elem m rsdt sig : acpi_rsdt_get_table m rsdt sig ≠ 0 →
  acpi_rsdt_get_table m rsdt sig ∈ rsdt_tables m rsdt ∧ sdt_signature m (acpi_rsdt_get_table m rsdt sig) = sig.
Proof.
  rewrite rsdt_get_table_first. destruct (filter _ _) as [|t l] eqn:E; [done|]. intros _. cbn [head default].
  assert (t ∈ filter (λ t, sdt_signature m t = sig) (rsdt_tables m rsdt)) as Ht by (rewrite E; left).
  apply list_elem_of_filter in Ht. tauto.
Qed.

Lemma root_pointer_find m p : root_pointer m p ↔ p ≠ 0 ∧ acpi_find_rsdt_pointer m = p.
Proof.
  unfold root_pointer. destruct (acpi_find_rsdt_pointer_spec m) as [[-> Hn]|(Hc & Hs & Hl)].
  - split; [intros (Hc & Hs & _); by destruct (Hn p Hc)|]. intros [H <-]. done.
  - split.
    + intros (Hc' & Hs' & Hl'). split; [destruct Hc'; lia|]. specialize (Hl p Hc' Hs'). specialize (Hl' _ Hc Hs). lia.
    + intros [_ <-]. by split_and!.
Qed.

Section Discovery.
Context {A : Type} {PA : PageAllocator A} (cpu_id : Z → Z * Z * Z * Z).

(** What the result of the search says. *)
Definition tells (r : option Z) (P : Z → Prop) : Prop := ∀ madt, r = Some madt ↔ P madt.

Lemma quiet_early_return m (P : Z → Prop) msg : (∀ x, ¬ P x) → quiet m (early_return (A := A) msg) (λ r, tells r P).
Proof.
  intros HP. unfold early_return. apply quiet_seq; [apply quiet_print|]. apply quiet_ret. intros x. split; [done|]. by intros []%HP.
Qed.

Lemma quiet_find_madt m rsdt :
  Forall (λ t, sdt_length m t < 2 ^ 31) (rsdt_tables m rsdt) →
  quiet m (find_madt (A := A) cpu_id rsdt)
    (λ r, tells r (usable_madt m (truthy (apic_check_supported cpu_id) = true) rsdt)).
Proof.
  intros Hlen. unfold find_madt, usable_madt. apply quiet_mem. set (t := acpi_rsdt_get_table m rsdt ACPI_MADT_SIGNATURE).
  assert (∀ x, first_table m rsdt ACPI_MADT_SIGNATURE x ↔ x ≠ 0 ∧ t = x) as Hf by (intros x; apply first_table_get).
  destruct (truthy t) eqn:Et; cbn [negb].
  - apply truthy_spec in Et. destruct (get_table_elem m rsdt ACPI_MADT_SIGNATURE Et) as [Hin _].
    rewrite list.Forall_forall in Hlen. eapply quiet_lift; [by apply validate_sdt_sum, Hlen|]. unfold valid_sdt.
    destruct (truthy (byte_sum _ m t mod _)) eqn:Ev.
    + apply quiet_early_return. intros x (Hx & Hv & _). apply Hf in Hx as [_ <-]. apply truthy_spec in Ev. done.
    + destruct (truthy (apic_check_supported cpu_id)) eqn:Ea; cbn [negb].
      * apply quiet_ret. intros x. rewrite Hf. apply not_true_iff_false in Ev. rewrite truthy_spec in Ev.
        split; [intros [= <-]; split_and!; (done || lia)|by intros ((_ & <-) & _)].
      * apply quiet_early_return. by intros x (_ & _ & ?).
  - apply quiet_early_return. intros x (Hx & _). apply Hf in Hx as [Hne <-]. apply truthy_spec in Hne. congruence.
Qed.

(** With [Some] for success: any description table will do. *)
Lemma quiet_check_fadt m rsdt :
  Forall (λ t, sdt_length m t < 2 ^ 31) (rsdt_tables m rsdt) →
  (∀ t, first_table m rsdt ACPI_FADT_SIGNATURE t → sdt_length m (fadt_dsdt m t) < 2 ^ 31) →
  quiet m (check_fadt (A := A) rsdt) (λ r, is_Some r ↔ usable_fadt m rsdt).
Proof.
  intros Hlen Hdsdt. unfold check_fadt, usable_fadt. apply quiet_mem. set (t := acpi_rsdt_get_table m rsdt ACPI_FADT_SIGNATURE).
  assert (∀ x, first_table m rsdt ACPI_FADT_SIGNATURE x ↔ x ≠ 0 ∧ t = x) as Hf by (intros x; apply first_table_get).
  assert (∀ msg, (∀ x, first_table m rsdt ACPI_FADT_SIGNATURE x → valid_sdt m x → fadt_dsdt m x ≠ 0 →
    ¬ valid_sdt m (fadt_dsdt m x)) → quiet m (early_return (A := A) (R := Z) msg) (λ r, is_Some r ↔
    ∃ fadt, first_table m rsdt ACPI_FADT_SIGNATURE fadt ∧ valid_sdt m fadt ∧ fadt_dsdt m fadt ≠ 0 ∧
      valid_sdt m (fadt_dsdt m fadt))) as Hgive.
  { intros msg Hno. unfold early_return. apply quiet_seq; [apply quiet_print|]. apply quiet_ret.
    split; [by intros []|intros (x & H1 & H2 & H3 & H4); by destruct (Hno x H1 H2 H3)]. }
  destruct (truthy t) eqn:Et; cbn [negb].
  2: { apply Hgive. intros x Hx. apply Hf in Hx as [Hne <-]. apply truthy_spec in Hne. congruence. }
  apply truthy_spec in Et. assert (first_table m rsdt ACPI_FADT_SIGNATURE t) as Ht by (by apply Hf).
  destruct (get_table_elem m rsdt ACPI_FADT_SIGNATURE Et) as [Hin _].
  rewrite list.Forall_forall in Hlen. eapply quiet_lift; [by apply validate_sdt_sum, Hlen|].
  destruct (truthy (byte_sum _ m t mod _)) eqn:Ev.
  { apply Hgive. intros x Hx Hv. apply Hf in Hx as [_ <-]. apply truthy_spec in Ev. done. }
  destruct (truthy (fadt_dsdt m t)) eqn:Ed; cbn [negb].
  2: { apply Hgive. intros x Hx _ Hne. apply Hf in Hx as [_ <-]. apply truthy_spec in Hne. congruence. }
  eapply quiet_lift; [by apply validate_sdt_sum, Hdsdt|].
  destruct (truthy (byte_sum _ m (fadt_dsdt m t) mod _)) eqn:Ew.
  { apply Hgive. intros x Hx _ _ Hv. apply Hf in Hx as [_ <-]. apply truthy_spec in Ew. done. }
  do 3 (apply quiet_seq; [auto with quiet|]). apply quiet_ret. split; [|by eauto]. intros _. exists t.
  apply not_true_iff_false in Ev, Ew. rewrite truthy_spec in Ev, Ew. apply truthy_spec in Ed. unfold valid_sdt.
  split_and!; (done || lia).
Qed.

(** The tables are small enough to be summed and printed. *)
Definition readable_tables (m : mem) (fuel : nat) : Prop := ∀ p, root_pointer m p →
  let rsdt := load32 m (p + rsdtp_address) in
  sdt_length m rsdt < 2 ^ 31 ∧ Forall (printable m fuel) (rsdt_tables m rsdt) ∧
  ∀ t, first_table m rsdt ACPI_FADT_SIGNATURE t → sdt_length m (fadt_dsdt m t) < 2 ^ 31.

Lemma quiet_find_tables m fuel : readable_tables m fuel →
  quiet m (find_tables (A := A) cpu_id fuel)
    (λ r, tells r (discovered m (truthy (apic_check_supported cpu_id) = true))).
Proof.
  intros Hread. unfold find_tables, discovered. apply quiet_seq; [apply quiet_print|]. apply quiet_mem.
  set (p := acpi_find_rsdt_pointer m).
  assert (∀ x, root_pointer m x ↔ x ≠ 0 ∧ p = x) as Hf by (intros x; apply root_pointer_find).
  destruct (truthy p) eqn:Ep; cbn [negb].
  2: { apply quiet_early_return. intros madt (x & Hx & _). apply Hf in Hx as [Hne <-]. apply truthy_spec in Hne. congruence. }
  apply truthy_spec in Ep. assert (root_pointer m p) as Hp by (by apply Hf). destruct (Hread p Hp) as (Hlen & Hprint & Hdsdt).
  apply quiet_seq; [apply quiet_print_rsdtp|]. rewrite validate_rsdt_pointer_sum.
  destruct (truthy (byte_sum 20 m p mod 2 ^ 8)) eqn:Es.
  { apply quiet_early_return. intros madt (x & Hx & Hs & _). apply Hf in Hx as [_ <-]. apply truthy_spec in Es. done. }
  set (rsdt := load32 m (p + rsdtp_address)) in *. eapply quiet_lift; [by apply validate_sdt_sum|].
  destruct (truthy (byte_sum _ m rsdt mod _)) eqn:Er.
  { apply quiet_early_return. intros madt (x & Hx & _ & Hr & _). apply Hf in Hx as [_ <-]. apply truthy_spec in Er. done. }
  apply not_true_iff_false in Es, Er. rewrite truthy_spec in Es, Er.
  apply quiet_seq; [by apply quiet_print_rsdt|].
  assert (Forall (λ t, sdt_length m t < 2 ^ 31) (rsdt_tables m rsdt)) as Hlens
    by (eapply list.Forall_impl; [exact Hprint|]; by intros t []).
  eapply quiet_bind; [by apply quiet_check_fadt|]. intros [fadt|] HF.
  - assert (usable_fadt m rsdt) as HF' by (by apply HF). intros s Hs.
    destruct (quiet_find_madt m rsdt Hlens s Hs) as (r & l & Hr & Ht). exists r, l. split; [exact Hr|].
    intros madt. rewrite (Ht madt). split.
    + intros Hu. exists p. unfold valid_sdt. split; [done|]. split; [by apply Z.eq_dne|].
      split; [by apply Z.eq_dne|by split].
    + intros (x & Hx & _ & _ & _ & Hu). by apply Hf in Hx as [_ <-].
  - apply quiet_ret. intros madt. split; [done|]. intros (x & Hx & _ & _ & Hu & _). apply Hf in Hx as [_ <-].
    apply HF in Hu. by destruct Hu.
Qed.

(** C12. The search for the ACPI tables in [kernel_main] ends and returns a MADT exactly when all its
    conditions hold: the lowest root pointer, the root table, the first FADT, its DSDT and the first
    MADT are there and every one of them has the byte sum 0, and the processor has a local APIC. Otherwise it
    gives up. It prints and changes nothing else. *)
Theorem find_tables_spec fuel (s : cpu_state A) :
  readable_tables (s_mem s) fuel →
  ∃ r l, find_tables cpu_id fuel s = Ok (r, with_log l s) ∧
    ∀ madt, r = Some madt ↔ discovered (s_mem s) (truthy (apic_check_supported cpu_id) = true) madt.
Proof. intros Hr. exact (quiet_find_tables _ fuel Hr s eq_refl). Qed.
End Discovery.

(** ** A machine with tables

    The root pointer at 0x80000, the root table at 0x2000 with a FADT at 0x3000
    and a MADT at 0x4000 with one processor, the DSDT at 0x6000. *)

Definition fix_sum (a n checksum : Z) (m : mem) : mem :=
  store8 m (a + checksum) ((- byte_sum (Z.to_nat n) m a) mod 2 ^ 8).

Definition acpi_memory : mem :=
  let m := store 4 (store64 ∅ 0x80000 ACPI_RSDTP_SIGNATURE) 0x80010 0x2000 in
  let m := fix_sum 0x80000 20 8 m in
  let m := store 4 (store 4 (store 4 m 0x2004 44) 0x2024 0x3000) 0x2028 0x4000 in
  let m := fix_sum 0x2000 44 9 m in
  let m := store 4 (store 4 (store 4 m 0x3000 ACPI_FADT_SIGNATURE) 0x3004 44) 0x3028 0x6000 in
  let m := fix_sum 0x3000 44 9 m in
  let m := fix_sum 0x6000 36 9 (store 4 m 0x6004 36) in
  let m := store 4 (store 4 m 0x4000 ACPI_MADT_SIGNATURE) 0x4004 52 in
  fix_sum 0x4000 52 9 (store8 (store8 m 0x402D 8) 0x4030 1).

Definition acpi0 : cpu_state unit := CpuState (KState acpi_memory tt 0 0 []) 0 0 false 1 1 0x80000 [].

Definition apic_cpu (f : Z) : Z * Z * Z * Z := (0, 0, 0, 0x300).

Lemma acpi_memory_readable : readable_tables acpi_memory 4.
Proof.
  assert (acpi_find_rsdt_pointer acpi_memory = 0x80000) as Hfind by (by vm_compute).
  intros p Hp. apply root_pointer_find in Hp as [_ <-]. rewrite Hfind.
  assert (load32 acpi_memory (0x80000 + rsdtp_address) = 0x2000) as -> by (by vm_compute).
  split; [by vm_compute|].
  assert (rsdt_tables acpi_memory 0x2000 = [0x3000; 0x4000]) as -> by (by vm_compute). split.
  - apply list.Forall_cons. split; [split; [by vm_compute|]|apply list.Forall_cons; split; [split; [by vm_compute|]|done]].
    + intros H. exfalso. revert H. by vm_compute.
    + intros _. exists [0x402C]. split; [|cbn; lia].
      cbn [madt_entries entry_chain]. repeat split; vm_compute; (reflexivity || discriminate).
  - intros t Ht. apply first_table_get in Ht as [_ <-]. by vm_compute.
Qed.

Lemma find_tables_spec_witness :
  ∃ l, find_tables apic_cpu 4 acpi0 = Ok (Some 0x4000, with_log l acpi0).
Proof.
  destruct (find_tables_spec apic_cpu 4 acpi0 acpi_memory_readable) as (r & l & Hr & Hd).
  exists l. rewrite Hr. do 2 f_equal. apply Hd. exists 0x80000.
  split; [apply root_pointer_find; split; [done|by vm_compute]|]. split; [by vm_compute|].
  split; [by vm_compute|]. split.
  - exists 0x3000. split; [apply first_table_get; split; [done|by vm_compute]|]. split; [by vm_compute|]. split; by vm_compute.
  - split; [apply first_table_get; split; [done|by vm_compute]|]. split; by vm_compute.
Defined.
