(* ===== verification/Kernel.v ===== *)
(** * kernel_main

    Models [kernel_main] and [root_program] of [src/src/common/main.c] as the
    composition of the components: physical memory ([Boot]), paging, the PICs
    ([Apic]), the set-up of the boot processor ([CpuInit]) and what the source
    has behind it, the ACPI tables ([Main.find_tables]), the report on the local
    APIC, the IO APICs of the MADT and the other processors
    ([Main.start_processors]). Also [memory_debug] and
    [interrupt_handle_timer] of the same file. [KernelSpec] has the theorems. *)

From S2P Require Import Prelude Memory Heap Lock Physical PhysicalSpec Multiboot Boot Port.
From S2P Require Import Paging Cpu Gdt Idt Scheduler CpuInit Acpi Apic Main.

(** The state of a CPU, the address of the allocation table, the variable
    [ioapic], the PICs behind their ports, the bus of the processors and the IO
    APIC. The words of the allocation table are in the allocator's state, not
    in the memory of the CPU state, as in [Boot]. *)
Record machine (P B D : Type) := Machine {
  m_cpu : cpu_state phys;
  m_table : Z;
  m_ioapic_pointer : Z;
  m_ports : P;
  m_bus : B;
  m_ioapic : D
}.
Arguments Machine {P B D}.
Arguments m_cpu {P B D}.
Arguments m_table {P B D}.
Arguments m_ioapic_pointer {P B D}.
Arguments m_ports {P B D}.
Arguments m_bus {P B D}.
Arguments m_ioapic {P B D}.

Section Kernel.
Context {P B D : Type} {PD : PortDevices P} {SB : StartupBus B} {ID : IoApicDevice D}.
Implicit Type s : machine P B D.

Definition set_m_cpu c s : machine P B D :=
  Machine c (m_table s) (m_ioapic_pointer s) (m_ports s) (m_bus s) (m_ioapic s).
Definition set_ioapic_pointer p s : machine P B D :=
  Machine (m_cpu s) (m_table s) p (m_ports s) (m_bus s) (m_ioapic s).

(** ** The components on the machine *)

(** [focus get set m] runs [m] on a part of the state. *)
Definition focus {S T R} (part : S → T) (replace : T → S → S) (m : M T R) : M S R := λ x,
  match m (part x) with Ok (r, t) => Ok (r, replace t x) | Undef => Undef | Hang => Hang end.

Definition on_machine_cpu {R} : M (cpu_state phys) R → M (machine P B D) R := focus m_cpu set_m_cpu.
Definition on_ports {R} : M P R → M (machine P B D) R :=
  focus m_ports (λ p s, Machine (m_cpu s) (m_table s) (m_ioapic_pointer s) p (m_bus s) (m_ioapic s)).
Definition on_smp {R} : M (cpu_state phys * B) R → M (machine P B D) R :=
  focus (λ s, (m_cpu s, m_bus s))
    (λ '(c, b) s, Machine c (m_table s) (m_ioapic_pointer s) (m_ports s) b (m_ioapic s)).
Definition on_io {R} : M D R → M (machine P B D) R :=
  focus m_ioapic (λ d s, Machine (m_cpu s) (m_table s) (m_ioapic_pointer s) (m_ports s) (m_bus s) d).

(** The state [Boot] works on. *)
Definition boot_view s : boot_state :=
  let k := s_kernel (m_cpu s) in
  BootState (k_mem k) (k_alloc k) (m_table s) (max_memory_address (m_cpu s)) (k_log k).
Definition from_boot (b : boot_state) s : machine P B D :=
  let c := m_cpu s in
  let k := s_kernel c in
  Machine (CpuState (KState (b_mem b) (b_phys b) (used_virtual_pages k) (hugepages_supported k) (b_log b))
      (s_fs c) (s_cr3 c) (s_interrupts c) (current_process_id c) (current_cpu_id c) (b_max b) (s_writes c))
    (b_table b) (m_ioapic_pointer s) (m_ports s) (m_bus s) (m_ioapic s).
Definition on_boot {R} : M boot_state R → M (machine P B D) R := focus boot_view from_boot.

Definition tell (c : console_call) : M (machine P B D) unit := on_machine_cpu (says c).
Definition tell_text (msg : string) : M (machine P B D) unit := tell (CPrint msg).

(** ** root_program *)

(** [local] is the address of [a], [handler_local] that of the variable of
    the breakpoint handler, which [int3] runs. *)
Definition root_program (local handler_local : Z) : M (cpu_state phys) unit :=
  let int3 := idt_handle idt_handle_breakpoint 0 0 handler_local 0 in
  idt_debug ;;;
  gdt_debug ;;;
  print "a pointer = 0x" ;;;
  says (CPrintU64 local 16) ;;;
  says CNewLine ;;;
  int3 ;;;
  int3 ;;;
  int3 ;;;
  int3 ;;;
  int3 ;;;
  says (CFormat ("unsigned long hex = 0x%uhl" +:+ nl) [17]) ;;;
  print ("[cpu] all programs started" +:+ nl).

(** ** kernel_main, lines 177 to 326 *)

(** The [cpuid] instruction, the addresses of the handlers and of the timer
    entry, [cpu_read_msr], the id and version registers of the local APIC, and
    the addresses of [kernel_main], [cpu_startup16] and of two local variables. *)
Context (cpu_id : Z → Z * Z * Z * Z) (address_of : idt_handler → Z) (scheduler_interrupt : Z)
  (cpu_read_msr : Z → Z) (local_apic_id local_apic_version : Z)
  (kernel_main_address cpu_startup16 local handler_local : Z).

Definition CONSOLE_COLOR_WHITE : Z := 15.
Definition CONSOLE_COLOR_BLACK : Z := 0.

(** The four bytes of a register. *)
Definition register_bytes (r : Z) : list Z := (λ i, u8 (Z.shiftr r (8 * i))) <$> seqZ 0 4.

(** Lines 311 to 316. *)
Definition print_manufacturer : M (machine P B D) unit :=
  let '(_, ebx, ecx, edx) := cpu_id 0x0 in
  tell_text "[cpu] cpu manufacturer " ;;;
  tell (CPrintLength (register_bytes ebx)) ;;;
  tell (CPrintLength (register_bytes edx)) ;;;
  tell (CPrintLength (register_bytes ecx)) ;;;
  tell CNewLine.

(** Lines 179 to 326, with [info] the address of the boot information; the
    result says whether [kernel_main] goes on. *)
Definition kernel_prepare (fuel : nat) (info : Z) : M (machine P B D) bool :=
  tell CClear ;;;
  tell (CSetColor CONSOLE_COLOR_WHITE CONSOLE_COLOR_BLACK) ;;;
  tell_text ("entered c" +:+ nl) ;;;
  tell_text "address of main = 0x" ;;;
  tell (CPrintU64 kernel_main_address 16) ;;;
  tell CNewLine ;;;
  tell_text "address of multiboot2_info = 0x" ;;;
  tell (CPrintU64 info 16) ;;;
  tell CNewLine ;;;
  let! ready := on_boot (boot_memory fuel info) in
  if negb ready then ret false
  else
    print_manufacturer ;;;
    tell_text ("[paging] initialize paging" +:+ nl) ;;;
    on_machine_cpu (kernel (let '(_, _, _, edx) := cpu_id 0x80000001 in paging_initialize edx)) ;;;
    tell_text ("[interrupt] disable pic" +:+ nl) ;;;
    on_ports apic_disable_pic ;;;
    tell_text ("[cpu] initialize cpu context" +:+ nl) ;;;
    ret true.

(** ** kernel_main, lines 451 to 515 *)

Definition spurious_interrupt_vector_offset : Z := 0xF0.

(** Lines 451 to 482; the result is [apic_id]. *)
Definition report_local_apic : M (cpu_state phys) Z :=
  let! cpu := cpu_get_current in
  let! apic := field (cpu + cpu_local_apic_physical) in
  print "[apic] mapped at 0x" ;;;
  says (CPrintU64 apic 16) ;;;
  says CNewLine ;;;
  let apic_id := u8 (Z.shiftr (u32 local_apic_id) 24) in
  let apic_version := Z.land local_apic_version 0xFF in
  let apic_max_entries := Z.land (Z.shiftr local_apic_version 16) 0xFF in
  print "[apic] physical address: 0x" ;;;
  let! process := field (cpu + cpu_current_process) in
  let! context := gets (λ x, load_context (process + process_paging_context) (s_mem x)) in
  let! physical_address := kernel (paging_get_physical_address context apic) in
  says (CPrintU64 physical_address 16) ;;;
  says CNewLine ;;;
  print "[apic] virtual address: 0x" ;;;
  says (CPrintU64 apic 16) ;;;
  says CNewLine ;;;
  print "[apic] size " ;;;
  says (CPrintU32 sizeof_apic 10) ;;;
  says CNewLine ;;;
  print "[apic] spurious register (should be 0xF0) 0x" ;;;
  says (CPrintU64 spurious_interrupt_vector_offset 16) ;;;
  says CNewLine ;;;
  print "[apic] id " ;;;
  says (CPrintU32 apic_id 2) ;;;
  says CNewLine ;;;
  print "[apic] version " ;;;
  says (CPrintU32 apic_version 10) ;;;
  says CNewLine ;;;
  print "[apic] max entries " ;;;
  says (CPrintU32 apic_max_entries 10) ;;;
  says CNewLine ;;;
  ret apic_id.

(** [struct acpi_madt_entry_io_apic] *)
Definition io_apic_id (m : mem) (e : Z) : Z := load8 m (e + 2).
Definition io_apic_address (m : mem) (e : Z) : Z := load32 m (e + 4).
Definition global_system_interrupt_base (m : mem) (e : Z) : Z := load32 m (e + 8).

Definition sizeof_ioapic : Z := 32.

(** [paging_map_physical(&cpu->current_process->paging_context, ...)] *)
Definition map_ioapic (fuel : nat) (physical_address : Z) : M (cpu_state phys) Z :=
  let! cpu := cpu_get_current in
  let! process := field (cpu + cpu_current_process) in
  let context := process + process_paging_context in
  let! c := gets (λ x, load_context context (s_mem x)) in
  let! '(address, c) := kernel (paging_map_physical fuel c physical_address sizeof_ioapic
    (Z.lor PAGING_FLAG_READ PAGING_FLAG_WRITE)) in
  modify (with_mem (store_context context c)) ;;;
  ret address.

(** Lines 503 to 513, through the pointer [ioapic]. *)
Definition report_ioapic : M (machine P B D) unit :=
  tell_text "[ioapic] version: " ;;;
  let! version := on_io apic_io_get_version in
  tell (CPrintU64 version 10) ;;;
  tell CNewLine ;;;
  tell_text "[ioapic] entry count: " ;;;
  let! entries := on_io apic_io_get_max_entries in
  tell (CPrintU64 entries 10) ;;;
  tell CNewLine ;;;
  tell_text "[ioapic] id: " ;;;
  let! id := on_io apic_io_get_id in
  tell (CPrintU64 id 10) ;;;
  tell CNewLine.

(** The body of the loop, lines 491 to 514. Registers at address 0, the
    result of a failed mapping, are a null pointer access. *)
Definition visit_ioapic (fuel : nat) (e : Z) : M (machine P B D) unit :=
  let! m := on_machine_cpu (gets s_mem) in
  tell_text "[ioapic] id " ;;;
  tell (CPrintU64 (io_apic_id m e) 10) ;;;
  tell_text " at 0x " ;;;
  tell (CPrintU64 (io_apic_address m e) 16) ;;;
  tell_text " with starting irq " ;;;
  tell (CPrintU64 (global_system_interrupt_base m e) 10) ;;;
  tell CNewLine ;;;
  let! pointer := gets m_ioapic_pointer in
  if pointer =? 0 then
    let! pointer := on_machine_cpu (map_ioapic fuel (io_apic_address m e)) in
    modify (set_ioapic_pointer pointer) ;;;
    if pointer =? 0 then undef else report_ioapic
  else ret tt.

(** [while (e = acpi_madt_iterate_type(madt, e, ACPI_MADT_TYPE_IO_APIC)) visit(e);] *)
Fixpoint for_ioapics (n fuel : nat) (madt e : Z) : M (machine P B D) unit :=
  match n with
  | O => hang
  | S n' =>
      let! m := on_machine_cpu (gets s_mem) in
      let! next := lift (acpi_madt_iterate_type fuel m madt e ACPI_MADT_TYPE_IO_APIC) in
      if truthy next then visit_ioapic fuel next ;;; for_ioapics n' fuel madt next else ret tt
  end.

(** Lines 484 to 515. *)
Definition find_ioapics (n fuel : nat) (madt : Z) : M (machine P B D) unit :=
  tell_text ("[ioapic] looking for io apic in MADT table" +:+ nl) ;;;
  modify (set_ioapic_pointer 0) ;;;
  for_ioapics n fuel madt 0.

(** ** The whole function *)

(** Lines 357 to 595: what the source has behind the call of
    [cpu_initialize]. The last loop never ends. *)
Definition kernel_rest (n fuel : nat) : M (machine P B D) unit :=
  let! madt := on_machine_cpu (find_tables cpu_id fuel) in
  match madt with
  | None => ret tt
  | Some madt =>
      let! apic_id := on_machine_cpu report_local_apic in
      find_ioapics n fuel madt ;;;
      let! started := on_smp (start_processors n fuel madt apic_id cpu_startup16) in
      if started then hang else ret tt
  end.

Definition kernel_main (n fuel : nat) (info : Z) : M (machine P B D) unit :=
  let! ready := kernel_prepare fuel info in
  if negb ready then ret tt
  else
    on_machine_cpu (cpu_initialize address_of scheduler_interrupt cpu_read_msr local_apic_id fuel
      (Some (root_program local handler_local))) ;;;
    kernel_rest n fuel.
End Kernel.

(** ** memory_debug and interrupt_handle_timer *)

Section Debug.
Context {A : Type}.

(** [chk->size] is an [int]. *)
Fixpoint memory_debug (fuel : nat) (chk : Z) : M (cpu_state A) unit :=
  match fuel with
  | O => hang
  | S fuel' =>
      if chk =? 0 then ret tt
      else
        let! m := gets s_mem in
        print "0x" ;;;
        says (CPrintU64 chk 16) ;;;
        print ": size = " ;;;
        says (CPrintI32 (chunk_size m chk) 10) ;;;
        print ", next = 0x" ;;;
        says (CPrintU64 (chunk_next m chk) 16) ;;;
        print ", prev = 0x" ;;;
        says (CPrintU64 (chunk_previous m chk) 16) ;;;
        says CNewLine ;;;
        memory_debug fuel' (chunk_next m chk)
  end.

(** The store is to the local APIC at its physical address. *)
Definition interrupt_handle_timer : M (cpu_state A) unit :=
  let! cpu := cpu_get_current in
  let! _ := field (cpu + cpu_local_apic_physical) in
  device (EndOfInterrupt 0).
End Debug.
