(* ===== verification/KernelSpec.v ===== *)
(** * The boot of the kernel

    [kernel_main] as a whole: from a usable memory map the components, run in
    the order of the source, leave the boot processor in the root program with
    all it relies on set up, and the call never returns; without a memory map it
    returns and has touched nothing. Each step is the theorem of its component
    ([BootSpec], [CpuSetup], [AcpiDiscovery]) on its part of the machine. *)

From S2P Require Import Prelude Memory Allocator Heap HeapSpec Lock Physical PhysicalSpec Multiboot Boot BootSpec Port.
From S2P Require Import Paging Cpu CpuSpec Machine Gdt Idt IdtSpec AddressSpace CpuInit CpuInitSpec CpuSetup.
From S2P Require Import Acpi Apic ApicSpec Main MainSpec AcpiDiscovery Kernel.

Section KernelSpec.
Context {P B D : Type} {PD : PortDevices P} {SB : StartupBus B} {ID : IoApicDevice D}.
Implicit Types (x y : machine P B D).

(** ** Parts of the machine *)

Lemma bind_focus {S T R R'} (part : S → T) replace (m : M T R) (k : R → M S R') s r t :
  m (part s) = Ok (r, t) → bind (focus part replace m) k s = k r (replace t s).
Proof. unfold bind, focus. by intros ->. Qed.

Definition told (l : list console_call) x : machine P B D := set_m_cpu (with_log l (m_cpu x)) x.

Lemma bind_tell {R} c (k : unit → M (machine P B D) R) x : bind (tell c) k x = k tt (told [c] x).
Proof. reflexivity. Qed.

Lemma told_told l1 l2 x : told l1 (told l2 x) = told (l1 ++ l2) x.
Proof. unfold told, set_m_cpu. cbn. by rewrite with_log_app. Qed.

(** The messages do not matter to what [Boot] sets up. *)
Lemma boot_ready_told l x : boot_ready (boot_view x) → boot_ready (boot_view (told l x)).
Proof. by intros [H1 H2 H3]. Qed.

(** ** Up to the set-up of the processor *)

Context (cpu_id : Z → Z * Z * Z * Z).

Definition extended_edx : Z := let '(_, _, _, edx) := cpu_id 0x80000001 in edx.

(** What lines 177 to 326 leave: the allocator for the memory map, paging
    without a mapping, the PICs off; the processor itself is as it was. *)
Record prepared (m : mem) (tag : Z) x y : Prop := Prepared {
  prepared_memory : memory_ready m tag (boot_view y);
  prepared_pages : used_virtual_pages (s_kernel (m_cpu y)) = 0;
  prepared_huge : hugepages_supported (s_kernel (m_cpu y)) = s32 (Z.land extended_edx (2 ^ 26));
  prepared_ports : apic_disable_pic (m_ports x) = Ok (tt, m_ports y);
  prepared_cpu : s_fs (m_cpu y) = s_fs (m_cpu x) ∧ s_cr3 (m_cpu y) = s_cr3 (m_cpu x) ∧
    s_interrupts (m_cpu y) = s_interrupts (m_cpu x) ∧ s_writes (m_cpu y) = s_writes (m_cpu x);
  prepared_rest : m_bus y = m_bus x ∧ m_ioapic y = m_ioapic x
}.

Lemma bind_tell_all {R} (p : M (machine P B D) unit) (k : unit → M (machine P B D) R) l x :
  p x = Ok (tt, told l x) → bind p k x = k tt (told l x).
Proof. unfold bind. by intros ->. Qed.

Lemma print_manufacturer_run : ∃ l, ∀ x, print_manufacturer cpu_id x = Ok (tt, told l x).
Proof.
  unfold print_manufacturer, tell_text. destruct (cpu_id 0) as [[[eax ebx] ecx] edx].
  exists (rev [CPrint "[cpu] cpu manufacturer "; CPrintLength (register_bytes ebx);
    CPrintLength (register_bytes edx); CPrintLength (register_bytes ecx); CNewLine]).
  intros x. rewrite !bind_tell, !told_told. reflexivity.
Qed.

Lemma boot_view_from_boot b x : boot_view (from_boot b x) = b.
Proof. by destruct b. Qed.

Lemma kernel_prepare_run kernel_main_address m info tag fuel x :
  boot_ready (boot_view x) → s_mem (m_cpu x) = m → usable_map m info tag fuel →
  ∃ y, kernel_prepare cpu_id kernel_main_address fuel info x = Ok (true, y) ∧ prepared m tag x y.
Proof.
  intros Hs Hm Hmap. unfold kernel_prepare, tell_text. rewrite !bind_tell, !told_told.
  match goal with |- context [told ?l x] => set (l0 := l) end.
  destruct (boot_memory_run m info tag fuel (boot_view (told l0 x))) as (b & Hr & Hb);
    [by apply boot_ready_told|exact Hm|exact Hmap|].
  unfold on_boot. rewrite (bind_focus boot_view from_boot _ _ _ true b Hr). cbn [negb].
  destruct print_manufacturer_run as [l1 Hl1]. rewrite (bind_tell_all _ _ _ _ (Hl1 _)).
  rewrite bind_tell, !told_told. unfold on_machine_cpu, on_ports.
  destruct (cpu_id 0x80000001) as [[[eax ebx] ecx] edx] eqn:Eid.
  erewrite bind_focus by reflexivity. rewrite bind_tell. erewrite bind_focus by reflexivity.
  rewrite bind_tell. eexists. split; [reflexivity|].
  destruct Hb as [H1 H2 H3 H4 H5 H6 H7]. split; [by split|done| |done|done|done].
  unfold extended_edx. by rewrite Eid.
Qed.

(** ** The processor *)

Lemma identity_length_bound (s : cpu_state phys) :
  0 < max_memory_address s < 2 ^ 39 → identity_length s ≤ max_memory_address s + 2 ^ 30 - 1.
Proof.
  intros Hmax. unfold identity_length. destruct (truthy _).
  - change 0x40000000 with (2 ^ 30). rewrite align_to_next_pow2 by lia. divmod_lia.
  - change 0x200000 with (2 ^ 21). rewrite align_to_next_pow2 by lia. divmod_lia.
Qed.

Lemma page_zero_taken m tag b : memory_ready m tag b → 0 < map_max m tag → taken_bit (allocation_table (b_phys b)) 0.
Proof.
  intros Hb Hmax w Hw. destruct (Z.testbit w (0 mod 64)) eqn:E; [done|exfalso].
  assert (free_page (allocation_table (b_phys b)) 0) as Hf by (split; [lia|split; [done|by exists w]]).
  apply (memory_free _ _ _ Hb) in Hf as [(_ & _ & Hlen) Hf].
  apply (Hf (0, 0x000FFFFF)) with 0; [right; by left| |done].
  unfold page_in. cbn [fst snd]. change (reserve_count 0 0xFFFFF) with 256. change (0 / 2 ^ 12) with 0.
  change (0 / 64) with 0 in Hlen. lia.
Qed.

(** Enough pages for the set-up: a list of pages that can be handed out. *)
Definition enough_pages (m : mem) (tag : Z) : Prop :=
  ∃ l, NoDup l ∧ Forall (allocatable m tag) l ∧ 52 + 2 * ((map_max m tag + 2 ^ 30 - 1) / 2 ^ 21) ≤ Z.of_nat (length l).

Lemma prepared_unset m tag x y : prepared m tag x y → 0 < map_max m tag → cpu_unset (m_cpu y).
Proof.
  intros [Hb _ _ _ _ _] Hmax. split; [exact (memory_inv _ _ _ Hb)|].
  split; [lia|]. exact (page_zero_taken _ _ _ Hb Hmax).
Qed.

Lemma prepared_avail m tag x y :
  prepared m tag x y → enough_pages m tag → 0 < map_max m tag < 2 ^ 39 →
  52 + 2 * (identity_length (m_cpu y) / 2 ^ 21) ≤ pa_avail (s_alloc (m_cpu y)).
Proof.
  intros [Hb _ _ _ _ _] (l & Hnd & Hl & Hlen) Hmax.
  assert (max_memory_address (m_cpu y) = map_max m tag) as Hm by exact (memory_max _ _ _ Hb).
  pose proof (identity_length_bound (m_cpu y) ltac:(by rewrite Hm)) as Hi. rewrite Hm in Hi.
  pose proof (avail_free_list l (b_phys (boot_view y)) (memory_inv _ _ _ Hb) Hnd) as Ha.
  change (pa_avail (s_alloc (m_cpu y))) with (avail (b_phys (boot_view y))).
  pose proof (Z.div_le_mono _ _ (2 ^ 21) ltac:(lia) Hi).
  enough (Z.of_nat (length l) ≤ avail (b_phys (boot_view y))) by lia.
  apply Ha. rewrite list.Forall_forall in Hl. apply list.Forall_forall. intros q Hq.
  apply (memory_free _ _ _ Hb), Hl, Hq.
Qed.

(** ** The root program *)

Lemma quiet_gets_any {A} m {R R'} (f : cpu_state A → R) (k : R → M (cpu_state A) R') Q :
  (∀ r, quiet m (k r) Q) → quiet m (bind (gets f) k) Q.
Proof. intros Hk s Hs. rewrite bind_gets. by apply Hk. Qed.

Lemma quiet_idt_debug {A} m : quiet m (idt_debug (A := A)) (λ _, True).
Proof.
  unfold idt_debug, current_idt, cpu_get_current, field. intros s Hs. mstep. revert s Hs.
  intros s Hs. refine (quiet_for_loop m _ 239 0 _ s Hs). intros j _. unfold idt_debug_gate.
  apply quiet_mem. auto 100 with quiet.
Qed.

Lemma quiet_gdt_entry {A} m i d : quiet m (gdt_debug_entry (A := A) i d) (λ _, True).
Proof.
  unfold gdt_debug_entry. apply quiet_mem. cbv zeta. auto 100 with quiet.
Qed.

Lemma quiet_gdt_loop {A} m table fuel : ∀ i, quiet m (gdt_debug_loop (A := A) fuel table i) (λ _, True).
Proof.
  induction fuel as [|fuel IH]; intros i; cbn [gdt_debug_loop]; [by apply quiet_ret|].
  apply quiet_if; intros _; [|by apply quiet_ret]. by eapply quiet_bind; [apply quiet_gdt_entry|].
Qed.

Lemma quiet_gdt_debug {A} m : quiet m (gdt_debug (A := A)) (λ _, True).
Proof. intros s Hs. unfold gdt_debug, cpu_get_current, field. mstep. by apply (quiet_gdt_loop m). Qed.

Lemma quiet_root_program m local handler_local : quiet m (root_program local handler_local) (λ _, True).
Proof.
  unfold root_program. cbn [idt_handle].
  apply quiet_seq; [apply quiet_idt_debug|]. apply quiet_seq; [apply quiet_gdt_debug|].
  auto 100 with quiet.
Qed.

(** ** The whole boot *)

Context (address_of : idt_handler → Z) (scheduler_interrupt : Z) (cpu_read_msr : Z → Z)
  (local_apic_id local_apic_version kernel_main_address cpu_startup16 local handler_local : Z).

(** The pages of the allocation table are numbered below its word count, so
    that their reservation is not refused. A condition on the machine: the
    table is put behind the kernel, at 2 MiB or more, so the map has to reach
    beyond 128 MiB at least. *)
Definition table_reservable (m : mem) (tag : Z) : Prop :=
  (map_spot m tag + map_max m tag / 4096 / 8) / 4096 < map_max m tag / 4096 / 64.

(** No byte of the table is on a page that can be handed out. *)
Lemma table_not_allocatable m tag b :
  table_reservable m tag → map_max m tag < 2 ^ 50 → 0 ≤ map_spot m tag →
  map_spot m tag ≤ b < map_spot m tag + map_max m tag / 4096 / 8 → ¬ allocatable m tag (b / 4096).
Proof.
  unfold table_reservable. set (size := map_max m tag / 4096 / 8). set (spot := map_spot m tag).
  intros Hres Hmax Hspot Hb [(Hq & Hmod & Hlen) Hno].
  apply (Hno (spot, size)) with (b / 4096); [left| |unfold alias; divmod_lia].
  assert (size < 2 ^ 52) as Hsize by (unfold size; divmod_lia).
  unfold page_in. cbn [fst snd]. rewrite reserve_count_small by lia. unfold page_count.
  change (2 ^ 12) with 4096. split; [divmod_lia|]. apply Z.min_glb_lt; [divmod_lia|]. divmod_lia.
Qed.

(** What the boot leaves in the state [s] of the processor, [y] being the
    machine before its set-up. *)
Definition booted y (s : cpu_state phys) : Prop :=
  ∃ s1 cpu gdt task k1 k2 idt p root ps s2 l,
    cpu_ready_tables address_of (m_cpu y) s1 cpu gdt task k1 k2 idt ∧
    cpu_started scheduler_interrupt cpu_read_msr s1 idt p root ps s2 ∧ s = with_log l s2.

Lemma kernel_boot_run m info tag n fuel x :
  boot_ready (boot_view x) → s_mem (m_cpu x) = m → usable_map m info tag fuel → table_reservable m tag →
  0 < map_max m tag ≤ 2 ^ 39 - 2 ^ 30 → enough_pages m tag → apic_enabled cpu_read_msr →
  (∀ h, 0 ≤ address_of h < 2 ^ 64) → 0 ≤ scheduler_interrupt < 2 ^ 64 → (512 ≤ fuel)%nat →
  ∃ y s2 s3, kernel_prepare cpu_id kernel_main_address fuel info x = Ok (true, y) ∧ prepared m tag x y ∧
    cpu_setup address_of scheduler_interrupt cpu_read_msr local_apic_id fuel (m_cpu y) = Ok (tt, s2) ∧
    root_program local handler_local s2 = Ok (tt, s3) ∧ booted y s3 ∧
    kernel_main cpu_id address_of scheduler_interrupt cpu_read_msr local_apic_id local_apic_version
      kernel_main_address cpu_startup16 local handler_local n fuel info x = Hang.
Proof.
  intros Hs Hm Hmap Hres Hmax Hen Hapic Haddr Hsi Hfuel.
  destruct (kernel_prepare_run kernel_main_address m info tag fuel x Hs Hm Hmap) as (y & Hy & Hprep).
  assert (max_memory_address (m_cpu y) = map_max m tag) as Hmy by exact (memory_max _ _ _ (prepared_memory _ _ _ _ Hprep)).
  pose proof (identity_length_bound (m_cpu y) ltac:(lia)) as Hlen.
  destruct (cpu_setup_run scheduler_interrupt cpu_read_msr local_apic_id address_of (m_cpu y) fuel)
    as (s1 & cpu & gdt & task & k1 & k2 & idt & p & root & ps & s2 & Hr2 & Ht & El & Hst);
    [exact (prepared_unset m tag x y Hprep ltac:(lia))|done|done|done|lia|lia
    |exact (prepared_avail m tag x y Hprep Hen ltac:(lia))|done|].
  destruct (quiet_root_program (s_mem s2) local handler_local s2 eq_refl) as ([] & l & Hr3 & _).
  exists y, s2, (with_log l s2). split; [exact Hy|]. split; [exact Hprep|]. split; [exact Hr2|].
  split; [exact Hr3|]. split.
  - exists s1, cpu, gdt, task, k1, k2, idt, p, root, ps, s2, l. by split_and!.
  - unfold kernel_main. rewrite (bind_ok _ _ _ _ _ Hy). cbn [negb]. unfold on_machine_cpu, bind at 1, focus.
    unfold cpu_initialize. by rewrite (bind_ok _ _ _ _ _ Hr2), (bind_ok _ _ _ _ _ Hr3).
Qed.

(** A machine at boot with a memory map that offers enough. *)
Record bootable (m : mem) (info tag : Z) (fuel : nat) x : Prop := Bootable {
  bootable_ready : boot_ready (boot_view x);
  bootable_mem : s_mem (m_cpu x) = m;
  bootable_map : usable_map m info tag fuel;
  bootable_table : table_reservable m tag;
  bootable_max : 0 < map_max m tag ≤ 2 ^ 39 - 2 ^ 30;
  bootable_pages : enough_pages m tag;
  bootable_fuel : (512 ≤ fuel)%nat
}.

(** C1. The boot of the kernel, for a memory map with which the reservation of the allocation table takes
    effect. [kernel_main] prepares physical memory, paging and the PICs, sets up the processor
    ([cpu_ready_tables], [cpu_started]: tables, own address space, process, timer) and runs the root
    program, which only prints. The allocator then hands out exactly the [allocatable] pages, none of them a
    page of its own table. [kernel_main] does not return: nothing behind [cpu_initialize] runs.
    Needed ([bootable]): boot information with a map that offers a place for the table ([usable_map]); the
    pages of the table numbered below its word count ([table_reservable]), because [memory_physical_reserve]
    refuses the others; usable memory up to 511 GiB; pages enough for the set-up ([enough_pages]). Not covered
    are therefore ordinary smaller machines: with 128 MiB the table is at page 512 and has 511 words, and
    [BootSpec.boot_memory_gives_away_table] says what happens there. 256 MiB are enough. *)
Theorem kernel_main_boots m info tag n fuel x :
  bootable m info tag fuel x → apic_enabled cpu_read_msr → (∀ h, 0 ≤ address_of h < 2 ^ 64) →
  0 ≤ scheduler_interrupt < 2 ^ 64 →
  ∃ y s2 s3, kernel_prepare cpu_id kernel_main_address fuel info x = Ok (true, y) ∧ prepared m tag x y ∧
    (∀ b, map_spot m tag ≤ b < map_spot m tag + map_max m tag / 4096 / 8 →
      ¬ free_page (allocation_table (s_alloc (m_cpu y))) (b / 4096)) ∧
    cpu_setup address_of scheduler_interrupt cpu_read_msr local_apic_id fuel (m_cpu y) = Ok (tt, s2) ∧
    root_program local handler_local s2 = Ok (tt, s3) ∧ booted y s3 ∧
    kernel_main cpu_id address_of scheduler_interrupt cpu_read_msr local_apic_id local_apic_version
      kernel_main_address cpu_startup16 local handler_local n fuel info x = Hang.
Proof.
  intros [Hs Hm Hmap Hres Hmax Hen Hfuel] Hapic Haddr Hsi.
  destruct (kernel_boot_run m info tag n fuel x Hs Hm Hmap Hres Hmax Hen Hapic Haddr Hsi Hfuel)
    as (y & s2 & s3 & H1 & H2 & H3 & H4 & H5 & H6).
  exists y, s2, s3. split_and!; try done. intros b Hb Hf.
  apply (memory_free _ _ _ (prepared_memory _ _ _ _ H2)) in Hf. revert Hf.
  apply table_not_allocatable; [done|lia|apply first_spot_range|done].
Qed.

(** ** Returning *)

(** Messages and [max_memory_address] apart, [y] is the machine [x]. *)
Definition untouched x y : Prop :=
  s_mem (m_cpu y) = s_mem (m_cpu x) ∧ s_alloc (m_cpu y) = s_alloc (m_cpu x) ∧ m_table y = m_table x ∧
  s_fs (m_cpu y) = s_fs (m_cpu x) ∧ s_cr3 (m_cpu y) = s_cr3 (m_cpu x) ∧
  s_interrupts (m_cpu y) = s_interrupts (m_cpu x) ∧ s_writes (m_cpu y) = s_writes (m_cpu x) ∧
  m_ports y = m_ports x ∧ m_bus y = m_bus x ∧ m_ioapic y = m_ioapic x.

Lemma kernel_prepare_untouched fuel info x y :
  kernel_prepare cpu_id kernel_main_address fuel info x = Ok (false, y) → untouched x y.
Proof.
  unfold kernel_prepare, tell_text. rewrite !bind_tell, !told_told. intros (ready & z & Hb & H)%bind_inv.
  unfold on_boot, focus in Hb. destruct (boot_memory _ _ _) as [[r b]| |] eqn:E; [|done|done].
  injection Hb as -> <-. destruct ready; cbn [negb] in H.
  - destruct print_manufacturer_run as [l1 Hl1]. rewrite (bind_tell_all _ _ _ _ (Hl1 _)), bind_tell in H.
    apply bind_inv in H as (? & ? & _ & H). rewrite bind_tell in H.
    apply bind_inv in H as (? & ? & _ & H). rewrite bind_tell in H. done.
  - injection H as <-. apply boot_memory_gives_up_cleanly in E as (E1 & E2 & E3).
    split_and!; (done || congruence).
Qed.

(** C21. [kernel_main] returns only when it finds no boot information, no memory map or no place for the
    allocation table, and then memory, the allocator, the processor and all devices are as they were. *)
Theorem kernel_main_returns_untouched n fuel info x y :
  kernel_main cpu_id address_of scheduler_interrupt cpu_read_msr local_apic_id local_apic_version
    kernel_main_address cpu_startup16 local handler_local n fuel info x = Ok (tt, y) →
  kernel_prepare cpu_id kernel_main_address fuel info x = Ok (false, y) ∧ untouched x y.
Proof.
  intros (ready & z & Hp & H)%bind_inv. destruct ready; cbn [negb] in H.
  - apply bind_inv in H as ([] & z' & H & _). unfold on_machine_cpu, focus in H.
    destruct (cpu_initialize _ _ _ _ _ _ _) as [[[] s']| |] eqn:E; [|done|done].
    by apply cpu_initialize_no_return in E.
  - injection H as <-. split; [done|]. by eapply kernel_prepare_untouched.
Qed.
End KernelSpec.

(** ** memory_debug *)

(** The report on the chunks [l], [previous] before them. *)
Fixpoint chunk_calls (previous : Z) (l : list (Z * Z)) : list console_call :=
  match l with
  | [] => []
  | c :: l => [CPrint "0x"; CPrintU64 c.1 16; CPrint ": size = "; CPrintI32 c.2 10; CPrint ", next = 0x";
      CPrintU64 (first_addr l 0) 16; CPrint ", prev = 0x"; CPrintU64 previous 16; CNewLine] ++ chunk_calls c.1 l
  end.

Lemma memory_debug_loop {A} m l : ∀ previous lo fuel (s : cpu_state A),
  s_mem s = m → linked m previous l 0 → spaced lo l → 0 < lo → (length l < fuel)%nat →
  memory_debug fuel (first_addr l 0) s = Ok (tt, with_log (rev (chunk_calls previous l)) s).
Proof.
  induction l as [|c l IH]; intros previous lo [|fuel] s Hs Hl Hsp Hlo Hf; cbn [length] in Hf; try lia.
  - cbn [memory_debug first_addr]. by rewrite with_log_nil.
  - destruct Hl as (Hp & Hn & Hsz & Hl). destruct Hsp as (Hc & Hc2 & _ & Hsp). cbn [memory_debug first_addr].
    rewrite (proj2 (Z.eqb_neq c.1 0)), bind_gets, Hs, Hp, Hn, Hsz by lia.
    cbn [chunk_calls]. rewrite rev_app_distr, <- with_log_app.
    rewrite <- (IH c.1 (c.1 + 24 + c.2) fuel (with_log (rev [CPrint "0x"; CPrintU64 c.1 16; CPrint ": size = ";
      CPrintI32 c.2 10; CPrint ", next = 0x"; CPrintU64 (first_addr l 0) 16; CPrint ", prev = 0x";
      CPrintU64 previous 16; CNewLine]) s)) by (done || lia).
    reflexivity.
Qed.

(** [memory_debug] ends on every heap and lists its chunks in address order, each with its size and its
    neighbours. *)
Lemma memory_debug_lists {A} root m l fuel (s : cpu_state A) :
  heap_ok root m l → s_mem s = m → (length l < fuel)%nat →
  memory_debug fuel root s = Ok (tt, with_log (rev (chunk_calls 0 l)) s).
Proof.
  intros [(n & l' & Hf) Hl Hs _ _] Hm Hfuel. subst l.
  exact (memory_debug_loop m _ 0 1 fuel s Hm Hl Hs ltac:(lia) Hfuel).
Qed.

(** ** A machine with 256 MiB

    The table lies at page 512, below its 1023 words. *)

Definition map256 : list (Z * Z * Z) :=
  [(0, 0x9FC00, 1); (0x9FC00, 0x400, 2); (0xF0000, 0x10000, 2); (0x100000, 0xFEE0000, 1);
   (0xFFE0000, 0x20000, 2); (0xFFFC0000, 0x40000, 2)].

#[local] Existing Instance ApicSpec.pics0_ports.
#[local] Existing Instance ApicSpec.ioapic0_device.

Definition kernel0 (map : list (Z * Z * Z)) : machine ApicSpec.pics0 MainSpec.bus0 ApicSpec.ioapic0 :=
  Machine (CpuState (KState (boot_map map) (Phys [] 0 0 0 0 []) 0 0 []) 0 0 false 1 0 0 [])
    0 0 (ApicSpec.Pics0 (ApicSpec.Pic 0 0 0) (ApicSpec.Pic 0 0 0)) (MainSpec.Bus0 0 [] 0) ApicSpec.ioapic_empty.

(** A processor without 1 GiB pages. *)
Definition cpuid0 (f : Z) : Z * Z * Z * Z := (0, 0, 0, 0).

(** Pages above 0x400000, in the lower half of each word. *)
Definition pages256 : list Z := (λ i, 1024 + i / 32 * 64 + i mod 32) <$> seqZ 0 1400.

Lemma pages256_allocatable : Forall (allocatable (boot_map map256) 0x9008) pages256.
Proof.
  apply list.Forall_forall. intros q (i & -> & Hi%elem_of_seqZ)%list_elem_of_fmap.
  assert (map_max (boot_map map256) 0x9008 / 4096 / 64 = 1023) as Hlen by (by vm_compute).
  split; rewrite Hlen; [divmod_lia|]. intros region _ x [_ Hx]. 
  assert (x < 1023) by lia. unfold alias. divmod_lia.
Qed.

Lemma kernel0_bootable : bootable (boot_map map256) 0x9000 0x9008 512 (kernel0 map256).
Proof.
  split.
  - by split.
  - reflexivity.
  - split.
    + by vm_compute.
    + exists [0x9008]. split; [|split; [cbn [length]; lia|by vm_compute]].
      cbn [tag_list]. repeat split; vm_compute; (reflexivity || discriminate).
    + discriminate.
    + split; by vm_compute.
    + by vm_compute.
    + split; [by vm_compute|left; vm_compute; discriminate].
    + apply (bool_decide_unpack _). by vm_compute.
  - by vm_compute.
  - split; [by vm_compute|by vm_compute].
  - exists pages256. split; [|split; [exact pages256_allocatable|by vm_compute]].
    apply (bool_decide_unpack _). by vm_compute.
  - lia.
Qed.

Lemma kernel_main_boots_witness :
  ∃ y s2 s3, kernel_prepare cpuid0 0x101000 512 0x9000 (kernel0 map256) = Ok (true, y) ∧
    cpu_setup handlers0 0x104000 msr0 0 512 (m_cpu y) = Ok (tt, s2) ∧
    root_program 0x103000 0x102000 s2 = Ok (tt, s3) ∧ s_interrupts s3 = true.
Proof.
  destruct (kernel_main_boots cpuid0 handlers0 0x104000 msr0 0 0x50014 0x101000 0x8000 0x103000 0x102000
    (boot_map map256) 0x9000 0x9008 20 512 (kernel0 map256))
    as (y & s2 & s3 & H1 & _ & _ & H2 & H3 & H4 & _).
  - exact kernel0_bootable.
  - by vm_compute.
  - exact handlers0_range.
  - lia.
  - exists y, s2, s3. split; [exact H1|]. split; [exact H2|]. split; [exact H3|].
    destruct H4 as (s1 & cpu & gdt & task & k1 & k2 & idt & p & root & ps & s2' & l & _ & Hst & ->).
    apply (started_cpu _ _ _ _ _ _ _ _ Hst).
Defined.

Lemma kernel_main_returns_untouched_witness :
  ∃ y, kernel_main cpuid0 handlers0 0x104000 msr0 0 0x50014 0x101000 0x8000 0x103000 0x102000 20 512 0
      (kernel0 []) = Ok (tt, y) ∧ untouched (kernel0 []) y.
Proof.
  eexists. split; [reflexivity|].
  apply (kernel_main_returns_untouched cpuid0 handlers0 0x104000 msr0 0 0x50014 0x101000 0x8000 0x103000 0x102000 20 512 0).
  reflexivity.
Defined.
