(* ===== verification/Pci.v ===== *)
(** * The PCI bus

    Models [src/src/common/pci.c]: the scan of the configuration space, which
    prints what it finds. [pci_config_read32] is assembly and a parameter; the
    state is the console log. The reported functions are the theorem at the
    end. *)

From S2P Require Import Prelude.

Section Pci.
Context (pci_config_read32 : Z → Z → Z → Z → Z).

Definition pci_config_read16 (bus slot function offset : Z) : Z :=
  Z.land (Z.shiftr (pci_config_read32 bus slot function offset) (Z.land offset 2 * 8)) 0xffff.

Definition pci_config_read8 (bus slot function offset : Z) : Z :=
  Z.land (Z.shiftr (pci_config_read32 bus slot function offset) (Z.land offset 3 * 8)) 0xff.

Definition pci_class_string (class_code : Z) : string :=
  match class_code with
  | 0x00 => "Unclassified"
  | 0x01 => "Mass Storage Controller"
  | 0x02 => "Network Controller"
  | 0x03 => "Display Controller"
  | 0x04 => "Multimedia Controller"
  | 0x05 => "Memory Controller"
  | 0x06 => "Bridge"
  | 0x07 => "Simple Communication Controller"
  | 0x08 => "Base System Peripheral"
  | 0x09 => "Input Device Controller"
  | 0x0A => "Docking Station"
  | 0x0B => "Processor"
  | 0x0C => "Serial Bus Controller"
  | 0x0D => "Wireless Controller"
  | 0x0E => "Intelligent Controller"
  | 0x0F => "Satellite Communication Controller"
  | 0x10 => "Encryption Controller"
  | 0x11 => "Signal Processing Controller"
  | 0x12 => "Processing Accelerator"
  | 0x13 => "Non-Essential Instrumentation"
  | 0x14 => "0x3F (Reserved)"
  | 0x40 => "Co-Processor"
  | 0x41 => "0xFE (Reserved)"
  | _ => "Unassigned Class"
  end.

Definition pci_subclass_string (class_code subclass_code : Z) : string := pci_class_string class_code.

Definition emit (c : console_call) : M (list console_call) unit := modify (cons c).

(** Lines 31 to 64: one function that is present. *)
Definition print_device (bus slot function : Z) : M (list console_call) unit :=
  let vendor := pci_config_read16 bus slot function 0x0 in
  let device := pci_config_read16 bus slot function 0x2 in
  let class := pci_config_read8 bus slot function 0xb in
  let subclass := pci_config_read8 bus slot function 0xa in
  let header_type := pci_config_read8 bus slot function 0xe in
  emit (CPrint "[pci] device at bus=") ;;;
  emit (CPrintU32 bus 10) ;;;
  emit (CPrint " slot=") ;;;
  emit (CPrintU32 slot 10) ;;;
  emit (CPrint " function=") ;;;
  emit (CPrintU32 function 10) ;;;
  emit (CPrint " vendor=0x") ;;;
  emit (CPrintU32 vendor 16) ;;;
  emit (CPrint " device=0x") ;;;
  emit (CPrintU32 device 16) ;;;
  emit CNewLine ;;;
  emit (CPrint " class=0x") ;;;
  emit (CPrintU32 class 16) ;;;
  emit (CPrintChar 32) ;;;
  emit (CPrint (pci_class_string class)) ;;;
  emit (CPrint " subclass=0x") ;;;
  emit (CPrintU32 subclass 16) ;;;
  emit (CPrintChar 32) ;;;
  emit (CPrint (pci_subclass_string class subclass)) ;;;
  emit CNewLine ;;;
  emit (CPrint " header_type=0x") ;;;
  emit (CPrintU32 (Z.land header_type 127) 16) ;;;
  emit (CPrint ", multifunction=") ;;;
  emit (CPrintU32 (Z.shiftr header_type 7) 10) ;;;
  emit CNewLine.

(** The loop over the functions of a slot, [n] of them left. *)
Fixpoint scan_functions (n : nat) (bus slot function : Z) (is_multifunction : bool)
    : M (list console_call) unit :=
  match n with
  | O => ret tt
  | S n' =>
      let dev := pci_config_read32 bus slot function 0 in
      if dev =? 0xFFFFFFFF then scan_functions n' bus slot (function + 1) is_multifunction
      else
        print_device bus slot function ;;;
        let header_type := pci_config_read8 bus slot function 0xe in
        let is_multifunction := is_multifunction || (Z.land header_type 128 =? 128) in
        if is_multifunction then scan_functions n' bus slot (function + 1) is_multifunction else ret tt
  end.

(** Buses below 0b11111111, slots below 0b11111. *)
Definition pci_scan : M (list console_call) unit :=
  for_loop 255 0 (λ bus, for_loop 31 0 (λ slot, scan_functions 8 bus slot 0 false)).

(** ** What is reported *)

Definition present (bus slot function : Z) : Prop := pci_config_read32 bus slot function 0 ≠ 0xFFFFFFFF.
#[export] Instance present_dec bus slot function : Decision (present bus slot function).
Proof. unfold present. apply _. Defined.

(** Bit 7 of the header type. *)
Definition multifunction (bus slot function : Z) : bool :=
  Z.testbit (pci_config_read8 bus slot function 0xe) 7.

(** The functions of a slot that are reported: the first one present and, when
    it says the device has several, all others. *)
Definition functions_of (bus slot : Z) : list Z :=
  match filter (present bus slot) (seqZ 0 8) with
  | [] => []
  | f :: l => if multifunction bus slot f then f :: l else [f]
  end.

(** The calls a program adds to the log, in the order it makes them. *)
Definition output (p : M (list console_call) unit) : list console_call :=
  match p [] with Ok (_, l) => rev l | _ => [] end.

Definition adds (l : list console_call) (p : M (list console_call) unit) : Prop :=
  ∀ s, p s = Ok (tt, rev l ++ s).

Definition report (bus slot function : Z) : list console_call := output (print_device bus slot function).

Lemma print_device_adds bus slot function : adds (report bus slot function) (print_device bus slot function).
Proof. intros s. reflexivity. Qed.

Lemma adds_bind l1 l2 p q : adds l1 p → adds l2 q → adds (l1 ++ l2) (p ;;; q).
Proof. intros H1 H2 s. by rewrite (bind_ok _ _ _ _ _ (H1 s)), H2, rev_app_distr, app_assoc. Qed.

Lemma adds_for_loop (f : Z → list console_call) body n : ∀ i,
  (∀ j, i ≤ j < i + Z.of_nat n → adds (f j) (body j)) →
  adds (concat (f <$> seqZ i (Z.of_nat n))) (for_loop n i body).
Proof.
  induction n as [|n IH]; intros i H; [done|]. rewrite seqZ_cons by lia. cbn [fmap list_fmap concat for_loop].
  apply adds_bind; [apply H; lia|].
  replace (Z.pred (Z.of_nat (S n))) with (Z.of_nat n) by lia. apply IH. intros j Hj. apply H. lia.
Qed.

Lemma multifunction_mask bus slot function :
  (Z.land (pci_config_read8 bus slot function 0xe) 128 =? 128) = multifunction bus slot function.
Proof.
  unfold multifunction. change 128 with (2 ^ 7). set (z := pci_config_read8 _ _ _ _).
  pose proof (land_bit z 7 ltac:(lia)) as H. destruct (Z.testbit z 7) eqn:E.
  - apply Z.eqb_eq. apply Z.bits_inj'. intros i Hi. rewrite Z.land_spec, Z.pow2_bits_eqb by lia.
    destruct (Z.eqb_spec 7 i) as [<-|]; [by rewrite E|apply andb_false_r].
  - apply truthy_false in H. by rewrite H.
Qed.

(** In a multifunction device all functions left that are present are reported. *)
Lemma scan_functions_multi bus slot n : ∀ f,
  adds (concat (report bus slot <$> filter (present bus slot) (seqZ f (Z.of_nat n))))
    (scan_functions n bus slot f true).
Proof.
  induction n as [|n IH]; intros f; [done|]. rewrite seqZ_cons, filter_cons by lia. cbn [scan_functions].
  replace (Z.pred (Z.of_nat (S n))) with (Z.of_nat n) by lia.
  destruct (Z.eqb_spec (pci_config_read32 bus slot f 0) 0xFFFFFFFF) as [H|H].
  - rewrite decide_False by (unfold present; tauto). apply IH.
  - rewrite decide_True by done. cbn [fmap list_fmap concat orb]. apply adds_bind; [apply print_device_adds|apply IH].
Qed.

Lemma scan_functions_first bus slot n : ∀ f,
  adds (concat (report bus slot <$>
      match filter (present bus slot) (seqZ f (Z.of_nat n)) with
      | [] => []
      | f :: l => if multifunction bus slot f then f :: l else [f]
      end)) (scan_functions n bus slot f false).
Proof.
  induction n as [|n IH]; intros f; [done|]. rewrite seqZ_cons, filter_cons by lia. cbn [scan_functions].
  replace (Z.pred (Z.of_nat (S n))) with (Z.of_nat n) by lia.
  destruct (Z.eqb_spec (pci_config_read32 bus slot f 0) 0xFFFFFFFF) as [H|H].
  - rewrite decide_False by (unfold present; tauto). apply IH.
  - rewrite decide_True by done. cbn [orb]. rewrite multifunction_mask.
    destruct (multifunction bus slot f).
    + cbn [fmap list_fmap concat]. apply adds_bind; [apply print_device_adds|apply scan_functions_multi].
    + cbn [fmap list_fmap concat]. apply adds_bind; [apply print_device_adds|by intros s].
Qed.

(** C38. [pci_scan] ends and reports, bus by bus and slot by slot, the first function present and, for
    a multifunction device, all others present, for the buses 0 to 254 and the slots 0 to 30. *)
Theorem pci_scan_reports log :
  pci_scan log = Ok (tt, rev (concat ((λ bus, concat ((λ slot,
    concat (report bus slot <$> functions_of bus slot)) <$> seqZ 0 31)) <$> seqZ 0 255)) ++ log).
Proof.
  apply (adds_for_loop (λ bus, concat ((λ slot, concat (report bus slot <$> functions_of bus slot)) <$> seqZ 0 31))
    _ 255 0).
  intros bus _. apply (adds_for_loop (λ slot, concat (report bus slot <$> functions_of bus slot)) _ 31 0).
  intros slot _. apply (scan_functions_first bus slot 8 0).
Qed.

(** Reads of parts of a doubleword. *)
Lemma pci_config_read_parts bus slot function offset :
  let dword := pci_config_read32 bus slot function offset in
  pci_config_read16 bus slot function offset = dword / 2 ^ (8 * (offset / 2 mod 2 * 2)) mod 2 ^ 16 ∧
  pci_config_read8 bus slot function offset = dword / 2 ^ (8 * (offset mod 4)) mod 2 ^ 8.
Proof.
  intros dword. unfold pci_config_read16, pci_config_read8. fold dword.
  change 0xffff with (2 ^ 16 - 1). change 0xff with (2 ^ 8 - 1). rewrite !land_ones_mod by lia.
  assert (Z.land offset 2 = offset / 2 mod 2 * 2) as ->.
  { change 2 with (2 ^ 2 - 2 ^ 1) at 1. rewrite land_mask by lia. divmod_lia. }
  change 3 with (2 ^ 2 - 1). rewrite land_ones_mod by lia.
  rewrite !Z.shiftr_div_pow2 by divmod_lia.
  split; (f_equal; f_equal; f_equal; change (2 ^ 2) with 4; lia).
Qed.
End Pci.

(** A device in slot 31 is not found. *)
Example slot_31_is_not_scanned :
  let read bus slot function offset := if (bus =? 0) && (slot =? 31) then 0x12348086 else 0xFFFFFFFF in
  functions_of read 0 31 = [0] ∧ pci_scan read [] = Ok (tt, []).
Proof. by vm_compute. Qed.
