(* ===== verification/Console.v ===== *)
(** * The text console

    Models [src/src/common/console.c]: a history of 2500 lines of 80 cells, a
    window of 25 lines of it on the screen, a cursor and a colour. A cell is
    its character and its attribute. Strings are given as the characters
    before the terminating zero. *)

From S2P Require Import Prelude Memory Util.

Definition CONSOLE_VISIBLE_HEIGHT : Z := 25.
Definition CONSOLE_BUFFER_WIDTH : Z := 80.
Definition CONSOLE_BUFFER_HEIGHT : Z := 25 * 100.

Definition cell : Type := Z * Z.

(** The static variables of the file and the video memory. Cells that were
    never written are zero. *)
Record console := Console {
  history : gmap Z cell;
  video_memory : gmap Z cell;
  current_console_color : Z;
  cursor_x : Z;
  cursor_y : Z;
  scroll : Z
}.

Definition set_history h (s : console) := Console h (video_memory s) (current_console_color s)
  (cursor_x s) (cursor_y s) (scroll s).
Definition set_video v (s : console) := Console (history s) v (current_console_color s)
  (cursor_x s) (cursor_y s) (scroll s).
Definition set_color c (s : console) := Console (history s) (video_memory s) c
  (cursor_x s) (cursor_y s) (scroll s).
Definition set_cursor x y (s : console) := Console (history s) (video_memory s) (current_console_color s)
  x y (scroll s).
Definition set_scroll n (s : console) := Console (history s) (video_memory s) (current_console_color s)
  (cursor_x s) (cursor_y s) n.

Definition history_cell (s : console) (i : Z) : cell := default (0, 0) (history s !! i).
Definition video_cell (s : console) (i : Z) : cell := default (0, 0) (video_memory s !! i).

(** [history[i]] is undefined outside the array, and so is [video_memory[i]]
    outside the 25 lines of the text screen at 0xb8000. *)
Definition in_history (i : Z) : bool := (0 <=? i) && (i <? CONSOLE_BUFFER_WIDTH * CONSOLE_BUFFER_HEIGHT).
Definition in_screen (i : Z) : bool := (0 <=? i) && (i <? CONSOLE_BUFFER_WIDTH * CONSOLE_VISIBLE_HEIGHT).

Definition load_history (i : Z) : M console cell := λ s,
  if in_history i then Ok (history_cell s i, s) else Undef.
Definition store_history (i : Z) (c : cell) : M console unit := λ s,
  if in_history i then Ok (tt, set_history (<[i := c]> (history s)) s) else Undef.
Definition store_video (i : Z) (c : cell) : M console unit := λ s,
  if in_screen i then Ok (tt, set_video (<[i := c]> (video_memory s)) s) else Undef.

Definition console_update_screen : M console unit :=
  for_loop (Z.to_nat CONSOLE_VISIBLE_HEIGHT) 0 (λ iy,
    for_loop (Z.to_nat CONSOLE_BUFFER_WIDTH) 0 (λ ix,
      let! n := gets scroll in
      let! c := load_history (ix + (iy + n) * CONSOLE_BUFFER_WIDTH) in
      store_video (ix + iy * CONSOLE_BUFFER_WIDTH) c)).

Definition console_set_color (foreground background : Z) : M console unit :=
  modify (set_color (u8 (Z.lor (Z.land foreground 0xF) (Z.shiftl (Z.land background 0xF) 4)))).

Definition console_clear : M console unit :=
  for_loop (Z.to_nat CONSOLE_BUFFER_WIDTH) 0 (λ ix,
    for_loop (Z.to_nat CONSOLE_BUFFER_HEIGHT) 0 (λ iy,
      store_history (ix + iy * CONSOLE_BUFFER_WIDTH) (0, 0))) ;;;
  modify (set_cursor 0 0) ;;;
  modify (set_scroll 0) ;;;
  console_update_screen.

(** [y] is unsigned, so the comparisons with [scroll] are unsigned. *)
Definition console_new_line : M console unit :=
  modify (λ s, set_cursor (cursor_x s) (u32 (cursor_y s + 1)) s) ;;;
  let! y := gets cursor_y in
  (if CONSOLE_BUFFER_HEIGHT <=? y then console_clear else ret tt) ;;;
  modify (λ s, set_cursor 0 (cursor_y s) s) ;;;
  let! y := gets cursor_y in
  let! n := gets scroll in
  if (u32 (n + CONSOLE_VISIBLE_HEIGHT) <=? y) && (n <? CONSOLE_BUFFER_HEIGHT - 1) then
    modify (set_scroll (n + 1)) ;;;
    console_update_screen
  else ret tt.

Definition console_print_char (c : Z) : M console unit :=
  if c =? 10 then console_new_line
  else
    let! x := gets cursor_x in
    let! y := gets cursor_y in
    let! n := gets scroll in
    let! color := gets current_console_color in
    store_history (u32 (x + y * CONSOLE_BUFFER_WIDTH)) (u8 c, color) ;;;
    (if (u32 n <=? y) && (y <? u32 (n + CONSOLE_BUFFER_HEIGHT)) then
       store_video (u32 (x + u32 (y - n) * CONSOLE_BUFFER_WIDTH)) (u8 c, color)
     else ret tt) ;;;
    modify (λ s, set_cursor (u32 (cursor_x s + 1)) (cursor_y s) s) ;;;
    let! x := gets cursor_x in
    if CONSOLE_BUFFER_WIDTH <=? x then console_new_line else ret tt.

Definition console_set_cursor (new_x new_y : Z) : M console unit :=
  modify (λ s, set_cursor new_x (u32 (new_y + scroll s)) s).

Definition console_get_cursor : M console (Z * Z) :=
  gets (λ s, (cursor_x s, u32 (cursor_y s - scroll s))).

Fixpoint console_print (str : list Z) : M console unit :=
  match str with
  | [] => ret tt
  | c :: str => console_print_char c ;;; console_print str
  end.

(** The first [length] characters, whatever they are. *)
Definition console_print_length (str : list Z) (length : Z) : M console unit :=
  console_print (take (Z.to_nat length) str).

(** A number function applied to a fresh buffer, whose text is printed. *)
Definition print_buffer (r : outcome (Z * mem)) : M console unit :=
  match r with
  | Ok (n, m) => console_print ((λ i, load8 m i) <$> seqZ 0 n)
  | Undef => undef
  | Hang => hang
  end.

Definition console_print_i32 (num base : Z) : M console unit := print_buffer (string_from_i32 ∅ 0 num base).
Definition console_print_u32 (num base : Z) : M console unit := print_buffer (string_from_u32 ∅ 0 num base).
Definition console_print_i64 (num base : Z) : M console unit := print_buffer (string_from_i64 ∅ 0 num base).
Definition console_print_u64 (num base : Z) : M console unit := print_buffer (string_from_u64 ∅ 0 num base).

Definition console_scroll (amount : Z) : M console unit :=
  modify (λ s, set_scroll (s32 (scroll s + amount)) s) ;;;
  let! n := gets scroll in
  (if n <? 0 then modify (set_scroll 0)
   else if CONSOLE_BUFFER_HEIGHT <=? n then modify (set_scroll (CONSOLE_BUFFER_HEIGHT - 1))
   else ret tt) ;;;
  console_update_screen.

(** The characters at [a] up to the terminating zero. *)
Fixpoint read_string (fuel : nat) (m : mem) (a : Z) : outcome (list Z) :=
  match fuel with
  | O => Hang
  | S fuel' =>
      if load8 m a =? 0 then Ok []
      else match read_string fuel' m (a + 1) with
           | Ok l => Ok (load8 m a :: l)
           | Undef => Undef
           | Hang => Hang
           end
  end.

(** [dest] is the address of a buffer of 256 bytes on the stack in [m]. The
    text written there is not terminated. *)
Definition console_format (fuel : nat) (m : mem) (dest format : Z) (args : list Z) : M console unit :=
  match string_format_args fuel m dest format args with
  | Ok (m, _) =>
      match read_string fuel m dest with
      | Ok l => console_print l
      | Undef => undef
      | Hang => hang
      end
  | Undef => undef
  | Hang => hang
  end.

(** ** The invariant *)

(** The screen shows the window of the history that starts at line [scroll]. *)
Definition shows (s : console) : Prop :=
  ∀ k, 0 ≤ k < CONSOLE_VISIBLE_HEIGHT * CONSOLE_BUFFER_WIDTH →
    video_cell s k = history_cell s (k + scroll s * CONSOLE_BUFFER_WIDTH).

Record console_ok (s : console) : Prop := {
  ok_x : 0 ≤ cursor_x s < CONSOLE_BUFFER_WIDTH;
  ok_y : 0 ≤ cursor_y s < CONSOLE_BUFFER_HEIGHT;
  ok_scroll : 0 ≤ scroll s ≤ CONSOLE_BUFFER_HEIGHT - CONSOLE_VISIBLE_HEIGHT;
  ok_shows : shows s
}.

(** The cursor is not below the window, so what is printed is on the screen or
    above it. *)
Definition console_ready (s : console) : Prop :=
  console_ok s ∧ cursor_y s < scroll s + CONSOLE_VISIBLE_HEIGHT.

#[global] Arguments console_update_screen : simpl never.
#[global] Arguments console_clear : simpl never.
