(* ===== verification/ConsoleSpec.v ===== *)
(** * Correctness of the console

    No operation on a well-formed console reads or writes outside the history,
    and the screen shows the window of the history at all times. *)

From S2P Require Import Prelude Memory Util Console.

Ltac console_consts := unfold CONSOLE_VISIBLE_HEIGHT, CONSOLE_BUFFER_WIDTH, CONSOLE_BUFFER_HEIGHT in *.

(** Computes the fields of updated consoles. *)
Ltac console_fields := cbn [history video_memory current_console_color cursor_x cursor_y scroll
  set_history set_video set_color set_cursor set_scroll] in *.

Lemma in_history_true i : 0 ≤ i < 200000 → in_history i = true.
Proof. intros. unfold in_history. console_consts. lia. Qed.

Lemma load_history_ok s i : 0 ≤ i < 200000 → load_history i s = Ok (history_cell s i, s).
Proof. intros. unfold load_history. by rewrite in_history_true. Qed.

Lemma store_history_ok s i c : 0 ≤ i < 200000 →
  store_history i c s = Ok (tt, set_history (<[i := c]> (history s)) s).
Proof. intros. unfold store_history. by rewrite in_history_true. Qed.

Lemma in_screen_iff i : in_screen i = true ↔ 0 ≤ i < 2000.
Proof. unfold in_screen. console_consts. lia. Qed.

Lemma store_video_ok s i c : 0 ≤ i < 2000 →
  store_video i c s = Ok (tt, set_video (<[i := c]> (video_memory s)) s).
Proof. intros Hi%in_screen_iff. unfold store_video. by rewrite Hi. Qed.

Lemma store_video_outside s i c : ¬ 0 ≤ i < 2000 → store_video i c s = Undef.
Proof.
  intros Hi. unfold store_video. destruct (in_screen i) eqn:E; [|done]. by apply in_screen_iff in E.
Qed.

Lemma video_cell_insert s i c j :
  video_cell (set_video (<[i := c]> (video_memory s)) s) j = if decide (j = i) then c else video_cell s j.
Proof.
  unfold video_cell. cbn. case_decide as H; [subst; by rewrite lookup_insert_eq|by rewrite lookup_insert_ne].
Qed.

Lemma history_cell_insert s i c j :
  history_cell (set_history (<[i := c]> (history s)) s) j = if decide (j = i) then c else history_cell s j.
Proof.
  unfold history_cell. cbn. case_decide as H; [subst; by rewrite lookup_insert_eq|by rewrite lookup_insert_ne].
Qed.

(** ** [console_update_screen] *)

(** Everything but the video memory is as in [s]. *)
Definition video_only (s s' : console) : Prop :=
  history s' = history s ∧ current_console_color s' = current_console_color s ∧
  cursor_x s' = cursor_x s ∧ cursor_y s' = cursor_y s ∧ scroll s' = scroll s.

Lemma video_only_cell s s' i : video_only s s' → history_cell s' i = history_cell s i.
Proof. intros (H & _). unfold history_cell. by rewrite H. Qed.

(** The first [n] cells of the screen are those of the window. *)
Definition shown (n : Z) (s s' : console) : Prop :=
  video_only s s' ∧ ∀ k, 0 ≤ k < n → video_cell s' k = history_cell s (k + scroll s * 80).

Lemma update_cell s s1 ix iy :
  0 ≤ scroll s ≤ 2475 → 0 ≤ iy < 25 → 0 ≤ ix < 80 → shown (iy * 80 + ix) s s1 →
  ∃ s2, (let! n := gets scroll in
         let! c := load_history (ix + (iy + n) * CONSOLE_BUFFER_WIDTH) in
         store_video (ix + iy * CONSOLE_BUFFER_WIDTH) c) s1 = Ok (tt, s2) ∧ shown (iy * 80 + ix + 1) s s2.
Proof.
  intros Hs Hy Hx [Hv Hk]. mstep. pose proof Hv as (Hh & Hc & Hcx & Hcy & Hsc). rewrite Hsc. console_consts.
  rewrite (bind_ok _ _ _ _ _ (load_history_ok s1 (ix + (iy + scroll s) * 80) ltac:(lia))).
  rewrite store_video_ok by lia.
  eexists. split; [reflexivity|]. split; [by repeat split|]. intros k Hr. rewrite video_cell_insert.
  case_decide as H; [|apply Hk; lia]. subst k. rewrite (video_only_cell s s1) by done. f_equal. lia.
Qed.

Lemma console_update_screen_ok s :
  0 ≤ scroll s ≤ 2475 → ∃ s', console_update_screen s = Ok (tt, s') ∧ video_only s s' ∧ shows s'.
Proof.
  intros Hs. unfold console_update_screen. change (Z.to_nat CONSOLE_VISIBLE_HEIGHT) with 25%nat.
  change (Z.to_nat CONSOLE_BUFFER_WIDTH) with 80%nat.
  destruct (for_loop_inv (λ iy s', shown (iy * 80) s s') (λ iy, for_loop 80 0 (λ ix,
      let! n := gets scroll in
      let! c := load_history (ix + (iy + n) * CONSOLE_BUFFER_WIDTH) in
      store_video (ix + iy * CONSOLE_BUFFER_WIDTH) c)) 25 0 s) as (s' & Hr & Hv & Hk).
  - split; [by repeat split|lia].
  - intros iy s1 Hiy Hs1.
    destruct (for_loop_inv (λ ix s', shown (iy * 80 + ix) s s') (λ ix,
        let! n := gets scroll in
        let! c := load_history (ix + (iy + n) * CONSOLE_BUFFER_WIDTH) in
        store_video (ix + iy * CONSOLE_BUFFER_WIDTH) c) 80 0 s1) as (s2 & Hr2 & Hs2).
    + by rewrite Z.add_0_r.
    + intros ix s2 Hix Hs2. destruct (update_cell s s2 ix iy) as (s3 & Hr3 & Hs3); [lia|lia|lia|done|].
      exists s3. split; [done|]. by rewrite Z.add_assoc.
    + exists s2. split; [exact Hr2|]. clear Hr2. by replace ((iy + 1) * 80) with (iy * 80 + (0 + Z.of_nat 80)) by lia.
  - exists s'. split; [exact Hr|]. clear Hr. split; [exact Hv|]. intros k Hkr. console_consts.
    rewrite (video_only_cell s s') by done. pose proof Hv as (_ & _ & _ & _ & ->). apply Hk. lia.
Qed.

(** ** [console_clear] *)

(** Everything but the history is as in [s], and the columns before [ix], and
    in column [ix] the lines before [iy], are blank. *)
Definition cleared (ix iy : Z) (s s' : console) : Prop :=
  video_memory s' = video_memory s ∧ current_console_color s' = current_console_color s ∧
  cursor_x s' = cursor_x s ∧ cursor_y s' = cursor_y s ∧ scroll s' = scroll s ∧
  ∀ k, 0 ≤ k < 200000 → k mod 80 < ix ∨ (k mod 80 = ix ∧ k / 80 < iy) → history_cell s' k = (0, 0).

Lemma clear_column s s1 ix :
  0 ≤ ix < 80 → cleared ix 0 s s1 →
  ∃ s2, for_loop 2500 0 (λ iy, store_history (ix + iy * CONSOLE_BUFFER_WIDTH) (0, 0)) s1 = Ok (tt, s2) ∧
    cleared (ix + 1) 0 s s2.
Proof.
  intros Hx H0. destruct (for_loop_inv (λ iy s', cleared ix iy s s')
    (λ iy, store_history (ix + iy * CONSOLE_BUFFER_WIDTH) (0, 0)) 2500 0 s1) as (s2 & Hr & H2); [done| |].
  - intros iy s2 Hiy (H1 & H2 & H3 & H4 & H5 & H6). console_consts. rewrite store_history_ok by lia.
    eexists. split; [done|]. do 5 (split; [done|]). intros k Hk Hkr. rewrite history_cell_insert.
    case_decide as Hd; [done|]. apply H6; [done|]. divmod_lia.
  - exists s2. split; [exact Hr|]. clear Hr. destruct H2 as (H1 & H2 & H3 & H4 & H5 & H6).
    do 5 (split; [done|]). intros k Hk Hkr. apply H6; [done|]. divmod_lia.
Qed.

Lemma console_clear_ok s :
  ∃ s', console_clear s = Ok (tt, s') ∧ console_ready s' ∧ cursor_x s' = 0 ∧ cursor_y s' = 0 ∧ scroll s' = 0 ∧
    current_console_color s' = current_console_color s ∧
    (∀ k, 0 ≤ k < 200000 → history_cell s' k = (0, 0)).
Proof.
  unfold console_clear. change (Z.to_nat CONSOLE_BUFFER_WIDTH) with 80%nat.
  change (Z.to_nat CONSOLE_BUFFER_HEIGHT) with 2500%nat.
  destruct (for_loop_inv (λ ix s', cleared ix 0 s s') (λ ix, for_loop 2500 0 (λ iy,
    store_history (ix + iy * CONSOLE_BUFFER_WIDTH) (0, 0))) 80 0 s) as (s1 & Hr & H1).
  - do 5 (split; [done|]). intros k Hk Hr. exfalso.
    pose proof (Z.mod_pos_bound k 80). pose proof (Z.div_pos k 80). lia.
  - intros ix s1 Hx H1. apply clear_column; [lia|done].
  - rewrite (bind_ok _ _ _ _ _ Hr). clear Hr. mstep. destruct H1 as (_ & Hc & _ & _ & _ & Hh).
    destruct (console_update_screen_ok (set_scroll 0 (set_cursor 0 0 s1))) as (s2 & Hr2 & Hv & Hsh); [cbn; lia|].
    pose proof Hv as (H1 & H2 & H3 & H4 & H5). console_fields. exists s2. split; [exact Hr2|]. clear Hr2.
    split; [split; [constructor|]; console_consts; rewrite ?H3, ?H4, ?H5; (done || lia)|].
    do 3 (split; [done|]). split; [congruence|]. intros k Hk.
    rewrite (video_only_cell _ _ k Hv). apply Hh; [done|]. left. apply Z.mod_pos_bound. lia.
Qed.

(** ** [console_new_line] *)

Lemma console_ok_cursor s x y : console_ok s → 0 ≤ x < 80 → 0 ≤ y < 2500 → console_ok (set_cursor x y s).
Proof. intros [] ? ?. by constructor. Qed.

Lemma console_ready_cursor s x y :
  console_ok s → 0 ≤ x < 80 → 0 ≤ y < 2500 → y < scroll s + 25 → console_ready (set_cursor x y s).
Proof. intros Hs Hx Hy Hin. split; [by apply console_ok_cursor|cbn; console_consts; lia]. Qed.

(** A cursor that is not above the window stays so. *)
Definition kept_below (s s' : console) : Prop := scroll s ≤ cursor_y s → scroll s' ≤ cursor_y s'.

(** The scrolling at the end of [console_new_line]: a cursor one line below the
    window is in the window afterwards. *)
Lemma scroll_to_cursor_ok s :
  console_ok s → cursor_y s ≤ scroll s + 25 → ∃ s', (let! y := gets cursor_y in
    let! n := gets scroll in
    if (u32 (n + CONSOLE_VISIBLE_HEIGHT) <=? y) && (n <? CONSOLE_BUFFER_HEIGHT - 1) then
      modify (set_scroll (n + 1)) ;;; console_update_screen
    else ret tt) s = Ok (tt, s') ∧ console_ready s' ∧ history s' = history s ∧
    cursor_x s' = cursor_x s ∧ cursor_y s' = cursor_y s ∧ current_console_color s' = current_console_color s ∧
    kept_below s s'.
Proof.
  intros Hs Hin. pose proof Hs as [Hx Hy Hsc Hsh]. mstep. console_consts. rewrite u32_small by lia.
  destruct ((scroll s + 25 <=? cursor_y s) && (scroll s <? 25 * 100 - 1)) eqn:E.
  - apply andb_prop in E as [E1%Z.leb_le _]. mstep.
    destruct (console_update_screen_ok (set_scroll (scroll s + 1) s)) as (s2 & Hr2 & Hv & Hsh2); [cbn; lia|].
    pose proof Hv as (H1 & H2 & H3 & H4 & H5). console_fields. exists s2. split; [exact Hr2|]. clear Hr2.
    split; [split; [constructor|]; console_consts; rewrite ?H3, ?H4, ?H5; (done || lia)|].
    do 4 (split; [done|]). unfold kept_below. lia.
  - exists s. split; [done|]. split; [split; [done|console_consts; lia]|]. do 4 (split; [done|]). by unfold kept_below.
Qed.

(** Only the column may be out of the buffer. *)
Definition line_ready (s : console) : Prop := console_ready (set_cursor 0 (cursor_y s) s).

Lemma console_ready_line s x : console_ready s → line_ready (set_cursor x (cursor_y s) s).
Proof.
  intros [Hs Hin]. pose proof (ok_y _ Hs). console_consts. by apply (console_ready_cursor s 0 (cursor_y s) Hs).
Qed.

Lemma line_ready_of s : console_ready s → line_ready s.
Proof. exact (console_ready_line s 0). Qed.

Lemma console_new_line_ok s : line_ready s → cursor_y s + 1 < 2500 →
  ∃ s', console_new_line s = Ok (tt, s') ∧ console_ready s' ∧ history s' = history s ∧
    cursor_x s' = 0 ∧ cursor_y s' = cursor_y s + 1 ∧ current_console_color s' = current_console_color s ∧
    kept_below s s'.
Proof.
  intros [Hs Hin] Hlt. pose proof Hs as [Hx Hy Hsc Hsh]. console_fields. console_consts.
  unfold console_new_line. console_consts. mstep.
  rewrite u32_small by lia. cbn [cursor_y set_cursor]. rewrite (proj2 (Z.leb_gt _ _)) by lia.
  assert (console_ok (set_cursor 0 (cursor_y s + 1) s)) as Hs1 by (apply (console_ok_cursor _ 0 (cursor_y s + 1) Hs); lia).
  destruct (scroll_to_cursor_ok _ Hs1) as (s2 & Hr & Hok & H1 & H2 & H3 & H4 & H5); [cbn; lia|]. console_consts.
  exists s2. mstep. unfold kept_below in *. cbn [set_cursor cursor_x cursor_y history video_memory current_console_color scroll] in *.
  split; [exact Hr|]. do 5 (split; [done|]). intros. apply H5. lia.
Qed.

(** On the last line the history is cleared and the cursor goes to the top. *)
Lemma console_new_line_last s : line_ready s → 2500 ≤ cursor_y s + 1 →
  ∃ s', console_new_line s = Ok (tt, s') ∧ console_ready s' ∧ cursor_x s' = 0 ∧ cursor_y s' = 0 ∧ scroll s' = 0 ∧
    current_console_color s' = current_console_color s ∧ ∀ k, 0 ≤ k < 200000 → history_cell s' k = (0, 0).
Proof.
  intros [Hs Hin] Hge. pose proof Hs as [Hx Hy Hsc Hsh]. console_fields. console_consts.
  unfold console_new_line. console_consts. mstep.
  rewrite u32_small by lia. cbn [cursor_y set_cursor]. rewrite (proj2 (Z.leb_le _ _)) by lia.
  destruct (console_clear_ok (set_cursor (cursor_x s) (cursor_y s + 1) s)) as (s1 & Hr & [Hok _] & Hcx & Hcy & Hcs & Hcc & Hh).
  rewrite (bind_ok _ _ _ _ _ Hr). clear Hr. mstep. rewrite Hcy. cbn [set_cursor cursor_y scroll]. rewrite Hcs. cbn.
  eexists. split; [reflexivity|]. split; [apply console_ready_cursor; (done || lia)|]. done.
Qed.

(** ** [console_print_char] *)

(** Writing the cell under the cursor, in the history and on the screen. *)
Definition put_cell (v : cell) : M console unit :=
  let! x := gets cursor_x in
  let! y := gets cursor_y in
  let! n := gets scroll in
  store_history (u32 (x + y * CONSOLE_BUFFER_WIDTH)) v ;;;
  if (u32 n <=? y) && (y <? u32 (n + CONSOLE_BUFFER_HEIGHT)) then
    store_video (u32 (x + u32 (y - n) * CONSOLE_BUFFER_WIDTH)) v
  else ret tt.

Lemma put_cell_eq s v : console_ok s →
  put_cell v s = (if scroll s <=? cursor_y s then store_video (cursor_x s + (cursor_y s - scroll s) * 80) v else ret tt)
    (set_history (<[cursor_x s + cursor_y s * 80 := v]> (history s)) s).
Proof.
  intros [Hx Hy Hsc Hsh]. unfold put_cell. mstep. console_consts. rewrite !u32_small by lia.
  rewrite (bind_ok _ _ _ _ _ (store_history_ok s (cursor_x s + cursor_y s * 80) v ltac:(lia))).
  rewrite (proj2 (Z.ltb_lt _ _)), andb_true_r by lia. destruct (Z.leb_spec (scroll s) (cursor_y s)); [|done].
  by rewrite (u32_small (cursor_y s - scroll s)), u32_small by lia.
Qed.

Lemma put_cell_ok s v : console_ready s →
  ∃ s', put_cell v s = Ok (tt, s') ∧ console_ready s' ∧
    (∀ k, history_cell s' k = if decide (k = cursor_x s + cursor_y s * 80) then v else history_cell s k) ∧
    cursor_x s' = cursor_x s ∧ cursor_y s' = cursor_y s ∧ scroll s' = scroll s ∧
    current_console_color s' = current_console_color s.
Proof.
  intros [Hs Hin]. rewrite (put_cell_eq s v Hs). destruct Hs as [Hx Hy Hsc Hsh]. console_consts.
  destruct (Z.leb_spec (scroll s) (cursor_y s)).
  - rewrite store_video_ok by lia. eexists. split; [reflexivity|].
    split; [split; [constructor|]; cbn; console_consts; try (done || lia)|].
    + intros k Hk. specialize (Hsh k Hk). unfold history_cell, video_cell in *. console_consts. console_fields.
      destruct (decide (k = cursor_x s + (cursor_y s - scroll s) * 80)) as [->|Hne].
      * replace (cursor_x s + (cursor_y s - scroll s) * 80 + scroll s * 80) with (cursor_x s + cursor_y s * 80) by lia.
        by rewrite !lookup_insert_eq.
      * rewrite !lookup_insert_ne by lia. exact Hsh.
    + split; [|done]. intros k. apply history_cell_insert.
  - eexists. split; [reflexivity|]. split; [split; [constructor|]; cbn; console_consts; try (done || lia)|].
    + intros k Hk. console_consts. rewrite history_cell_insert. console_fields. rewrite decide_False by lia.
      apply (Hsh k). console_consts. lia.
    + split; [|done]. intros k. apply history_cell_insert.
Qed.

(** A character that is no newline: the cell, then the cursor moves. *)
Lemma print_char_put s c : c ≠ 10 →
  console_print_char c s = (put_cell (u8 c, current_console_color s) ;;;
    modify (λ s, set_cursor (u32 (cursor_x s + 1)) (cursor_y s) s) ;;;
    let! x := gets cursor_x in
    if CONSOLE_BUFFER_WIDTH <=? x then console_new_line else ret tt) s.
Proof.
  intros Hc. unfold console_print_char, put_cell. rewrite (proj2 (Z.eqb_neq c 10) Hc).
  repeat first [progress mstep | rewrite bind_assoc]. done.
Qed.

(** A printable character: the cell under the cursor, then the cursor moves. *)
Lemma print_char_step s c : console_ready s → c ≠ 10 →
  ∃ s1, console_ready s1 ∧
    (∀ k, history_cell s1 k = if decide (k = cursor_x s + cursor_y s * 80) then (u8 c, current_console_color s) else history_cell s k) ∧
    cursor_y s1 = cursor_y s ∧ current_console_color s1 = current_console_color s ∧ scroll s1 = scroll s ∧
    if decide (cursor_x s = 79)
    then console_print_char c s = console_new_line (set_cursor 80 (cursor_y s) s1)
    else cursor_x s1 = cursor_x s + 1 ∧ console_print_char c s = Ok (tt, s1).
Proof.
  intros Hs Hc. destruct (put_cell_ok s (u8 c, current_console_color s) Hs) as (s1 & Hr & [Hok Hin] & Hh & Hx1 & Hy1 & Hs1 & Hc1).
  pose proof Hs as [[Hx Hy Hsc Hsh] _]. console_consts.
  rewrite (print_char_put s c Hc), (bind_ok _ _ _ _ _ Hr). mstep. console_consts.
  rewrite Hx1, Hy1, u32_small by lia. destruct (decide (cursor_x s = 79)) as [He|Hne].
  - exists s1. split; [done|]. do 4 (split; [done|]). by rewrite He.
  - exists (set_cursor (cursor_x s + 1) (cursor_y s) s1). split; [apply console_ready_cursor; (done || lia)|].
    do 5 (split; [done|]). console_fields. by rewrite (proj2 (Z.leb_gt _ _)) by lia.
Qed.

Lemma console_new_line_any s : line_ready s →
  ∃ s', console_new_line s = Ok (tt, s') ∧ console_ready s' ∧ kept_below s s'.
Proof.
  intros Hs. destruct (decide (cursor_y s + 1 < 2500)).
  - destruct (console_new_line_ok s Hs) as (s' & Hr & Hok & _ & _ & _ & _ & Hk); [done|]. by exists s'.
  - destruct (console_new_line_last s Hs) as (s' & Hr & Hok & _ & Hy & Hsc & _); [lia|].
    exists s'. split; [done|]. split; [done|]. unfold kept_below. lia.
Qed.

Lemma console_print_char_ok s c : console_ready s →
  ∃ s', console_print_char c s = Ok (tt, s') ∧ console_ready s' ∧ kept_below s s'.
Proof.
  intros Hs. destruct (decide (c = 10)) as [->|Hc]; [by apply console_new_line_any, line_ready_of|].
  destruct (print_char_step s c Hs Hc) as (s1 & Hok & _ & Hy & _ & Hsc & Hp).
  destruct (decide (cursor_x s = 79)).
  - rewrite Hp, <- Hy. destruct (console_new_line_any _ (console_ready_line s1 80 Hok)) as (s' & Hr & Hok' & Hk).
    exists s'. split; [done|]. split; [done|]. unfold kept_below in *. cbn in Hk. lia.
  - destruct Hp as [_ Hp]. exists s1. split; [done|]. split; [done|]. unfold kept_below. lia.
Qed.

Lemma console_print_window str : ∀ s, console_ready s →
  ∃ s', console_print str s = Ok (tt, s') ∧ console_ready s' ∧ kept_below s s'.
Proof.
  induction str as [|c str IH]; intros s Hs; cbn [console_print]; [exists s; split; [done|]; split; [done|]; by unfold kept_below|].
  destruct (console_print_char_ok s c Hs) as (s1 & Hr & Hok & Hk). rewrite (bind_ok _ _ _ _ _ Hr).
  destruct (IH s1 Hok) as (s2 & Hr2 & Hok2 & Hk2). exists s2. split; [exact Hr2|]. split; [exact Hok2|].
  unfold kept_below in *. auto.
Qed.

Lemma console_print_ok str s : console_ready s → ∃ s', console_print str s = Ok (tt, s') ∧ console_ready s'.
Proof. intros Hs. destruct (console_print_window str s Hs) as (s' & Hr & Hok & _). by exists s'. Qed.

(** ** [console_scroll] *)

Lemma console_scroll_run s amount :
  console_ok s → - 2 ^ 30 ≤ amount → scroll s + amount ≤ 2475 →
  ∃ s', console_scroll amount s = Ok (tt, s') ∧ console_ok s' ∧ scroll s' = Z.max 0 (scroll s + amount) ∧
    history s' = history s ∧ cursor_x s' = cursor_x s ∧ cursor_y s' = cursor_y s.
Proof.
  intros Hs Hlo Hhi. pose proof Hs as [Hx Hy Hsc Hsh]. console_consts. unfold console_scroll. console_consts. mstep.
  rewrite s32_small by lia. console_fields.
  assert ((if scroll s + amount <? 0 then modify (set_scroll 0)
    else if 25 * 100 <=? scroll s + amount then modify (set_scroll (25 * 100 - 1)) else ret tt)
    (set_scroll (scroll s + amount) s) = Ok (tt, set_scroll (Z.max 0 (scroll s + amount)) s)) as Hcl.
  { destruct (Z.ltb_spec (scroll s + amount) 0); [by rewrite Z.max_l by lia|].
    rewrite (proj2 (Z.leb_gt _ _)), Z.max_r by lia. done. }
  rewrite (bind_ok _ _ _ _ _ Hcl).
  destruct (console_update_screen_ok (set_scroll (Z.max 0 (scroll s + amount)) s)) as (s2 & Hr2 & Hv & Hsh2); [cbn; lia|].
  pose proof Hv as (H1 & H2 & H3 & H4 & H5). console_fields. exists s2. split; [exact Hr2|]. clear Hr2.
  split; [constructor; console_consts; rewrite ?H3, ?H4, ?H5; (done || lia)|]. done.
Qed.

(** ** Properties *)

(** A blank console, cursor at the top left, grey on black. *)
Definition blank : console := Console ∅ ∅ 0x0f 0 0 0.

Lemma blank_ok : console_ok blank.
Proof. constructor; console_consts; cbn; try lia. intros k _. done. Qed.

Lemma blank_ready : console_ready blank.
Proof. split; [exact blank_ok|reflexivity]. Qed.

(** C33. Printing any text on a well-formed console whose cursor is not below the window terminates
    and touches no memory outside the history and the 80 by 25 cells of the screen; afterwards the cursor
    is inside the buffer and not below the window again, nor above it if it was not, and the screen shows the
    window of the history at [scroll]. Only [console_scroll] takes the cursor out of the window. *)
Theorem console_print_keeps_screen str s :
  console_ready s →
  ∃ s', console_print str s = Ok (tt, s') ∧ console_ready s' ∧ (scroll s ≤ cursor_y s → scroll s' ≤ cursor_y s').
Proof. apply console_print_window. Qed.

Lemma console_print_keeps_screen_witness : ∃ s', console_print [72; 105; 10; 33] blank = Ok (tt, s') ∧ console_ready s'.
Proof.
  destruct (console_print_keeps_screen [72; 105; 10; 33] blank blank_ready) as (s' & Hr & Hok & _). by exists s'.
Defined.

(** C28. On a well-formed console, printing a character other than a newline leaves the history and the
    screen for other memory exactly when the cursor is below the window: the guard of
    [console_print_char] compares with the height of the history, not with that of the screen. So the
    condition of [console_print_keeps_screen] is exact. *)
Theorem console_print_char_escapes s c :
  console_ok s → c ≠ 10 → (console_print_char c s = Undef ↔ scroll s + CONSOLE_VISIBLE_HEIGHT ≤ cursor_y s).
Proof.
  intros Hs Hc. split.
  - intros Hu. apply Z.le_ngt. intros Hlt.
    destruct (console_print_char_ok s c (conj Hs Hlt)) as (s' & Hp & _). congruence.
  - intros Hy. pose proof Hs as [Hx _ Hsc _]. console_consts. rewrite (print_char_put s c Hc). unfold bind at 1.
    rewrite (put_cell_eq s _ Hs), (proj2 (Z.leb_le _ _)), store_video_outside by lia. done.
Qed.

Lemma console_print_char_escapes_witness :
  console_print_char 65 (set_scroll 3 (set_cursor 0 30 blank)) = Undef.
Proof.
  apply (console_print_char_escapes (set_scroll 3 (set_cursor 0 30 blank)) 65); [|lia|cbn; console_consts; lia].
  constructor; cbn; console_consts; try lia. intros k _. done.
Defined.

(** A printed character other than a newline lands in the cell under the cursor with the
    current colour, and no other cell of the history changes, unless it fills the last cell of the
    buffer; the cursor moves right, or to the start of the next line from the last column. *)
Theorem console_print_char_spec s c :
  console_ready s → c ≠ 10 → cursor_x s < 79 ∨ cursor_y s < 2499 →
  ∃ s', console_print_char c s = Ok (tt, s') ∧ console_ready s' ∧
    (∀ k, history_cell s' k =
       if decide (k = cursor_x s + cursor_y s * 80) then (u8 c, current_console_color s) else history_cell s k) ∧
    (cursor_x s', cursor_y s') = (if decide (cursor_x s = 79) then (0, cursor_y s + 1) else (cursor_x s + 1, cursor_y s)).
Proof.
  intros Hs Hc Hlast. destruct (print_char_step s c Hs Hc) as (s1 & Hok & Hh & Hy & _ & _ & Hp).
  destruct (decide (cursor_x s = 79)) as [He|Hne].
  - destruct (console_new_line_ok _ (console_ready_line s1 80 Hok)) as (s2 & Hr & Hok2 & Hh2 & Hx2 & Hy2 & _);
      [pose proof (ok_x s (proj1 Hs)); cbn; lia|]. console_fields.
    exists s2. rewrite Hp, <- Hy. split; [done|]. split; [done|]. split; [|by rewrite Hx2, Hy2].
    intros k. rewrite Hy, <- (Hh k). unfold history_cell. by rewrite Hh2.
  - destruct Hp as [Hx Hp]. exists s1. split; [done|]. split; [done|]. split; [done|]. by rewrite Hx, Hy.
Qed.

Lemma console_print_char_spec_witness :
  ∃ s', console_print_char 65 blank = Ok (tt, s') ∧ history_cell s' 0 = (65, 0x0f) ∧ cursor_x s' = 1.
Proof.
  destruct (console_print_char_spec blank 65 blank_ready) as (s' & Hr & _ & Hh & Hxy); [done|left; cbn; lia|].
  exists s'. split; [exact Hr|]. split; [rewrite (Hh 0); reflexivity|]. by injection Hxy.
Defined.

(** [console_scroll] moves the window by the amount, stopping at the first line, as long as
    the window stays inside the history: then the screen shows the new window and nothing else
    changes. *)
Theorem console_scroll_spec s amount :
  console_ok s → - 2 ^ 30 ≤ amount → scroll s + amount ≤ 2475 →
  ∃ s', console_scroll amount s = Ok (tt, s') ∧ console_ok s' ∧ scroll s' = Z.max 0 (scroll s + amount) ∧
    history s' = history s ∧ cursor_x s' = cursor_x s ∧ cursor_y s' = cursor_y s.
Proof. apply console_scroll_run. Qed.

Lemma console_scroll_spec_witness : ∃ s', console_scroll 3 blank = Ok (tt, s') ∧ scroll s' = 3.
Proof.
  destruct (console_scroll_spec blank 3 blank_ok) as (s' & Hr & _ & Hs & _); [lia|cbn; lia|].
  exists s'. split; [exact Hr|exact Hs].
Defined.

(** [console_clear] blanks the whole history and the screen and puts the cursor and the window
    at the top, whatever the console was like. *)
Theorem console_clear_spec s :
  ∃ s', console_clear s = Ok (tt, s') ∧ console_ready s' ∧ (cursor_x s', cursor_y s', scroll s') = (0, 0, 0) ∧
    (∀ k, 0 ≤ k < 200000 → history_cell s' k = (0, 0)) ∧ (∀ k, 0 ≤ k < 2000 → video_cell s' k = (0, 0)).
Proof.
  destruct (console_clear_ok s) as (s' & Hr & Hok & Hx & Hy & Hs & _ & Hh). exists s'.
  split; [exact Hr|]. clear Hr. split; [done|]. split; [by rewrite Hx, Hy, Hs|]. split; [done|].
  intros k Hk. rewrite (ok_shows _ (proj1 Hok) k) by (console_consts; lia). rewrite Hs. apply Hh. lia.
Qed.

(** [console_set_cursor] undoes [console_get_cursor]: the pair the drivers use to print in a
    corner of the screen leaves the console as it was. *)
Theorem console_set_get_cursor s :
  0 ≤ cursor_y s < 2 ^ 32 →
  (let! '(x, y) := console_get_cursor in console_set_cursor x y) s = Ok (tt, s).
Proof.
  intros Hy. unfold console_get_cursor, console_set_cursor. mstep. unfold modify. do 2 f_equal.
  unfold set_cursor. destruct s as [h v c x y n]. cbn in *. f_equal. unfold u32.
  rewrite Zplus_mod_idemp_l. replace (y - n + n) with y by lia. by apply Z.mod_small.
Qed.

Lemma console_set_get_cursor_witness :
  (let! '(x, y) := console_get_cursor in console_set_cursor x y) (set_scroll 7 (set_cursor 3 2 blank)) =
  Ok (tt, set_scroll 7 (set_cursor 3 2 blank)).
Proof. apply (console_set_get_cursor (set_scroll 7 (set_cursor 3 2 blank))). cbn. lia. Defined.

(** ** Observations *)

(** [console_scroll] lets the window start below line 2475: the update then
    reads past the end of the history. *)
Example console_scroll_past_history : console_scroll 1 (set_scroll 2475 blank) = Undef.
Proof. vm_compute. reflexivity. Qed.

(** Scrolling up twice from the end of a full screen takes the cursor out of
    the window: the next character is written past the screen. *)
Example print_char_below_screen :
  match (console_print (repeat 10 40) ;;; console_scroll (-2) ;;; console_print_char 65) blank with
  | Undef => true
  | _ => false
  end = true.
Proof. vm_compute. reflexivity. Qed.
