(* ===== verification/Scancodes.v ===== *)
(** * Scan code tables

    The tables of [src/src/include/kokos/keyboard.h] that the keyboard driver
    reads, one entry per scan code of set 2, in two halves of 128 entries. A
    null pointer is [None]. *)

From S2P Require Import Prelude.

(** Scan codes 0x00 to 0x7F without shift. *)
Definition scancodes_normal_low : list (option string) := [
  None; Some "F9"; None; Some "F5"; Some "F3"; Some "F1"; Some "F2"; Some "F12";
  None; Some "F10"; Some "F8"; Some "F6"; Some "F4"; Some "Tab"; Some "`"; None;
  None; Some "LeftAlt"; Some "LeftShift"; None; Some "LeftControl"; Some "q"; Some "1"; None;
  None; None; Some "z"; Some "s"; Some "a"; Some "w"; Some "2"; None;
  None; Some "c"; Some "x"; Some "d"; Some "e"; Some "4"; Some "3"; None;
  None; Some " "; Some "v"; Some "f"; Some "t"; Some "r"; Some "5"; None;
  None; Some "n"; Some "b"; Some "h"; Some "g"; Some "y"; Some "6"; None;
  None; None; Some "m"; Some "j"; Some "u"; Some "7"; Some "8"; None;
  None; Some ","; Some "k"; Some "i"; Some "o"; Some "0"; Some "9"; None;
  None; Some "."; Some "/"; Some "l"; Some ";"; Some "p"; Some "-"; None;
  None; None; Some "'"; None; Some "["; Some "="; None; None;
  Some "CapsLock"; Some "RightShift"; Some "Enter"; Some "]"; None; Some "\"; None; None;
  None; None; None; None; None; None; Some "Backspace"; None;
  None; None; None; None; None; None; None; None;
  None; None; None; None; None; None; Some "Escape"; None;
  Some "F11"; None; None; None; None; None; Some "ScrollLock"; None].

(** Scan codes 0x80 to 0xFF without shift. *)
Definition scancodes_normal_high : list (option string) := [
  None; None; None; Some "F7"; None; None; None; None;
  None; None; None; None; None; None; None; None;
  None; None; None; None; None; None; None; None;
  None; None; None; None; None; None; None; None;
  None; None; None; None; None; None; None; None;
  None; None; None; None; None; None; None; None;
  None; None; None; None; None; None; None; None;
  None; None; None; None; None; None; None; None;
  None; None; None; None; None; None; None; None;
  None; None; None; None; None; None; None; None;
  None; None; None; None; None; None; None; None;
  None; None; None; None; None; None; None; None;
  None; None; None; None; None; None; None; None;
  None; None; None; None; None; None; None; None;
  None; None; None; None; None; None; None; None;
  None; None; None; None; None; None; None; None].

Definition scancodes_normal : list (option string) := scancodes_normal_low ++ scancodes_normal_high.

(** Scan codes 0x00 to 0x7F with shift. *)
Definition scancodes_shift_low : list (option string) := [
  None; Some "Shift+F9"; None; Some "Shift+F5"; Some "Shift+F3"; Some "Shift+F1"; Some "Shift+F2"; Some "Shift+F12";
  None; Some "Shift+F10"; Some "Shift+F8"; Some "Shift+F6"; Some "Shift+F4"; Some "Shift+Tab"; Some "~"; None;
  None; Some "Shift+LeftAlt"; Some "Shift+LeftShift"; None; Some "Shift+LeftControl"; Some "Q"; Some "1"; None;
  None; None; Some "Z"; Some "S"; Some "A"; Some "W"; Some "@"; None;
  None; Some "C"; Some "X"; Some "D"; Some "E"; Some "$"; Some "#"; None;
  None; Some "Shift+Space"; Some "V"; Some "F"; Some "T"; Some "R"; Some "%"; None;
  None; Some "N"; Some "B"; Some "H"; Some "G"; Some "Y"; Some "^"; None;
  None; None; Some "M"; Some "J"; Some "U"; Some "&"; Some "*"; None;
  None; Some "<"; Some "K"; Some "I"; Some "O"; Some ")"; Some "("; None;
  None; Some ">"; Some "?"; Some "L"; Some ":"; Some "P"; Some "_"; None;
  None; None; Some (String (ascii_of_nat 34) EmptyString); None; Some "{"; Some "+"; None; None;
  Some "Shift+CapsLock"; Some "Shift+RightShift"; Some "Shift+Enter"; Some "}"; None; Some "|"; None; None;
  None; None; None; None; None; None; Some "Shift+Backspace"; None;
  None; None; None; None; None; None; None; None;
  None; None; None; None; None; None; Some "Shift+Escape"; None;
  Some "Shift+F11"; None; None; None; None; None; Some "Shift+ScrollLock"; None].

(** Scan codes 0x80 to 0xFF with shift. *)
Definition scancodes_shift_high : list (option string) := [
  None; None; None; Some "Shift+F7"; None; None; None; None;
  None; None; None; None; None; None; None; None;
  None; None; None; None; None; None; None; None;
  None; None; None; None; None; None; None; None;
  None; None; None; None; None; None; None; None;
  None; None; None; None; None; None; None; None;
  None; None; None; None; None; None; None; None;
  None; None; None; None; None; None; None; None;
  None; None; None; None; None; None; None; None;
  None; None; None; None; None; None; None; None;
  None; None; None; None; None; None; None; None;
  None; None; None; None; None; None; None; None;
  None; None; None; None; None; None; None; None;
  None; None; None; None; None; None; None; None;
  None; None; None; None; None; None; None; None;
  None; None; None; None; None; None; None; None].

Definition scancodes_shift : list (option string) := scancodes_shift_low ++ scancodes_shift_high.

(** ** Tables the driver does not read *)

(** Scan codes 0x00 to 0x7F behind a prefix byte. *)
Definition scancodes_extended_normal_low : list (option string) := [
  None; None; None; None; None; None; None; None; None; None; None; None; None; None; None;
  None; None; Some "RightAlt"; None; None; Some "RightControl"; None; None; None; None; None;
  None; None; None; None; None; Some "LeftWindows"; None; None; None; None; None; None; None;
  None; None; None; None; None; None; None; None; None; None; None; None; None; None; None;
  None; None; None; None; None; None; None; None; None; None; None; None; None; None; None;
  None; None; None; None; None; None; None; None; None; None; None; None; None; None; None;
  None; None; None; None; None; None; None; None; None; None; None; None; None; None; None;
  None; None; None; None; None; None; Some "End"; None; Some "LeftArrow"; Some "Home"; None;
  None; None; Some "Insert"; Some "Delete"; Some "DownArrow"; None; Some "RightArrow";
  Some "UpArrow"; None; None; None; None; Some "PageDown"; None; None; Some "PageUp"; None;
  None].

(** Scan codes 0x80 to 0xFF behind a prefix byte. *)
Definition scancodes_extended_normal_high : list (option string) := [
  None; None; None; None; None; None; None; None; None; None; None; None; None; None; None;
  None; None; None; None; None; None; None; None; None; None; None; None; None; None; None;
  None; None; None; None; None; None; None; None; None; None; None; None; None; None; None;
  None; None; None; None; None; None; None; None; None; None; None; None; None; None; None;
  None; None; None; None; None; None; None; None; None; None; None; None; None; None; None;
  None; None; None; None; None; None; None; None; None; None; None; None; None; None; None;
  None; None; None; None; None; None; None; None; None; None; None; None; None; None; None;
  None; None; None; None; None; None; None; None; None; None; None; None; None; None; None;
  None; None; None; None; None; None; None; None].

Definition scancodes_extended_normal : list (option string) :=
  scancodes_extended_normal_low ++ scancodes_extended_normal_high.

(** The names of the keys. *)
Definition keynames2 : list string := [
  "null"; "Escape"; "F1"; "F2"; "F3"; "F4"; "F5"; "F6"; "F7"; "F8"; "F9"; "F10"; "F11"; "F12";
  "PrintScreen"; "ScrollLock"; "Pause"; "~"; "1"; "2"; "3"; "4"; "5"; "6"; "7"; "8"; "9"; "0";
  "-"; "="; "Backspace"; "Insert"; "Home"; "PageUp"; "Tab"; "q"; "w"; "e"; "r"; "t"; "y"; "u";
  "i"; "o"; "p"; "["; "]"; "Delete"; "End"; "PageDown"; "CapsLock"; "a"; "s"; "d"; "f"; "g";
  "h"; "j"; "k"; "l"; ";"; "'"; "Enter"; "LeftShift"; "z"; "x"; "c"; "v"; "b"; "n"; "m"; ",";
  "."; "/"; "\"; "RightShift"; "LeftControl"; "LeftWindows"; "LeftAlt"; "Space"; "RightAlt";
  "ContextMenu"; "RightControl"; "UpArrow"; "DownArrow"; "LeftArrow"; "RightArrow"].
