(* ===== verification/Keyboard.v ===== *)
(** * The keyboard driver

    Models the interrupt handler of [src/src/common/keyboard.c] and the
    register access functions it uses. The devices behind the ports are a
    parameter: [PortDevices]. Waiting loops take fuel, and hang when the device
    never gets ready. *)

From S2P Require Import Prelude Memory Util Console Scancodes Port.

Definition KEYBOARD_DATA_REGISTER : Z := 0x60.
Definition KEYBOARD_COMMAND_REGISTER : Z := 0x64.
Definition KEYBOARD_STATUS_REGISTER : Z := 0x64.
Definition KEYBOARD_OUTPUT_BUFFER_FULL : Z := 1.
Definition KEYBOARD_INPUT_BUFFER_FULL : Z := 2.

(** The static variables of the file, the console, the devices, and the number
    of writes to the end-of-interrupt register of the local APIC. *)
Record keyboard (P : Type) := Keyboard {
  kb_console : console;
  releasing : Z;
  shift : Z;
  caps_lock : Z;
  extended : Z;
  kb_devices : P;
  end_of_interrupt : Z
}.
Arguments Keyboard {P}.
Arguments kb_console {P}.
Arguments releasing {P}.
Arguments shift {P}.
Arguments caps_lock {P}.
Arguments extended {P}.
Arguments kb_devices {P}.
Arguments end_of_interrupt {P}.

(** The characters of a string literal. *)
Fixpoint chars (s : string) : list Z :=
  match s with
  | EmptyString => []
  | String c s => Z.of_nat (nat_of_ascii c) :: chars s
  end.

Section Driver.
Context {P : Type} {PD : PortDevices P}.

Definition set_console c (s : keyboard P) := Keyboard c (releasing s) (shift s) (caps_lock s) (extended s)
  (kb_devices s) (end_of_interrupt s).
Definition set_releasing b (s : keyboard P) := Keyboard (kb_console s) b (shift s) (caps_lock s) (extended s)
  (kb_devices s) (end_of_interrupt s).
Definition set_shift b (s : keyboard P) := Keyboard (kb_console s) (releasing s) b (caps_lock s) (extended s)
  (kb_devices s) (end_of_interrupt s).
Definition set_caps_lock b (s : keyboard P) := Keyboard (kb_console s) (releasing s) (shift s) b (extended s)
  (kb_devices s) (end_of_interrupt s).
Definition set_extended b (s : keyboard P) := Keyboard (kb_console s) (releasing s) (shift s) (caps_lock s) b
  (kb_devices s) (end_of_interrupt s).
Definition set_devices (d : P) (s : keyboard P) := Keyboard (kb_console s) (releasing s) (shift s) (caps_lock s)
  (extended s) d (end_of_interrupt s).
Definition signal_eoi (s : keyboard P) := Keyboard (kb_console s) (releasing s) (shift s) (caps_lock s)
  (extended s) (kb_devices s) (end_of_interrupt s + 1).

(** A console function called from the driver. *)
Definition on_console {A} (m : M console A) : M (keyboard P) A := λ s,
  match m (kb_console s) with
  | Ok (a, c) => Ok (a, set_console c s)
  | Undef => Undef
  | Hang => Hang
  end.

Definition in8 (port : Z) : M (keyboard P) Z := λ s,
  let '(v, d) := port_in8 port (kb_devices s) in Ok (u8 v, set_devices d s).
Definition out8 (port value : Z) : M (keyboard P) unit :=
  modify (λ s, set_devices (port_out8 port (u8 value) (kb_devices s)) s).
Definition wait_microsecond : M (keyboard P) unit :=
  modify (λ s, set_devices (cpu_wait_microsecond (kb_devices s)) s).

Definition keyboard_read_status : M (keyboard P) Z :=
  wait_microsecond ;;;
  in8 KEYBOARD_STATUS_REGISTER.

(** [while ((port_in8(STATUS) & mask) is not ready) pause;] *)
Fixpoint poll_status (fuel : nat) (ready : Z → bool) : M (keyboard P) unit :=
  match fuel with
  | O => hang
  | S fuel' =>
      let! status := in8 KEYBOARD_STATUS_REGISTER in
      if ready status then ret tt else poll_status fuel' ready
  end.

Definition output_full (status : Z) : bool := truthy (Z.land status KEYBOARD_OUTPUT_BUFFER_FULL).
Definition input_empty (status : Z) : bool := negb (truthy (Z.land status KEYBOARD_INPUT_BUFFER_FULL)).

Definition keyboard_read_data (fuel : nat) : M (keyboard P) Z :=
  wait_microsecond ;;;
  poll_status fuel output_full ;;;
  in8 KEYBOARD_DATA_REGISTER.

Definition keyboard_write_command (fuel : nat) (command : Z) : M (keyboard P) unit :=
  wait_microsecond ;;;
  poll_status fuel input_empty ;;;
  out8 KEYBOARD_COMMAND_REGISTER command.

Definition keyboard_write_data (fuel : nat) (data : Z) : M (keyboard P) unit :=
  wait_microsecond ;;;
  poll_status fuel input_empty ;;;
  out8 KEYBOARD_DATA_REGISTER data.

(** The code of the key in the top right corner. *)
Definition show_key (input : Z) : M console unit :=
  let! '(x, y) := console_get_cursor in
  console_set_cursor 70 0 ;;;
  console_print (chars "key=0x") ;;;
  console_print_u32 input 16 ;;;
  console_set_cursor x y.

Definition show_caps_lock (on : bool) : M console unit :=
  let! '(x, y) := console_get_cursor in
  console_set_cursor 70 1 ;;;
  console_print (chars (if on then "CAPSLOCK" else "        ")) ;;;
  console_set_cursor x y.

Definition toggle_caps_lock (fuel : nat) : M (keyboard P) unit :=
  modify (λ s, set_caps_lock (if truthy (caps_lock s) then 0 else 1) s) ;;;
  keyboard_write_data fuel 0xED ;;;
  let! _ := keyboard_read_data fuel in
  let! on := gets (λ s, truthy (caps_lock s)) in
  keyboard_write_data fuel (if on then 4 else 0) ;;;
  let! _ := keyboard_read_data fuel in
  let! on := gets (λ s, truthy (caps_lock s)) in
  on_console (show_caps_lock on).

Definition press_enter (shifted : bool) : M console unit :=
  console_print_char 32 ;;;
  if shifted then console_clear ;;; console_set_cursor 0 0 else console_new_line.

Definition press_backspace : M console unit :=
  let! '(x, y) := console_get_cursor in
  if 0 <? x then
    console_print_char 32 ;;;
    console_set_cursor (u32 (x - 1)) y ;;;
    console_print_char 32 ;;;
    console_set_cursor (u32 (x - 1)) y
  else if 0 <? y then
    console_print_char 32 ;;;
    console_set_cursor 79 (u32 (y - 1))
  else ret tt.

(** A key that is not a modifier or an arrow. [scancodes[input]] is read inside
    the table, which has an entry for every byte. *)
Definition press_key (input : Z) : M (keyboard P) unit :=
  let! s := get in
  let scancodes := if truthy (shift s) || truthy (caps_lock s) then scancodes_shift else scancodes_normal in
  match scancodes !! Z.to_nat input with
  | None => undef
  | Some None => ret tt
  | Some (Some text) =>
      if input =? 0x5a then on_console (press_enter (truthy (shift s)))
      else if input =? 0x66 then on_console press_backspace
      else on_console (console_print (chars text))
  end.

Definition is_shift (input : Z) : bool := (input =? 0x12) || (input =? 0x59).

Definition key_pressed (fuel : nat) (input : Z) : M (keyboard P) unit :=
  on_console (show_key input) ;;;
  let! ext := gets (λ s, truthy (extended s)) in
  if is_shift input then modify (set_shift 1)
  else if ext && (input =? 0x75) then on_console (console_scroll (-1))
  else if ext && (input =? 0x72) then on_console (console_scroll 1)
  else if input =? 0x58 then toggle_caps_lock fuel
  else press_key input.

Definition interrupt_handle_keyboard (fuel : nat) : M (keyboard P) unit :=
  let! input := in8 KEYBOARD_DATA_REGISTER in
  (if input =? 0xF0 then modify (set_releasing 1)
   else if (input =? 0xE0) || (input =? 0xE1) || (input =? 0xE2) then modify (set_extended 1)
   else
     let! rel := gets (λ s, truthy (releasing s)) in
     (if rel : bool then
        (if is_shift input then modify (set_shift 0) else ret tt) ;;;
        modify (set_releasing 0)
      else key_pressed fuel input) ;;;
     modify (set_extended 0)) ;;;
  modify signal_eoi.

End Driver.
