(* ===== verification/KeyboardController.v ===== *)
(** * The PS/2 controller

    The laws of the device behind the ports of [keyboard.c], and what the
    register access functions of the driver do with a device that follows
    them. *)

From S2P Require Import Prelude Memory Util Console Port Keyboard.

(** ** The controller

    [sent] are the bytes written, newest first, with their ports; [replies]
    the bytes waiting to be read; [busy] is the number of status readings
    before the controller is ready again. [answer] is what it replies to a
    byte. *)
Class KeyboardController (P : Type) {PD : PortDevices P} : Type := {
  sent : P → list (Z * Z);
  replies : P → list Z;
  busy : P → nat;
  patience : nat;
  answer : Z → Z → list Z;
  idle_law : ∀ p, let p' := cpu_wait_microsecond p in sent p' = sent p ∧ replies p' = replies p ∧ busy p' = busy p;
  write_law : ∀ port v p, port ∈ [KEYBOARD_DATA_REGISTER; KEYBOARD_COMMAND_REGISTER] → busy p = O →
    let p' := port_out8 port v p in
    sent p' = (port, v) :: sent p ∧ replies p' = replies p ++ answer port v ∧ (busy p' ≤ patience)%nat;
  status_law : ∀ p, ∃ v p', port_in8 KEYBOARD_STATUS_REGISTER p = (v, p') ∧ 0 ≤ v < 2 ^ 8 ∧
    sent p' = sent p ∧ replies p' = replies p ∧ busy p' = pred (busy p) ∧
    (input_empty v = true ↔ busy p = O) ∧ (output_full v = true ↔ busy p = O ∧ replies p ≠ []);
  data_law : ∀ p r l, replies p = r :: l → ∃ p', port_in8 KEYBOARD_DATA_REGISTER p = (r, p') ∧ 0 ≤ r < 2 ^ 8 ∧
    sent p' = sent p ∧ replies p' = l ∧ busy p' = busy p
}.

Section Controller.
Context {P : Type} {PD : PortDevices P} {KC : KeyboardController P}.
Implicit Types (s : keyboard P) (p : P).

(** The controller after some steps, with a console that satisfies [ok]. *)
Record controller (ok : console → Prop) s (log : list (Z * Z)) (queue : list Z) : Prop := Controller {
  ctl_console : ok (kb_console s);
  ctl_sent : sent (kb_devices s) = log;
  ctl_replies : replies (kb_devices s) = queue;
  ctl_busy : (busy (kb_devices s) ≤ patience)%nat
}.

(** Polling ends when the controller is ready, within [patience] readings. *)
Lemma poll_run ok ready fuel : ∀ s log queue,
  controller ok s log queue → (busy (kb_devices s) < fuel)%nat →
  (∀ p v p', replies p = queue → port_in8 KEYBOARD_STATUS_REGISTER p = (v, p') → ready (u8 v) = true ↔ busy p = O) →
  ∃ s', poll_status fuel ready s = Ok (tt, s') ∧ controller ok s' log queue ∧ busy (kb_devices s') = O.
Proof.
  induction fuel as [|fuel IH]; intros s log queue Hs Hf Hready; [lia|]. cbn [poll_status].
  pose proof Hs as [Hc H1 H2 H3]. destruct (status_law (kb_devices s)) as (v & p' & Hin & Hv & L1 & L2 & L3 & _).
  assert (controller ok (set_devices p' s) log queue) as Hs'.
  { constructor; cbn [kb_console set_devices kb_devices]; [done|congruence|congruence|lia]. }
  unfold in8. unfold bind at 1. rewrite Hin. cbn [fst snd].
  pose proof (Hready _ v p' H2 Hin) as Hr. destruct (ready (u8 v)) eqn:E.
  - exists (set_devices p' s). split; [done|]. split; [done|]. cbn [kb_devices set_devices]. rewrite L3.
    by rewrite (proj1 Hr).
  - assert (busy (kb_devices s) ≠ O) by (intros H0; by apply Hr in H0).
    apply IH; [done|cbn [kb_devices set_devices]; lia|done].
Qed.

Lemma waited ok s log queue : controller ok s log queue →
  ∃ s', wait_microsecond s = Ok (tt, s') ∧ controller ok s' log queue ∧ busy (kb_devices s') = busy (kb_devices s).
Proof.
  intros [Hc H1 H2 H3]. destruct (idle_law (kb_devices s)) as (L1 & L2 & L3).
  eexists. split; [reflexivity|]. split; [|exact L3]. constructor; cbn [kb_console set_devices kb_devices]; [done|congruence|congruence|lia].
Qed.

Lemma out_run ok port v s log queue :
  controller ok s log queue → busy (kb_devices s) = O → port ∈ [KEYBOARD_DATA_REGISTER; KEYBOARD_COMMAND_REGISTER] →
  0 ≤ v < 2 ^ 8 → ∃ s', out8 port v s = Ok (tt, s') ∧ controller ok s' ((port, v) :: log) (queue ++ answer port v).
Proof.
  intros [Hc H1 H2 H3] Hb Hp Hv. destruct (write_law port v (kb_devices s) Hp Hb) as (L1 & L2 & L3).
  eexists. split; [reflexivity|]. rewrite u8_small by done. constructor; cbn [kb_console set_devices kb_devices]; [done|congruence|congruence|done].
Qed.

(** [keyboard_write_command] and [keyboard_write_data]. *)
Lemma write_run_to ok port v s log queue fuel :
  controller ok s log queue → (patience < fuel)%nat → port ∈ [KEYBOARD_DATA_REGISTER; KEYBOARD_COMMAND_REGISTER] →
  0 ≤ v < 2 ^ 8 →
  ∃ s', (wait_microsecond ;;; poll_status fuel input_empty ;;; out8 port v) s = Ok (tt, s') ∧
    controller ok s' ((port, v) :: log) (queue ++ answer port v).
Proof.
  intros Hs Hf Hp Hv. destruct (waited ok s log queue Hs) as (s1 & Hr1 & Hs1 & _). rewrite (bind_ok _ _ _ _ _ Hr1).
  destruct (poll_run ok input_empty fuel s1 log queue Hs1) as (s2 & Hr2 & Hs2 & Hb); [pose proof (ctl_busy _ _ _ _ Hs1); lia| |].
  { intros p w p' _ Hin. destruct (status_law p) as (w' & q & Hin' & Hw & _ & _ & _ & L & _).
    rewrite Hin in Hin'. injection Hin' as -> ->. by rewrite u8_small. }
  rewrite (bind_ok _ _ _ _ _ Hr2). by apply (out_run ok port v s2 log queue).
Qed.

Lemma read_data_run ok s log r queue fuel :
  controller ok s log (r :: queue) → (patience < fuel)%nat →
  ∃ s', keyboard_read_data fuel s = Ok (r, s') ∧ controller ok s' log queue.
Proof.
  intros Hs Hf. unfold keyboard_read_data.
  destruct (waited ok s log _ Hs) as (s1 & Hr1 & Hs1 & _). rewrite (bind_ok _ _ _ _ _ Hr1).
  destruct (poll_run ok output_full fuel s1 log _ Hs1) as (s2 & Hr2 & Hs2 & Hb); [pose proof (ctl_busy _ _ _ _ Hs1); lia| |].
  { intros p w p' Hq Hin. destruct (status_law p) as (w' & q & Hin' & Hw & _ & _ & _ & _ & L).
    rewrite Hin in Hin'. injection Hin' as -> ->. rewrite u8_small, L by done. rewrite Hq. by intuition. }
  rewrite (bind_ok _ _ _ _ _ Hr2). destruct Hs2 as [Hc H1 H2 H3].
  destruct (data_law (kb_devices s2) r queue H2) as (p' & Hin & Hrange & L1 & L2 & L3).
  unfold in8. rewrite Hin, u8_small by done. eexists. split; [reflexivity|].
  constructor; cbn [kb_console set_devices kb_devices]; [done|congruence|congruence|lia].
Qed.
End Controller.

(** ** A controller that is ready after two readings *)

Record ps2_chip := Ps2Chip { chip_sent : list (Z * Z); chip_replies : list Z; chip_busy : nat }.

Definition chip_answer (port v : Z) : list Z :=
  if port =? KEYBOARD_COMMAND_REGISTER then if v =? 0xAA then [0x55] else []
  else if v =? 0xFF then [0xFA; 0xAA]
  else if existsb (Z.eqb v) [0xF0; 2; 0xED; 0; 4] then [0xFA] else [].

Definition chip_status (c : ps2_chip) : Z :=
  if decide (chip_busy c = O) then match chip_replies c with [] => 0 | _ => 1 end else 2.

#[local] Instance chip_ports : PortDevices ps2_chip := {
  port_in8 port c :=
    if port =? KEYBOARD_STATUS_REGISTER then (chip_status c, Ps2Chip (chip_sent c) (chip_replies c) (pred (chip_busy c)))
    else match chip_replies c with [] => (0, c) | r :: l => (r mod 2 ^ 8, Ps2Chip (chip_sent c) l (chip_busy c)) end;
  port_out8 port v c := Ps2Chip ((port, v) :: chip_sent c) (chip_replies c ++ chip_answer port v) 2;
  cpu_wait_microsecond c := c
}.

#[local] Program Instance chip_controller : KeyboardController ps2_chip := {|
  sent := chip_sent; replies c := (λ r, r mod 2 ^ 8) <$> chip_replies c; busy := chip_busy; patience := 2;
  answer port v := (λ r, r mod 2 ^ 8) <$> chip_answer port v
|}.
Next Obligation. done. Qed.
Next Obligation. intros port v c _ _. cbn. split; [done|]. split; [by rewrite fmap_app|lia]. Qed.
Next Obligation.
  intros c. eexists _, _. split; [reflexivity|]. unfold chip_status. cbn.
  destruct (decide (chip_busy c = O)) as [->|Hb]; [destruct (chip_replies c)|]; cbn; repeat split; (done || lia || tauto || (by intros [])).
Qed.
Next Obligation.
  intros [cs [|r' l'] cb] r l H; [done|]. cbn in H. injection H as <- <-.
  eexists. split; [reflexivity|]. split; [apply Z.mod_pos_bound; lia|]. done.
Qed.
