(* ===== verification/KeyboardSpec.v ===== *)
(** * Correctness of the keyboard driver

    The modifier state machine, the effect of ordinary keys on the console, and
    what the driver does to the console and the interrupt controller. *)

From S2P Require Import Prelude Memory Util UtilSpec Console ConsoleSpec Scancodes Port Keyboard KeyboardController.

(** ** Printing within a line *)

Lemma print_char_in_line s c : console_ready s → c ≠ 10 → cursor_x s < 79 →
  ∃ s', console_print_char c s = Ok (tt, s') ∧ console_ready s' ∧ cursor_x s' = cursor_x s + 1 ∧
    cursor_y s' = cursor_y s ∧ scroll s' = scroll s.
Proof.
  intros Hs Hc Hx. destruct (print_char_step s c Hs Hc) as (s1 & Hok & _ & Hy & _ & Hsc & Hp).
  rewrite decide_False in Hp by lia. destruct Hp as [Hx1 Hp]. by exists s1.
Qed.

(** A text without newlines that ends before the last column. *)
Lemma print_in_line l : ∀ s, console_ready s → Forall (λ c, c ≠ 10) l → cursor_x s + Z.of_nat (length l) < 80 →
  ∃ s', console_print l s = Ok (tt, s') ∧ console_ready s' ∧ cursor_y s' = cursor_y s ∧ scroll s' = scroll s ∧
    cursor_x s' = cursor_x s + Z.of_nat (length l).
Proof.
  induction l as [|c l IH]; intros s Hs Hl Hx; cbn [console_print length] in *; [exists s; by rewrite Z.add_0_r|].
  apply list.Forall_cons in Hl as [Hc Hl].
  destruct (print_char_in_line s c Hs Hc) as (s1 & Hr & Hok & Hx1 & Hy1 & Hs1); [lia|].
  rewrite (bind_ok _ _ _ _ _ Hr). destruct (IH s1 Hok Hl) as (s2 & Hr2 & Hok2 & Hy2 & Hs2 & Hx2); [lia|].
  exists s2. split; [exact Hr2|]. split; [done|]. split; [congruence|]. split; [congruence|]. lia.
Qed.

(** The texts of the bytes in base 16, computed. *)
Definition byte_text (input : Z) : list Z :=
  match string_from_u32 ∅ 0 input 16 with Ok (n, m) => (λ i, load8 m i) <$> seqZ 0 n | _ => [] end.

Lemma byte_texts : forallb (λ i,
  match string_from_u32 ∅ 0 i 16 with Ok _ => true | _ => false end &&
  (Z.of_nat (length (byte_text i)) <=? 2) && forallb (λ c, negb (c =? 10)) (byte_text i)) (seqZ 0 256) = true.
Proof. vm_compute. reflexivity. Qed.

Lemma print_byte input : 0 ≤ input < 256 →
  console_print_u32 input 16 = console_print (byte_text input) ∧
  Z.of_nat (length (byte_text input)) ≤ 2 ∧ Forall (λ c, c ≠ 10) (byte_text input).
Proof.
  intros Hi. pose proof byte_texts as H. rewrite forallb_forall in H. specialize (H input).
  rewrite <- list_elem_of_In, elem_of_seqZ in H. specialize (H ltac:(lia)).
  apply andb_prop in H as [H H3]. apply andb_prop in H as [H1 H2%Z.leb_le].
  split; [|split; [done|]].
  - unfold console_print_u32, print_buffer, byte_text. destruct (string_from_u32 ∅ 0 input 16) as [[n m]| |]; done.
  - rewrite forallb_forall in H3. apply list.Forall_forall. intros c Hc. apply list_elem_of_In, H3 in Hc.
    by apply negb_true_iff, Z.eqb_neq in Hc.
Qed.

(** [console_set_cursor] puts the cursor into the window. *)
Lemma set_cursor_ok s x y : console_ok s → 0 ≤ x < 80 → 0 ≤ y < 25 →
  console_set_cursor x y s = Ok (tt, set_cursor x (y + scroll s) s) ∧ console_ready (set_cursor x (y + scroll s) s).
Proof.
  intros Hs Hx Hy. pose proof (ok_scroll s Hs). console_consts.
  split; [|apply console_ready_cursor; (done || lia)]. unfold console_set_cursor, modify. by rewrite u32_small by lia.
Qed.

(** The cursor is in the window. *)
Definition in_window (s : console) : Prop := console_ready s ∧ scroll s ≤ cursor_y s.

Lemma set_cursor_window s x y : console_ok s → 0 ≤ x < 80 → 0 ≤ y < 25 →
  console_set_cursor x y s = Ok (tt, set_cursor x (y + scroll s) s) ∧ in_window (set_cursor x (y + scroll s) s).
Proof. intros Hs Hx Hy. destruct (set_cursor_ok s x y Hs Hx Hy). split; [done|]. split; [done|cbn; lia]. Qed.

(** Cursor and window are as before. *)
Definition same_place (s s' : console) : Prop :=
  cursor_x s' = cursor_x s ∧ cursor_y s' = cursor_y s ∧ scroll s' = scroll s.

Lemma same_place_ready s s' : same_place s s' → console_ok s' → console_ready s → console_ready s'.
Proof. intros (_ & Hy & Hsc) Hs' [_ Hin]. split; [done|]. by rewrite Hy, Hsc. Qed.

Lemma same_place_window s s' : same_place s s' → console_ok s' → in_window s → in_window s'.
Proof.
  intros Hp Hs' [Hr Hin]. split; [by apply (same_place_ready s)|]. destruct Hp as (_ & -> & ->). done.
Qed.

(** Printing in a corner: the cursor and the window are as before. *)
Lemma corner_ok (m : M console unit) s x y :
  console_ok s → 0 ≤ x < 80 → 0 ≤ y < 25 →
  (∀ s1, console_ready s1 → cursor_x s1 = x → ∃ s2, m s1 = Ok (tt, s2) ∧ console_ready s2 ∧ scroll s2 = scroll s1) →
  ∃ s', (let! '(cx, cy) := console_get_cursor in
         console_set_cursor x y ;;; m ;;; console_set_cursor cx cy) s = Ok (tt, s') ∧
    console_ok s' ∧ same_place s s'.
Proof.
  intros Hs Hx Hy Hm. unfold console_get_cursor. mstep. destruct (set_cursor_ok s x y Hs Hx Hy) as [Hr0 Hs0].
  rewrite (bind_ok _ _ _ _ _ Hr0). destruct (Hm _ Hs0) as (s2 & Hr & [Hok _] & Hsc); [done|].
  rewrite (bind_ok _ _ _ _ _ Hr). unfold console_set_cursor. mstep. console_fields. pose proof (ok_y s Hs) as Hy'. pose proof (ok_x s Hs) as Hx'. console_consts.
  assert (u32 (u32 (cursor_y s - scroll s) + scroll s2) = cursor_y s) as Hback.
  { rewrite Hsc. unfold u32. rewrite Zplus_mod_idemp_l.
    replace (cursor_y s - scroll s + scroll s) with (cursor_y s) by lia. apply Z.mod_small. lia. }
  eexists. split; [reflexivity|]. rewrite Hback. split; [apply console_ok_cursor; (done || lia)|]. done.
Qed.

Lemma show_key_ok s input : console_ok s → 0 ≤ input < 256 →
  ∃ s', show_key input s = Ok (tt, s') ∧ console_ok s' ∧ same_place s s'.
Proof.
  intros Hs Hi. destruct (print_byte input Hi) as (Hp & Hlen & Hnl).
  destruct (corner_ok (console_print (chars "key=0x") ;;; console_print_u32 input 16) s 70 0 Hs)
    as (s' & Hr & Hrest); [lia|lia| |].
  - intros s1 Hs1 Hx1. destruct (print_in_line (chars "key=0x") s1 Hs1) as (s2 & Hr2 & Hok2 & Hy2 & Hs2 & Hx2).
    { by repeat (apply list.Forall_cons; split; [done|]). }
    { rewrite Hx1. cbn. lia. }
    rewrite (bind_ok _ _ _ _ _ Hr2), Hp. cbn in Hx2.
    destruct (print_in_line (byte_text input) s2 Hok2 Hnl) as (s3 & Hr3 & Hok3 & Hy3 & Hs3 & _); [lia|].
    exists s3. split; [exact Hr3|]. split; [done|]. congruence.
  - exists s'. split; [|exact Hrest]. revert Hr.
    unfold show_key, console_get_cursor, console_set_cursor. mstep. by intros ->.
Qed.

Lemma show_caps_lock_ok s on : console_ok s →
  ∃ s', show_caps_lock on s = Ok (tt, s') ∧ console_ok s' ∧ same_place s s'.
Proof.
  intros Hs. apply (corner_ok (console_print (chars (if on then "CAPSLOCK" else "        "))) s 70 1 Hs); [lia|lia|].
  intros s1 Hs1 Hx1. destruct (print_in_line (chars (if on then "CAPSLOCK" else "        ")) s1 Hs1) as (s2 & Hr & Hok & _ & Hsc & _).
  - destruct on; by repeat (apply list.Forall_cons; split; [done|]).
  - rewrite Hx1. by destruct on.
  - by exists s2.
Qed.

(** ** Enter and backspace *)

Lemma print_char_window s c : in_window s → ∃ s', console_print_char c s = Ok (tt, s') ∧ in_window s'.
Proof.
  intros [Hs Hin]. destruct (console_print_char_ok s c Hs) as (s' & Hr & Hok & Hk). exists s'. split; [done|].
  split; [done|]. by apply Hk.
Qed.

Lemma press_enter_ok shifted s : in_window s → ∃ s', press_enter shifted s = Ok (tt, s') ∧ in_window s'.
Proof.
  intros Hs. unfold press_enter. destruct (print_char_window s 32 Hs) as (s1 & Hr1 & H1).
  rewrite (bind_ok _ _ _ _ _ Hr1). destruct shifted.
  - destruct (console_clear_ok s1) as (s2 & Hr2 & [Hok _] & _). rewrite (bind_ok _ _ _ _ _ Hr2).
    destruct (set_cursor_window s2 0 0 Hok) as [Hr3 H3]; [lia|lia|]. eexists. split; [exact Hr3|exact H3].
  - destruct H1 as [H1 Hin]. destruct (console_new_line_any s1 (line_ready_of s1 H1)) as (s2 & Hr2 & Hok & Hk).
    exists s2. split; [done|]. split; [done|]. by apply Hk.
Qed.

Lemma press_backspace_ok s : in_window s → ∃ s', press_backspace s = Ok (tt, s') ∧ in_window s'.
Proof.
  intros Hs. pose proof Hs as [[[Hx Hy Hsc _] Hlo] Hhi]. console_consts. unfold press_backspace, console_get_cursor.
  rewrite bind_gets, (u32_small (cursor_y s - scroll s)) by lia. destruct (Z.ltb_spec 0 (cursor_x s)) as [Hpos|_].
  - destruct (print_char_window s 32 Hs) as (s1 & Hr1 & H1). rewrite (bind_ok _ _ _ _ _ Hr1), (u32_small (_ - 1)) by lia.
    destruct (set_cursor_window s1 (cursor_x s - 1) (cursor_y s - scroll s) (proj1 (proj1 H1))) as [Hr2 H2]; [lia|lia|].
    rewrite (bind_ok _ _ _ _ _ Hr2). destruct (print_char_window _ 32 H2) as (s3 & Hr3 & H3). rewrite (bind_ok _ _ _ _ _ Hr3).
    destruct (set_cursor_window s3 (cursor_x s - 1) (cursor_y s - scroll s) (proj1 (proj1 H3))) as [Hr4 H4]; [lia|lia|].
    eexists. split; [exact Hr4|exact H4].
  - destruct (Z.ltb_spec 0 (cursor_y s - scroll s)) as [Hpos|_]; [|by exists s].
    destruct (print_char_window s 32 Hs) as (s1 & Hr1 & H1). rewrite (bind_ok _ _ _ _ _ Hr1), u32_small by lia.
    destruct (set_cursor_window s1 79 (cursor_y s - scroll s - 1) (proj1 (proj1 H1))) as [Hr2 H2]; [lia|lia|]. eexists. split; [exact Hr2|exact H2].
Qed.

(** ** The modifier state machine *)

(** The state a scan code changes besides the console and the devices. *)
Record modifiers := Modifiers { m_releasing : Z; m_shift : Z; m_caps_lock : Z; m_extended : Z }.

(** What one byte from the keyboard does to it. *)
Definition modifier_step (code : Z) (m : modifiers) : modifiers :=
  if code =? 0xF0 then Modifiers 1 (m_shift m) (m_caps_lock m) (m_extended m)
  else if (code =? 0xE0) || (code =? 0xE1) || (code =? 0xE2) then
    Modifiers (m_releasing m) (m_shift m) (m_caps_lock m) 1
  else if truthy (m_releasing m) then
    Modifiers 0 (if is_shift code then 0 else m_shift m) (m_caps_lock m) 0
  else if is_shift code then Modifiers (m_releasing m) 1 (m_caps_lock m) 0
  else if code =? 0x58 then
    Modifiers (m_releasing m) (m_shift m) (if truthy (m_caps_lock m) then 0 else 1) 0
  else Modifiers (m_releasing m) (m_shift m) (m_caps_lock m) 0.

Section Handler.
Context {P : Type} {PD : PortDevices P}.
Implicit Types s : keyboard P.

Definition modifiers_of s : modifiers := Modifiers (releasing s) (shift s) (caps_lock s) (extended s).

(** The byte the handler reads, and the state with the devices after that. *)
Definition scan_code s : Z := u8 (port_in8 KEYBOARD_DATA_REGISTER (kb_devices s)).1.
Definition scanned s : keyboard P := set_devices (port_in8 KEYBOARD_DATA_REGISTER (kb_devices s)).2 s.

Lemma in8_scan s : in8 KEYBOARD_DATA_REGISTER s = Ok (scan_code s, scanned s).
Proof. unfold in8, scan_code, scanned. by destruct (port_in8 _ _). Qed.

(** A step that keeps the modifiers and signals no end of interrupt. *)
Definition keeps {A} (m : M (keyboard P) A) : Prop :=
  ∀ s a s', m s = Ok (a, s') → modifiers_of s' = modifiers_of s ∧ end_of_interrupt s' = end_of_interrupt s.

Lemma keeps_bind {A B} (m : M (keyboard P) A) (k : A → M (keyboard P) B) :
  keeps m → (∀ a, keeps (k a)) → keeps (bind m k).
Proof.
  intros Hm Hk s b s' Hr. apply bind_inv in Hr as (a & s1 & H1 & H2).
  destruct (Hm _ _ _ H1) as [E1 E1']. destruct (Hk _ _ _ _ H2) as [E2 E2']. split; congruence.
Qed.

Lemma keeps_ret {A} (a : A) : keeps (ret a).
Proof. by intros s a' s' [= <- <-]. Qed.

Lemma keeps_gets {A} (f : keyboard P → A) : keeps (gets f).
Proof. by intros s a' s' [= <- <-]. Qed.

Lemma keeps_console {A} (m : M console A) : keeps (on_console m).
Proof. intros s a s'. unfold on_console. destruct (m (kb_console s)) as [[? ?]| |]; [|done..]. by intros [= <- <-]. Qed.

Lemma keeps_in8 port : keeps (in8 port).
Proof. intros s a s'. unfold in8. destruct (port_in8 port (kb_devices s)). by intros [= <- <-]. Qed.

Lemma keeps_out8 port v : keeps (out8 port v).
Proof. by intros s a s' [= <- <-]. Qed.

Lemma keeps_wait : keeps wait_microsecond.
Proof. by intros s a s' [= <- <-]. Qed.

Lemma keeps_poll fuel ready : keeps (poll_status fuel ready).
Proof.
  induction fuel as [|fuel IH]; [by intros s a s'|]. cbn [poll_status].
  apply keeps_bind; [apply keeps_in8|]. intros st. destruct (ready st); [apply keeps_ret|done].
Qed.

Lemma keeps_read_data fuel : keeps (keyboard_read_data fuel).
Proof.
  unfold keyboard_read_data. apply keeps_bind; [apply keeps_wait|]. intros _.
  apply keeps_bind; [apply keeps_poll|]. intros _. apply keeps_in8.
Qed.

Lemma keeps_write_data fuel v : keeps (keyboard_write_data fuel v).
Proof.
  unfold keyboard_write_data. apply keeps_bind; [apply keeps_wait|]. intros _.
  apply keeps_bind; [apply keeps_poll|]. intros _. apply keeps_out8.
Qed.

Lemma keeps_press_key input : keeps (press_key input).
Proof.
  intros s a s'. unfold press_key, get. unfold bind at 1.
  set (table := if truthy (shift s) || truthy (caps_lock s) then scancodes_shift else scancodes_normal).
  destruct (table !! Z.to_nat input) as [[text|]|]; [|apply keeps_ret|done].
  destruct (input =? 0x5a); [apply keeps_console|]. destruct (input =? 0x66); apply keeps_console.
Qed.

(** After the toggle itself, the rest of the caps lock path keeps the modifiers. *)
Lemma toggle_caps_lock_modifiers fuel s a s' :
  toggle_caps_lock fuel s = Ok (a, s') →
  modifiers_of s' = Modifiers (releasing s) (shift s) (if truthy (caps_lock s) then 0 else 1) (extended s) ∧
  end_of_interrupt s' = end_of_interrupt s.
Proof.
  unfold toggle_caps_lock. rewrite bind_modify. intros Hr.
  match type of Hr with ?m _ = _ => assert (keeps m) as Hk end.
  { repeat (apply keeps_bind; [first [apply keeps_write_data|apply keeps_read_data|apply keeps_gets]|intros ?]).
    apply keeps_console. }
  exact (Hk _ _ _ Hr).
Qed.

Lemma key_pressed_modifiers fuel input s a s' :
  key_pressed fuel input s = Ok (a, s') → input ≠ 0xF0 → truthy (releasing s) = false →
  (input =? 0xE0) || (input =? 0xE1) || (input =? 0xE2) = false →
  modifiers_of (set_extended 0 s') = modifier_step input (modifiers_of s) ∧ end_of_interrupt s' = end_of_interrupt s.
Proof.
  intros Hr HF0 Hrel HE. unfold modifier_step. rewrite (proj2 (Z.eqb_neq _ _) HF0), HE. cbn [modifiers_of m_releasing].
  rewrite Hrel. unfold key_pressed in Hr. apply bind_inv in Hr as (u & s1 & H1 & Hr).
  destruct (keeps_console _ _ _ _ H1) as [[= E1 E2 E3 E4] Eo]. rewrite bind_gets in Hr.
  destruct (is_shift input) eqn:Hsh.
  { unfold modify in Hr. injection Hr as <- <-. cbn. split; [|done]. unfold modifiers_of. cbn. by rewrite E1, E3. }
  destruct (truthy (extended s1) && (input =? 0x75)) eqn:Hup.
  { apply andb_prop in Hup as [_ ->%Z.eqb_eq]. destruct (keeps_console _ _ _ _ Hr) as [[= F1 F2 F3 F4] Fo].
    cbn. unfold modifiers_of. cbn. split; congruence. }
  destruct (truthy (extended s1) && (input =? 0x72)) eqn:Hdn.
  { apply andb_prop in Hdn as [_ ->%Z.eqb_eq]. destruct (keeps_console _ _ _ _ Hr) as [[= F1 F2 F3 F4] Fo].
    cbn. unfold modifiers_of. cbn. split; congruence. }
  destruct (input =? 0x58).
  - apply toggle_caps_lock_modifiers in Hr as [[= F1 F2 F3 F4] Fo]. unfold modifiers_of. cbn.
    rewrite F1, F2, F3, E1, E2, E3. split; [done|congruence].
  - apply keeps_press_key in Hr as [[= F1 F2 F3 F4] Fo]. unfold modifiers_of. cbn. split; congruence.
Qed.

Lemma handler_modifiers fuel s s' :
  interrupt_handle_keyboard fuel s = Ok (tt, s') →
  modifiers_of s' = modifier_step (scan_code s) (modifiers_of s) ∧
  end_of_interrupt s' = end_of_interrupt s + 1.
Proof.
  unfold interrupt_handle_keyboard. rewrite (bind_ok _ _ _ _ _ (in8_scan s)). intros Hr.
  apply bind_inv in Hr as (u & s1 & H1 & Hr). unfold modify in Hr. injection Hr as <-.
  change (modifiers_of (signal_eoi s1)) with (modifiers_of s1). cbn [end_of_interrupt signal_eoi].
  destruct (Z.eqb_spec (scan_code s) 0xF0) as [HF|HF].
  { unfold modify in H1. injection H1 as _ <-. unfold modifier_step. rewrite HF. by cbn. }
  destruct ((scan_code s =? 0xE0) || (scan_code s =? 0xE1) || (scan_code s =? 0xE2)) eqn:HE.
  { unfold modify in H1. injection H1 as _ <-. unfold modifier_step. rewrite (proj2 (Z.eqb_neq _ _) HF), HE. by cbn. }
  rewrite bind_gets in H1. destruct (truthy (releasing (scanned s))) eqn:Hrel.
  - change (releasing (scanned s)) with (releasing s) in Hrel. unfold modifier_step.
    rewrite (proj2 (Z.eqb_neq _ _) HF), HE. cbn [modifiers_of m_releasing]. rewrite Hrel.
    destruct (is_shift (scan_code s)); unfold ret, modify, bind in H1; injection H1 as _ <-; by cbn.
  - apply bind_inv in H1 as (u' & s2 & H1 & H2). unfold modify in H2. injection H2 as _ <-.
    destruct (key_pressed_modifiers fuel (scan_code s) (scanned s) u' s2 H1 HF Hrel HE) as [Hm Ho].
    split; [exact Hm|]. cbn [end_of_interrupt set_extended]. rewrite Ho. done.
Qed.

(** An ordinary key is pressed: its text is printed. *)
Definition ordinary (code : Z) (ext : bool) : Prop :=
  code ≠ 0xF0 ∧ code ≠ 0xE0 ∧ code ≠ 0xE1 ∧ code ≠ 0xE2 ∧ is_shift code = false ∧ code ≠ 0x58 ∧
  code ≠ 0x5a ∧ code ≠ 0x66 ∧ (ext = true → code ≠ 0x75 ∧ code ≠ 0x72).

Definition key_text s (code : Z) : list Z :=
  match (if truthy (shift s) || truthy (caps_lock s) then scancodes_shift else scancodes_normal) !! Z.to_nat code with
  | Some (Some text) => chars text
  | _ => []
  end.

Lemma tables_total code : 0 ≤ code < 256 →
  is_Some (scancodes_normal !! Z.to_nat code) ∧ is_Some (scancodes_shift !! Z.to_nat code).
Proof. intros Hc. split; apply lookup_lt_is_Some_2; change (length _) with 256%nat; lia. Qed.

Lemma ordinary_key_ok fuel s :
  console_ready (kb_console s) → truthy (releasing s) = false → ordinary (scan_code s) (truthy (extended s)) →
  ∃ c1 c2, show_key (scan_code s) (kb_console s) = Ok (tt, c1) ∧
    cursor_x c1 = cursor_x (kb_console s) ∧ cursor_y c1 = cursor_y (kb_console s) ∧ console_ok c1 ∧
    console_print (key_text s (scan_code s)) c1 = Ok (tt, c2) ∧ console_ready c2 ∧
    interrupt_handle_keyboard fuel s = Ok (tt, signal_eoi (set_extended 0 (set_console c2 (scanned s)))).
Proof.
  intros Hc Hrel (H1 & H2 & H3 & H4 & Hsh & H5 & H6 & H7 & H8). pose proof (u8_range (port_in8 KEYBOARD_DATA_REGISTER (kb_devices s)).1) as Hrange.
  fold (scan_code s) in Hrange. set (code := scan_code s) in *.
  destruct (show_key_ok (kb_console s) code (proj1 Hc) ltac:(lia)) as (c1 & Hr1 & Hok1 & Hp1).
  pose proof Hp1 as (Hx1 & Hy1 & Hs1).
  destruct (console_print_ok (key_text s code) c1 (same_place_ready _ _ Hp1 Hok1 Hc)) as (c2 & Hr2 & Hok2).
  exists c1, c2. split; [exact Hr1|]. split; [exact Hx1|]. split; [exact Hy1|]. split; [exact Hok1|].
  split; [exact Hr2|]. split; [exact Hok2|]. unfold interrupt_handle_keyboard.
  rewrite (bind_ok _ _ _ _ _ (in8_scan s)). fold code.
  rewrite (proj2 (Z.eqb_neq _ _) H1), (proj2 (Z.eqb_neq _ _) H2), (proj2 (Z.eqb_neq _ _) H3), (proj2 (Z.eqb_neq _ _) H4).
  cbn [orb]. rewrite bind_assoc, bind_gets. change (releasing (scanned s)) with (releasing s). rewrite Hrel.
  assert (key_pressed fuel code (scanned s) = Ok (tt, set_console c2 (scanned s))) as Hk.
  { unfold key_pressed. unfold on_console at 1. unfold bind at 1. change (kb_console (scanned s)) with (kb_console s).
    rewrite Hr1, bind_gets, Hsh. change (extended (set_console c1 (scanned s))) with (extended s).
    assert (truthy (extended s) && (code =? 0x75) = false ∧ truthy (extended s) && (code =? 0x72) = false) as [-> ->].
    { destruct (truthy (extended s)); [|done]. destruct (H8 eq_refl) as [Ha Hb]. cbn [andb].
      by rewrite (proj2 (Z.eqb_neq _ _) Ha), (proj2 (Z.eqb_neq _ _) Hb). }
    rewrite (proj2 (Z.eqb_neq _ _) H5). unfold press_key, get. unfold bind at 1.
    change (shift (set_console c1 (scanned s))) with (shift s).
    change (caps_lock (set_console c1 (scanned s))) with (caps_lock s).
    rewrite (proj2 (Z.eqb_neq _ _) H6), (proj2 (Z.eqb_neq _ _) H7). unfold key_text in Hr2.
    destruct (tables_total code ltac:(lia)) as [[e1 He1] [e2 He2]].
    destruct (truthy (shift s) || truthy (caps_lock s)); [rewrite He2 in Hr2 |- *|rewrite He1 in Hr2 |- *].
    - destruct e2 as [text|]; [unfold on_console; cbn [kb_console set_console]; by rewrite Hr2|].
      cbn [console_print] in Hr2. injection Hr2 as <-. done.
    - destruct e1 as [text|]; [unfold on_console; cbn [kb_console set_console]; by rewrite Hr2|].
      cbn [console_print] in Hr2. injection Hr2 as <-. done. }
  rewrite bind_assoc, (bind_ok _ _ _ _ _ Hk). reflexivity.
Qed.

Lemma on_console_run {A} (m : M console A) s a c :
  m (kb_console s) = Ok (a, c) → on_console m s = Ok (a, set_console c s).
Proof. intros Hr. unfold on_console. by rewrite Hr. Qed.

Lemma press_key_run input s : in_window (kb_console s) → 0 ≤ input < 256 →
  ∃ c, press_key input s = Ok (tt, set_console c s) ∧ in_window c.
Proof.
  intros Hs Hi. unfold press_key, get. unfold bind at 1.
  assert (∃ e, (if truthy (shift s) || truthy (caps_lock s) then scancodes_shift else scancodes_normal) !!
    Z.to_nat input = Some e) as [e ->] by (destruct (tables_total input Hi) as [[e1 H1] [e2 H2]]; destruct (_ || _); eauto).
  destruct e as [text|]; [|exists (kb_console s); by destruct s].
  assert (∀ m : M console unit, (∃ c, m (kb_console s) = Ok (tt, c) ∧ in_window c) →
    ∃ c, on_console m s = Ok (tt, set_console c s) ∧ in_window c) as Hon
    by (intros m (c & Hr & Hc); exists c; split; [by apply on_console_run|exact Hc]).
  destruct (input =? 0x5a); [by apply Hon, press_enter_ok|].
  destruct (input =? 0x66); [by apply Hon, press_backspace_ok|]. apply Hon.
  destruct Hs as [Hs Hin]. destruct (console_print_window (chars text) (kb_console s) Hs) as (c & Hr & Hok & Hk).
  exists c. split; [exact Hr|]. split; [exact Hok|]. by apply Hk.
Qed.

(** ** Every path of the handler *)

(** What the byte is to the driver. *)
Inductive key_event := Prefix | Release | ShiftPress | ScrollUp | ScrollDown | CapsLockPress | TextPress.

Definition event_of s : key_event :=
  let code := scan_code s in
  if (code =? 0xF0) || (code =? 0xE0) || (code =? 0xE1) || (code =? 0xE2) then Prefix
  else if truthy (releasing s) then Release
  else if is_shift code then ShiftPress
  else if truthy (extended s) && (code =? 0x75) then ScrollUp
  else if truthy (extended s) && (code =? 0x72) then ScrollDown
  else if code =? 0x58 then CapsLockPress
  else TextPress.

(** The path of the handler that an event takes. *)
Definition handle_event (fuel : nat) (e : key_event) (code : Z) : M (keyboard P) unit :=
  match e with
  | Prefix => if code =? 0xF0 then modify (set_releasing 1) else modify (set_extended 1)
  | Release =>
      (if is_shift code then modify (set_shift 0) else ret tt) ;;;
      modify (set_releasing 0) ;;;
      modify (set_extended 0)
  | ShiftPress => on_console (show_key code) ;;; modify (set_shift 1) ;;; modify (set_extended 0)
  | ScrollUp => on_console (show_key code) ;;; on_console (console_scroll (-1)) ;;; modify (set_extended 0)
  | ScrollDown => on_console (show_key code) ;;; on_console (console_scroll 1) ;;; modify (set_extended 0)
  | CapsLockPress => on_console (show_key code) ;;; toggle_caps_lock fuel ;;; modify (set_extended 0)
  | TextPress => on_console (show_key code) ;;; press_key code ;;; modify (set_extended 0)
  end.

Lemma key_pressed_event fuel code s (k : unit → M (keyboard P) unit) :
  bind (key_pressed fuel code) k s = bind (on_console (show_key code)) (λ _,
    if is_shift code then modify (set_shift 1) ;;; k tt
    else if truthy (extended s) && (code =? 0x75) then bind (on_console (console_scroll (-1))) k
    else if truthy (extended s) && (code =? 0x72) then bind (on_console (console_scroll 1)) k
    else if code =? 0x58 then bind (toggle_caps_lock fuel) k
    else bind (press_key code) k) s.
Proof.
  unfold key_pressed. rewrite bind_assoc. apply bind_cong. intros [] s1 H1.
  apply keeps_console in H1 as [[= _ _ _ E] _]. rewrite bind_assoc, bind_gets, E.
  destruct (is_shift code); [done|]. destruct (truthy (extended s) && (code =? 0x75)); [done|].
  destruct (truthy (extended s) && (code =? 0x72)); [done|]. by destruct (code =? 0x58).
Qed.

Lemma handler_event fuel s : interrupt_handle_keyboard fuel s =
  (handle_event fuel (event_of s) (scan_code s) ;;; modify signal_eoi) (scanned s).
Proof.
  unfold interrupt_handle_keyboard, event_of. rewrite (bind_ok _ _ _ _ _ (in8_scan s)). set (code := scan_code s).
  destruct (code =? 0xF0) eqn:EF; cbn [orb handle_event]; [by rewrite EF|].
  destruct ((code =? 0xE0) || (code =? 0xE1) || (code =? 0xE2)); cbn [orb handle_event]; [by rewrite EF|].
  rewrite bind_assoc, bind_gets. change (releasing (scanned s)) with (releasing s).
  change (extended s) with (extended (scanned s)).
  destruct (truthy (releasing s)); [cbn [handle_event]; rewrite !bind_assoc; reflexivity|].
  rewrite bind_assoc, key_pressed_event.
  destruct (is_shift code); [|destruct (truthy (extended (scanned s)) && (code =? 0x75));
    [|destruct (truthy (extended (scanned s)) && (code =? 0x72)); [|destruct (code =? 0x58)]]]; cbn [handle_event];
    rewrite bind_assoc; apply bind_cong; intros [] s1 _; by rewrite !bind_assoc.
Qed.
End Handler.

(** ** Every path returns *)

Section Total.
Context {P : Type} {PD : PortDevices P} {KC : KeyboardController P}.
Implicit Types s : keyboard P.

(** The keyboard replies to the LED command and to its argument. *)
Definition acknowledges : Prop :=
  ∀ v, v ∈ [0xED; 4; 0] → answer KEYBOARD_DATA_REGISTER v ≠ [].

(** A byte written and one read. *)
Lemma acknowledged_run ok fuel v s log queue :
  controller ok s log queue → (patience < fuel)%nat → 0 ≤ v < 2 ^ 8 → answer KEYBOARD_DATA_REGISTER v ≠ [] →
  ∃ r s' queue', (keyboard_write_data fuel v ;;; keyboard_read_data fuel) s = Ok (r, s') ∧
    controller ok s' ((KEYBOARD_DATA_REGISTER, v) :: log) queue' ∧ modifiers_of s' = modifiers_of s.
Proof.
  intros Hs Hf Hv Ha. destruct (write_run_to ok KEYBOARD_DATA_REGISTER v s log queue fuel Hs Hf) as (s1 & Hr1 & H1); [by left|done|].
  assert (∃ r l, queue ++ answer KEYBOARD_DATA_REGISTER v = r :: l) as (r & l & E).
  { destruct queue, (answer KEYBOARD_DATA_REGISTER v); cbn; eauto; done. }
  rewrite E in H1. destruct (read_data_run ok s1 _ r l fuel H1 Hf) as (s2 & Hr2 & H2).
  change (keyboard_write_data fuel v s = Ok (tt, s1)) in Hr1. exists r, s2, l. rewrite (bind_ok _ _ _ _ _ Hr1).
  split; [exact Hr2|]. split; [exact H2|].
  rewrite (proj1 (keeps_read_data fuel _ _ _ Hr2)). exact (proj1 (keeps_write_data fuel v _ _ _ Hr1)).
Qed.

Lemma toggle_caps_lock_run fuel s log queue :
  controller console_ok s log queue → (patience < fuel)%nat → acknowledges →
  ∃ s', toggle_caps_lock fuel s = Ok (tt, s') ∧ console_ok (kb_console s') ∧ same_place (kb_console s) (kb_console s') ∧
    sent (kb_devices s') =
      (KEYBOARD_DATA_REGISTER, if truthy (caps_lock s) then 0 else 4) :: (KEYBOARD_DATA_REGISTER, 0xED) :: log.
Proof.
  intros [Hc H1 H2 H3] Hf Hack. unfold toggle_caps_lock. rewrite bind_modify. set (s0 := set_caps_lock _ s).
  assert (controller (eq (kb_console s)) s0 log queue) as H0 by by constructor.
  destruct (acknowledged_run _ fuel 0xED s0 log queue H0 Hf) as (r1 & s1 & q1 & Hr1 & Hs1 & [= _ _ E1 _]); [lia|apply Hack; set_solver|].
  rewrite <- bind_assoc, (bind_ok _ _ _ _ _ Hr1), bind_gets.
  set (v := if truthy (caps_lock s1) then 4 else 0).
  assert (v = if truthy (caps_lock s) then 0 else 4) as Ev by (unfold v; rewrite E1; cbn; by destruct (truthy (caps_lock s))).
  destruct (acknowledged_run _ fuel v s1 _ q1 Hs1 Hf) as (r2 & s2 & q2 & Hr2 & [Hc2 HS _ _] & _);
    [unfold v; destruct (truthy _); lia|apply Hack; unfold v; destruct (truthy _); set_solver|].
  rewrite <- bind_assoc, (bind_ok _ _ _ _ _ Hr2), bind_gets.
  destruct (show_caps_lock_ok (kb_console s2) (truthy (caps_lock s2))) as (c & Hr & Hok & Hp); [by rewrite <- Hc2|].
  exists (set_console c s2). split; [exact (on_console_run _ _ _ _ Hr)|]. rewrite <- Hc2 in Hp. rewrite <- Ev. done.
Qed.

(** What a path needs beyond a well-formed console: text needs the cursor in
    the window, the down arrow a line below the window, caps lock a
    controller and a keyboard that answer. *)
Definition handler_ready (fuel : nat) s : Prop :=
  match event_of s with
  | TextPress => in_window (kb_console s)
  | ScrollDown => scroll (kb_console s) < CONSOLE_BUFFER_HEIGHT - CONSOLE_VISIBLE_HEIGHT
  | CapsLockPress => (patience < fuel)%nat ∧ acknowledges ∧
      ∃ log code queue, controller console_ok s log (code :: queue)
  | _ => True
  end.

(** What the path does to the console and the keyboard. *)
Definition handled s s' : Prop :=
  console_ok (kb_console s') ∧
  match event_of s with
  | Prefix | Release => kb_console s' = kb_console s
  | ShiftPress => same_place (kb_console s) (kb_console s')
  | ScrollUp => scroll (kb_console s') = Z.max 0 (scroll (kb_console s) - 1)
  | ScrollDown => scroll (kb_console s') = scroll (kb_console s) + 1
  | CapsLockPress => same_place (kb_console s) (kb_console s') ∧
      sent (kb_devices s') = (KEYBOARD_DATA_REGISTER, if truthy (caps_lock s) then 0 else 4) ::
        (KEYBOARD_DATA_REGISTER, 0xED) :: sent (kb_devices s)
  | TextPress => in_window (kb_console s')
  end.

Lemma scroll_run s n : console_ok (kb_console s) → - 2 ^ 30 ≤ n → scroll (kb_console s) + n ≤ 2475 →
  ∃ c, on_console (console_scroll n) s = Ok (tt, set_console c s) ∧ console_ok c ∧
    scroll c = Z.max 0 (scroll (kb_console s) + n).
Proof.
  intros Hs Hlo Hhi. destruct (console_scroll_run (kb_console s) n Hs Hlo Hhi) as (c & Hr & Hok & Hsc & _).
  exists c. split; [by apply on_console_run|done].
Qed.

(** A path that shows the code of the key and then does [m]. *)
Lemma shown_run (m : M (keyboard P) unit) s code : console_ok (kb_console s) → 0 ≤ code < 256 →
  ∃ c, console_ok c ∧ same_place (kb_console s) c ∧
    (on_console (show_key code) ;;; m ;;; modify (set_extended 0)) s = (m ;;; modify (set_extended 0)) (set_console c s).
Proof.
  intros Hs Hcode. destruct (show_key_ok (kb_console s) code Hs Hcode) as (c & Hr & Hok & Hp).
  exists c. split; [done|]. split; [done|]. by rewrite (bind_ok _ _ _ _ _ (on_console_run _ _ _ _ Hr)).
Qed.

Lemma keyboard_handler_run fuel s : console_ok (kb_console s) → handler_ready fuel s →
  ∃ s', interrupt_handle_keyboard fuel s = Ok (tt, s') ∧ handled s s'.
Proof.
  intros Hc Hready. rewrite handler_event. unfold handler_ready, handled in *.
  assert (∀ (Q : keyboard P → Prop) (m : M (keyboard P) unit),
    (∀ s, Q s → Q (signal_eoi s)) → (∃ s', m (scanned s) = Ok (tt, s') ∧ Q s') →
    ∃ s', (m ;;; modify signal_eoi) (scanned s) = Ok (tt, s') ∧ Q s') as Heoi.
  { intros Q m HQ (s' & Hr & Hs'). rewrite (bind_ok _ _ _ _ _ Hr). eexists. split; [reflexivity|]. by apply HQ. }
  apply Heoi; [by intros s1 ?|]. clear Heoi.
  assert (0 ≤ scan_code s < 256) as Hcode by apply u8_range.
  assert (console_ok (kb_console (scanned s))) as Hc' by done.
  destruct (event_of s) eqn:E; cbn [handle_event].
  - destruct (scan_code s =? 0xF0); eexists; (split; [reflexivity|done]).
  - destruct (is_shift (scan_code s)); eexists; (split; [reflexivity|done]).
  - destruct (shown_run (modify (set_shift 1)) _ _ Hc' Hcode) as (c & Hok & Hp & ->). by eexists.
  - destruct (shown_run (on_console (console_scroll (-1))) _ _ Hc' Hcode) as (c & Hok & (_ & _ & Hsc) & ->).
    pose proof (ok_scroll _ Hok). console_consts. cbn [kb_console scanned set_devices] in Hsc.
    destruct (scroll_run (set_console c (scanned s)) (-1) Hok) as (c2 & Hr & Hok2 & Hsc2); [lia|cbn; lia|].
    rewrite (bind_ok _ _ _ _ _ Hr). eexists. split; [reflexivity|]. split; [exact Hok2|]. cbn in *. by rewrite Hsc2, Hsc.
  - destruct (shown_run (on_console (console_scroll 1)) _ _ Hc' Hcode) as (c & Hok & (_ & _ & Hsc) & ->).
    pose proof (ok_scroll _ Hok). console_consts. cbn [kb_console scanned set_devices] in Hsc.
    destruct (scroll_run (set_console c (scanned s)) 1 Hok) as (c2 & Hr & Hok2 & Hsc2); [lia|cbn; lia|].
    rewrite (bind_ok _ _ _ _ _ Hr). eexists. split; [reflexivity|]. split; [exact Hok2|]. cbn in *. lia.
  - destruct (shown_run (toggle_caps_lock fuel) _ _ Hc' Hcode) as (c & Hok & Hp & ->).
    destruct Hready as (Hf & Hack & log & code & queue & [_ H1 H2 H3]).
    destruct (data_law _ _ _ H2) as (p' & Hin & _ & L1 & L2 & L3).
    destruct (toggle_caps_lock_run fuel (set_console c (scanned s)) log queue) as (s2 & Hr & Hok2 & Hp2 & HS); [|done|done|].
    { constructor; cbn; rewrite ?Hin; cbn; (done || congruence || lia). }
    rewrite (bind_ok _ _ _ _ _ Hr). eexists. split; [reflexivity|]. split; [exact Hok2|]. split; [|by rewrite H1].
    destruct Hp as (P1 & P2 & P3), Hp2 as (P4 & P5 & P6). cbn in *. split_and!; congruence.
  - destruct (shown_run (press_key (scan_code s)) _ _ Hc' Hcode) as (c & Hok & Hp & ->).
    destruct (press_key_run (scan_code s) (set_console c (scanned s))) as (c2 & Hr & Hw); [|done|].
    { by apply (same_place_window (kb_console s)). }
    rewrite (bind_ok _ _ _ _ _ Hr). eexists. split; [reflexivity|]. split; [exact (proj1 (proj1 Hw))|exact Hw].
Qed.
End Total.

(** ** Properties *)

#[local] Existing Instance chip_ports.
#[local] Existing Instance chip_controller.

(** A keyboard that delivers the bytes of a list. *)
Definition typed (codes : list Z) : keyboard ps2_chip := Keyboard blank 0 0 0 0 (Ps2Chip [] codes 0) 0.

(** C32. The interrupt handler returns on a well-formed console, for every byte, and moves the modifier state
    (releasing, shift, caps lock, extended) by one step of the state machine of scan code set 2, signals
    the end of the interrupt exactly once, and keeps the console well formed. Needed: for a key that
    prints, that the cursor is in the window, where it is again afterwards; for the down arrow, that the window is not
    at the end of the history; for caps lock, a controller and a keyboard that answer within the fuel: the
    LED command goes out with the new state. Prefixes and releases leave the console alone, an arrow moves
    the window by one line. *)
Theorem keyboard_interrupt_steps_modifiers {P} {PD : PortDevices P} {KC : KeyboardController P} fuel (s : keyboard P) :
  console_ok (kb_console s) → handler_ready fuel s →
  ∃ s', interrupt_handle_keyboard fuel s = Ok (tt, s') ∧
    modifiers_of s' = modifier_step (scan_code s) (modifiers_of s) ∧
    end_of_interrupt s' = end_of_interrupt s + 1 ∧ handled s s'.
Proof.
  intros Hc Hready. destruct (keyboard_handler_run fuel s Hc Hready) as (s' & Hr & Hh). exists s'.
  destruct (handler_modifiers fuel s s' Hr) as [Hm He]. done.
Qed.

Lemma keyboard_interrupt_steps_modifiers_witness :
  ∃ s', interrupt_handle_keyboard 3 (typed [0x58]) = Ok (tt, s') ∧ caps_lock s' = 1 ∧ end_of_interrupt s' = 1 ∧
    chip_sent (kb_devices s') = [(KEYBOARD_DATA_REGISTER, 4); (KEYBOARD_DATA_REGISTER, 0xED)].
Proof.
  destruct (keyboard_interrupt_steps_modifiers 3 (typed [0x58])) as (s' & Hr & Hm & He & _ & _ & HS).
  - exact blank_ok.
  - split; [cbn; lia|]. split; [|exists [], 0x58, []; constructor; [exact blank_ok|done|done|cbn; lia]].
    intros v Hv. repeat (apply elem_of_cons in Hv as [->|Hv]; [discriminate|]). by apply elem_of_nil in Hv.
  - exists s'. split; [exact Hr|]. split; [by injection Hm|]. split; [exact He|exact HS].
Defined.

(** Releasing a key prints nothing: after the release prefix, any byte that is not a prefix
    leaves the console alone, ends the release, clears the extended flag, and clears shift exactly for
    the two shift keys. *)
Theorem keyboard_release_prints_nothing {P} {PD : PortDevices P} fuel (s : keyboard P) :
  truthy (releasing s) = true → scan_code s ≠ 0xF0 → scan_code s ≠ 0xE0 → scan_code s ≠ 0xE1 → scan_code s ≠ 0xE2 →
  ∃ s', interrupt_handle_keyboard fuel s = Ok (tt, s') ∧ kb_console s' = kb_console s ∧
    modifiers_of s' = Modifiers 0 (if is_shift (scan_code s) then 0 else shift s) (caps_lock s) 0 ∧
    end_of_interrupt s' = end_of_interrupt s + 1.
Proof.
  intros Hrel H1 H2 H3 H4. unfold interrupt_handle_keyboard. rewrite (bind_ok _ _ _ _ _ (in8_scan s)).
  rewrite (proj2 (Z.eqb_neq _ _) H1), (proj2 (Z.eqb_neq _ _) H2), (proj2 (Z.eqb_neq _ _) H3), (proj2 (Z.eqb_neq _ _) H4).
  cbn [orb]. rewrite bind_assoc, bind_gets. change (releasing (scanned s)) with (releasing s). rewrite Hrel.
  destruct (is_shift (scan_code s)); eexists; (split; [reflexivity|done]).
Qed.

Lemma keyboard_release_prints_nothing_witness :
  ∃ s', interrupt_handle_keyboard 1 (set_releasing 1 (set_shift 1 (typed [0x59]))) = Ok (tt, s') ∧
    kb_console s' = blank ∧ shift s' = 0.
Proof.
  destruct (keyboard_release_prints_nothing 1 (set_releasing 1 (set_shift 1 (typed [0x59])))) as (s' & Hr & Hc & Hm & _);
    [done|discriminate|discriminate|discriminate|discriminate|].
  exists s'. split; [exact Hr|]. split; [exact Hc|]. by injection Hm.
Defined.

(** Pressing any key that is not a modifier, an arrow, enter or backspace, on a well-formed
    console: the handler reads inside the scan code table for every byte, shows the code in the corner
    without moving the cursor, prints exactly the text the table has for the key (nothing when it has
    none), keeps the console well formed and signals the end of the interrupt. *)
Theorem keyboard_prints_key_text {P} {PD : PortDevices P} fuel (s : keyboard P) :
  console_ready (kb_console s) → truthy (releasing s) = false → ordinary (scan_code s) (truthy (extended s)) →
  ∃ c1 c2, show_key (scan_code s) (kb_console s) = Ok (tt, c1) ∧
    cursor_x c1 = cursor_x (kb_console s) ∧ cursor_y c1 = cursor_y (kb_console s) ∧
    console_print (key_text s (scan_code s)) c1 = Ok (tt, c2) ∧ console_ready c2 ∧
    interrupt_handle_keyboard fuel s = Ok (tt, signal_eoi (set_extended 0 (set_console c2 (scanned s)))).
Proof.
  intros Hc Hrel Ho. destruct (ordinary_key_ok fuel s Hc Hrel Ho) as (c1 & c2 & H1 & H2 & H3 & _ & H4 & H5 & H6).
  by exists c1, c2.
Qed.

Lemma keyboard_prints_key_text_witness :
  ∃ c1 c2, show_key 0x1c blank = Ok (tt, c1) ∧ console_print [97] c1 = Ok (tt, c2).
Proof.
  destruct (keyboard_prints_key_text 1 (typed [0x1c]) blank_ready eq_refl) as (c1 & c2 & H1 & _ & _ & H2 & _).
  - repeat split; discriminate.
  - exists c1, c2. split; [exact H1|exact H2].
Defined.

(** ** Observations *)

(** One interrupt per byte. *)
Fixpoint type_bytes (n : nat) (s : keyboard ps2_chip) : outcome (keyboard ps2_chip) :=
  match n with
  | O => Ok s
  | S n' => match interrupt_handle_keyboard 10 s with
            | Ok (_, s) => type_bytes n' s
            | Undef => Undef
            | Hang => Hang
            end
  end.

(** On a fresh screen: arrow down, then backspace, then a letter. Backspace
    takes the distance of the cursor from the window, which is below zero, for
    a line number; the letter is written outside the history. *)
Example backspace_above_window :
  type_bytes 4 (typed [0xE0; 0x72; 0x66; 0x1C]) = Undef.
Proof. vm_compute. reflexivity. Qed.

(** Shift and "1" print "1", shift and the space bar print "Shift+Space". *)
Example shifted_texts :
  scancodes_shift !! 0x16%nat = Some (Some "1") ∧ scancodes_shift !! 0x29%nat = Some (Some "Shift+Space").
Proof. split; reflexivity. Qed.

(** The keys that scroll are the arrows of the table of extended keys, which the driver does not read, and
    every key of that table has a name in [keynames2]. *)
Lemma scroll_keys_are_arrows :
  scancodes_extended_normal !! 0x75%nat = Some (Some "UpArrow") ∧
  scancodes_extended_normal !! 0x72%nat = Some (Some "DownArrow") ∧
  Forall (λ x, x ∈ keynames2) (omap id scancodes_extended_normal).
Proof.
  split; [reflexivity|]. split; [reflexivity|]. apply (bool_decide_unpack _). vm_compute. exact I.
Qed.
