(* ===== verification/KeyboardInit.v ===== *)
(** * Setting up the keyboard

    Models [keyboard_initialize] of [src/src/common/keyboard.c]: the self test
    and set-up of the PS/2 controller, the interrupt gate and the entry of the
    IO APIC. It runs on the state of the driver, of the CPU and of the IO
    APIC together. [KeyboardInitSpec] has the theorems. *)

From S2P Require Import Prelude Memory Util Console Scancodes Port Keyboard.
From S2P Require Import Allocator Paging Cpu Idt Apic.

Record keyboard_machine (P A D : Type) := KeyboardMachine {
  km_keyboard : keyboard P;
  km_cpu : cpu_state A;
  km_ioapic : D
}.
Arguments KeyboardMachine {P A D}.
Arguments km_keyboard {P A D}.
Arguments km_cpu {P A D}.
Arguments km_ioapic {P A D}.

Section KeyboardInit.
Context {P A D : Type} {PD : PortDevices P} {PA : PageAllocator A} {ID : IoApicDevice D}.

Definition on_keyboard {R} (m : M (keyboard P) R) : M (keyboard_machine P A D) R := λ s,
  match m (km_keyboard s) with
  | Ok (r, k) => Ok (r, KeyboardMachine k (km_cpu s) (km_ioapic s)) | Undef => Undef | Hang => Hang
  end.
Definition on_processor {R} (m : M (cpu_state A) R) : M (keyboard_machine P A D) R := λ s,
  match m (km_cpu s) with
  | Ok (r, c) => Ok (r, KeyboardMachine (km_keyboard s) c (km_ioapic s)) | Undef => Undef | Hang => Hang
  end.
Definition on_ioapic {R} (m : M D R) : M (keyboard_machine P A D) R := λ s,
  match m (km_ioapic s) with
  | Ok (r, d) => Ok (r, KeyboardMachine (km_keyboard s) (km_cpu s) d) | Undef => Undef | Hang => Hang
  end.

Definition message (text : string) : M (keyboard P) unit := on_console (Console.console_print (chars (text +:+ nl))).

(** Lines 221 to 244: controller and device. *)
Definition configure_controller (fuel : nat) : M (keyboard P) unit :=
  keyboard_write_command fuel 0x60 ;;;
  keyboard_write_data fuel 7 ;;;
  keyboard_write_command fuel 0xAE ;;;
  keyboard_write_command fuel 0xA8 ;;;
  keyboard_write_data fuel 0xFF ;;;
  let! _ := keyboard_read_data fuel in
  let! _ := keyboard_read_data fuel in
  keyboard_write_data fuel 0xF0 ;;;
  let! _ := keyboard_read_data fuel in
  keyboard_write_data fuel 2 ;;;
  let! _ := keyboard_read_data fuel in
  ret tt.

(** [handler] is the address of [interrupt_handle_keyboard], [local_apic_id]
    the id register of the local APIC, read at its physical address. *)
Definition keyboard_initialize (fuel : nat) (handler local_apic_id : Z) : M (keyboard_machine P A D) unit :=
  on_keyboard (message "testing keyboard") ;;;
  on_keyboard (keyboard_write_command fuel 0xAA) ;;;
  let! result := on_keyboard (keyboard_read_data fuel) in
  if negb (result =? 0x55) then on_keyboard (message "keyboard test FAILED!")
  else
    on_keyboard (message "keyboard test OK!") ;;;
    on_keyboard (configure_controller fuel) ;;;
    on_keyboard (message "registering interrupt") ;;;
    on_processor (modify (set_interrupts false)) ;;;
    on_processor (idt_register_interrupt 0x23 handler IDT_GATE_TYPE_TRAP 0) ;;;
    on_processor (modify (set_interrupts true)) ;;;
    on_ioapic (apic_io_register 1 (fixed_entry 0x23 (Z.land (Z.shiftr local_apic_id 24) 0xFF))) ;;;
    on_keyboard (message "keyboard configuration done").
End KeyboardInit.
