(* ===== verification/KeyboardInitSpec.v ===== *)
(** * Correctness of the keyboard set-up

    With a controller that answers, [keyboard_initialize] sends exactly its
    commands in order and connects the interrupt; when the self test fails it
    stops after the test. *)

From S2P Require Import Prelude Memory Util Console ConsoleSpec Scancodes Port Keyboard KeyboardController.
From S2P Require Import Allocator Physical PhysicalSpec Paging Cpu CpuSpec Machine Idt IdtSpec Apic ApicSpec KeyboardInit.

Section Message.
Context {P : Type} {PD : PortDevices P} {KC : KeyboardController P}.

Lemma message_run text s log queue :
  controller console_ready s log queue → ∃ s', message text s = Ok (tt, s') ∧ controller console_ready s' log queue.
Proof.
  intros [Hc H1 H2 H3]. unfold message, on_console.
  destruct (console_print_ok (chars (text +:+ nl)) (kb_console s) Hc) as (c & -> & Hok).
  eexists. split; [reflexivity|]. by constructor.
Qed.

End Message.

(** ** The whole set-up *)

(** The bytes after the self test, in order. *)
Definition configuration : list (Z * Z) :=
  [(KEYBOARD_COMMAND_REGISTER, 0x60); (KEYBOARD_DATA_REGISTER, 7); (KEYBOARD_COMMAND_REGISTER, 0xAE);
   (KEYBOARD_COMMAND_REGISTER, 0xA8); (KEYBOARD_DATA_REGISTER, 0xFF); (KEYBOARD_DATA_REGISTER, 0xF0);
   (KEYBOARD_DATA_REGISTER, 2)].

(** A PS/2 controller with a keyboard whose self test answers [test]. *)
Record ps2 {P : Type} {PD : PortDevices P} {KC : KeyboardController P} (test : Z) : Prop := Ps2 {
  ps2_test : answer KEYBOARD_COMMAND_REGISTER 0xAA = [test];
  ps2_quiet : answer KEYBOARD_COMMAND_REGISTER 0x60 = [] ∧ answer KEYBOARD_DATA_REGISTER 7 = [] ∧
    answer KEYBOARD_COMMAND_REGISTER 0xAE = [] ∧ answer KEYBOARD_COMMAND_REGISTER 0xA8 = [];
  ps2_reset : answer KEYBOARD_DATA_REGISTER 0xFF = [0xFA; 0xAA];
  ps2_set : answer KEYBOARD_DATA_REGISTER 0xF0 = [0xFA] ∧ answer KEYBOARD_DATA_REGISTER 2 = [0xFA]
}.

Section KeyboardInit.
Context {P A D : Type} {PD : PortDevices P} {KC : KeyboardController P} {PA : PageAllocator A}.
Context {ID : IoApicDevice D} {IL : IoApic D}.

(** Bytes written and read one after the other. *)
Inductive action := Send (port v : Z) | Receive.

Definition run_action (fuel : nat) (a : action) : M (keyboard P) unit :=
  match a with
  | Send port v => wait_microsecond ;;; poll_status fuel input_empty ;;; out8 port v
  | Receive => let! _ := keyboard_read_data fuel in ret tt
  end.

Fixpoint run_script (fuel : nat) (l : list action) : M (keyboard P) unit :=
  match l with
  | [] => ret tt
  | a :: l => run_action fuel a ;;; run_script fuel l
  end.

(** What a script does to the bytes sent and the replies; [None] when it waits
    for a reply that does not come. *)
Fixpoint script_effect (l : list action) (log : list (Z * Z)) (queue : list Z) : option (list (Z * Z) * list Z) :=
  match l with
  | [] => Some (log, queue)
  | Send port v :: l => script_effect l ((port, v) :: log) (queue ++ answer port v)
  | Receive :: l => match queue with [] => None | _ :: queue => script_effect l log queue end
  end.

Definition action_ok (a : action) : Prop := match a with
  | Send port v => port ∈ [KEYBOARD_DATA_REGISTER; KEYBOARD_COMMAND_REGISTER] ∧ 0 ≤ v < 2 ^ 8
  | Receive => True
  end.

Lemma script_run fuel l : (patience < fuel)%nat → Forall action_ok l → ∀ s log queue log' queue',
  controller console_ready s log queue → script_effect l log queue = Some (log', queue') →
  ∃ s', run_script fuel l s = Ok (tt, s') ∧ controller console_ready s' log' queue'.
Proof using Type.
  intros Hf Hok. induction Hok as [|a l Ha _ IH]; intros s log queue log' queue' Hs He; cbn [run_script script_effect] in *.
  - injection He as <- <-. by exists s.
  - destruct a as [port v|]; cbn [run_action].
    + destruct Ha as [Hp Hv]. destruct (write_run_to console_ready port v s log queue fuel Hs Hf Hp Hv) as (s1 & Hr & Hs1).
      rewrite (bind_ok _ _ _ _ _ Hr). by eapply IH.
    + destruct queue as [|r queue]; [done|]. destruct (read_data_run console_ready s log r queue fuel Hs Hf) as (s1 & Hr & Hs1).
      rewrite bind_assoc, (bind_ok _ _ _ _ _ Hr), bind_ret. by eapply IH.
Qed.

Definition command (v : Z) : action := Send KEYBOARD_COMMAND_REGISTER v.
Definition data (v : Z) : action := Send KEYBOARD_DATA_REGISTER v.

Definition configuration_script : list action :=
  [command 0x60; data 7; command 0xAE; command 0xA8; data 0xFF; Receive; Receive; data 0xF0; Receive; data 2; Receive].

Lemma configure_script fuel s : configure_controller fuel s = run_script fuel configuration_script s.
Proof using Type.
  unfold configuration_script, command, data. cbn [run_script run_action]. unfold configure_controller.
  repeat first [apply bind_cong; intros ? ? _ | rewrite bind_assoc; apply bind_cong; intros ? ? _; rewrite bind_ret].
  reflexivity.
Qed.

Lemma configuration_ok : Forall action_ok configuration_script.
Proof using Type.
  unfold configuration_script, command, data.
  repeat (apply list.Forall_cons; split; [cbn [action_ok]; first [done|split; [set_unfold; tauto|lia]]|]). done.
Qed.

Lemma configure_run test s log fuel :
  ps2 test → controller console_ready s log [] → (patience < fuel)%nat →
  ∃ s', configure_controller (P := P) fuel s = Ok (tt, s') ∧ controller console_ready s' (reverse configuration ++ log) [].
Proof using Type.
  intros [_ (Q1 & Q2 & Q3 & Q4) QR (QF & Q5)] H0 Hf. rewrite configure_script.
  apply (script_run fuel configuration_script Hf configuration_ok s log [] _ _ H0).
  unfold configuration_script, command, data. cbn [script_effect app].
  rewrite Q1. cbn [app]. rewrite Q2. cbn [app]. rewrite Q3. cbn [app]. rewrite Q4. cbn [app].
  rewrite QR. cbn [app]. rewrite QF. cbn [app]. rewrite Q5. reflexivity.
Qed.

(** ** The machine *)

Implicit Type s : keyboard_machine P A D.

Lemma bind_on_keyboard {R R'} (m : M (keyboard P) R) (k : R → M (keyboard_machine P A D) R') s r kb :
  m (km_keyboard s) = Ok (r, kb) → bind (on_keyboard m) k s = k r (KeyboardMachine kb (km_cpu s) (km_ioapic s)).
Proof using Type. unfold bind, on_keyboard. by intros ->. Qed.

Lemma bind_on_processor {R R'} (m : M (cpu_state A) R) (k : R → M (keyboard_machine P A D) R') s r c :
  m (km_cpu s) = Ok (r, c) → bind (on_processor m) k s = k r (KeyboardMachine (km_keyboard s) c (km_ioapic s)).
Proof using Type. unfold bind, on_processor. by intros ->. Qed.

Lemma bind_on_ioapic {R R'} (m : M D R) (k : R → M (keyboard_machine P A D) R') s r d :
  m (km_ioapic s) = Ok (r, d) → bind (on_ioapic m) k s = k r (KeyboardMachine (km_keyboard s) (km_cpu s) d).
Proof using Type. unfold bind, on_ioapic. by intros ->. Qed.

(** The interrupt of the keyboard is connected: the gate in the table [table]
    and entry 1 of the IO APIC. *)
Record connected (table handler id : Z) s s' : Prop := Connected {
  conn_gate : ∃ level, read_gate (s_mem (km_cpu s')) (gate_address table 0x23) = Gate handler 8 0 15 level 1;
  conn_frame : ∀ x, ¬ (gate_address table 0x23 ≤ x < gate_address table 0x23 + 12) →
    load8 (s_mem (km_cpu s')) x = load8 (s_mem (km_cpu s)) x;
  conn_enabled : s_interrupts (km_cpu s') = true;
  conn_entry : word_entry (entry_at (km_ioapic s') 1) =
    with_status (fixed_entry 0x23 id) (word_entry (entry_at (km_ioapic s) 1));
  conn_others : ∀ j, 0 ≤ j < 24 → j ≠ 1 → entry_at (km_ioapic s') j = entry_at (km_ioapic s) j
}.

Lemma connect_run table handler id s log :
  controller console_ready (km_keyboard s) log [] → idt_state (km_cpu s) table → 0 ≤ handler < 2 ^ 64 → 0 ≤ id < 2 ^ 8 →
  ∃ s', (on_processor (modify (set_interrupts false)) ;;;
    on_processor (idt_register_interrupt 0x23 handler IDT_GATE_TYPE_TRAP 0) ;;;
    on_processor (modify (set_interrupts true)) ;;;
    on_ioapic (apic_io_register 1 (fixed_entry 0x23 id)) ;;;
    on_keyboard (message "keyboard configuration done")) s = Ok (tt, s') ∧
    controller console_ready (km_keyboard s') log [] ∧ connected table handler id s s'.
Proof using IL.
  intros Hs Hidt Hh Hid. erewrite bind_on_processor by reflexivity.
  assert (idt_state (set_interrupts false (km_cpu s)) table) as Hidt' by (by destruct Hidt).
  erewrite bind_on_processor by (cbn [km_cpu]; exact (register_run _ _ _ _ _ _ Hidt')).
  erewrite bind_on_processor by reflexivity.
  set (e := fixed_entry 0x23 id).
  assert (entry_typed e) as He by (constructor; cbn; lia).
  destruct (set_entry_run 1 (entry_word e) (km_ioapic s) ltac:(lia) (entry_word_range e)) as (d & Hr & Hd).
  erewrite bind_on_ioapic by exact Hr. cbn [km_keyboard km_cpu km_ioapic].
  destruct (message_run "keyboard configuration done" (km_keyboard s) log [] Hs) as (kb & Hm & Hs').
  eexists (KeyboardMachine kb _ d). split; [unfold on_keyboard; cbn [km_keyboard]; by rewrite Hm|]. split; [exact Hs'|].
  assert (∀ (c : cpu_state A) f, s_mem (set_interrupts true (with_mem f (if truthy (gate_present (s_mem c) (gate_address table 0x23))
    then with_log (warning 0x23) c else c))) = f (s_mem c)) as Em by (intros c f; by destruct (truthy _)).
  constructor; cbn [km_cpu km_ioapic].
  - eexists. rewrite Em. by apply (read_write_gate _ handler 15 0).
  - intros x Hx. rewrite Em. by apply write_gate_outside.
  - by destruct (truthy _).
  - rewrite (set_entry_fields 1 _ (km_ioapic s) d ltac:(lia) Hd). by rewrite word_entry_word.
  - intros j Hj Hne. unfold entry_at. by rewrite !Hd, !(proj2 (Z.eqb_neq _ _)) by lia.
Qed.

(** C13. [keyboard_initialize] with a controller that answers: it tests the controller, and when the
    test succeeds sends exactly the configuration bytes in order, reads every reply, and connects the
    interrupt: the gate of vector 0x23 leads to the handler, entry 1 of the IO APIC carries the vector to
    this processor, other gates and entries keep their value. When the test fails nothing else is
    sent or changed. *)
Theorem keyboard_initialize_spec test table handler local_apic_id fuel s log :
  ps2 test → controller console_ready (km_keyboard s) log [] → idt_state (km_cpu s) table → 0 ≤ handler < 2 ^ 64 → (patience < fuel)%nat →
  ∃ s', keyboard_initialize fuel handler local_apic_id s = Ok (tt, s') ∧
    let tested := (KEYBOARD_COMMAND_REGISTER, 0xAA) :: log in
    if decide (test = 0x55) then
      controller console_ready (km_keyboard s') (reverse configuration ++ tested) [] ∧
      connected table handler (Z.land (Z.shiftr local_apic_id 24) 0xFF) s s'
    else controller console_ready (km_keyboard s') tested [] ∧ km_cpu s' = km_cpu s ∧ km_ioapic s' = km_ioapic s.
Proof using IL.
  intros Hps Hs Hidt Hh Hf. unfold keyboard_initialize.
  destruct (message_run "testing keyboard" _ _ _ Hs) as (k1 & Hr1 & H1). erewrite bind_on_keyboard by exact Hr1.
  destruct (write_run_to console_ready KEYBOARD_COMMAND_REGISTER 0xAA k1 _ _ fuel H1 Hf) as (k2 & Hr2 & H2); [by right; left|lia|].
  erewrite bind_on_keyboard by exact Hr2. rewrite (ps2_test _ Hps) in H2. cbn [app] in H2.
  destruct (read_data_run console_ready k2 _ _ _ fuel H2 Hf) as (k3 & Hr3 & H3). erewrite bind_on_keyboard by exact Hr3.
  destruct (Z.eqb_spec test 0x55) as [->|Hne]; cbn [negb km_cpu km_ioapic].
  - destruct (message_run "keyboard test OK!" _ _ _ H3) as (k4 & Hr4 & H4). erewrite bind_on_keyboard by exact Hr4.
    destruct (configure_run _ k4 _ fuel Hps H4 Hf) as (k5 & Hr5 & H5). erewrite bind_on_keyboard by exact Hr5.
    destruct (message_run "registering interrupt" _ _ _ H5) as (k6 & Hr6 & H6). erewrite bind_on_keyboard by exact Hr6.
    cbn [km_cpu km_ioapic]. set (s6 := KeyboardMachine k6 (km_cpu s) (km_ioapic s)).
    assert (0 ≤ Z.land (Z.shiftr local_apic_id 24) 0xFF < 2 ^ 8) as Hid.
    { change 0xFF with (2 ^ 8 - 1). rewrite land_ones_mod by lia. apply Z.mod_pos_bound. lia. }
    destruct (connect_run table handler _ s6 _ H6 Hidt Hh Hid) as (s' & Hr & Hc & Hconn).
    exists s'. split; [exact Hr|]. rewrite decide_True by done. split; [exact Hc|]. by destruct Hconn.
  - destruct (message_run "keyboard test FAILED!" _ _ _ H3) as (k4 & Hr4 & H4).
    eexists (KeyboardMachine k4 (km_cpu s) (km_ioapic s)).
    split; [unfold on_keyboard; cbn [km_keyboard]; by rewrite Hr4|]. by rewrite decide_False.
Qed.
End KeyboardInit.

(** ** A concrete machine *)

#[local] Existing Instance chip_ports.
#[local] Existing Instance chip_controller.
#[local] Existing Instance ioapic0_device.
#[local] Existing Instance ioapic0_laws.

Lemma chip_ps2 : ps2 (P := ps2_chip) 0x55.
Proof. by constructor. Qed.

Definition keyboard_machine0 : keyboard_machine ps2_chip phys ioapic0 :=
  KeyboardMachine (Keyboard blank 0 0 0 0 (Ps2Chip [] [] 0) 0) cpu0 ioapic_empty.

Lemma keyboard_initialize_spec_witness :
  ∃ s', keyboard_initialize 4 0x105000 0 keyboard_machine0 = Ok (tt, s') ∧
    chip_sent (kb_devices (km_keyboard s')) = reverse configuration ++ [(KEYBOARD_COMMAND_REGISTER, 0xAA)] ∧
    entry_vector (word_entry (entry_at (km_ioapic s') 1)) = 0x23.
Proof.
  destruct (keyboard_initialize_spec 0x55 0x2000 0x105000 0 4 keyboard_machine0 []) as (s' & Hr & H).
  - exact chip_ps2.
  - constructor; [exact blank_ready|reflexivity|reflexivity|cbn; lia].
  - constructor; [by vm_compute|by vm_compute|cbn; lia].
  - lia.
  - cbn. lia.
  - exists s'. split; [exact Hr|]. destruct H as [Hc Hconn]. split; [exact (ctl_sent _ _ _ _ Hc)|].
    rewrite (conn_entry _ _ _ _ _ Hconn). reflexivity.
Defined.
