(* ===== verification/Programs.v ===== *)
(** * Test programs and the entry of the other processors

    Models the endless test programs, [console_debug] and
    [interrupt_handle_test] of [src/src/common/main.c], and [cpu_entrypoint] of
    [src/src/common/entrypoint.c]. They run on the console and the time stamp
    counter. A program that does not end is modelled by the number of rounds
    of its loop, so that its state after each round can be stated: they keep
    the console well formed, print the counters they are meant to, and wait a
    hundred milliseconds in every round. *)

From S2P Require Import Prelude Memory Util UtilSpec Console ConsoleSpec Scancodes Port Keyboard.
From S2P Require Import CpuInit CpuInitSpec.

(** [pr_counter] is the static variable [counter] of [main.c], [pr_eoi] counts
    the end-of-interrupt writes, [pr_started] is [cpu_startup_increment]. *)
Record program_state (T : Type) := ProgramState {
  pr_console : console;
  pr_time : T;
  pr_counter : Z;
  pr_eoi : Z;
  pr_started : Z
}.
Arguments ProgramState {T}.
Arguments pr_console {T}.
Arguments pr_time {T}.
Arguments pr_counter {T}.
Arguments pr_eoi {T}.
Arguments pr_started {T}.

Section Programs.
Context {T : Type} {TC : TimestampCounter T}.
Implicit Types (s : program_state T).

Definition screen (m : M console unit) : M (program_state T) unit := λ s,
  match m (pr_console s) with
  | Ok (_, c) => Ok (tt, ProgramState c (pr_time s) (pr_counter s) (pr_eoi s) (pr_started s))
  | Undef => Undef
  | Hang => Hang
  end.
Definition wait_millisecond (fuel : nat) : M (program_state T) unit := λ s,
  match CpuInit.cpu_wait_millisecond fuel (pr_time s) with
  | Ok (_, t) => Ok (tt, ProgramState (pr_console s) t (pr_counter s) (pr_eoi s) (pr_started s))
  | Undef => Undef
  | Hang => Hang
  end.

Definition console_debug (str : string) (value base : Z) : M (program_state T) unit :=
  screen (console_print (chars str)) ;;;
  screen (console_print_u64 value base) ;;;
  screen console_new_line.

(** ** The test programs *)

(** The body of the loop: a line with the counter, then a hundred milliseconds. *)
Definition round (fuel : nat) (label : string) (counter : Z) : M (program_state T) unit :=
  console_debug label counter 10 ;;;
  for_loop 100 0 (λ _, wait_millisecond fuel).

(** [n] rounds of the loop; the result is the counter after them. *)
Fixpoint rounds (n fuel : nat) (label : string) (next : Z → Z) (counter : Z) : M (program_state T) Z :=
  match n with
  | O => ret counter
  | S n' => round fuel label counter ;;; rounds n' fuel label next (next counter)
  end.

Definition program (n fuel : nat) (start label : string) (next : Z → Z) (counter : Z) : M (program_state T) Z :=
  screen (console_print (chars (start +:+ nl))) ;;;
  rounds n fuel label next counter.

Definition next_counter1 (counter : Z) : Z := u64 (counter + 1).
Definition next_counter2 (counter : Z) : Z :=
  let counter := u64 (counter * 2) in if 2 ^ 63 <=? counter then 1 else counter.
Definition next_counter3 (counter : Z) : Z := u64 (counter + 123).

(** The first [n] rounds of each program. *)
Definition test_program (n fuel : nat) : M (program_state T) Z :=
  program n fuel "[program1] start" "[program1] add counter = " next_counter1 0.
Definition test_program2 (n fuel : nat) : M (program_state T) Z :=
  program n fuel "[program2] start" "[program2] mul counter = " next_counter2 1.
Definition test_program3 (n fuel : nat) : M (program_state T) Z :=
  program n fuel "[program3] start" "[program3] add123 counter = " next_counter3 0.

(** ** interrupt_handle_test *)

Definition interrupt_handle_test : M (program_state T) unit :=
  let! '(x, y) := gets (λ s, (cursor_x (pr_console s), u32 (cursor_y (pr_console s) - scroll (pr_console s)))) in
  screen (console_set_cursor 60 24) ;;;
  let! counter := gets pr_counter in
  modify (λ s, ProgramState (pr_console s) (pr_time s) (u64 (counter + 1)) (pr_eoi s) (pr_started s)) ;;;
  screen (console_print_u64 counter 10) ;;;
  screen (console_set_cursor x y) ;;;
  modify (λ s, ProgramState (pr_console s) (pr_time s) (pr_counter s) (pr_eoi s + 1) (pr_started s)).

(** ** cpu_entrypoint *)

(** Up to the loop that halts the processor for ever. *)
Definition cpu_entrypoint (fuel : nat) : M (program_state T) unit :=
  wait_millisecond fuel ;;;
  modify (λ s, ProgramState (pr_console s) (pr_time s) (pr_counter s) (pr_eoi s) 1).

(** ** The console stays well formed *)

Lemma holds_bytes m a l : holds m a l → (λ i, load8 m i) <$> seqZ a (Z.of_nat (length l)) = l.
Proof.
  intros H. apply list_eq. intros k. rewrite list_lookup_fmap.
  destruct (decide (k < length l)%nat) as [Hk|Hk].
  - rewrite lookup_seqZ_lt by lia. cbn [fmap option_fmap option_map].
    destruct (lookup_lt_is_Some_2 l k Hk) as [x Hx]. by rewrite (H k x Hx).
  - rewrite lookup_seqZ_ge, (lookup_ge_None_2 l) by lia. done.
Qed.

Lemma print_u64_ok number (c : console) : console_ready c → 0 ≤ number < 2 ^ 64 →
  ∃ c', console_print_u64 number 10 c = Ok (tt, c') ∧ console_ready c'.
Proof.
  intros Hc Hn. unfold console_print_u64, string_from_u64. rewrite u64_small by lia.
  destruct (string_from_unsigned_ok ∅ 0 number 10 64) as (text & [(m' & -> & _)] & _); [lia|lia|lia|].
  apply console_print_ok. exact Hc.
Qed.

Lemma screen_ok (m : M console unit) s :
  (∃ c, m (pr_console s) = Ok (tt, c) ∧ console_ready c) →
  ∃ c, screen m s = Ok (tt, ProgramState c (pr_time s) (pr_counter s) (pr_eoi s) (pr_started s)) ∧ console_ready c.
Proof. intros (c & Hr & Hc). exists c. split; [|done]. unfold screen. by rewrite Hr. Qed.

Lemma console_debug_ok str value s : console_ready (pr_console s) → 0 ≤ value < 2 ^ 64 →
  ∃ c, console_debug str value 10 s = Ok (tt, ProgramState c (pr_time s) (pr_counter s) (pr_eoi s) (pr_started s)) ∧
    console_ready c.
Proof.
  intros Hs Hv. unfold console_debug.
  destruct (screen_ok (console_print (chars str)) s) as (c1 & Hr1 & H1); [by apply console_print_ok|].
  rewrite (bind_ok _ _ _ _ _ Hr1). set (s1 := ProgramState c1 _ _ _ _).
  destruct (screen_ok (console_print_u64 value 10) s1) as (c2 & Hr2 & H2); [by apply print_u64_ok|].
  rewrite (bind_ok _ _ _ _ _ Hr2). set (s2 := ProgramState c2 _ _ _ _).
  destruct (screen_ok console_new_line s2) as (c3 & Hr3 & H3).
  { destruct (console_new_line_any _ (line_ready_of _ H2)) as (c' & Hr & Hok & _). by exists c'. }
  exists c3. split; [exact Hr3|exact H3].
Qed.
End Programs.

(** ** Time passes *)

Section Time.
Context {T : Type} {TC : TimestampCounter T} {L : TimestampLaws T}.
Implicit Types (s : program_state T).

(** [s'] is a state at least [n] ticks after [s], with a console that can be printed on. *)
Definition later (n : Z) s s' : Prop :=
  console_ready (pr_console s') ∧ ticks (pr_time s) + n ≤ ticks (pr_time s') ∧
  pr_counter s' = pr_counter s ∧ pr_eoi s' = pr_eoi s ∧ pr_started s' = pr_started s.

Lemma later_trans n1 n2 s1 s2 s3 : later n1 s1 s2 → later n2 s2 s3 → later (n1 + n2) s1 s3.
Proof. intros (_ & H1 & H2 & H3 & H4) (H5 & H6 & H7 & H8 & H9). split; [done|]. split; [lia|]. split_and!; congruence. Qed.

Lemma wait_millisecond_run fuel s :
  console_ready (pr_console s) → 10000002 ≤ Z.of_nat fuel →
  ∃ s', wait_millisecond fuel s = Ok (tt, s') ∧ later 10000000 s s'.
Proof.
  intros Hs Hf. unfold wait_millisecond, CpuInit.cpu_wait_millisecond.
  pose proof (ticks_nonneg (pr_time s)). destruct (timestamp_run (pr_time s)) as (t1 & Hrun & Ht1).
  rewrite (bind_ok _ _ _ _ _ Hrun).
  destruct (wait_loop_run 10000000 fuel (ticks (pr_time s)) (ticks (pr_time s)) t1) as (t2 & -> & Ht2); [lia..|].
  eexists. split; [reflexivity|]. split; [done|]. split; [cbn [pr_time]; lia|done].
Qed.

Lemma round_run fuel label counter s :
  console_ready (pr_console s) → 0 ≤ counter < 2 ^ 64 → 10000002 ≤ Z.of_nat fuel →
  ∃ s', round fuel label counter s = Ok (tt, s') ∧ later (100 * 10000000) s s'.
Proof.
  intros Hs Hc Hf. unfold round. destruct (console_debug_ok label counter s Hs Hc) as (c & Hr & Hok).
  rewrite (bind_ok _ _ _ _ _ Hr). set (s1 := ProgramState c _ _ _ _).
  destruct (for_loop_inv (λ i s', later (i * 10000000) s s') (λ _, wait_millisecond fuel) 100 0 s1)
    as (s' & Hr' & Hl).
  - split; [exact Hok|]. split; [cbn [pr_time s1]; lia|done].
  - intros j s2 Hj H2. destruct (wait_millisecond_run fuel s2 (proj1 H2) Hf) as (s3 & Hr3 & H3).
    exists s3. split; [exact Hr3|]. replace ((j + 1) * 10000000) with (j * 10000000 + 10000000) by lia.
    by eapply later_trans.
  - exists s'. split; [exact Hr'|exact Hl].
Qed.

Lemma rounds_run fuel label next n : ∀ counter s,
  console_ready (pr_console s) → 10000002 ≤ Z.of_nat fuel → (∀ c, 0 ≤ next c < 2 ^ 64) → 0 ≤ counter < 2 ^ 64 →
  ∃ s', rounds n fuel label next counter s = Ok (Nat.iter n next counter, s') ∧ later (Z.of_nat n * 1000000000) s s'.
Proof.
  induction n as [|n IH]; intros counter s Hs Hf Hnext Hc.
  - exists s. split; [done|]. split; [done|]. split; [lia|done].
  - cbn [rounds]. destruct (round_run fuel label counter s Hs Hc Hf) as (s1 & Hr & H1).
    rewrite (bind_ok _ _ _ _ _ Hr).
    destruct (IH (next counter) s1 (proj1 H1) Hf Hnext (Hnext counter)) as (s2 & Hr2 & H2).
    exists s2. split; [|replace (Z.of_nat (S n) * 1000000000) with (100 * 10000000 + Z.of_nat n * 1000000000) by lia;
      by eapply later_trans].
    rewrite Hr2, Nat.iter_succ_r. done.
Qed.

Lemma program_run fuel start label next n counter s :
  console_ready (pr_console s) → 10000002 ≤ Z.of_nat fuel → (∀ c, 0 ≤ next c < 2 ^ 64) → 0 ≤ counter < 2 ^ 64 →
  ∃ s', program n fuel start label next counter s = Ok (Nat.iter n next counter, s') ∧
    later (Z.of_nat n * 1000000000) s s'.
Proof.
  intros Hs Hf Hnext Hc. unfold program.
  destruct (screen_ok (console_print (chars (start +:+ nl))) s) as (c & Hr & Hok); [by apply console_print_ok|].
  rewrite (bind_ok _ _ _ _ _ Hr). set (s1 := ProgramState c _ _ _ _).
  destruct (rounds_run fuel label next n counter s1 Hok Hf Hnext Hc) as (s' & Hr' & H').
  exists s'. split; [exact Hr'|exact H'].
Qed.

(** ** What the programs count *)

Lemma iter_counter1 n : Z.of_nat n < 2 ^ 64 → Nat.iter n next_counter1 0 = Z.of_nat n.
Proof.
  induction n as [|n IH]; intros Hn; [done|]. rewrite Nat.iter_succ, IH by lia.
  unfold next_counter1. rewrite u64_small; lia.
Qed.

Lemma iter_counter3 n : Nat.iter n next_counter3 0 = u64 (123 * Z.of_nat n).
Proof.
  induction n as [|n IH]; [done|]. rewrite Nat.iter_succ, IH. unfold next_counter3, u64.
  rewrite Zplus_mod_idemp_l. f_equal. lia.
Qed.

(** Doubling starts again after 2^62. *)
Lemma iter_counter2 n : Nat.iter n next_counter2 1 = 2 ^ (Z.of_nat n mod 63).
Proof.
  induction n as [|n IH]; [done|]. rewrite Nat.iter_succ, IH. unfold next_counter2.
  pose proof (Z.mod_pos_bound (Z.of_nat n) 63 ltac:(lia)) as Hr. set (r := Z.of_nat n mod 63) in *.
  assert (2 ^ r * 2 = 2 ^ (r + 1)) as Hp by (rewrite Z.pow_add_r by lia; done).
  assert (2 ^ (r + 1) ≤ 2 ^ 63) by (apply Z.pow_le_mono_r; lia).
  pose proof (Z.pow_pos_nonneg 2 (r + 1) ltac:(lia) ltac:(lia)).
  rewrite Hp, u64_small by lia. destruct (decide (r = 62)) as [E|E].
  - rewrite E. change (2 ^ 63 <=? 2 ^ (62 + 1)) with true. cbn [negb].
    replace (Z.of_nat (S n) mod 63) with 0; [done|]. unfold r in E. divmod_lia.
  - assert (2 ^ (r + 1) < 2 ^ 63) by (apply Z.pow_lt_mono_r; lia).
    rewrite (proj2 (Z.leb_gt _ _)) by lia. f_equal. unfold r in *. divmod_lia.
Qed.

Lemma next_counters_range c :
  0 ≤ next_counter1 c < 2 ^ 64 ∧ 0 ≤ next_counter2 c < 2 ^ 64 ∧ 0 ≤ next_counter3 c < 2 ^ 64.
Proof.
  split_and!; try apply u64_range. all: unfold next_counter2; destruct (_ <=? _); try lia; apply u64_range.
Qed.

(** The test programs run for ever on a console that can be printed on: after [n] rounds, each of a hundred
    milliseconds or more, the first has counted to [n], the second shows the powers of two below 2^63 over
    and over, the third the multiples of 123. *)
Lemma test_programs_run n fuel s :
  console_ready (pr_console s) → 10000002 ≤ Z.of_nat fuel → Z.of_nat n < 2 ^ 64 →
  (∃ s', test_program n fuel s = Ok (Z.of_nat n, s') ∧ later (Z.of_nat n * 1000000000) s s') ∧
  (∃ s', test_program2 n fuel s = Ok (2 ^ (Z.of_nat n mod 63), s') ∧ later (Z.of_nat n * 1000000000) s s') ∧
  (∃ s', test_program3 n fuel s = Ok (u64 (123 * Z.of_nat n), s') ∧ later (Z.of_nat n * 1000000000) s s').
Proof.
  intros Hs Hf Hn.
  assert (∀ start label next counter, (∀ c, 0 ≤ next c < 2 ^ 64) → 0 ≤ counter < 2 ^ 64 →
    ∃ s', program n fuel start label next counter s = Ok (Nat.iter n next counter, s') ∧
      later (Z.of_nat n * 1000000000) s s') as Hrun by (intros; by apply program_run).
  split_and!; [edestruct (Hrun "[program1] start" "[program1] add counter = " next_counter1 0) as (s' & Hr & Hl)
    |edestruct (Hrun "[program2] start" "[program2] mul counter = " next_counter2 1) as (s' & Hr & Hl)
    |edestruct (Hrun "[program3] start" "[program3] add123 counter = " next_counter3 0) as (s' & Hr & Hl)];
    try lia; try (intros c; apply (next_counters_range c)); exists s'; (split; [|exact Hl]).
  - rewrite iter_counter1 in Hr by done. exact Hr.
  - rewrite iter_counter2 in Hr. exact Hr.
  - rewrite iter_counter3 in Hr. exact Hr.
Qed.

(** ** The handler and the entry point *)

Lemma interrupt_handle_test_run s : console_ready (pr_console s) → 0 ≤ pr_counter s < 2 ^ 64 →
  ∃ s', interrupt_handle_test s = Ok (tt, s') ∧ pr_counter s' = u64 (pr_counter s + 1) ∧ pr_eoi s' = pr_eoi s + 1.
Proof.
  intros [Hs _] Hc. pose proof Hs as [Hx Hy Hsc _]. console_consts. unfold interrupt_handle_test. rewrite bind_gets.
  set (c1 := set_cursor 60 (u32 (24 + scroll (pr_console s))) (pr_console s)).
  assert (console_ready c1) as H1 by (unfold c1; rewrite u32_small by lia; apply console_ready_cursor; (done || lia)).
  destruct (print_u64_ok (pr_counter s) c1 H1 Hc) as (c2 & Hr2 & _).
  set (place c := ProgramState c (pr_time s)).
  rewrite (bind_ok _ _ s tt (place c1 (pr_counter s) (pr_eoi s) (pr_started s)) eq_refl), bind_gets, bind_modify.
  change (pr_counter (place _ _ _ _)) with (pr_counter s).
  set (s1 := ProgramState _ _ _ _ _). set (s2 := place c2 (u64 (pr_counter s + 1)) (pr_eoi s) (pr_started s)).
  assert (screen (console_print_u64 (pr_counter s) 10) s1 = Ok (tt, s2)) as Hr
    by (unfold screen; change (pr_console s1) with c1; rewrite Hr2; reflexivity).
  rewrite (bind_ok _ _ _ _ _ Hr). eexists. split; [reflexivity|]. by split.
Qed.

(** Another processor reports in after a millisecond. *)
Lemma cpu_entrypoint_run fuel s : console_ready (pr_console s) → 10000002 ≤ Z.of_nat fuel →
  ∃ s', cpu_entrypoint fuel s = Ok (tt, s') ∧ pr_started s' = 1 ∧ pr_console s' = pr_console s ∧
    ticks (pr_time s) + 10000000 ≤ ticks (pr_time s').
Proof.
  intros Hs Hf. unfold cpu_entrypoint. destruct (wait_millisecond_run fuel s Hs Hf) as (s1 & Hr & (_ & Ht & _)).
  rewrite (bind_ok _ _ _ _ _ Hr). eexists. split; [reflexivity|]. split; [done|]. split; [|exact Ht].
  unfold wait_millisecond in Hr. destruct (CpuInit.cpu_wait_millisecond fuel (pr_time s)) as [[[] t]| |]; [|done|done].
  by injection Hr as <-.
Qed.
End Time.
