(* ===== verification/Instructions.v ===== *)
(** * Wrappers of single instructions

    Models [src/src/common/port.c] and the functions [cpu_id], [cpu_read_msr] and
    [cpu_write_msr] of [src/src/common/cpu.c]. What the instructions do is a
    parameter, [CpuInstructions]; the wrappers pass the low bits of their
    arguments in the registers the constraints of the inline assembly name, and
    put the results together. [instruction_ports] gives the drivers the ports
    they are written against. *)

From S2P Require Import Prelude Bits Port.

(** The instructions: [in] and [out] with the width of the operand in bits,
    [cpuid] with [eax], [ebx], [ecx] and [edx], [rdmsr] with [eax] and [edx],
    [wrmsr] with [ecx], [eax] and [edx]. *)
Class CpuInstructions (P : Type) : Type := {
  insn_in : Z → Z → P → Z * P;
  insn_out : Z → Z → Z → P → P;
  insn_cpuid : Z → P → Z * Z * Z * Z;
  insn_rdmsr : Z → P → Z * Z;
  insn_wrmsr : Z → Z → Z → P → P
}.

(** [struct cpu_id_result] *)
Record cpu_id_result := CpuIdResult { eax : Z; ebx : Z; ecx : Z; edx : Z }.

Section Wrappers.
Context {P : Type} {CI : CpuInstructions P}.
Implicit Types (p : P) (port value : Z).

(** ** port.c *)

Definition port_out32 port value p : P := insn_out 32 (u16 port) (u32 value) p.
Definition port_out16 port value p : P := insn_out 16 (u16 port) (u16 value) p.
Definition port_out8 port value p : P := insn_out 8 (u16 port) (u8 value) p.

Definition port_in32 port p : Z * P := let '(value, p) := insn_in 32 (u16 port) p in (u32 value, p).
Definition port_in16 port p : Z * P := let '(value, p) := insn_in 16 (u16 port) p in (u16 value, p).
Definition port_in8 port p : Z * P := let '(value, p) := insn_in 8 (u16 port) p in (u8 value, p).

(** ** cpu.c *)

Definition cpu_id (function : Z) p : cpu_id_result :=
  let '(a, b, c, d) := insn_cpuid (u32 function) p in CpuIdResult (u32 a) (u32 b) (u32 c) (u32 d).

Definition cpu_read_msr (register_index : Z) p : Z :=
  let '(lower, upper) := insn_rdmsr (u32 register_index) p in
  Z.lor (u64 (Z.shiftl (u32 upper) 32)) (u32 lower).

(** The function is declared to return an [unsigned long] and has no [return]. *)
Definition cpu_write_msr (register_index value : Z) p : P :=
  insn_wrmsr (u32 register_index) (u32 value) (u32 (Z.shiftr value 32)) p.
End Wrappers.

(** The ports of the drivers, from the instructions and the wait. *)
Definition instruction_ports {P} {CI : CpuInstructions P} (wait : P → P) : PortDevices P := {|
  Port.port_in8 := port_in8;
  Port.port_out8 := port_out8;
  Port.cpu_wait_microsecond := wait
|}.

(** ** Correctness *)

(** Model specific registers keep what is stored in them, as two halves. *)
Class MsrLaws (P : Type) {CI : CpuInstructions P} : Prop := {
  rdmsr_wrmsr_eq i a d p : insn_rdmsr i (insn_wrmsr i a d p) = (a, d);
  rdmsr_wrmsr_ne i j a d p : i ≠ j → insn_rdmsr i (insn_wrmsr j a d p) = insn_rdmsr i p
}.

(** A device register behind a port reads back what was written with the same width. *)
Class LatchPort (P : Type) {CI : CpuInstructions P} (port : Z) : Prop := {
  in_out w v p : insn_in w port (insn_out w port v p) = (v, insn_out w port v p)
}.

Lemma u32_idemp x : u32 (u32 x) = u32 x.
Proof. apply u32_small, u32_range. Qed.

(** The halves of a 64-bit word put together again. *)
Lemma halves_add upper lower :
  Z.lor (u64 (Z.shiftl (u32 upper) 32)) (u32 lower) = u32 lower + u32 upper * 2 ^ 32.
Proof.
  pose proof (u32_range lower). pose proof (u32_range upper).
  assert (0 ≤ Z.shiftl (u32 upper) 32 < 2 ^ 64) by (rewrite Z.shiftl_mul_pow2; lia).
  rewrite u64_small by done. rewrite Z.lor_comm. by rewrite lor_shiftl_add by lia.
Qed.

Lemma word_of_halves v : Z.lor (u64 (Z.shiftl (u32 (Z.shiftr v 32)) 32)) (u32 v) = u64 v.
Proof. rewrite halves_add. unfold u32, u64. rewrite Z.shiftr_div_pow2 by lia. divmod_lia. Qed.

Section Msr.
Context {P : Type} {CI : CpuInstructions P} {L : MsrLaws P}.

(** A model specific register reads back all 64 bits of what [cpu_write_msr] stored, although the
    instructions move them in two halves of 32 bits, and the other registers keep their value; the result of
    [cpu_read_msr] is always a 64-bit word. *)
Theorem cpu_msr_roundtrip register_index value (p : P) :
  cpu_read_msr register_index (cpu_write_msr register_index value p) = u64 value ∧
  (∀ other, u32 other ≠ u32 register_index →
     cpu_read_msr other (cpu_write_msr register_index value p) = cpu_read_msr other p) ∧
  0 ≤ cpu_read_msr register_index p < 2 ^ 64.
Proof.
  unfold cpu_read_msr, cpu_write_msr. split; [|split].
  - rewrite rdmsr_wrmsr_eq, !u32_idemp. apply word_of_halves.
  - intros other Hne. by rewrite rdmsr_wrmsr_ne.
  - destruct (insn_rdmsr _ p) as [lower upper]. pose proof (u32_range lower). pose proof (u32_range upper).
    rewrite halves_add. lia.
Qed.
End Msr.

(** A write of each width to a latch reads back modulo that width. *)
Lemma port_roundtrip {P} {CI : CpuInstructions P} port `{!LatchPort P (u16 port)} value (p : P) :
  fst (port_in8 port (port_out8 port value p)) = u8 value ∧
  fst (port_in16 port (port_out16 port value p)) = u16 value ∧
  fst (port_in32 port (port_out32 port value p)) = u32 value.
Proof.
  unfold port_in8, port_in16, port_in32, port_out8, port_out16, port_out32. rewrite !in_out. cbn [fst].
  split_and!; [apply u8_small, u8_range|apply u16_small, u16_range|apply u32_idemp].
Qed.

(** ** A register file *)

Record registers0 := Registers0 { r_msr : gmap Z (Z * Z); r_ports : gmap Z Z }.

#[export] Instance registers0_instructions : CpuInstructions registers0 := {
  insn_in w port p := (default 0 (r_ports p !! port), p);
  insn_out w port v p := Registers0 (r_msr p) (<[port := v]> (r_ports p));
  insn_cpuid _ _ := (0, 0, 0, 0);
  insn_rdmsr i p := default (0, 0) (r_msr p !! i);
  insn_wrmsr i a d p := Registers0 (<[i := (a, d)]> (r_msr p)) (r_ports p)
}.

#[export] Instance registers0_msr : MsrLaws registers0.
Proof.
  split; intros; cbn.
  - by rewrite lookup_insert_eq.
  - by rewrite lookup_insert_ne.
Qed.

#[export] Instance registers0_latch port : LatchPort registers0 port.
Proof. split. intros. cbn. by rewrite lookup_insert_eq. Qed.

Lemma cpu_msr_roundtrip_witness :
  cpu_read_msr 0xC0000100 (cpu_write_msr 0xC0000100 0x123456789ABC (Registers0 ∅ ∅)) = 0x123456789ABC.
Proof. exact (proj1 (cpu_msr_roundtrip 0xC0000100 0x123456789ABC (Registers0 ∅ ∅))). Defined.
