(* ===== verification/Layout.v ===== *)
(** * Layout of the C structures

    The model keeps the structures of [src/src/include/kokos] in byte memory and
    reads their members with accessors such as [sdt_length]. This file declares
    the structures as the headers do and computes where the compiler puts their
    members: with the padding of the System V ABI for x86-64, without padding
    under [ATTRIBUTE_PACKED], at a multiple of [x] under [ATTRIBUTE_ALIGN(x)].
    [LayoutSpec] compares the accessors of the model with the declarations. *)

From S2P Require Import Prelude Memory Bits.

(** ** Types and declarations *)

(** Sizes and alignments are in bytes. *)
Record ctype := CType { size_of_type : Z; align_of_type : Z; is_signed : bool }.

Definition char : ctype := CType 1 1 true.
Definition uchar : ctype := CType 1 1 false.
Definition ushort : ctype := CType 2 2 false.
Definition uint : ctype := CType 4 4 false.
Definition ulong : ctype := CType 8 8 false.
Definition int : ctype := CType 4 4 true.
Definition pointer : ctype := ulong.
(** GCC stores an [enum] without negative constants as an [unsigned int]. *)
Definition enum : ctype := uint.
Definition array (n : Z) (t : ctype) : ctype := CType (n * size_of_type t) (align_of_type t) false.

Inductive member :=
| Field (name : string) (t : ctype)
| Aligned (name : string) (t : ctype) (alignment : Z)
| BitField (name : string) (t : ctype) (width : Z)
| Union (alternatives : list (string * ctype)).

Record declaration := Struct { is_packed : bool; members : list member }.

(** ** Placement *)

(** Where a member is, in bits from the start of the structure. *)
Record slot := Slot { slot_bit : Z; slot_width : Z; slot_signed : bool }.

Definition align_up (n to : Z) : Z := (n + to - 1) / to * to.

Definition type_slot (t : ctype) (bit : Z) : slot := Slot bit (8 * size_of_type t) (is_signed t).

(** The alignment of a plain member, in bits. *)
Definition field_align (packed : bool) (t : ctype) : Z := if packed then 8 else 8 * align_of_type t.

Definition union_size (l : list (string * ctype)) : Z := foldr (λ '(_, t), Z.max (size_of_type t)) 0 l.
Definition union_align (l : list (string * ctype)) : Z := foldr (λ '(_, t), Z.max (align_of_type t)) 1 l.

(** The first bit of the member behind [bit], and the first bit behind it. A bit
    field of a structure that is not packed does not cross a boundary of its type. *)
Definition member_start (packed : bool) (m : member) (bit : Z) : Z :=
  match m with
  | Field _ t => align_up bit (field_align packed t)
  | Aligned _ t a => align_up bit (8 * a)
  | BitField _ t w =>
      if packed || (bit mod (8 * size_of_type t) + w <=? 8 * size_of_type t) then bit
      else align_up bit (8 * align_of_type t)
  | Union l => align_up bit (if packed then 8 else 8 * union_align l)
  end.

Definition member_width (m : member) : Z :=
  match m with
  | Field _ t | Aligned _ t _ => 8 * size_of_type t
  | BitField _ _ w => w
  | Union l => 8 * union_size l
  end.

(** The names a member declares, with their slots when it starts at [bit]. *)
Definition member_slots (m : member) (bit : Z) : list (string * slot) :=
  match m with
  | Field n t | Aligned n t _ => [(n, type_slot t bit)]
  | BitField n t w => [(n, Slot bit w (is_signed t))]
  | Union l => (λ '(n, t), (n, type_slot t bit)) <$> l
  end.

Fixpoint place (packed : bool) (l : list member) (bit : Z) : list (Z * member) * Z :=
  match l with
  | [] => ([], bit)
  | m :: l =>
      let start := member_start packed m bit in
      let '(placed, end_bit) := place packed l (start + member_width m) in
      ((start, m) :: placed, end_bit)
  end.

Definition placed (d : declaration) : list (Z * member) := fst (place (is_packed d) (members d) 0).

Definition slots (d : declaration) : list (string * slot) :=
  placed d ≫= λ '(bit, m), member_slots m bit.

Definition slot_of (d : declaration) (name : string) : option slot :=
  snd <$> head (filter (λ x, fst x = name) (slots d)).

(** [packed] takes the alignment of a member away unless the member has one of its own. *)
Definition member_align (packed : bool) (m : member) : Z :=
  match m with
  | Field _ t | BitField _ t _ => if packed then 1 else align_of_type t
  | Aligned _ _ a => a
  | Union l => if packed then 1 else union_align l
  end.

Definition align_of (d : declaration) : Z := foldr (λ m, Z.max (member_align (is_packed d) m)) 1 (members d).
Definition size_of (d : declaration) : Z :=
  align_up (snd (place (is_packed d) (members d) 0)) (8 * align_of d) / 8.

(** A structure as the type of a member, and the start of a flexible array. *)
Definition struct (d : declaration) : ctype := CType (size_of d) (align_of d) false.
Definition flexible (t : ctype) : ctype := array 0 t.

(** [offsetof], for members that start at a byte. *)
Definition offset_of (d : declaration) (name : string) : option Z :=
  s ← slot_of d name; if slot_bit s mod 8 =? 0 then Some (slot_bit s / 8) else None.

(** ** Access to members *)

(** Whole bytes are little-endian integers; a bit field is read from its byte, so
    the bit fields across bytes, which the code never uses, have no access here. *)
Definition whole_bytes (s : slot) : bool := (slot_bit s mod 8 =? 0) && (slot_width s mod 8 =? 0).

Definition sign (s : slot) (v : Z) : Z :=
  if slot_signed s then (v + 2 ^ (slot_width s - 1)) mod 2 ^ slot_width s - 2 ^ (slot_width s - 1) else v.

Definition read_slot (s : slot) (m : mem) (a : Z) : Z :=
  sign s (if whole_bytes s then load (Z.to_nat (slot_width s / 8)) m (a + slot_bit s / 8)
          else get_bits8 (a + slot_bit s / 8) (slot_bit s mod 8) (slot_width s) m).

Definition write_slot (s : slot) (v : Z) (m : mem) (a : Z) : mem :=
  if whole_bytes s then store (Z.to_nat (slot_width s / 8)) m (a + slot_bit s / 8) v
  else set_bits8 (a + slot_bit s / 8) (slot_bit s mod 8) (slot_width s) v m.

(** [p->name], for a pointer [p] to the structure. *)
Definition read_member (d : declaration) (name : string) (m : mem) (p : Z) : option Z :=
  (λ s, read_slot s m p) <$> slot_of d name.

Definition write_member (d : declaration) (name : string) (v : Z) (m : mem) (p : Z) : option mem :=
  (λ s, write_slot s v m p) <$> slot_of d name.
