(* ===== verification/Structures.v ===== *)
(** * The structures of the headers

    The structures of [src/src/include/kokos] as declarations of [Layout], with
    their members in order. A structure is packed when its header says
    [ATTRIBUTE_PACKED]. *)

From S2P Require Import Prelude Layout.

(** ** memory.h *)

Definition struct_memory_chunk : declaration := Struct false [
  Field "next" pointer; Field "previous" pointer; Field "size" int].

(** ** apic.h *)

Definition struct_apic : declaration := Struct true [
  Aligned "unused" uint 16; Aligned "unused2" uint 16; Aligned "id" uint 16;
  Aligned "version" uint 16; Aligned "unused3" uint 16; Aligned "unused4" uint 16;
  Aligned "unused5" uint 16; Aligned "unused6" uint 16; Aligned "task_priority" uint 16;
  Aligned "arbitration_priority" uint 16; Aligned "processor_priority" uint 16;
  Aligned "end_of_interrupt" uint 16; Aligned "remote_read" uint 16;
  Aligned "logical_destination" uint 16; Aligned "destination_format" uint 16;
  Aligned "spurious_interrupt_vector" uint 16; Aligned "in_service0" uint 16;
  Aligned "in_service1" uint 16; Aligned "in_service2" uint 16; Aligned "in_service3" uint 16;
  Aligned "in_service4" uint 16; Aligned "in_service5" uint 16; Aligned "in_service6" uint 16;
  Aligned "in_service7" uint 16; Aligned "trigger_mode0" uint 16; Aligned "trigger_mode1" uint 16;
  Aligned "trigger_mode2" uint 16; Aligned "trigger_mode3" uint 16;
  Aligned "trigger_mode4" uint 16; Aligned "trigger_mode5" uint 16;
  Aligned "trigger_mode6" uint 16; Aligned "trigger_mode7" uint 16;
  Aligned "interrupt_request0" uint 16; Aligned "interrupt_request1" uint 16;
  Aligned "interrupt_request2" uint 16; Aligned "interrupt_request3" uint 16;
  Aligned "interrupt_request4" uint 16; Aligned "interrupt_request5" uint 16;
  Aligned "interrupt_request6" uint 16; Aligned "interrupt_request7" uint 16;
  Aligned "error_status" uint 16; Aligned "unused7" uint 16; Aligned "unused8" uint 16;
  Aligned "unused9" uint 16; Aligned "unused10" uint 16; Aligned "unused11" uint 16;
  Aligned "unused12" uint 16; Aligned "unused13" uint 16; Aligned "interrupt_command0" uint 16;
  Aligned "interrupt_command1" uint 16; Aligned "timer_vector" uint 16;
  Aligned "thermal_vector" uint 16; Aligned "performance_counter_vector" uint 16;
  Aligned "interrupt0_vector" uint 16; Aligned "interrupt1_vector" uint 16;
  Aligned "error_vector" uint 16; Aligned "timer_initial_count" uint 16;
  Aligned "timer_current_count" uint 16; Aligned "unused14" uint 16; Aligned "unused15" uint 16;
  Aligned "unused16" uint 16; Aligned "unused17" uint 16; Aligned "timer_divide_config" uint 16;
  Aligned "unused18" uint 16; Aligned "extended_apic_features" uint 16;
  Aligned "extended_apic_control" uint 16; Aligned "specific_end_of_interrupt" uint 16;
  Aligned "unused19" uint 16; Aligned "unused20" uint 16; Aligned "unused21" uint 16;
  Aligned "unused22" uint 16; Aligned "unused23" uint 16; Aligned "interrupt_enable0" uint 16;
  Aligned "interrupt_enable1" uint 16; Aligned "interrupt_enable2" uint 16;
  Aligned "interrupt_enable3" uint 16; Aligned "interrupt_enable4" uint 16;
  Aligned "interrupt_enable5" uint 16; Aligned "interrupt_enable6" uint 16;
  Aligned "interrupt_enable7" uint 16; Aligned "extended_interrupt_vector0" uint 16;
  Aligned "extended_interrupt_vector1" uint 16; Aligned "extended_interrupt_vector2" uint 16;
  Aligned "extended_interrupt_vector3" uint 16].

Definition struct_ioapic : declaration := Struct true [
  Aligned "register_select" uint 16; Aligned "register_data" uint 16].

Definition struct_ioapic_entry : declaration := Struct true [
  BitField "vector" uchar 8; BitField "delivery_mode" enum 3; BitField "destination_mode" enum 1;
  BitField "delivery_status" enum 1; BitField "pin_polarity" enum 1; BitField "remote_irr" uchar 1;
  BitField "trigger_mode" enum 1; BitField "mask" uchar 1; BitField "unused" ulong 39;
  BitField "destination" uchar 8].

(** ** gdt.h *)

Definition struct_gdt_entry : declaration := Struct true [
  BitField "limit1" ushort 16; BitField "base1" ushort 16; BitField "base2" uchar 8;
  BitField "accessed" uchar 1; BitField "read_write" uchar 1;
  BitField "direction_conforming" uchar 1; BitField "executable" uchar 1;
  BitField "non_system" uchar 1; BitField "privilege" uchar 2; BitField "present" uchar 1;
  BitField "limit2" uchar 4; BitField "unused1" uchar 1; BitField "long_mode" uchar 1;
  BitField "size" uchar 1; BitField "granularity" uchar 1; BitField "base3" uchar 8].

Definition struct_gdt_system_entry : declaration := Struct true [
  Field "base" (struct struct_gdt_entry); Field "base4" uint; Field "unused" uint].

Definition struct_gdt_pointer : declaration := Struct true [
  Field "limit" ushort; Field "address" pointer].

Definition struct_gdt_task_state : declaration := Struct true [
  Field "unused0" uint; Field "rsp0" ulong; Field "rsp1" ulong; Field "rsp2" ulong;
  Field "unused1" uint; Field "unused2" uint; Field "ist1" ulong; Field "ist2" ulong;
  Field "ist3" ulong; Field "ist4" ulong; Field "ist5" ulong; Field "ist6" ulong;
  Field "ist7" ulong; Field "unused3" uint; Field "unused4" uint; Field "iopb_offset" uint].

(** ** idt.h *)

Definition struct_idt_stack_frame : declaration := Struct false [
  Field "instruction_pointer" ulong; Field "code_segment" ulong; Field "rflags" ulong;
  Field "stack_pointer" ulong; Field "stack_segment" ulong].

Definition struct_idt_entry : declaration := Struct true [
  Field "offset1" ushort; Field "code_segment" ushort; Field "interrupt_stack" uchar;
  BitField "gate_type" uchar 4; BitField "unused1" uchar 1; BitField "privilege_level" uchar 2;
  BitField "present" uchar 1; Field "offset2" ushort; Field "offset3" uint; Field "unused" uint].

Definition struct_idt_pointer : declaration := Struct true [
  Field "limit" ushort; Field "address" pointer].

(** ** paging.h *)

Definition struct_paging_context : declaration := Struct false [
  Field "level4_table" pointer; Field "level3_table" pointer; Field "level2_table" pointer;
  Field "level1_table" pointer; Field "level4_index" ushort; Field "level3_index" ushort;
  Field "level2_index" ushort; Field "level1_index" ushort].

(** ** scheduler.h *)

Definition struct_scheduler_saved_registers : declaration := Struct false [
  Field "r11" ulong; Field "r10" ulong; Field "r9" ulong; Field "r8" ulong; Field "rsi" ulong;
  Field "rdi" ulong; Field "rdx" ulong; Field "rcx" ulong; Field "rbx" ulong; Field "rax" ulong;
  Field "rbp" ulong].

Definition struct_scheduler_interrupt_frame : declaration := Struct false [
  Field "registers" (struct struct_scheduler_saved_registers);
  Field "base" (struct struct_idt_stack_frame)].

Definition struct_scheduler_process : declaration := Struct false [
  Field "id" ulong; Field "next" pointer; Field "previous" pointer;
  Field "paging_context" (struct struct_paging_context); Field "local_apic" pointer;
  Field "saved_rflags" ulong; Field "saved_instruction_pointer" pointer;
  Field "saved_stack_pointer" pointer;
  Field "saved_registers" (struct struct_scheduler_saved_registers)].

(** ** cpu.h *)

Definition struct_cpu_id_result : declaration := Struct false [
  Field "eax" uint; Field "ebx" uint; Field "ecx" uint; Field "edx" uint].

Definition struct_cpu : declaration := Struct false [
  Field "address" pointer; Field "id" uint; Field "local_apic_physical" pointer;
  Field "interrupt_descriptor_table" pointer; Field "global_descriptor_table" pointer;
  Field "current_process" pointer].

(** ** multiboot2.h *)

Definition struct_multiboot_info : declaration := Struct true [
  Field "total_size" uint; Field "unused" uint].

Definition struct_multiboot_tag : declaration := Struct true [
  Field "type" enum; Field "size" uint].

Definition struct_multiboot_tag_framebuffer : declaration := Struct true [
  Field "base" (struct struct_multiboot_tag); Field "framebuffer_address" ulong;
  Field "framebuffer_pitch" uint; Field "framebuffer_width" uint; Field "framebuffer_height" uint;
  Field "framebuffer_bits_per_pixel" uchar; Field "framebuffer_type" uchar; Field "unused" uchar].

Definition struct_multiboot_tag_memory_map_entry : declaration := Struct true [
  Field "address" ulong; Field "length" ulong; Field "type" uint; Field "unused" uint].

Definition struct_multiboot_tag_memory_map : declaration := Struct true [
  Field "base" (struct struct_multiboot_tag); Field "entry_size" uint; Field "entry_version" uint;
  Field "entries" (flexible (struct struct_multiboot_tag_memory_map_entry))].

(** ** acpi.h *)

Definition struct_acpi_rsdtp : declaration := Struct true [
  Union [("signature_string", array 8 char); ("signature", ulong)]; Field "checksum" uchar;
  Field "oem_id" (array 6 char); Field "revision" uchar; Field "address" uint].

Definition struct_acpi_xsdtp : declaration := Struct true [
  Field "base" (struct struct_acpi_rsdtp); Field "length" uint; Field "address" ulong;
  Field "checksum" uchar; Field "reserved" (array 3 uchar)].

Definition struct_acpi_sdt : declaration := Struct true [
  Union [("signature_string", array 4 char); ("signature", uint)]; Field "length" uint;
  Field "revision" uchar; Field "checksum" uchar; Field "oem_id" (array 6 char);
  Field "oem_table_id" (array 8 char); Field "oem_revision" uint; Field "creator_id" uint;
  Field "creator_revision" uint].

Definition struct_acpi_rsdt : declaration := Struct true [
  Field "base" (struct struct_acpi_sdt); Field "table_addresses" (flexible uint)].

Definition struct_acpi_xsdt : declaration := Struct true [
  Field "base" (struct struct_acpi_sdt); Field "table_addresses" (flexible ulong)].

Definition struct_acpi_fadt_address : declaration := Struct true [
  Field "address_space" uchar; Field "bit_width" uchar; Field "bit_offset" uchar;
  Field "access_size" uchar; Field "address" ulong].

Definition struct_acpi_fadt : declaration := Struct true [
  Field "base" (struct struct_acpi_sdt); Field "firmware_control" uint; Field "dsdt" uint;
  Field "unused" uchar; Field "preferred_power_management_profile" uchar;
  Field "sci_interrupt" ushort; Field "smi_commandport" uint; Field "acpi_enable" uchar;
  Field "acpi_disable" uchar; Field "s4_bios_req" uchar; Field "pstate_control" uchar;
  Field "pm1a_event_block" uint; Field "pm1b_event_block" uint; Field "pm1a_control_block" uint;
  Field "pm1b_control_block" uint; Field "pm2_control_block" uint; Field "pm_timer_block" uint;
  Field "gpe0_block" uint; Field "gpe1_block" uint; Field "pm1_event_length" uchar;
  Field "pm1_control_length" uchar; Field "pm2_control_length" uchar;
  Field "pm_timer_length" uchar; Field "gpe0_length" uchar; Field "gpe1_length" uchar;
  Field "gpe1_base" uchar; Field "cstate_control" uchar; Field "worst_c2_latency" ushort;
  Field "worst_c3_latency" ushort; Field "flush_size" ushort; Field "flush_stride" ushort;
  Field "duty_offset" uchar; Field "duty_width" uchar; Field "day_alarm" uchar;
  Field "month_alarm" uchar; Field "century" uchar;
  Field "extended_boot_architecture_flags" ushort; Field "unused2" uchar; Field "flags" uint;
  Field "reset_register" (struct struct_acpi_fadt_address); Field "reset_value" uchar;
  Field "unused3" (array 3 uchar); Field "extended_firmware_control" ulong;
  Field "extended_dsdt" ulong; Field "extended_pm1a_event_block" (struct struct_acpi_fadt_address);
  Field "extended_pm1b_event_block" (struct struct_acpi_fadt_address);
  Field "extended_pm1a_control_block" (struct struct_acpi_fadt_address);
  Field "extended_pm1b_control_block" (struct struct_acpi_fadt_address);
  Field "extended_pm2_control_block" (struct struct_acpi_fadt_address);
  Field "extended_pm_timer_block" (struct struct_acpi_fadt_address);
  Field "extended_gpe0_block" (struct struct_acpi_fadt_address);
  Field "extended_gpe1_block" (struct struct_acpi_fadt_address)].

Definition struct_acpi_dsdt : declaration := Struct false [
  Field "base" (struct struct_acpi_sdt); Field "aml_code" (flexible uchar)].

Definition struct_acpi_madt_entry : declaration := Struct true [
  Field "type" uchar; Field "length" uchar].

Definition struct_acpi_madt : declaration := Struct true [
  Field "base" (struct struct_acpi_sdt); Field "local_apic_address" uint; Field "flags" uint].

Definition struct_acpi_madt_entry_local_apic : declaration := Struct true [
  Field "base" (struct struct_acpi_madt_entry); Field "processor_id" uchar; Field "apic_id" uchar;
  Field "flags" uint].

Definition struct_acpi_madt_entry_io_apic : declaration := Struct true [
  Field "base" (struct struct_acpi_madt_entry); Field "io_apic_id" uchar; Field "unused" uchar;
  Field "io_apic_address" uint; Field "global_system_interrupt_base" uint].

Definition struct_acpi_madt_entry_io_apic_source : declaration := Struct true [
  Field "base" (struct struct_acpi_madt_entry); Field "bus_source" uchar; Field "irq_source" uchar;
  Field "global_system_interrupt" uint; Field "flags" ushort].

Definition struct_acpi_madt_entry_io_apic_non_maskable : declaration := Struct true [
  Field "base" (struct struct_acpi_madt_entry); Field "non_maskable_interrupt_source" uchar;
  Field "unused" uchar; Field "flags" ushort; Field "global_system_interrupt" uint].

Definition struct_acpi_madt_entry_local_apic_non_maskable : declaration := Struct true [
  Field "base" (struct struct_acpi_madt_entry); Field "acpi_processor_id_target" uchar;
  Field "flags" ushort; Field "local_interrupt_target" uchar].

Definition struct_acpi_madt_entry_local_apic_address : declaration := Struct true [
  Field "base" (struct struct_acpi_madt_entry); Field "unused" ushort;
  Field "local_apic_address" ulong].

Definition struct_acpi_madt_entry_local_x2apic : declaration := Struct true [
  Field "base" (struct struct_acpi_madt_entry); Field "unused" ushort; Field "processor_id" uint;
  Field "flags" uint; Field "apic_id" uint].
