(* ===== verification/LayoutSpec.v ===== *)
(** * Correctness of the structure layouts

    The members of a declaration occupy separate bits of the structure, so that
    a store to one keeps the others and nothing outside the structure changes. *)

From S2P Require Import Prelude Memory Bits Layout Structures.

(** ** Well-formed declarations *)

Definition type_ok (t : ctype) : bool := (0 <=? size_of_type t) && (0 <? align_of_type t).

Definition member_ok (m : member) : bool :=
  match m with
  | Field _ t => type_ok t
  | Aligned _ t a => type_ok t && (0 <? a)
  | BitField _ t w => type_ok t && (0 <? size_of_type t) && (0 <? w) && (w <=? 8 * size_of_type t)
  | Union l => forallb (type_ok ∘ snd) l
  end.

Definition well_formed (d : declaration) : bool :=
  forallb member_ok (members d) && bool_decide (NoDup (fst <$> slots d)).

(** Bits of a slot a single access reaches: whole bytes, or part of one byte. *)
Definition accessible (s : slot) : bool :=
  (0 <? slot_width s) && (whole_bytes s || (slot_bit s mod 8 + slot_width s <=? 8)).

Definition apart (s1 s2 : slot) : Prop :=
  slot_bit s1 + slot_width s1 ≤ slot_bit s2 ∨ slot_bit s2 + slot_width s2 ≤ slot_bit s1.

Lemma align_up_spec n to : 0 < to → n ≤ align_up n to < n + to ∧ align_up n to mod to = 0.
Proof. intros H. unfold align_up. split; [|apply Z_mod_mult]. pose proof (Z.div_mod (n + to - 1) to). pose proof (Z.mod_pos_bound (n + to - 1) to). nia. Qed.

Lemma union_align_pos l : 0 < union_align l.
Proof. unfold union_align. induction l as [|[n t] l IH]; cbn; lia. Qed.

Lemma union_size_elem l n t : (n, t) ∈ l → size_of_type t ≤ union_size l.
Proof.
  unfold union_size. induction l as [|[n' t'] l IH]; cbn; intros H; [by apply not_elem_of_nil in H|].
  apply elem_of_cons in H as [[= -> ->]|H]; [lia|]. specialize (IH H). lia.
Qed.

Lemma member_width_nonneg m : member_ok m = true → 0 ≤ member_width m.
Proof.
  destruct m as [n t|n t a|n t w|l]; cbn; unfold type_ok; intros H; try lia.
  unfold union_size. induction l as [|[n t] l IH]; cbn in *; [lia|]. destruct (forallb _ l); [|lia]. specialize (IH eq_refl). lia.
Qed.

Lemma member_start_ge packed m bit : member_ok m = true → bit ≤ member_start packed m bit.
Proof.
  destruct m as [n t|n t a|n t w|l]; cbn -[Z.mul]; unfold type_ok, field_align; intros H.
  - destruct packed; apply align_up_spec; lia.
  - apply align_up_spec; lia.
  - destruct (packed || _); [lia|]. apply align_up_spec; lia.
  - pose proof (union_align_pos l). destruct packed; apply align_up_spec; lia.
Qed.

(** The slots of a member lie in the bits it occupies. *)
Lemma member_slots_inside m bit n s :
  member_ok m = true → (n, s) ∈ member_slots m bit →
  slot_bit s = bit ∧ 0 ≤ slot_width s ≤ member_width m.
Proof.
  intros Hok. destruct m as [n' t|n' t a|n' t w|l]; cbn -[Z.mul] in *; unfold type_ok in *.
  1-3: intros H; apply list_elem_of_singleton in H as [= -> ->]; cbn -[Z.mul]; lia.
  intros H. apply list_elem_of_fmap in H as ([n' t] & [= -> ->] & H). cbn -[Z.mul].
  pose proof (union_size_elem l n' t H). split; [done|].
  rewrite forallb_forall in Hok. apply list_elem_of_In in H. specialize (Hok _ H). unfold type_ok in Hok. cbn in Hok. lia.
Qed.

(** ** Placement *)

Lemma place_length packed l : ∀ bit, length (fst (place packed l bit)) = length l.
Proof.
  induction l as [|m l IH]; intros bit; cbn [place]; [done|].
  specialize (IH (member_start packed m bit + member_width m)). destruct (place packed l _) as [p e]. cbn in *. by f_equal.
Qed.

(** Members are placed in order, one behind the other. *)
Lemma place_spec packed l : ∀ bit p e,
  forallb member_ok l = true → place packed l bit = (p, e) →
  bit ≤ e ∧ snd <$> p = l ∧
  (∀ k b m, p !! k = Some (b, m) → bit ≤ b ∧ b + member_width m ≤ e) ∧
  (∀ j k b m b' m', p !! j = Some (b, m) → p !! k = Some (b', m') → (j < k)%nat → b + member_width m ≤ b').
Proof.
  induction l as [|m l IH]; intros bit p e Hok Hp; cbn [place forallb] in *.
  { injection Hp as <- <-. repeat split; try done; lia. }
  apply andb_true_iff in Hok as [Hm Hl]. set (start := member_start packed m bit) in *.
  destruct (place packed l (start + member_width m)) as [p' e'] eqn:Ep. injection Hp as <- <-.
  destruct (IH _ _ _ Hl Ep) as (H1 & H2 & H3 & H4).
  pose proof (member_start_ge packed m bit Hm). pose proof (member_width_nonneg m Hm). fold start in H.
  split; [lia|]. split; [cbn; by f_equal|]. split.
  - intros [|k] b m0 Hk; cbn in Hk; [injection Hk as <- <-; lia|]. apply H3 in Hk. lia.
  - intros [|j] [|k] b m1 b' m2 Hj Hk Hjk; cbn in Hj, Hk; try lia.
    + injection Hj as <- <-. apply H3 in Hk. lia.
    + eapply H4; eauto. lia.
Qed.

(** [n] is a name of member [k], with slot [s]. *)
Definition declares (d : declaration) (k : nat) (n : string) (s : slot) : Prop :=
  ∃ b m, placed d !! k = Some (b, m) ∧ (n, s) ∈ member_slots m b.

Lemma elem_slots d n s : (n, s) ∈ slots d ↔ ∃ k, declares d k n s.
Proof.
  unfold slots. rewrite list_elem_of_bind. split.
  - intros ([b m] & Hs & Hm). apply list_elem_of_lookup in Hm as [k Hk]. by exists k, b, m.
  - intros (k & b & m & Hk & Hs). exists (b, m). split; [done|]. by eapply list_elem_of_lookup_2.
Qed.

Lemma slot_of_elem d n s : slot_of d n = Some s → (n, s) ∈ slots d.
Proof.
  unfold slot_of. intros H. apply fmap_Some in H as ([n' s'] & Hh & ->). cbn.
  destruct (filter _ _) as [|x l] eqn:E; [done|]. injection Hh as ->.
  assert ((n', s') ∈ filter (λ x, fst x = n) (slots d)) as H by (rewrite E; by left).
  apply list_elem_of_filter in H as [Hn H]. cbn in Hn. by subst.
Qed.

Lemma well_formed_spec d :
  well_formed d = true → forallb member_ok (members d) = true ∧ NoDup (fst <$> slots d).
Proof. intros H. apply andb_true_iff in H as [H1 H2]. by apply bool_decide_eq_true in H2. Qed.

Lemma slot_of_declares d k n s : well_formed d = true → declares d k n s → slot_of d n = Some s.
Proof.
  intros Hd H. apply well_formed_spec in Hd as [_ Hnd].
  assert ((n, s) ∈ slots d) as Hin by (apply elem_slots; eauto).
  destruct (slot_of d n) as [s'|] eqn:E.
  - apply slot_of_elem in E. f_equal.
    apply list_elem_of_lookup in Hin as [i Hi]. apply list_elem_of_lookup in E as [j Hj].
    assert (i = j) as ->.
    { eapply (NoDup_lookup _ i j n Hnd); rewrite list_lookup_fmap; [by rewrite Hi|by rewrite Hj]. }
    congruence.
  - unfold slot_of in E. apply fmap_None in E. destruct (filter _ _) as [|x l] eqn:Ef; [|done].
    assert ((n, s) ∈ filter (λ x, fst x = n) (slots d)) as Hf by (by apply list_elem_of_filter).
    rewrite Ef in Hf. by apply not_elem_of_nil in Hf.
Qed.

Lemma declares_member d k n s b m :
  well_formed d = true → placed d !! k = Some (b, m) → (n, s) ∈ member_slots m b →
  slot_bit s = b ∧ 0 ≤ slot_width s ≤ member_width m.
Proof.
  intros Hd Hk Hs. apply well_formed_spec in Hd as [Hok _]. unfold placed in Hk.
  destruct (place _ _ 0) as [p e] eqn:E. destruct (place_spec _ _ _ _ _ Hok E) as (_ & Hp & _). cbn in Hk.
  apply (member_slots_inside m b n); [|done]. rewrite forallb_forall in Hok. apply Hok, list_elem_of_In.
  rewrite <- Hp. apply list_elem_of_lookup. exists k. by rewrite list_lookup_fmap, Hk.
Qed.

(** Different members occupy separate bits. *)
Lemma declares_apart d i j n n' s s' :
  well_formed d = true → declares d i n s → declares d j n' s' → i ≠ j → apart s s'.
Proof.
  intros Hd (b & m & Hi & Hs) (b' & m' & Hj & Hs') Hne.
  destruct (declares_member _ _ _ _ _ _ Hd Hi Hs), (declares_member _ _ _ _ _ _ Hd Hj Hs').
  apply well_formed_spec in Hd as [Hok _]. unfold placed in *.
  destruct (place _ _ 0) as [p e] eqn:E. destruct (place_spec _ _ _ _ _ Hok E) as (_ & _ & _ & Hord). cbn in *.
  unfold apart. destruct (Nat.lt_total i j) as [H'|[H'|H']]; [|done|].
  - pose proof (Hord _ _ _ _ _ _ Hi Hj H'). lia.
  - pose proof (Hord _ _ _ _ _ _ Hj Hi H'). lia.
Qed.

Lemma align_of_pos d : 0 < align_of d.
Proof. unfold align_of. induction (members d); cbn; lia. Qed.

(** Every member lies inside the structure. *)
Lemma declares_inside d k n s :
  well_formed d = true → declares d k n s →
  0 ≤ slot_bit s ∧ 0 ≤ slot_width s ∧ slot_bit s + slot_width s ≤ 8 * size_of d.
Proof.
  intros Hd (b & m & Hk & Hs). destruct (declares_member _ _ _ _ _ _ Hd Hk Hs) as [-> Hw].
  apply well_formed_spec in Hd as [Hok _]. unfold placed, size_of in *. pose proof (align_of_pos d).
  destruct (place _ _ 0) as [p e] eqn:E. destruct (place_spec _ _ _ _ _ Hok E) as (_ & _ & Hin & _). cbn [fst snd] in *.
  apply Hin in Hk. destruct (align_up_spec e (8 * align_of d)) as [He Hm]; [lia|].
  apply Z.mod_divide in Hm as [q Hq]; [|lia]. rewrite Hq in *.
  replace (q * (8 * align_of d)) with (q * align_of d * 8) in * by lia. rewrite Z.div_mul by lia. lia.
Qed.

(** ** Loads and stores *)

(** The value a slot reads back. *)
Definition slot_value (s : slot) (v : Z) : Z := sign s (v mod 2 ^ slot_width s).

Lemma whole_bytes_spec s :
  accessible s = true → whole_bytes s = true →
  0 < slot_width s ∧ slot_bit s = 8 * (slot_bit s / 8) ∧ slot_width s = 8 * (slot_width s / 8).
Proof. unfold accessible, whole_bytes. intros H1 H. divmod_lia. Qed.

Lemma part_of_byte_spec s :
  accessible s = true → whole_bytes s = false →
  slot_bit s = 8 * (slot_bit s / 8) + slot_bit s mod 8 ∧ 0 ≤ slot_bit s mod 8 < 8 ∧ 0 < slot_width s ∧
  slot_bit s mod 8 + slot_width s ≤ 8.
Proof. unfold accessible. intros H E. rewrite E in H. cbn [orb] in H.
  pose proof (Z.div_mod (slot_bit s) 8). divmod_lia. Qed.

(** Splits on how a slot is accessed and gives its bounds in bytes. *)
Ltac slot_cases s H E :=
  destruct (whole_bytes s) eqn:E;
  [pose proof (whole_bytes_spec s H E) | pose proof (part_of_byte_spec s H E)].

Lemma read_write_slot_eq s v m a :
  accessible s = true → read_slot s (write_slot s v m a) a = slot_value s v.
Proof.
  intros Hs. unfold read_slot, write_slot, slot_value. f_equal. slot_cases s Hs E.
  - rewrite load_store_eq, Z2Nat.id by lia. do 2 f_equal. lia.
  - apply get_set_bits8_eq; lia.
Qed.

Lemma read_write_slot_ne s s' v m a :
  accessible s = true → accessible s' = true → apart s s' →
  read_slot s' (write_slot s v m a) a = read_slot s' m a.
Proof.
  intros Hs Hs' Hne. unfold apart in Hne. unfold read_slot, write_slot. f_equal.
  slot_cases s Hs E; slot_cases s' Hs' E'.
  - apply load_store_ne. rewrite !Z2Nat.id by lia. lia.
  - unfold get_bits8. rewrite load8_store_out; [done|]. rewrite Z2Nat.id by lia. lia.
  - apply load_set_bits8_ne. rewrite Z2Nat.id by lia. lia.
  - destruct (decide (slot_bit s / 8 = slot_bit s' / 8)) as [Eb|Eb].
    + rewrite Eb. apply get_set_bits8_ne; lia.
    + unfold get_bits8. rewrite load8_set_bits8_ne; [done|lia].
Qed.

Lemma write_slot_out s v m a b size :
  accessible s = true → 0 ≤ slot_bit s → slot_bit s + slot_width s ≤ 8 * size → ¬ (a ≤ b < a + size) → load8 (write_slot s v m a) b = load8 m b.
Proof.
  intros Hs Hb Hsize Hout. unfold write_slot. slot_cases s Hs E.
  - apply load8_store_out. rewrite Z2Nat.id by lia. lia.
  - apply load8_set_bits8_ne. lia.
Qed.

Lemma store_load d k n s v m p :
  well_formed d = true → declares d k n s → accessible s = true →
  ∃ m', write_member d n v m p = Some m' ∧
    read_member d n m' p = Some (slot_value s v) ∧
    (∀ k' n' s', declares d k' n' s' → accessible s' = true → k' ≠ k →
       read_member d n' m' p = read_member d n' m p) ∧
    (∀ b, ¬ (p ≤ b < p + size_of d) → load8 m' b = load8 m b).
Proof.
  intros Hd Hn Hs. destruct (declares_inside _ _ _ _ Hd Hn) as (Hb & Hw & Hend).
  exists (write_slot s v m p). unfold write_member, read_member.
  rewrite (slot_of_declares _ _ _ _ Hd Hn). cbn [fmap option_fmap option_map]. split; [done|]. split; [|split].
  - by rewrite read_write_slot_eq.
  - intros k' n' s' Hn' Hs' Hne. rewrite (slot_of_declares _ _ _ _ Hd Hn').
    cbn [fmap option_fmap option_map]. f_equal.
    pose proof (declares_inside _ _ _ _ Hd Hn'). apply read_write_slot_ne; [done|done|].
    by eapply declares_apart.
  - intros b Hout. by apply (write_slot_out _ _ _ _ _ (size_of d)).
Qed.

(** The structures of the headers. *)
Definition structures : list declaration := [
  struct_memory_chunk; struct_apic; struct_ioapic; struct_ioapic_entry; struct_gdt_entry;
  struct_gdt_system_entry; struct_gdt_pointer; struct_gdt_task_state; struct_idt_stack_frame;
  struct_idt_entry; struct_idt_pointer; struct_paging_context; struct_scheduler_saved_registers;
  struct_scheduler_interrupt_frame; struct_scheduler_process; struct_cpu_id_result; struct_cpu;
  struct_multiboot_info; struct_multiboot_tag; struct_multiboot_tag_framebuffer;
  struct_multiboot_tag_memory_map_entry; struct_multiboot_tag_memory_map; struct_acpi_rsdtp;
  struct_acpi_xsdtp; struct_acpi_sdt; struct_acpi_rsdt; struct_acpi_xsdt; struct_acpi_fadt_address;
  struct_acpi_fadt; struct_acpi_dsdt; struct_acpi_madt_entry; struct_acpi_madt;
  struct_acpi_madt_entry_local_apic; struct_acpi_madt_entry_io_apic;
  struct_acpi_madt_entry_io_apic_source; struct_acpi_madt_entry_io_apic_non_maskable;
  struct_acpi_madt_entry_local_apic_non_maskable; struct_acpi_madt_entry_local_apic_address;
  struct_acpi_madt_entry_local_x2apic].

Lemma structures_well_formed : forallb well_formed structures = true.
Proof. vm_compute. reflexivity. Qed.

(** The accesses left out: the unused bits of an IO APIC entry and the arrays without a length. *)
Lemma inaccessible_members :
  (d ← structures; filter (λ x, accessible (snd x) = false) (slots d)).*1 =
    ["unused"; "entries"; "table_addresses"; "table_addresses"; "aml_code"].
Proof. vm_compute. reflexivity. Qed.
