(* ===== verification/StructuresSpec.v ===== *)
(** * The model follows the layouts

    The modelled code reads and writes the structures in memory with accessors
    and constants of its own files. Here they are checked against the declarations
    of [Structures]: offset, width, signedness and bit field. Both are transcribed
    from the sources by hand; the check guards against slips, it is not a
    property of the program. *)

From S2P Require Import Prelude Memory Bits Layout Structures LayoutSpec.
From S2P Require Import Allocator Paging Cpu Gdt Idt Heap Scheduler Multiboot Acpi Apic Boot Main Kernel.

(** ** The accessors of the model *)

(** Assignments [p->name = v] one after the other. *)
Fixpoint write_members (d : declaration) (l : list (string * Z)) (m : mem) (p : Z) : option mem :=
  match l with
  | [] => Some m
  | (n, v) :: l => m ← write_member d n v m p; write_members d l m p
  end.

(** The word an initialiser [{ .name = v, ... }] builds: the other members are zero. *)
Fixpoint initialise (d : declaration) (l : list (string * Z)) : option Z :=
  match l with
  | [] => Some 0
  | (n, v) :: l => w ← initialise d l; s ← slot_of d n; Some (bits_set (slot_bit s) (slot_width s) v w)
  end.

Definition context_part (f : paging_context → Z) (m : mem) (a : Z) : Z := f (load_context a m).

(** Functions of the model that read a member through a pointer. *)
Definition accessors : list (declaration * string * (mem → Z → Z)) := [
  (struct_memory_chunk, "next", chunk_next); (struct_memory_chunk, "previous", chunk_previous);
  (struct_memory_chunk, "size", chunk_size);
  (struct_gdt_entry, "limit1", segment_limit1); (struct_gdt_entry, "base1", segment_base1);
  (struct_gdt_entry, "base2", segment_base2); (struct_gdt_entry, "accessed", segment_accessed);
  (struct_gdt_entry, "read_write", segment_read_write);
  (struct_gdt_entry, "direction_conforming", segment_direction_conforming);
  (struct_gdt_entry, "executable", segment_executable); (struct_gdt_entry, "non_system", segment_non_system);
  (struct_gdt_entry, "privilege", segment_privilege); (struct_gdt_entry, "present", segment_present);
  (struct_gdt_entry, "limit2", segment_limit2); (struct_gdt_entry, "long_mode", segment_long_mode);
  (struct_gdt_entry, "size", segment_size); (struct_gdt_entry, "granularity", segment_granularity);
  (struct_gdt_entry, "base3", segment_base3); (struct_gdt_system_entry, "base4", segment_base4);
  (struct_idt_entry, "offset1", gate_offset1); (struct_idt_entry, "code_segment", gate_code_segment);
  (struct_idt_entry, "interrupt_stack", gate_interrupt_stack); (struct_idt_entry, "gate_type", gate_gate_type);
  (struct_idt_entry, "privilege_level", gate_privilege_level); (struct_idt_entry, "present", gate_present);
  (struct_idt_entry, "offset2", gate_offset2); (struct_idt_entry, "offset3", gate_offset3);
  (struct_paging_context, "level4_table", context_part level4_table);
  (struct_paging_context, "level3_table", context_part level3_table);
  (struct_paging_context, "level2_table", context_part level2_table);
  (struct_paging_context, "level1_table", context_part level1_table);
  (struct_paging_context, "level4_index", context_part level4_index);
  (struct_paging_context, "level3_index", context_part level3_index);
  (struct_paging_context, "level2_index", context_part level2_index);
  (struct_paging_context, "level1_index", context_part level1_index);
  (struct_multiboot_info, "total_size", info_total_size); (struct_multiboot_info, "unused", info_unused);
  (struct_multiboot_tag, "type", tag_type); (struct_multiboot_tag, "size", tag_size);
  (struct_multiboot_tag_memory_map, "entry_size", map_entry_size);
  (struct_multiboot_tag_memory_map_entry, "address", entry_address);
  (struct_multiboot_tag_memory_map_entry, "length", entry_length);
  (struct_multiboot_tag_memory_map_entry, "type", entry_type);
  (struct_acpi_sdt, "signature", sdt_signature); (struct_acpi_sdt, "length", sdt_length);
  (struct_acpi_fadt, "dsdt", fadt_dsdt); (struct_acpi_madt, "local_apic_address", madt_local_apic_address);
  (struct_acpi_madt_entry, "type", madt_entry_type); (struct_acpi_madt_entry, "length", madt_entry_length);
  (struct_acpi_madt_entry_local_apic, "apic_id", entry_apic_id);
  (struct_acpi_madt_entry_local_apic, "flags", entry_flags);
  (struct_acpi_madt_entry_io_apic, "io_apic_id", io_apic_id);
  (struct_acpi_madt_entry_io_apic, "io_apic_address", io_apic_address);
  (struct_acpi_madt_entry_io_apic, "global_system_interrupt_base", global_system_interrupt_base)].

(** Functions of the model that store a member. *)
Definition setters : list (declaration * string * (Z → Z → mem → mem)) := [
  (struct_memory_chunk, "next", set_chunk_next); (struct_memory_chunk, "previous", set_chunk_previous);
  (struct_memory_chunk, "size", set_chunk_size)].

(** Constants of the model that stand for [offsetof]. *)
Definition offsets : list (declaration * string * Z) := [
  (struct_gdt_task_state, "ist1", task_state_ist1); (struct_gdt_task_state, "ist2", task_state_ist2);
  (struct_cpu, "address", cpu_address); (struct_cpu, "id", cpu_id_field);
  (struct_cpu, "local_apic_physical", cpu_local_apic_physical);
  (struct_cpu, "interrupt_descriptor_table", cpu_interrupt_descriptor_table);
  (struct_cpu, "global_descriptor_table", cpu_global_descriptor_table);
  (struct_cpu, "current_process", cpu_current_process);
  (struct_scheduler_process, "id", process_id); (struct_scheduler_process, "next", process_next);
  (struct_scheduler_process, "previous", process_previous);
  (struct_scheduler_process, "paging_context", process_paging_context);
  (struct_scheduler_process, "saved_rflags", process_saved_rflags);
  (struct_scheduler_process, "saved_instruction_pointer", process_saved_instruction_pointer);
  (struct_scheduler_process, "saved_stack_pointer", process_saved_stack_pointer);
  (struct_scheduler_process, "saved_registers", process_saved_registers);
  (struct_scheduler_interrupt_frame, "registers", frame_registers);
  (struct_acpi_rsdtp, "oem_id", rsdtp_oem_id); (struct_acpi_rsdtp, "revision", rsdtp_revision);
  (struct_acpi_rsdtp, "address", rsdtp_address);
  (struct_acpi_rsdt, "table_addresses", sizeof_acpi_sdt); (struct_acpi_xsdt, "table_addresses", sizeof_acpi_sdt);
  (struct_multiboot_tag_memory_map, "entries", 16);
  (struct_apic, "spurious_interrupt_vector", spurious_interrupt_vector_offset)].

(** Members of a structure inside another one. *)
Definition nested_offsets : list (declaration * string * declaration * string * Z) := [
  (struct_scheduler_interrupt_frame, "base", struct_idt_stack_frame, "instruction_pointer", frame_instruction_pointer);
  (struct_scheduler_interrupt_frame, "base", struct_idt_stack_frame, "rflags", frame_rflags);
  (struct_scheduler_interrupt_frame, "base", struct_idt_stack_frame, "stack_pointer", frame_stack_pointer);
  (struct_gdt_system_entry, "base", struct_gdt_entry, "limit1", 0)].

Definition nested_offset (d : declaration) (n : string) (d' : declaration) (n' : string) : option Z :=
  o ← offset_of d n; o' ← offset_of d' n'; Some (o + o').

Definition sizes : list (declaration * Z) := [
  (struct_memory_chunk, sizeof_memory_chunk); (struct_apic, sizeof_apic); (struct_ioapic, sizeof_ioapic);
  (struct_gdt_entry, sizeof_gdt_entry); (struct_gdt_system_entry, sizeof_gdt_system_entry);
  (struct_gdt_task_state, sizeof_gdt_task_state);
  (struct_scheduler_saved_registers, sizeof_saved_registers); (struct_scheduler_process, sizeof_process);
  (struct_scheduler_interrupt_frame, sizeof_frame); (struct_multiboot_info, sizeof_multiboot_info);
  (struct_multiboot_tag_memory_map_entry, sizeof_memory_map_entry);
  (struct_acpi_rsdtp, sizeof_acpi_rsdtp); (struct_acpi_xsdtp, sizeof_acpi_xsdtp);
  (struct_acpi_sdt, sizeof_acpi_sdt); (struct_acpi_madt, sizeof_acpi_madt)].

(** The offsets the comments of [apic.h] give. *)
Definition apic_registers : list (string * Z) := [
  ("id", 0x20); ("version", 0x30); ("task_priority", 0x80); ("arbitration_priority", 0x90);
  ("processor_priority", 0xA0); ("end_of_interrupt", 0xB0); ("remote_read", 0xC0);
  ("logical_destination", 0xD0); ("destination_format", 0xE0); ("spurious_interrupt_vector", 0xF0);
  ("in_service0", 0x100); ("trigger_mode0", 0x180); ("interrupt_request0", 0x200); ("error_status", 0x280);
  ("interrupt_command0", 0x300); ("interrupt_command1", 0x310); ("timer_vector", 0x320);
  ("thermal_vector", 0x330); ("performance_counter_vector", 0x340); ("interrupt0_vector", 0x350);
  ("interrupt1_vector", 0x360); ("error_vector", 0x370); ("timer_initial_count", 0x380);
  ("timer_current_count", 0x390); ("timer_divide_config", 0x3e0); ("extended_apic_features", 0x400);
  ("extended_apic_control", 0x410); ("specific_end_of_interrupt", 0x420); ("interrupt_enable0", 0x480);
  ("extended_interrupt_vector0", 0x500)].

(** ** Agreement *)

Lemma load_1 m a : load 1 m a = load8 m a.
Proof. cbn [load]. lia. Qed.

(** Replaces a closed term by its value. *)
Ltac compute_term t := let v := eval vm_compute in t in progress change t with v.

(** Computes the accesses to known slots. *)
Ltac compute_slots :=
  unfold read_slot, write_slot, sign;
  repeat match goal with
    | |- context [whole_bytes ?s] => compute_term (whole_bytes s)
    | |- context [slot_signed ?s] => compute_term (slot_signed s)
    | |- context [slot_bit ?s / 8] => compute_term (slot_bit s / 8)
    | |- context [slot_bit ?s mod 8] => compute_term (slot_bit s mod 8)
    | |- context [Z.to_nat (slot_width ?s / 8)] => compute_term (Z.to_nat (slot_width s / 8))
    | |- context [slot_width ?s] => compute_term (slot_width s)
  end;
  cbn match; rewrite ?Z.add_0_r, ?load_1.

(** Computes the slots of the members that are accessed. *)
Ltac access :=
  cbn [write_members]; unfold read_member, write_member;
  repeat match goal with |- context [slot_of ?d ?n] => compute_term (slot_of d n) end;
  cbn [fmap option_fmap option_map mbind option_bind]; f_equal; compute_slots; try reflexivity.

(** The same for each entry of a table. *)
Ltac each := repeat (apply list.Forall_cons; split; [intros; access|]); by apply list.Forall_nil.

Lemma accessors_agree : Forall (λ '(d, n, f), ∀ m p, read_member d n m p = Some (f m p)) accessors.
Proof. unfold accessors. each. Qed.

Lemma setters_agree : Forall (λ '(d, n, f), ∀ v m p, write_member d n v m p = Some (f p v m)) setters.
Proof. unfold setters. each. Qed.

Lemma offsets_agree : forallb (λ '(d, n, o), bool_decide (offset_of d n = Some o)) offsets = true.
Proof. vm_compute. reflexivity. Qed.

Lemma nested_offsets_agree :
  forallb (λ '(d, n, d', n', o), bool_decide (nested_offset d n d' n' = Some o)) nested_offsets = true.
Proof. vm_compute. reflexivity. Qed.

Lemma sizes_agree : forallb (λ '(d, z), size_of d =? z) sizes = true.
Proof. vm_compute. reflexivity. Qed.

Lemma apic_registers_agree :
  forallb (λ '(n, o), bool_decide (offset_of struct_apic n = Some o)) apic_registers = true.
Proof. vm_compute. reflexivity. Qed.

(** Assignments one after the other. *)
Lemma write_gate_members d function_pointer interrupt_type ist m :
  write_members struct_idt_entry [
    ("offset1", Z.land function_pointer 0xFFFF); ("code_segment", GDT_KERNEL_CODE_SEGMENT);
    ("interrupt_stack", Z.land ist 7); ("gate_type", Z.land interrupt_type 0xF); ("present", 1);
    ("offset2", Z.land (Z.shiftr function_pointer 16) 0xFFFF);
    ("offset3", Z.land (Z.shiftr function_pointer 32) 0xFFFFFFFF)] m d
  = Some (write_gate d function_pointer interrupt_type ist m).
Proof. access. Qed.

Lemma write_code_segment_members d m :
  write_members struct_gdt_entry [("read_write", 1); ("executable", 1); ("non_system", 1); ("present", 1);
    ("long_mode", 1)] m d = Some (write_code_segment d m).
Proof. access. Qed.

Lemma write_data_segment_members d m :
  write_members struct_gdt_entry [("read_write", 1); ("non_system", 1); ("present", 1); ("long_mode", 1)] m d
  = Some (write_data_segment d m).
Proof. access. Qed.

Lemma write_task_segment_members d base limit m :
  (m ← write_members struct_gdt_entry [("accessed", 1); ("read_write", 0); ("direction_conforming", 0);
     ("executable", 1); ("present", 1); ("limit1", Z.land limit 0xFFFF);
     ("limit2", Z.land (Z.shiftr limit 16) 0xFF); ("base1", Z.land base 0xFFFF);
     ("base2", Z.land (Z.shiftr base 16) 0xFF); ("base3", Z.land (Z.shiftr base 24) 0xFF)] m d;
   write_member struct_gdt_system_entry "base4" (Z.land (Z.shiftr base 32) 0xFFFFFFFF) m d)
  = Some (write_task_segment d base limit m).
Proof. access. Qed.

Lemma entry_word_initialises e :
  initialise struct_ioapic_entry [
    ("destination", destination e); ("mask", entry_mask e); ("trigger_mode", trigger_mode e);
    ("remote_irr", remote_irr e); ("pin_polarity", pin_polarity e); ("delivery_status", delivery_status e);
    ("destination_mode", destination_mode e); ("delivery_mode", delivery_mode e); ("vector", entry_vector e)]
  = Some (entry_word e).
Proof.
  cbn [initialise]. repeat match goal with |- context [slot_of ?d ?n] => compute_term (slot_of d n) end.
  cbn [mbind option_bind slot_bit slot_width]. unfold entry_word. reflexivity.
Qed.
